(* ===== verification/_CoqProject ===== *)
-Q . S2P
Prelude.v
CString.v
Pmm.v
Paging.v
Vmm.v
Mmu.v
Efi.v
Heap.v
Alloc.v
Vfs.v
Tmpfs.v
Fat32.v
FatDir.v
Fs.v
Tree.v
Spinlock.v
Thread.v
Layout.v
Sched.v
Printf.v
Ports.v
Interrupts.v
Input.v
Ps2.v
Console.v
Framebuffer.v
Pci.v
Usb.v
Ata.v
Gui.v
NetStack.v
Net.v
Shell.v
Setup.v
Machine.v
Kmain.v
Boot.v
Booted.v
Session.v
