(* ===== verification/Prelude.v ===== *)
(** Aerogel OS: a model of the kernel and what makes it correct.

    The program is a small operating system in C for i386 and x86_64.  The UEFI
    loader (or BIOS assembly) leaves an E820 memory map and enters [kmain], which
    starts the devices, the memory managers, the file systems, the network, the
    scheduler and the shell.  The library has a file per component; a function of
    the source is a definition of the same name, which passes the component's
    state explicitly, and a theorem named C<n> in its comment is one of the
    claims.  All paths below are under src/.

    * Conventions

    Machine integers are [Z] with the wrap-around written out: [wrap w], of which
    [u8] ... [u64] are cases, [swrap w] for two's complement, [uptr] for the width of a
    pointer.  The target is the class [Arch]; what is proved without fixing it
    holds for both.  Memory is a map from addresses to bytes ([ld], [st] and the
    routines of CString.v).  A computation that can end in [kpanic] or runs a loop
    without a bound in the source has type [outcome]: [Ok], [Panic] with the
    message, or [OutOfFuel].  The exhausted heap is the panic [oom].  A [for] loop
    with a bound is [for_up], with the rule [for_span_inv].

    Hardware, firmware and the compiler's linker are parameters: a class states the
    operations the code uses ([Ports], [Mmio], [Firmware], [BlockDev]), a second
    class the documented behaviour a theorem relies on ([Pic8259], [PciConfig],
    [Ps2Controller], [PciBus], [Uart], [AtaDisk], [XhciRegs], [FirmwareLaws]), and each of these has a concrete
    instance that the witnesses run on.  Components that use others through more
    than calls are proved against an interface: [FsCode] (the code pointers of a
    node, discharged by [kernel_fs_code] in Fs.v), [NetCore] (the protocol crate or
    its stubs), [Terminal], [Files] and [ShellKernel] (what the shell uses).

    * The parts

    - Prelude: integers, alignment (kernel/include/types.h), lists indexed by [Z],
      memory, [outcome], loops.
    - CString: libs/libc/src/string.c.  The number of bytes [strncpy] really writes.
    - Pmm: kernel/mm/pmm.c.  [pmm_init] frees exactly the usable pages outside of
      the first MiB, the kernel and the bitmap; allocation is first fit; the byte
      counter equals the used pages in every reachable state.  Also, by lemmas, how
      regions above 4 GiB alias on i386 and how [pmm_available] wraps.
    - Paging, Vmm, Mmu: kernel/mm/vmm.c and arch/x86_64/mm/vmm.c, over page tables
      kept in byte memory and the processor's cache of translations.  Mapping and
      unmapping change the translation of one page only; the initial tables are the
      identity; in Mmu.v the processor caches what it likes between the calls, and
      still never uses a translation the tables no longer hold.
    - Efi: arch/x86_64/boot/efi_main.c, efi.h.  The boot services are members of an
      interface.  The loader returns errors to the firmware, or enters the kernel with its bytes in place, an identity map of
      4 GiB and an E820 table that has the first 128 descriptors.
    - Heap: kernel/mm/heap.c.  An invariant (the headers tile the region, no two
      free neighbours) in every reachable state, and what each operation does to
      the set of live allocations and their bytes.  Alloc restates that for clients,
      as a map from addresses to the sizes they own ([holds]).
    - Vfs, Tmpfs, Fat32, FatDir, Fs, Tree: kernel/fs.  Ownership of every heap block
      of the memory file system, write then read, path resolution; the FAT32 reader
      against the bytes of a cluster chain, FatDir its directories and the way from
      the partition to a file's bytes; Tree.v is the abstract specification, a
      tree of directories and files, which tmpfs.c refines ([represents]).
    - Thread, Sched: kernel/sched and the switch.asm routines.  The run queue is a
      ring in every reachable state; [sched_yield] is round robin; a context switch
      resumes a thread where it was left; a thread that sleeps is never woken by
      the tick.
    - Layout: the structure declarations of the headers as data, with the sizes and
      offsets the ABI gives them on both targets, against the sizes the other files
      give [kmalloc]; libs/libc/include/stdint.h.
    - Spinlock: libs/libk/spinlock.c, processors interleaving atomic operations.
    - Printf: libs/libc/src/printf.c, stdlib.c, libs/libk/kprintf.c.  [vsnprintf]
      against the function [format], which later files use for messages ([klog]).
    - Ports, Interrupts, Input, Console: kernel/include/io.h, the isr, idt and gdt
      files of both targets, the timer, keyboard, mouse, VGA text and serial
      drivers.  Which interrupt lines are open; the key buffer refines a queue, also
      with the interrupt between any two statements of the reader.
    - Ps2: the keyboard controller behind the two input drivers.  Both
      initialisations return on a controller that follows its documents while no
      interrupt is served, and what becomes of them when interrupts are.
    - Framebuffer, Gui: drivers/display/framebuffer.c, kernel/gui/gui.c.  The pixels
      that change, and that windows draw inside of themselves, the title excepted.
    - Pci, Usb, Ata: drivers/bus, drivers/usb, drivers/storage.  The bus scan finds
      the functions there are; the USB controller is reset and started in the order
      the standard asks for; sectors are transferred as given, and a drive is the
      block device the FAT32 reader expects.
    - NetStack, Net: the crate rust/crates/aerogel-core, drivers/net/rtl8139.c and
      kernel/net/net.c.  ARP and ping are answered as they should be, from the ring
      of the card to the frame that is sent.
    - Shell, Setup: userspace/shell/shell.c, userspace/setup/setup.c.  The line
      editor against the function [edit]; words and dispatch; [cat] prints a file.
    - Machine: one state for the whole kernel ([kernel]), with one memory and one
      heap that the components share, the two printing functions of kmain.c and
      libs/libk/kprintf.c, kernel/panic.c and kernel/canary.c; its instances are what
      the components ask for (ports, printing, terminal, files).
    - Kmain: parts of kernel/kmain.c on their own: the first-boot setup and a second
      start on any target, the timer interrupt, the heap over the page allocator.
    - Boot: [kmain] stage by stage over that state, for the 32-bit target, and what
      each stage leaves alone.  Booted: where it ends, from power-on to the first
      instruction of the shell, and the loop the idle thread is left in.
    - Session: the kernel as what Shell.v asks for, and the shell's first command
      on the booted kernel, typed ahead, with its buffer on the shell's stack.

    * Bounds and fuel

    Loops over lists of the code have a fuel that is shown to be enough: the number
    of block headers for the heap, of control blocks for the scheduler, the length
    of the path for [resolve], the size of the buffer for [strlen] and the like.
    Loops that wait for the outside have it as a parameter, and the theorems say
    which is enough: keys for the line reader, bytes owed by the keyboard controller
    for its initialisation, frames for [poll_loop], clusters for
    the FAT32 reader.  Polls of devices that the source bounds (the disk, the USB
    controller, the network card's reset) have that bound; those it does not bound
    (keyboard controller, serial line) take fuel.

    * Not modelled

    - The 64-bit link of [kmain]: its components are modelled, the composition is
      that of the 32-bit target.
    - The halt after a panic, and the comparison before [__stack_chk_fail], which is
      in code the compiler inserts.
    - The BIOS boot sectors, the interrupt and entry stubs in assembly, loading of
      descriptor tables: they have no state the C code reads back.  The BIOS path meets the models at the E820 map, a parameter.
    - A single memory for the files below Machine.v: each has the part of the
      machine its component touches, and Machine.v lends them the shared one.  The
      frame buffer is the card's memory and stays apart, and control blocks of
      threads, nodes and headers are records found by their address.
    - Interrupts in the middle of a function, in general.  The code has no locks,
      and apart from [sched_yield] it disables interrupts nowhere; the models
      describe calls that run undisturbed with interrupts between them (the timer,
      the idle loop, the sleeping loop).  The exceptions are the key buffer, whose
      reader is interrupted between its statements in Input.v, and the
      initialisation of the keyboard controller, with the interrupts served after
      every port access, in Ps2.v.
    - Headers with prototypes and type names only, build files and scripts. *)
From Stdlib Require Export ZArith Lia Bool.
From stdpp Require Export base numbers list gmap strings option.

#[global] Set Default Goal Selector "!".
#[export] Set Warnings "-notation-overridden,-clear-no-such-hyp".
Global Open Scope Z_scope.
#[global] Arguments Z.to_nat : simpl never.

(** * Machine integers *)

(** The value of [x] converted to an unsigned integer type of [w] bits. *)
Definition wrap (w x : Z) : Z := x mod 2 ^ w.

(** The value of [x] converted to a two's-complement integer type of [w] bits. *)
Definition swrap (w x : Z) : Z := (x + 2 ^ (w - 1)) mod 2 ^ w - 2 ^ (w - 1).

Abbreviation u8 := (wrap 8).
Abbreviation u16 := (wrap 16).
Abbreviation u32 := (wrap 32).
Abbreviation u64 := (wrap 64).
Abbreviation i32 := (swrap 32).

(** The two targets: [-m32] (ILP32) and [-m64] (LP64).  On both of them
    [uptr], [size_t], [unsigned long] and [long] have the width of a pointer. *)
Inductive arch := X86 | X86_64.

Class Arch := the_arch : arch.

Definition word_bits `{Arch} : Z :=
  match the_arch with X86 => 32 | X86_64 => 64 end.

Abbreviation uptr := (wrap word_bits).

#[global] Instance arch_eq_dec : EqDecision arch.
Proof. solve_decision. Defined.

Lemma word_bits_cases `{Arch} : word_bits = 32 ∨ word_bits = 64.
Proof. unfold word_bits. destruct the_arch; auto. Qed.

Lemma word_bits_bound `{Arch} : 32 ≤ word_bits ≤ 64.
Proof. destruct word_bits_cases as [-> | ->]; lia. Qed.

(** * Generic lemmas on wrap-around *)

Lemma wrap_small w x : 0 ≤ x < 2 ^ w → wrap w x = x.
Proof. intros. by apply Z.mod_small. Qed.

Lemma wrap_bound w x : 0 ≤ w → 0 ≤ wrap w x < 2 ^ w.
Proof. intros. apply Z.mod_pos_bound. lia. Qed.

Lemma wrap_wrap w x : wrap w (wrap w x) = wrap w x.
Proof. unfold wrap. destruct (decide (2 ^ w = 0)) as [->|]; [by rewrite !Z.mod_0_r|].
  by apply Z.mod_mod. Qed.

Lemma wrap_0 w : wrap w 0 = 0.
Proof. unfold wrap. apply Zmod_0_l. Qed.

Lemma wrap_testbit w x n :
  0 ≤ w → Z.testbit (wrap w x) n = bool_decide (n < w) && Z.testbit x n.
Proof.
  intros Hw. unfold wrap. rewrite <- Z.land_ones by lia. rewrite Z.land_spec.
  destruct (decide (n < 0)).
  { rewrite !(Z.testbit_neg_r _ n) by lia. by destruct (bool_decide _). }
  case_bool_decide.
  - rewrite Z.ones_spec_low by lia. by rewrite andb_true_r.
  - rewrite Z.ones_spec_high by lia. by rewrite andb_false_r.
Qed.

Lemma wrap_word_u32_small `{Arch} x : 0 ≤ x < 2 ^ 32 → uptr x = x.
Proof.
  intros Hx. apply wrap_small. split; [lia|].
  destruct word_bits_cases as [-> | ->]; lia.
Qed.

Lemma swrap_small w x : 0 < w → - 2 ^ (w - 1) ≤ x < 2 ^ (w - 1) → swrap w x = x.
Proof.
  intros Hw Hx. unfold swrap. assert (2 ^ w = 2 * 2 ^ (w - 1)).
  { rewrite <- Z.pow_succ_r by lia. f_equal. lia. }
  rewrite Z.mod_small by lia. lia.
Qed.

Lemma swrap_bound w x : 0 < w → - 2 ^ (w - 1) ≤ swrap w x < 2 ^ (w - 1).
Proof.
  intros Hw. unfold swrap. assert (2 ^ w = 2 * 2 ^ (w - 1)).
  { rewrite <- Z.pow_succ_r by lia. f_equal. lia. }
  pose proof (Z.mod_pos_bound (x + 2 ^ (w - 1)) (2 ^ w)). lia.
Qed.

(** Division facts on literals, for goals [lia] cannot see through. *)
Ltac dlia := Z.div_mod_to_equations; lia.

(** Side conditions of rewriting lemmas. *)
Ltac side := first [assumption | lia].

(** Decide a boolean test of the code and give [lia] its meaning. *)
Ltac case_test :=
  match goal with
  | |- context [if ?a =? ?b then _ else _] => destruct (Z.eqb_spec a b)
  | |- context [if ?a <? ?b then _ else _] => destruct (Z.ltb_spec a b)
  | |- context [if ?a <=? ?b then _ else _] => destruct (Z.leb_spec a b)
  | H : context [if ?a =? ?b then _ else _] |- _ => destruct (Z.eqb_spec a b)
  | H : context [if ?a <? ?b then _ else _] |- _ => destruct (Z.ltb_spec a b)
  | H : context [if ?a <=? ?b then _ else _] |- _ => destruct (Z.leb_spec a b)
  end.

(** * Alignment: kernel/include/types.h *)

(** [ALIGN_UP(x, a)] where the sum has [w] bits and the type of [a] has
    [wa] bits (an [int] is sign-extended, so it counts as [w]). *)
Definition ALIGN_UP (w wa x a : Z) : Z :=
  Z.land (wrap w (x + a - 1)) (wrap wa (Z.lnot (a - 1))).

(** Clearing the [k] low bits of a value that fits the mask. *)
Lemma land_align_mask w k x :
  0 ≤ k ≤ w → 0 ≤ x < 2 ^ w →
  Z.land x (wrap w (Z.lnot (2 ^ k - 1))) = x - x mod 2 ^ k.
Proof.
  intros Hk Hx.
  assert (Z.land x (wrap w (Z.lnot (2 ^ k - 1))) = Z.ldiff x (Z.ones k)) as ->.
  { apply Z.bits_inj'. intros n Hn.
    rewrite Z.land_spec, Z.ldiff_spec, wrap_testbit, Z.lnot_spec by lia.
    rewrite Z.ones_equiv, Z.sub_1_r.
    case_bool_decide; [done|]. rewrite <- (Z.mod_small x (2 ^ w)) by lia.
    rewrite Z.mod_pow2_bits_high by lia. done. }
  rewrite Z.ldiff_ones_r by lia. rewrite Z.shiftr_div_pow2, Z.shiftl_mul_pow2 by lia.
  pose proof (Z.div_mod x (2 ^ k)). lia.
Qed.

(** A bit test of the code: [x & (1 << n)]. *)
Lemma land_bit x n : 0 ≤ n → (Z.land x (2 ^ n) =? 0) = negb (Z.testbit x n).
Proof.
  intros Hn. destruct (Z.testbit x n) eqn:Eb; simpl.
  - apply Z.eqb_neq. intros E. assert (Z.testbit (Z.land x (2 ^ n)) n = true) as K.
    { rewrite Z.land_spec, Eb, Z.pow2_bits_true by lia. done. }
    rewrite E, Z.testbit_0_l in K. done.
  - apply Z.eqb_eq. apply Z.bits_inj'. intros k Hk. rewrite Z.land_spec, Z.testbit_0_l.
    destruct (decide (k = n)) as [->|]; [by rewrite Eb|].
    rewrite Z.pow2_bits_false by done. apply andb_false_r.
Qed.

Lemma aligned_testbit k x n : x mod 2 ^ k = 0 → n < k → Z.testbit x n = false.
Proof.
  intros Hx Hn. destruct (decide (n < 0)); [by apply Z.testbit_neg_r|].
  rewrite <- (Z.mod_pow2_bits_low x k n) by lia. by rewrite Hx, Z.testbit_0_l.
Qed.

(** * Counted loops *)

Section loops.
Context {S : Type}.

(** [for (i = lo; i < lo + n; i++) s = body(i, s)] *)
Fixpoint for_up (body : Z → S → S) (n : nat) (i : Z) (s : S) : S :=
  match n with
  | O => s
  | Datatypes.S n' => for_up body n' (i + 1) (body i s)
  end.

Lemma for_up_inv (P : Z → S → Prop) body n i s :
  P i s →
  (∀ j t, i ≤ j < i + Z.of_nat n → P j t → P (j + 1) (body j t)) →
  P (i + Z.of_nat n) (for_up body n i s).
Proof.
  revert i s. induction n as [|n IH]; intros i s H0 Hstep; simpl.
  - by rewrite Z.add_0_r.
  - replace (i + Z.of_nat (Datatypes.S n)) with (i + 1 + Z.of_nat n) by lia.
    apply IH.
    + apply Hstep; [lia | done].
    + intros j t Hj. apply Hstep. lia.
Qed.
End loops.

(** The iterations of [for (i = lo; i < hi; i++)]. *)
Definition span (lo hi : Z) : nat := Z.to_nat (hi - lo).

Lemma span_nil lo hi : hi ≤ lo → span lo hi = 0%nat.
Proof. unfold span. lia. Qed.

Lemma of_nat_span lo hi : Z.of_nat (span lo hi) = Z.max 0 (hi - lo).
Proof. unfold span. lia. Qed.

Lemma span_S lo hi : lo ≤ hi → span lo (hi + 1) = S (span lo hi).
Proof. unfold span. lia. Qed.

Lemma for_span_inv {S} (P : Z → S → Prop) body lo hi s :
  lo ≤ hi → P lo s →
  (∀ j t, lo ≤ j < hi → P j t → P (j + 1) (body j t)) →
  P hi (for_up body (span lo hi) lo s).
Proof.
  intros Hle H0 Hstep. replace hi with (lo + Z.of_nat (span lo hi)) at 1 by (rewrite of_nat_span; lia).
  apply for_up_inv; [done|]. intros j t Hj. apply Hstep. rewrite of_nat_span in Hj. lia.
Qed.

(** * C arrays of integers *)

(** An array is the list of its elements.  Reading past the end gives [0]
    and writing past the end does nothing: every component states and proves
    that its accesses stay inside. *)
Definition rd (l : list Z) (i : Z) : Z := default 0 (l !! Z.to_nat i).
Definition wr (l : list Z) (i v : Z) : list Z := <[Z.to_nat i := v]> l.

Lemma length_wr l i v : length (wr l i v) = length l.
Proof. apply length_insert. Qed.

Lemma rd_wr_eq l i v : 0 ≤ i < Z.of_nat (length l) → rd (wr l i v) i = v.
Proof. intros. unfold rd, wr. by rewrite list_lookup_insert_eq by lia. Qed.

Lemma rd_wr_ne l i j v : 0 ≤ i → 0 ≤ j → i ≠ j → rd (wr l i v) j = rd l j.
Proof. intros. unfold rd, wr. by rewrite list_lookup_insert_ne by lia. Qed.

Lemma wr_wr l i v w : wr (wr l i v) i w = wr l i w.
Proof. apply list_insert_insert_eq. Qed.

Lemma wr_rd_id l i : 0 ≤ i < Z.of_nat (length l) → wr l i (rd l i) = l.
Proof.
  intros Hi. unfold wr, rd.
  destruct (lookup_lt_is_Some_2 l (Z.to_nat i)) as [x Hx]; [lia|].
  rewrite Hx. by apply list_insert_id.
Qed.

Lemma rd_replicate n v i : 0 ≤ i < Z.of_nat n → rd (replicate n v) i = v.
Proof. intros. unfold rd. by rewrite lookup_replicate_2 by lia. Qed.

(** The bytes of a string literal. *)
Definition bytes (s : string) : list Z := (λ a, Z.of_N (Ascii.N_of_ascii a)) <$> String.list_ascii_of_string s.

(** The characters of a C string in an array, before the terminator. *)
Fixpoint until_nul (l : list Z) : list Z :=
  match l with [] => [] | c :: l => if c =? 0 then [] else c :: until_nul l end.

(** * Counting over a range of integers *)

(** The number of [j] with [i <= j < i + n] and [p j]. *)
Fixpoint count_up (p : Z → bool) (n : nat) (i : Z) : Z :=
  match n with
  | O => 0
  | S n' => Z.b2z (p i) + count_up p n' (i + 1)
  end.

Lemma count_up_bound p n i : 0 ≤ count_up p n i ≤ Z.of_nat n.
Proof.
  revert i. induction n as [|n IH]; intros i; simpl; [lia|].
  specialize (IH (i + 1)). destruct (p i); simpl; lia.
Qed.

Lemma count_up_true n i : count_up (λ _, true) n i = Z.of_nat n.
Proof. revert i. induction n as [|n IH]; intros i; simpl; [done|]. rewrite IH. lia. Qed.

Lemma count_up_false n i : count_up (λ _, false) n i = 0.
Proof. revert i. induction n as [|n IH]; intros i; simpl; [done|]. by rewrite IH. Qed.

Lemma count_up_ext p q n i :
  (∀ j, i ≤ j < i + Z.of_nat n → p j = q j) → count_up p n i = count_up q n i.
Proof.
  revert i. induction n as [|n IH]; intros i H; simpl; [done|].
  rewrite (H i) by lia. f_equal. apply IH. intros; apply H; lia.
Qed.

Lemma count_up_snoc p n i :
  count_up p (S n) i = count_up p n i + Z.b2z (p (i + Z.of_nat n)).
Proof.
  revert i. induction n as [|n IH]; intros i.
  { simpl. by rewrite !Z.add_0_r. }
  change (Z.b2z (p i) + count_up p (S n) (i + 1) =
    Z.b2z (p i) + count_up p n (i + 1) + Z.b2z (p (i + Z.of_nat (S n)))).
  rewrite IH. replace (i + 1 + Z.of_nat n) with (i + Z.of_nat (S n)) by lia. lia.
Qed.

Lemma count_up_mono p q n i :
  (∀ j, i ≤ j < i + Z.of_nat n → p j = true → q j = true) → count_up p n i ≤ count_up q n i.
Proof.
  revert i. induction n as [|n IH]; intros i Hpq; simpl; [lia|].
  specialize (IH (i + 1) ltac:(intros; apply Hpq; [lia|done])).
  specialize (Hpq i ltac:(lia)). destruct (p i), (q i); simpl; lia.
Qed.

(** Changing the predicate at one point moves the count by one. *)
Lemma count_up_change p q n i k :
  i ≤ k < i + Z.of_nat n →
  (∀ j, i ≤ j < i + Z.of_nat n → j ≠ k → q j = p j) →
  count_up q n i = count_up p n i + Z.b2z (q k) - Z.b2z (p k).
Proof.
  revert i. induction n as [|n IH]; intros i Hk H; simpl in *; [lia|].
  destruct (decide (k = i)) as [->|].
  - rewrite (count_up_ext q p n (i + 1)); [lia|].
    intros j Hj. apply H; lia.
  - rewrite IH; [|lia|intros; apply H; lia]. rewrite (H i) by lia. lia.
Qed.

#[global] Opaque span.

(** * Outcomes: a value, a kernel panic, or an exhausted iteration bound *)

(** [kpanic] does not return: a computation that reaches it ends in [Panic].
    [OutOfFuel] is the model's own bound on an unbounded loop; the theorems
    show it is not reached. *)
Inductive outcome (A : Type) :=
  | Ok (a : A)
  | Panic (msg : string)
  | OutOfFuel.
Arguments Ok {A} a.
Arguments Panic {A} msg.
Arguments OutOfFuel {A}.

#[global] Instance outcome_ret : MRet outcome := λ A a, Ok a.
#[global] Instance outcome_bind : MBind outcome := λ A B f x,
  match x with Ok a => f a | Panic msg => Panic msg | OutOfFuel => OutOfFuel end.

(** * Byte-addressed memory *)

(** Memory maps an address to the byte stored there; untouched bytes read as
    zero. *)
Abbreviation memory := (gmap Z Z).

Definition ld (m : memory) (a : Z) : Z := default 0 (m !! a).
Definition st (a v : Z) (m : memory) : memory := <[a := u8 v]> m.

Lemma ld_st_eq m a v : ld (st a v m) a = u8 v.
Proof. unfold ld, st. by rewrite lookup_insert_eq. Qed.

Lemma ld_st_ne m a b v : a ≠ b → ld (st a v m) b = ld m b.
Proof. intros. unfold ld, st. by rewrite lookup_insert_ne. Qed.

Lemma ld_st m a b v : ld (st a v m) b = if decide (a = b) then u8 v else ld m b.
Proof. case_decide; [subst; apply ld_st_eq|by apply ld_st_ne]. Qed.

(** Every stored value is a byte. *)
Definition mem_ok (m : memory) : Prop := map_Forall (λ _ v, 0 ≤ v < 2 ^ 8) m.

Lemma ld_bound m a : mem_ok m → 0 ≤ ld m a < 2 ^ 8.
Proof.
  intros Hm. unfold ld. destruct (m !! a) as [v|] eqn:E; [by apply (Hm a)|simpl; lia].
Qed.

Lemma mem_ok_st m a v : mem_ok m → mem_ok (st a v m).
Proof. intros. apply map_Forall_insert_2; [by apply wrap_bound|done]. Qed.

Lemma u8_ld m a : mem_ok m → u8 (ld m a) = ld m a.
Proof. intros. apply wrap_small. by apply ld_bound. Qed.

#[global] Hint Resolve mem_ok_st : core.

(** ** Little-endian words in memory *)

(** The [n] bytes from [a] on as an unsigned number, low byte first. *)
Fixpoint ld_le (n : nat) (a : Z) (m : memory) : Z :=
  match n with
  | O => 0
  | S k => ld m a + 2 ^ 8 * ld_le k (a + 1) m
  end.

Fixpoint st_le (n : nat) (a v : Z) (m : memory) : memory :=
  match n with
  | O => m
  | S k => st_le k (a + 1) (Z.shiftr v 8) (st a v m)
  end.

(** A machine word: the bytes of a pointer. *)
Definition W `{Arch} : Z := word_bits / 8.
Definition ld_word `{Arch} (m : memory) (a : Z) : Z := ld_le (Z.to_nat W) a m.
Definition st_word `{Arch} (a v : Z) (m : memory) : memory := st_le (Z.to_nat W) a v m.

Lemma W_bound `{Arch} : 4 ≤ W ≤ 8.
Proof. unfold W. destruct word_bits_cases as [-> | ->]; cbv; done. Qed.

Lemma W_bits `{Arch} : 8 * W = word_bits.
Proof. unfold W. destruct word_bits_cases as [-> | ->]; reflexivity. Qed.

Lemma ld_st_le_ne n a v m b :
  b < a ∨ a + Z.of_nat n ≤ b → ld (st_le n a v m) b = ld m b.
Proof.
  revert a v m. induction n as [|n IH]; intros a v m Hb; simpl; [done|].
  rewrite IH by lia. apply ld_st_ne. lia.
Qed.

Lemma mem_ok_st_le n a v m : mem_ok m → mem_ok (st_le n a v m).
Proof. revert a v m. induction n; simpl; auto. Qed.

Lemma ld_le_ext n a m m' :
  (∀ b, a ≤ b < a + Z.of_nat n → ld m' b = ld m b) → ld_le n a m' = ld_le n a m.
Proof.
  revert a. induction n as [|n IH]; intros a Hm; simpl; [done|].
  rewrite (Hm a) by lia. rewrite (IH (a + 1)); [done|]. intros b Hb. apply Hm. lia.
Qed.

Lemma ld_st_le_eq n a v m : ld_le n a (st_le n a v m) = wrap (8 * Z.of_nat n) v.
Proof.
  revert a v m. induction n as [|n IH]; intros a v m.
  { unfold wrap. simpl. by rewrite Z.mod_1_r. }
  cbn [ld_le st_le]. rewrite IH, ld_st_le_ne, ld_st_eq by lia.
  unfold wrap. rewrite Z.shiftr_div_pow2 by lia.
  replace (8 * Z.of_nat (S n)) with (8 + 8 * Z.of_nat n) by lia.
  rewrite Z.pow_add_r, Z.rem_mul_r by lia. lia.
Qed.

Lemma ld_st_word_eq `{Arch} a v m : 0 ≤ v < 2 ^ word_bits → ld_word (st_word a v m) a = v.
Proof.
  intros Hv. pose proof W_bound. unfold ld_word, st_word. rewrite ld_st_le_eq, Z2Nat.id by lia.
  rewrite W_bits. by apply wrap_small.
Qed.

Lemma ld_st_word_ne `{Arch} a b v m :
  b + W ≤ a ∨ a + W ≤ b → ld_word (st_word a v m) b = ld_word m b.
Proof.
  intros Hb. pose proof W_bound. unfold ld_word, st_word. apply ld_le_ext.
  intros c Hc. apply ld_st_le_ne. lia.
Qed.

Lemma ld_word_ext `{Arch} a m m' :
  (∀ b, a ≤ b < a + W → ld m' b = ld m b) → ld_word m' a = ld_word m a.
Proof.
  intros Hm. pose proof W_bound. apply ld_le_ext. intros b Hb. apply Hm. lia.
Qed.

(** A number moves with its bytes. *)
Lemma ld_le_move n a b m m' : (∀ i, 0 ≤ i < Z.of_nat n → ld m' (b + i) = ld m (a + i)) → ld_le n b m' = ld_le n a m.
Proof.
  revert a b. induction n as [|n IH]; intros a b Hi; [done|]. cbn [ld_le]. rewrite (IH (a + 1) (b + 1)).
  - pose proof (Hi 0 ltac:(lia)) as Hz. rewrite !Z.add_0_r in Hz. by rewrite Hz.
  - intros i Hi'. rewrite <- !Z.add_assoc. apply Hi. lia.
Qed.

Lemma ld_word_move `{Arch} a b m m' : (∀ i, 0 ≤ i < W → ld m' (b + i) = ld m (a + i)) → ld_word m' b = ld_word m a.
Proof. intros Hm. pose proof W_bound. apply ld_le_move. intros i Hi. apply Hm. lia. Qed.
