(* ===== verification/CString.v ===== *)
(** The C library's memory and string routines: src/libs/libc/src/string.c.

    A pointer is an address; a buffer is the bytes of [memory] from it on.  The
    loops bounded by a count recurse on the count; the loops that run to a
    terminator take a bound on the number of iterations and answer [None] when
    it is exceeded, which the theorems exclude for terminated strings. *)
From S2P Require Import Prelude.

(** [while (n--) *p++ = (unsigned char)c;] *)
Fixpoint memset_loop (n : nat) (p c : Z) (m : memory) : memory :=
  match n with
  | O => m
  | S n' => memset_loop n' (p + 1) c (st p (u8 c) m)
  end.
Definition memset (dst c n : Z) (m : memory) : memory := memset_loop (Z.to_nat n) dst c m.

(** [while (n--) *d++ = *s++;] *)
Fixpoint copy_up (n : nat) (d s : Z) (m : memory) : memory :=
  match n with
  | O => m
  | S n' => copy_up n' (d + 1) (s + 1) (st d (ld m s) m)
  end.
Definition memcpy (dst src n : Z) (m : memory) : memory := copy_up (Z.to_nat n) dst src m.

(** [while (n--) *--d = *--s;] *)
Fixpoint copy_down (n : nat) (d s : Z) (m : memory) : memory :=
  match n with
  | O => m
  | S n' => copy_down n' (d - 1) (s - 1) (st (d - 1) (ld m (s - 1)) m)
  end.

Definition memmove (dst src n : Z) (m : memory) : memory :=
  if dst <? src then copy_up (Z.to_nat n) dst src m
  else copy_down (Z.to_nat n) (dst + n) (src + n) m.

Fixpoint memcmp_loop (n : nat) (p q : Z) (m : memory) : Z :=
  match n with
  | O => 0
  | S n' => if negb (ld m p =? ld m q) then ld m p - ld m q
            else memcmp_loop n' (p + 1) (q + 1) m
  end.
Definition memcmp (a b n : Z) (m : memory) : Z := memcmp_loop (Z.to_nat n) a b m.

(** [while ( *s++) n++;] *)
Fixpoint strlen (fuel : nat) (s : Z) (m : memory) : option Z :=
  match fuel with
  | O => None
  | S k => if ld m s =? 0 then Some 0 else n ← strlen k (s + 1) m; Some (n + 1)
  end.

Fixpoint strcmp (fuel : nat) (a b : Z) (m : memory) : option Z :=
  match fuel with
  | O => None
  | S k => if negb (ld m a =? 0) && (ld m a =? ld m b)
           then strcmp k (a + 1) (b + 1) m
           else Some (ld m a - ld m b)
  end.

(** [while (n-- && *a && *a == *b) { a++; b++; }]: running out of [n] leaves
    [(size_t)-1] in it, which the next line tests. *)
Fixpoint strncmp_loop (n : nat) (a b : Z) (m : memory) : Z :=
  match n with
  | O => 0
  | S n' => if negb (ld m a =? 0) && (ld m a =? ld m b)
            then strncmp_loop n' (a + 1) (b + 1) m
            else ld m a - ld m b
  end.
Definition strncmp (a b n : Z) (m : memory) : Z := strncmp_loop (Z.to_nat n) a b m.

(** [while (( *d++ = *s++));] *)
Fixpoint strcpy (fuel : nat) (d s : Z) (m : memory) : option memory :=
  match fuel with
  | O => None
  | S k => let c := ld m s in
           let m := st d c m in
           if c =? 0 then Some m else strcpy k (d + 1) (s + 1) m
  end.

(** The two loops of [strncpy].  The first stops without counting the
    terminator it copied, so [n] and [d] reach the padding loop as they are. *)
Fixpoint strncpy_copy (n : nat) (d s : Z) (m : memory) : nat * Z * memory :=
  match n with
  | O => (O, d, m)
  | S n' => let c := ld m s in
            let m := st d c m in
            if c =? 0 then (n, d + 1, m) else strncpy_copy n' (d + 1) (s + 1) m
  end.
Definition strncpy (dst src n : Z) (m : memory) : memory :=
  let '(n, d, m) := strncpy_copy (Z.to_nat n) dst src m in
  memset_loop n d 0 m.

(** [while ( *d) d++;] *)
Fixpoint str_end (fuel : nat) (d : Z) (m : memory) : option Z :=
  match fuel with
  | O => None
  | S k => if ld m d =? 0 then Some d else str_end k (d + 1) m
  end.
Definition strcat (fuel : nat) (dst src : Z) (m : memory) : option memory :=
  d ← str_end fuel dst m; strcpy fuel d src m.

(** [0] is the null pointer. *)
Fixpoint strchr (fuel : nat) (s c : Z) (m : memory) : option Z :=
  match fuel with
  | O => None
  | S k => if ld m s =? 0 then Some (if c =? 0 then s else 0)
           else if ld m s =? u8 c then Some s
           else strchr k (s + 1) c m
  end.

(** ** Block copies *)

Lemma memset_loop_spec n p c m a :
  ld (memset_loop n p c m) a = if decide (p ≤ a < p + Z.of_nat n) then u8 c else ld m a.
Proof.
  revert p m. induction n as [|n IH]; intros p m; simpl.
  { by rewrite decide_False by lia. }
  rewrite IH, ld_st, wrap_wrap. repeat case_decide; try done; lia.
Qed.

Lemma memset_loop_ok n p c m : mem_ok m → mem_ok (memset_loop n p c m).
Proof. revert p m. induction n; simpl; auto. Qed.

Lemma memset_spec dst c n m a :
  0 ≤ n → ld (memset dst c n m) a = if decide (dst ≤ a < dst + n) then u8 c else ld m a.
Proof. intros. unfold memset. rewrite memset_loop_spec. by rewrite Z2Nat.id by lia. Qed.

Lemma copy_up_ok n d s m : mem_ok m → mem_ok (copy_up n d s m).
Proof. revert d s m. induction n; simpl; auto. Qed.

Lemma copy_up_frame n d s m a :
  a < d ∨ d + Z.of_nat n ≤ a → ld (copy_up n d s m) a = ld m a.
Proof.
  revert d s m. induction n as [|n IH]; intros d s m Ha; simpl; [done|].
  rewrite IH, ld_st_ne by lia. done.
Qed.

Lemma copy_up_spec n d s m a :
  mem_ok m → d ≤ s ∨ s + Z.of_nat n ≤ d →
  ld (copy_up n d s m) a =
    if decide (d ≤ a < d + Z.of_nat n) then ld m (s + (a - d)) else ld m a.
Proof.
  revert d s m. induction n as [|n IH]; intros d s m Hm Hov; simpl.
  { by rewrite decide_False by lia. }
  rewrite IH, !ld_st, u8_ld by (auto || lia).
  repeat case_decide; try lia; try done; f_equal; lia.
Qed.

Lemma copy_down_spec n d s m a :
  mem_ok m → s ≤ d →
  ld (copy_down n d s m) a =
    if decide (d - Z.of_nat n ≤ a < d) then ld m (s + (a - d)) else ld m a.
Proof.
  revert d s m. induction n as [|n IH]; intros d s m Hm Hov; simpl.
  { by rewrite decide_False by lia. }
  rewrite IH, !ld_st, u8_ld by (auto || lia).
  repeat case_decide; try lia; try done; f_equal; lia.
Qed.

Lemma memcpy_spec dst src n m a :
  mem_ok m → 0 ≤ n → dst + n ≤ src ∨ src + n ≤ dst →
  ld (memcpy dst src n m) a =
    if decide (dst ≤ a < dst + n) then ld m (src + (a - dst)) else ld m a.
Proof.
  intros Hm Hn Hov. unfold memcpy. rewrite copy_up_spec by (auto || lia).
  by rewrite Z2Nat.id by lia.
Qed.

(** [memmove] copies the [n] bytes as if through a separate buffer for
    every placement of the two ranges, overlapping or not, and writes nothing
    else. *)
Theorem memmove_correct (dst src n : Z) (m : memory) (a : Z) :
  mem_ok m → 0 ≤ n →
  ld (memmove dst src n m) a =
    if decide (dst ≤ a < dst + n) then ld m (src + (a - dst)) else ld m a.
Proof.
  intros Hm Hn. unfold memmove. case_test.
  - rewrite copy_up_spec by (auto || lia). by rewrite Z2Nat.id by lia.
  - rewrite copy_down_spec by (auto || lia). rewrite Z2Nat.id by lia.
    repeat case_decide; try lia; try done. f_equal. lia.
Qed.

(** ** Terminated strings *)

(** The bytes [l], none of them zero, followed by the terminator, start at [p]. *)
Fixpoint cstr (m : memory) (p : Z) (l : list Z) : Prop :=
  match l with
  | [] => ld m p = 0
  | c :: l' => ld m p = c ∧ c ≠ 0 ∧ cstr m (p + 1) l'
  end.

Lemma strlen_spec m l : ∀ p fuel,
  cstr m p l → (length l < fuel)%nat → strlen fuel p m = Some (Z.of_nat (length l)).
Proof.
  induction l as [|c l IH]; intros p [|fuel] Hs Hf; simpl in *; try lia.
  - by rewrite Hs.
  - destruct Hs as (-> & Hc & Hs). rewrite (proj2 (Z.eqb_neq c 0)) by done.
    rewrite (IH (p + 1) fuel Hs) by lia. simpl. f_equal. lia.
Qed.

(** ** Byte ranges *)

(** The bytes [l] are stored from [p] on. *)
Fixpoint bytes_at (m : memory) (p : Z) (l : list Z) : Prop :=
  match l with [] => True | c :: l' => ld m p = c ∧ bytes_at m (p + 1) l' end.

Lemma bytes_at_ext m m' l : ∀ p,
  (∀ a, p ≤ a < p + Z.of_nat (length l) → ld m' a = ld m a) → bytes_at m p l → bytes_at m' p l.
Proof.
  induction l as [|c l IH]; intros p Hm; simpl in *; [done|]. intros [A B].
  split; [rewrite Hm by lia; done|]. apply IH; [|done]. intros a Ha. apply Hm. lia.
Qed.

Lemma bytes_at_app m p l k :
  bytes_at m p (l ++ k) ↔ bytes_at m p l ∧ bytes_at m (p + Z.of_nat (length l)) k.
Proof.
  revert p. induction l as [|c l IH]; intros p; simpl.
  - rewrite Z.add_0_r. tauto.
  - rewrite IH. replace (p + 1 + Z.of_nat (length l)) with (p + Z.of_nat (S (length l))) by lia. tauto.
Qed.

(** A range of bytes written to and read from memory. *)
Definition store_bytes (p : Z) (l : list Z) (m : memory) : memory :=
  for_up (λ i m, st (p + i) (rd l i) m) (length l) 0 m.
Definition load_bytes (n p : Z) (m : memory) : list Z := (λ i, ld m (p + i)) <$> seqZ 0 n.

Lemma bytes_at_rd m l : ∀ p i, bytes_at m p l → 0 ≤ i < Z.of_nat (length l) → ld m (p + i) = rd l i.
Proof.
  induction l as [|c l IH]; intros p i; cbn [length bytes_at]; [lia|]. intros [A B] Hi.
  destruct (decide (i = 0)) as [->|]; [by rewrite Z.add_0_r|].
  replace (p + i) with (p + 1 + (i - 1)) by lia. rewrite (IH (p + 1) (i - 1) B) by lia.
  unfold rd. replace (Z.to_nat i) with (S (Z.to_nat (i - 1))) by lia. done.
Qed.

Lemma mem_ok_store p l m : mem_ok m → mem_ok (store_bytes p l m).
Proof. intros Hm. unfold store_bytes. apply (for_up_inv (λ _ m, mem_ok m)); auto. Qed.

Lemma store_bytes_at p l m i : 0 ≤ i < Z.of_nat (length l) → ld (store_bytes p l m) (p + i) = u8 (rd l i).
Proof.
  intros Hi. unfold store_bytes.
  apply (for_up_inv (λ j m', i < j → ld m' (p + i) = u8 (rd l i)) (λ i m, st (p + i) (rd l i) m)); [lia| |lia].
  intros j t Hj IH Hlt. rewrite ld_st. case_decide as E; [by replace j with i by lia|apply IH; lia].
Qed.

Lemma store_bytes_frame p l m a : a < p ∨ p + Z.of_nat (length l) ≤ a → ld (store_bytes p l m) a = ld m a.
Proof.
  intros Ha. unfold store_bytes.
  apply (for_up_inv (λ j m', ld m' a = ld m a) (λ i m, st (p + i) (rd l i) m) (length l) 0 m eq_refl).
  intros j t Hj Et. rewrite ld_st_ne by lia. exact Et.
Qed.

Lemma bytes_at_load m l : ∀ p, bytes_at m p l → load_bytes (Z.of_nat (length l)) p m = l.
Proof.
  intros p Hb. apply list_eq. intros k. unfold load_bytes. rewrite list_lookup_fmap.
  destruct (decide (k < length l)%nat) as [Hk|Hk].
  - rewrite lookup_seqZ_lt by lia. cbn. rewrite (bytes_at_rd m l p) by (done || lia).
    unfold rd. rewrite Z.add_0_l, Nat2Z.id. destruct (lookup_lt_is_Some_2 l k Hk) as [x ->]. done.
  - rewrite lookup_seqZ_ge, lookup_ge_None_2 by lia. done.
Qed.

(** Lexicographic comparison of byte strings, by their first difference. *)
Fixpoint bytes_compare (l k : list Z) : Z :=
  match l, k with
  | [], [] => 0
  | [], d :: _ => - d
  | c :: _, [] => c
  | c :: l', d :: k' => if c =? d then bytes_compare l' k' else c - d
  end.

Lemma bytes_compare_0 l k :
  Forall (λ c, c ≠ 0) l → Forall (λ c, c ≠ 0) k → bytes_compare l k = 0 ↔ l = k.
Proof.
  revert k. induction l as [|c l IH]; intros [|d k] Hl Hk; simpl;
    try apply Forall_cons_1 in Hl as [? Hl]; try apply Forall_cons_1 in Hk as [? Hk].
  - done.
  - split; [lia|done].
  - split; [done|]. intros [=].
  - destruct (Z.eqb_spec c d) as [->|Hne].
    + rewrite IH by done. split; [by intros ->|by intros [=]].
    + split; [lia|intros [=]; lia].
Qed.

Lemma cstr_nonzero m p l : cstr m p l → Forall (λ c, c ≠ 0) l.
Proof.
  revert p. induction l as [|c l IH]; intros p; simpl; [constructor|].
  intros (? & ? & ?). constructor; eauto.
Qed.

(** On two terminated strings [strcmp] terminates and returns the
    difference at the first position where they differ (the terminator counting
    as zero); the result is zero exactly when the strings are equal. *)
Theorem strcmp_correct (fuel : nat) (m : memory) (a b : Z) (l k : list Z) :
  cstr m a l → cstr m b k → (length l < fuel)%nat →
  strcmp fuel a b m = Some (bytes_compare l k) ∧ (bytes_compare l k = 0 ↔ l = k).
Proof.
  intros Hl Hk Hf. split; [|apply bytes_compare_0; by eapply cstr_nonzero].
  revert fuel a b k Hl Hk Hf.
  induction l as [|c l IH]; intros [|fuel] a b k Hl Hk Hf; simpl in *; try lia.
  - rewrite Hl. simpl. f_equal. destruct k as [|d k]; simpl in *; [lia|].
    destruct Hk as (-> & _). lia.
  - destruct Hl as (-> & Hc & Hl). rewrite (proj2 (Z.eqb_neq c 0)) by done. simpl.
    destruct k as [|d k]; simpl in Hk.
    + rewrite Hk. rewrite (proj2 (Z.eqb_neq c 0)) by done. f_equal. lia.
    + destruct Hk as (-> & Hd & Hk). destruct (Z.eqb_spec c d) as [->|]; [|done].
      apply IH; [done|done|lia].
Qed.

Lemma strncpy_copy_spec m n : ∀ l d s,
  mem_ok m → cstr m s l → d + Z.of_nat n ≤ s ∨ s + Z.of_nat (length l) < d →
  let '(n', d', m') := strncpy_copy n d s m in
  let k := Z.min (Z.of_nat n) (Z.of_nat (length l) + 1) in
  d' = d + k ∧
  Z.of_nat n' = (if Z.of_nat (length l) <? Z.of_nat n then Z.of_nat n - Z.of_nat (length l) else 0) ∧
  ∀ a, ld m' a = if decide (d ≤ a < d + k) then default 0 (l !! Z.to_nat (a - d)) else ld m a.
Proof.
  revert m. induction n as [|n IH]; intros m l d s Hm Hs Hov.
  { simpl. split; [lia|]. case_test; split; try lia; intros a; by rewrite decide_False by lia. }
  cbn [strncpy_copy]. destruct l as [|c l].
  - simpl in Hs. rewrite Hs. simpl. split; [lia|]. split; [lia|]. intros a.
    rewrite ld_st. repeat case_decide; try lia; try done.
  - destruct Hs as (Hc & Hnz & Hs). rewrite Hc. rewrite (proj2 (Z.eqb_neq c 0)) by done.
    cbn [length] in Hov.
    assert (cstr (st d c m) (s + 1) l) as Hs'.
    { clear -Hs Hov. assert (d < s + 1 ∨ s + Z.of_nat (S (length l)) < d) as Hd by lia. clear Hov.
      assert (∀ l p, cstr m p l → d < p ∨ p + Z.of_nat (length l) < d → cstr (st d c m) p l) as H.
      { clear. induction l as [|e l IH]; intros p H Hd; simpl in *.
        - rewrite ld_st_ne by lia. done.
        - destruct H as (H1 & H2 & H3). rewrite ld_st_ne by lia.
          split; [done|]. split; [done|]. apply IH; [done|lia]. }
      apply H; [done|lia]. }
    specialize (IH (st d c m) l (d + 1) (s + 1) (mem_ok_st _ _ _ Hm) Hs' ltac:(lia)).
    destruct (strncpy_copy n (d + 1) (s + 1) (st d c m)) as [[n' d'] m'].
    destruct IH as (E1 & E2 & E3). cbn [length]. split; [lia|].
    split; [rewrite E2; repeat case_test; lia|].
    intros a. rewrite E3, ld_st.
    assert (u8 c = c) as Ec by (rewrite <- Hc; by apply u8_ld).
    repeat case_decide; try lia; try done.
    + f_equal. replace (Z.to_nat (a - d)) with (S (Z.to_nat (a - (d + 1)))) by lia. done.
    + rewrite Ec. replace (Z.to_nat (a - d)) with O by lia. done.
Qed.

(** Whatever the source holds, only [n + 1] bytes are written. *)
Lemma strncpy_copy_frame n : ∀ d s m, let '(n', d', m') := strncpy_copy n d s m in
  d ≤ d' ∧ d' + Z.of_nat n' ≤ d + Z.of_nat n + 1 ∧ (mem_ok m → mem_ok m') ∧
  ∀ a, a < d ∨ d + Z.of_nat n + 1 ≤ a → ld m' a = ld m a.
Proof.
  induction n as [|n IH]; intros d s m; cbn [strncpy_copy]; [split_and!; (done || lia)|].
  case_test; [split_and!; [lia|lia|auto|]; intros a Ha; apply ld_st_ne; lia|].
  specialize (IH (d + 1) (s + 1) (st d (ld m s) m)). destruct (strncpy_copy _ _ _ _) as [[n' d'] m'].
  destruct IH as (A & B & C & E). split_and!; [lia|lia|auto|]. intros a Ha. rewrite E by lia. apply ld_st_ne. lia.
Qed.

Lemma strncpy_frame dst src n m a : 0 ≤ n → a < dst ∨ dst + n + 1 ≤ a → ld (strncpy dst src n m) a = ld m a.
Proof.
  intros Hn Ha. unfold strncpy. pose proof (strncpy_copy_frame (Z.to_nat n) dst src m) as Hc.
  destruct (strncpy_copy _ _ _ _) as [[n' d'] m']. destruct Hc as (A & B & _ & E).
  rewrite memset_loop_spec, decide_False by lia. apply E. lia.
Qed.

Lemma mem_ok_strncpy dst src n m : mem_ok m → mem_ok (strncpy dst src n m).
Proof.
  intros Hm. unfold strncpy. pose proof (strncpy_copy_frame (Z.to_nat n) dst src m) as Hc.
  destruct (strncpy_copy _ _ _ _) as [[n' d'] m']. apply memset_loop_ok, Hc, Hm.
Qed.

(** [strncpy] copies a string that does not fit in [n] bytes without a
    terminator, and pads a shorter one with zeros; but it then writes [n + 1]
    bytes, because the copied terminator is not counted: the byte at [dst + n],
    just past the buffer the caller declared, is set to zero. *)
Theorem strncpy_writes (dst src n : Z) (l : list Z) (m : memory) (a : Z) :
  mem_ok m → cstr m src l → 0 ≤ n →
  dst + n < src ∨ src + Z.of_nat (length l) < dst →
  let written := if Z.of_nat (length l) <? n then n + 1 else n in
  ld (strncpy dst src n m) a =
    if decide (dst ≤ a < dst + written) then default 0 (l !! Z.to_nat (a - dst)) else ld m a.
Proof.
  intros Hm Hs Hn Hov written. unfold strncpy.
  pose proof (strncpy_copy_spec m (Z.to_nat n) l dst src Hm Hs ltac:(lia)) as H.
  destruct (strncpy_copy _ _ _ _) as [[n' d'] m']. destruct H as (E1 & E2 & E3).
  rewrite memset_loop_spec, E3. rewrite Z2Nat.id in * by lia. unfold written. clear written.
  case_test; repeat case_decide; try lia; try done.
  rewrite lookup_ge_None_2 by lia. done.
Qed.

(** The caller's buffer has [n] bytes and the next byte is someone else's. *)
Definition strncpy_memory : memory :=
  list_to_map [(100, 97); (101, 98); (204, 7)].

Lemma strncpy_memory_ok : mem_ok strncpy_memory ∧ cstr strncpy_memory 100 [97; 98].
Proof.
  split; [|by vm_compute]. unfold strncpy_memory. simpl.
  repeat (apply map_Forall_insert_2; [lia|]). apply map_Forall_empty.
Qed.

Lemma memmove_correct_witness :
  mem_ok strncpy_memory ∧ ld (memmove 101 100 2 strncpy_memory) 102 = 98.
Proof.
  split; [apply strncpy_memory_ok|].
  rewrite (memmove_correct 101 100 2 strncpy_memory 102 (proj1 strncpy_memory_ok)) by lia.
  by vm_compute.
Defined.

Lemma strcmp_correct_witness :
  cstr strncpy_memory 100 [97; 98] ∧ strcmp 3 100 100 strncpy_memory = Some 0.
Proof.
  split; [apply strncpy_memory_ok|].
  destruct (strcmp_correct 3 strncpy_memory 100 100 [97; 98] [97; 98]) as [-> _];
    [apply strncpy_memory_ok..|simpl; lia|]. by vm_compute.
Defined.

Lemma strncpy_writes_witness :
  mem_ok strncpy_memory ∧ cstr strncpy_memory 100 [97; 98] ∧
  ld strncpy_memory 204 = 7 ∧ ld (strncpy 200 100 4 strncpy_memory) 204 = 0.
Proof.
  split; [apply strncpy_memory_ok|]. split; [apply strncpy_memory_ok|].
  split; [by vm_compute|].
  rewrite (strncpy_writes 200 100 4 [97; 98] strncpy_memory 204 (proj1 strncpy_memory_ok)
    (proj2 strncpy_memory_ok)) by (simpl; lia).
  by vm_compute.
Defined.
