(* ===== verification/Pmm.v ===== *)
(** Physical page allocator: src/kernel/mm/pmm.c and pmm.h.

    The state [pmm] is the static [bitmap] with its two byte counters.  The
    addresses the linker gives to [_bss_end] and [bitmap] are parameters of
    [pmm_init]. *)
From S2P Require Import Prelude.

Definition PAGE_SIZE : Z := 4096.
Definition PAGE_SHIFT : Z := 12.
Definition MAX_PAGES : Z := 512 * 1024.
Definition BITMAP_BYTES : Z := MAX_PAGES / 8.
Definition E820_TYPE_USABLE : Z := 1.

(** [PAGE_ALIGN] at the two types it is used at: [u64] (an E820 base) and
    [uptr].  [PAGE_SIZE] is an [unsigned long], so the mask has the width of a
    pointer even when the operand is 64 bits wide. *)
Definition PAGE_ALIGN64 `{Arch} (a : Z) : Z := ALIGN_UP 64 word_bits a PAGE_SIZE.
Definition PAGE_ALIGN `{Arch} (a : Z) : Z := ALIGN_UP word_bits word_bits a PAGE_SIZE.

Record e820_entry_t := E820 { base : Z; elength : Z; etype : Z; acpi : Z }.

Record pmm := Pmm { bitmap : list Z; total_bytes : Z; used_bytes : Z }.

Definition with_bitmap (s : pmm) (b : list Z) : pmm :=
  Pmm b (total_bytes s) (used_bytes s).
Definition add_total (n : Z) (s : pmm) : pmm :=
  Pmm (bitmap s) (u64 (total_bytes s + n)) (used_bytes s).
Definition add_used (n : Z) (s : pmm) : pmm :=
  Pmm (bitmap s) (total_bytes s) (u64 (used_bytes s + n)).

Definition set_page (idx : Z) (s : pmm) : pmm :=
  let k := Z.shiftr idx 3 in
  with_bitmap s (wr (bitmap s) k
    (u8 (Z.lor (rd (bitmap s) k) (u8 (Z.shiftl 1 (Z.land idx 7)))))).

Definition clear_page (idx : Z) (s : pmm) : pmm :=
  let k := Z.shiftr idx 3 in
  with_bitmap s (wr (bitmap s) k
    (u8 (Z.land (rd (bitmap s) k) (u8 (Z.lnot (Z.shiftl 1 (Z.land idx 7))))))).

Definition test_page (idx : Z) (s : pmm) : Z :=
  Z.land (Z.shiftr (rd (bitmap s) (Z.shiftr idx 3)) (Z.land idx 7)) 1.

Definition addr_to_page `{Arch} (a : Z) : Z := uptr (Z.shiftr a PAGE_SHIFT).

(** The loop [for (; p < p_end && p < MAX_PAGES; p++)]. *)
Definition pmm_mark_used `{Arch} (start end_ : Z) (s : pmm) : pmm :=
  let p := addr_to_page start in
  let p_end := addr_to_page (PAGE_ALIGN end_) in
  for_up (λ p s, if test_page p s =? 0 then add_used PAGE_SIZE (set_page p s) else s)
    (span p (Z.min p_end MAX_PAGES)) p s.

(** One iteration of the first loop of [pmm_init]. *)
Definition pmm_init_entry `{Arch} (e : e820_entry_t) (s : pmm) : pmm :=
  if negb (etype e =? E820_TYPE_USABLE) then s else
  let start := PAGE_ALIGN64 (base e) in
  let end_ := Z.land (u64 (base e + elength e)) (uptr (Z.lnot (PAGE_SIZE - 1))) in
  if end_ <=? start then s else
  let s := add_total (end_ - start) s in
  let p := addr_to_page start in
  let p_end := addr_to_page end_ in
  for_up (λ p s, clear_page p s) (span p (Z.min p_end MAX_PAGES)) p s.

Definition pmm_count_used (s : pmm) : pmm :=
  for_up (λ i s, if test_page i s =? 0 then s else add_used PAGE_SIZE s)
    (span 0 MAX_PAGES) 0 (Pmm (bitmap s) (total_bytes s) 0).

(** [map] holds the [count] entries the boot loader left; [bss_end] and
    [bitmap_addr] are [(uptr)_bss_end] and [(uptr)bitmap]. *)
Definition pmm_init `{Arch} (bss_end bitmap_addr : Z) (map : list e820_entry_t)
    (s : pmm) : pmm :=
  let s := with_bitmap s (replicate (Z.to_nat BITMAP_BYTES) 0xFF) in
  let s := foldl (λ s e, pmm_init_entry e s) s map in
  let s := pmm_mark_used 0x000000 0x100000 s in
  let kernel_end := PAGE_ALIGN bss_end in
  let s := pmm_mark_used 0x10000 kernel_end s in
  let bm_end := PAGE_ALIGN (uptr (bitmap_addr + BITMAP_BYTES)) in
  let s := pmm_mark_used bitmap_addr bm_end s in
  pmm_count_used s.

(** [for (uptr i = 1; i < MAX_PAGES; i++)] with its early return. *)
Fixpoint pmm_alloc_from `{Arch} (n : nat) (i : Z) (s : pmm) : Z * pmm :=
  match n with
  | O => (0, s)
  | S n' =>
      if test_page i s =? 0
      then (uptr (Z.shiftl i PAGE_SHIFT), add_used PAGE_SIZE (set_page i s))
      else pmm_alloc_from n' (i + 1) s
  end.

Definition pmm_alloc `{Arch} (s : pmm) : Z * pmm :=
  pmm_alloc_from (span 1 MAX_PAGES) 1 s.

(** The scan of [pmm_alloc_n] with its locals [run] and [start]. *)
Fixpoint pmm_alloc_n_from `{Arch} (n : Z) (k : nat) (i run start : Z) (s : pmm)
    : Z * pmm :=
  match k with
  | O => (0, s)
  | S k' =>
      if test_page i s =? 0 then
        let start := if run =? 0 then i else start in
        let run := run + 1 in
        if run =? n then
          (uptr (Z.shiftl start PAGE_SHIFT),
           for_up (λ j s, add_used PAGE_SIZE (set_page j s)) (span start (start + n)) start s)
        else pmm_alloc_n_from n k' (i + 1) run start s
      else pmm_alloc_n_from n k' (i + 1) 0 start s
  end.

Definition pmm_alloc_n `{Arch} (n : Z) (s : pmm) : Z * pmm :=
  if n =? 0 then (0, s) else pmm_alloc_n_from n (span 1 MAX_PAGES) 1 0 0 s.

Definition pmm_free `{Arch} (phys : Z) (s : pmm) : pmm :=
  let idx := Z.shiftr phys PAGE_SHIFT in
  if (MAX_PAGES <=? idx) || (test_page idx s =? 0) then s
  else add_used (- PAGE_SIZE) (clear_page idx s).

Definition pmm_free_n `{Arch} (phys n : Z) (s : pmm) : pmm :=
  for_up (λ i s, pmm_free (uptr (phys + uptr (u32 (Z.shiftl i PAGE_SHIFT)))) s)
    (span 0 n) 0 s.

Definition pmm_total (s : pmm) : Z := total_bytes s.
Definition pmm_used (s : pmm) : Z := used_bytes s.
Definition pmm_available (s : pmm) : Z := u64 (total_bytes s - used_bytes s).

(** ** The bitmap as a set of pages *)

(** Bit [i] of the bitmap. *)
Definition page_used (s : pmm) (i : Z) : bool :=
  Z.testbit (rd (bitmap s) (i / 8)) (i mod 8).

(** The bitmap is complete and its elements are bytes. *)
Definition bitmap_ok (s : pmm) : Prop :=
  Z.of_nat (length (bitmap s)) = BITMAP_BYTES ∧
  Forall (λ b, 0 ≤ b < 2 ^ 8) (bitmap s).

Definition count_used (s : pmm) : Z := count_up (page_used s) (span 0 MAX_PAGES) 0.

(** The allocator's invariant: [used_bytes] accounts for the used pages. *)
Definition pmm_ok (s : pmm) : Prop :=
  bitmap_ok s ∧ used_bytes s = PAGE_SIZE * count_used s.

Lemma shiftr_3_div i : Z.shiftr i 3 = i / 8.
Proof. by rewrite Z.shiftr_div_pow2 by lia. Qed.

Lemma land_7_mod i : Z.land i 7 = i mod 8.
Proof. change 7 with (Z.ones 3). by rewrite Z.land_ones by lia. Qed.

Lemma test_page_used s i : test_page i s = Z.b2z (page_used s i).
Proof.
  unfold test_page, page_used. rewrite shiftr_3_div, land_7_mod.
  replace 1 with (Z.ones 1) by done. rewrite Z.land_ones, <- Z.bit0_mod by lia.
  rewrite Z.shiftr_spec by lia. by rewrite Z.add_0_l.
Qed.

Lemma test_page_0 s i : (test_page i s =? 0) = negb (page_used s i).
Proof. rewrite test_page_used. by destruct (page_used s i). Qed.

Lemma testbit_mask k m :
  0 ≤ k < 8 → 0 ≤ m < 8 → Z.testbit (u8 (Z.shiftl 1 k)) m = (k =? m).
Proof.
  intros Hk Hm. rewrite wrap_testbit by lia. rewrite bool_decide_eq_true_2 by lia.
  rewrite Z.shiftl_1_l, Z.pow2_bits_eqb by lia. done.
Qed.

Lemma testbit_nmask k m :
  0 ≤ k < 8 → 0 ≤ m < 8 → Z.testbit (u8 (Z.lnot (Z.shiftl 1 k))) m = negb (k =? m).
Proof.
  intros Hk Hm. rewrite wrap_testbit by lia. rewrite bool_decide_eq_true_2 by lia.
  rewrite Z.lnot_spec by lia. rewrite Z.shiftl_1_l, Z.pow2_bits_eqb by lia. done.
Qed.

Lemma page_bit_eqb i j : i / 8 = j / 8 → (i mod 8 =? j mod 8) = (i =? j).
Proof. intros. destruct (Z.eqb_spec i j), (Z.eqb_spec (i mod 8) (j mod 8)); dlia. Qed.

Lemma page_byte_in s i :
  bitmap_ok s → 0 ≤ i < MAX_PAGES → 0 ≤ i / 8 < Z.of_nat (length (bitmap s)).
Proof. intros [-> _] Hi. unfold BITMAP_BYTES, MAX_PAGES in *. dlia. Qed.

Lemma set_page_used s i j :
  bitmap_ok s → 0 ≤ i < MAX_PAGES → 0 ≤ j →
  page_used (set_page i s) j = (i =? j) || page_used s j.
Proof.
  intros Hs Hi Hj. pose proof (page_byte_in s i Hs Hi).
  unfold page_used, set_page. simpl. rewrite shiftr_3_div, land_7_mod.
  pose proof (Z.mod_pos_bound i 8). pose proof (Z.mod_pos_bound j 8).
  destruct (decide (i / 8 = j / 8)) as [He|Hne].
  - rewrite He, rd_wr_eq by lia. rewrite wrap_testbit by lia.
    rewrite bool_decide_eq_true_2 by lia. simpl.
    rewrite Z.lor_spec, testbit_mask by lia. rewrite orb_comm.
    by rewrite page_bit_eqb by done.
  - rewrite rd_wr_ne by dlia. destruct (Z.eqb_spec i j); [by subst | done].
Qed.

Lemma clear_page_used s i j :
  bitmap_ok s → 0 ≤ i < MAX_PAGES → 0 ≤ j →
  page_used (clear_page i s) j = negb (i =? j) && page_used s j.
Proof.
  intros Hs Hi Hj. pose proof (page_byte_in s i Hs Hi).
  unfold page_used, clear_page. simpl. rewrite shiftr_3_div, land_7_mod.
  pose proof (Z.mod_pos_bound i 8). pose proof (Z.mod_pos_bound j 8).
  destruct (decide (i / 8 = j / 8)) as [He|Hne].
  - rewrite He, rd_wr_eq by lia. rewrite wrap_testbit by lia.
    rewrite bool_decide_eq_true_2 by lia. simpl.
    rewrite Z.land_spec, testbit_nmask by lia. rewrite andb_comm.
    by rewrite page_bit_eqb by done.
  - rewrite rd_wr_ne by dlia. destruct (Z.eqb_spec i j); [by subst | done].
Qed.

Lemma bitmap_ok_wr s k v :
  bitmap_ok s → 0 ≤ v < 2 ^ 8 → bitmap_ok (with_bitmap s (wr (bitmap s) k v)).
Proof.
  intros [Hl Hb] Hv. split; simpl; [by rewrite length_wr|].
  by apply Forall_insert.
Qed.

Lemma set_page_bitmap_ok s i : bitmap_ok s → bitmap_ok (set_page i s).
Proof. intros. apply bitmap_ok_wr; [done|]. by apply wrap_bound. Qed.

Lemma clear_page_bitmap_ok s i : bitmap_ok s → bitmap_ok (clear_page i s).
Proof. intros. apply bitmap_ok_wr; [done|]. by apply wrap_bound. Qed.

Lemma count_used_bound s : 0 ≤ count_used s ≤ MAX_PAGES.
Proof.
  pose proof (count_up_bound (page_used s) (span 0 MAX_PAGES) 0).
  rewrite of_nat_span in *. unfold count_used, MAX_PAGES in *. lia.
Qed.

Lemma count_set_free s i :
  bitmap_ok s → 0 ≤ i < MAX_PAGES → page_used s i = false →
  count_used (set_page i s) = count_used s + 1.
Proof.
  intros Hs Hi Hf. unfold count_used.
  rewrite (count_up_change (page_used s) _ _ _ i).
  - rewrite set_page_used, Z.eqb_refl, Hf by side. simpl. lia.
  - rewrite of_nat_span. lia.
  - intros j Hj Hne. rewrite set_page_used by side.
    by destruct (Z.eqb_spec i j); [subst|].
Qed.

Lemma count_clear_used s i :
  bitmap_ok s → 0 ≤ i < MAX_PAGES → page_used s i = true →
  count_used (clear_page i s) = count_used s - 1.
Proof.
  intros Hs Hi Hf. unfold count_used.
  rewrite (count_up_change (page_used s) _ _ _ i).
  - rewrite clear_page_used, Z.eqb_refl, Hf by side. simpl. lia.
  - rewrite of_nat_span. lia.
  - intros j Hj Hne. rewrite clear_page_used by side.
    by destruct (Z.eqb_spec i j); [subst|].
Qed.

(** Marking one free page used keeps the accounting exact: the counter never
    wraps, since at most 2 GiB are ever accounted. *)
Lemma pmm_ok_set s i :
  pmm_ok s → 0 ≤ i < MAX_PAGES → page_used s i = false →
  pmm_ok (add_used PAGE_SIZE (set_page i s)) ∧
  used_bytes (add_used PAGE_SIZE (set_page i s)) = used_bytes s + PAGE_SIZE.
Proof.
  intros [Hb Hu] Hi Hf.
  pose proof (count_set_free s i Hb Hi Hf) as Hc.
  pose proof (count_used_bound s). pose proof (count_used_bound (set_page i s)).
  assert (used_bytes (add_used PAGE_SIZE (set_page i s)) = used_bytes s + PAGE_SIZE) as E.
  { simpl. rewrite wrap_small; [done|]. rewrite Hu. unfold PAGE_SIZE, MAX_PAGES in *. lia. }
  split; [|done]. split; [by apply (set_page_bitmap_ok s i)|].
  rewrite E, Hu. change (count_used (add_used _ ?t)) with (count_used t).
  rewrite Hc. lia.
Qed.

Lemma pmm_ok_clear s i :
  pmm_ok s → 0 ≤ i < MAX_PAGES → page_used s i = true →
  pmm_ok (add_used (- PAGE_SIZE) (clear_page i s)) ∧
  used_bytes (add_used (- PAGE_SIZE) (clear_page i s)) = used_bytes s - PAGE_SIZE.
Proof.
  intros [Hb Hu] Hi Hf.
  pose proof (count_clear_used s i Hb Hi Hf) as Hc.
  pose proof (count_used_bound s). pose proof (count_used_bound (clear_page i s)).
  assert (used_bytes (add_used (- PAGE_SIZE) (clear_page i s)) = used_bytes s - PAGE_SIZE) as E.
  { simpl. rewrite wrap_small; [done|]. rewrite Hu. unfold PAGE_SIZE, MAX_PAGES in *. lia. }
  split; [|done]. split; [by apply (clear_page_bitmap_ok s i)|].
  rewrite E, Hu. change (count_used (add_used _ ?t)) with (count_used t).
  rewrite Hc. lia.
Qed.

(** The address of a page fits every pointer width. *)
Lemma page_address `{Arch} i :
  0 ≤ i < MAX_PAGES → uptr (Z.shiftl i PAGE_SHIFT) = i * PAGE_SIZE.
Proof.
  intros Hi. unfold PAGE_SHIFT. rewrite Z.shiftl_mul_pow2 by lia.
  apply wrap_word_u32_small. unfold MAX_PAGES, PAGE_SIZE in *. lia.
Qed.

Lemma address_page i : Z.shiftr (i * PAGE_SIZE) PAGE_SHIFT = i.
Proof.
  unfold PAGE_SHIFT, PAGE_SIZE. rewrite Z.shiftr_div_pow2 by lia. by rewrite Z.div_mul.
Qed.

(** What changed between two states: the pages of [ps] became used. *)
Definition pages_taken (s s' : pmm) (lo n : Z) : Prop :=
  (∀ j, lo ≤ j < lo + n → page_used s j = false ∧ page_used s' j = true) ∧
  (∀ j, 0 ≤ j → ¬ (lo ≤ j < lo + n) → page_used s' j = page_used s j) ∧
  used_bytes s' = used_bytes s + n * PAGE_SIZE ∧
  total_bytes s' = total_bytes s.

Lemma pages_taken_one s i :
  pmm_ok s → 0 ≤ i < MAX_PAGES → page_used s i = false →
  pages_taken s (add_used PAGE_SIZE (set_page i s)) i 1.
Proof.
  intros Hs Hi Hf. destruct (pmm_ok_set s i Hs Hi Hf) as [_ E].
  destruct Hs as [Hb _]. split; [|split; [|split]].
  - intros j Hj. assert (j = i) as -> by lia. split; [done|].
    change (page_used (add_used _ ?t)) with (page_used t).
    by rewrite set_page_used, Z.eqb_refl by side.
  - intros j Hj Hn. change (page_used (add_used _ ?t)) with (page_used t).
    rewrite set_page_used by side.
    destruct (Z.eqb_spec i j); [lia | done].
  - by rewrite E, Z.mul_1_l.
  - done.
Qed.

Lemma pages_taken_snoc s s' s'' lo n :
  0 ≤ lo → 0 ≤ n → pages_taken s s' lo n → pages_taken s' s'' (lo + n) 1 →
  pages_taken s s'' lo (n + 1).
Proof.
  intros Hlo Hn (A1 & A2 & A3 & A4) (B1 & B2 & B3 & B4).
  split; [|split; [|split]]; [| |lia|congruence].
  - intros j Hj. destruct (decide (j = lo + n)) as [->|].
    + split; [|apply B1; lia]. rewrite <- A2 by lia. apply B1; lia.
    + split; [apply A1; lia|]. rewrite B2 by lia. apply A1; lia.
  - intros j Hj Hnj. by rewrite B2, A2 by lia.
Qed.

(** ** Allocation of one page *)

Lemma pmm_alloc_from_spec `{Arch} n i s r s' :
  pmm_ok s → 1 ≤ i → i + Z.of_nat n = MAX_PAGES →
  (∀ j, 1 ≤ j < i → page_used s j = true) →
  pmm_alloc_from n i s = (r, s') →
  pmm_ok s' ∧
  ((r = 0 ∧ s' = s ∧ ∀ j, 1 ≤ j < MAX_PAGES → page_used s j = true) ∨
   (∃ k, r = k * PAGE_SIZE ∧ 1 ≤ k < MAX_PAGES ∧
      (∀ j, 1 ≤ j < k → page_used s j = true) ∧ pages_taken s s' k 1)).
Proof.
  revert i. induction n as [|n IH]; intros i Hs Hi Hn Hlow; simpl.
  { intros [= <- <-]. split; [done|]. left. repeat split; try done.
    intros; apply Hlow; lia. }
  rewrite test_page_0. destruct (page_used s i) eqn:Hu; simpl.
  - apply IH; [done|lia|lia|]. intros j Hj.
    destruct (decide (j = i)) as [->|]; [done|apply Hlow; lia].
  - intros [= <- <-]. split; [apply pmm_ok_set; side|]. right. exists i.
    rewrite page_address by lia. split_and!; [done|lia|lia|done|by apply pages_taken_one; side].
Qed.

(** C5: [pmm_alloc] is first fit.  It either returns the address of the
    lowest-numbered free page after page 0, having marked exactly that page and
    charged exactly one page to [used_bytes], or it returns 0, leaves the state
    alone, and every page after page 0 is used. *)
Theorem pmm_alloc_first_fit `{Arch} (s : pmm) (r : Z) (s' : pmm) :
  pmm_ok s → pmm_alloc s = (r, s') →
  pmm_ok s' ∧
  ((r = 0 ∧ s' = s ∧ ∀ j, 1 ≤ j < MAX_PAGES → page_used s j = true) ∨
   (∃ k, r = k * PAGE_SIZE ∧ 1 ≤ k < MAX_PAGES ∧
      (∀ j, 1 ≤ j < k → page_used s j = true) ∧ pages_taken s s' k 1)).
Proof.
  intros Hs Ha. unfold pmm_alloc in Ha.
  eapply pmm_alloc_from_spec; [exact Hs| | | |exact Ha]; [lia| |intros; lia].
  rewrite of_nat_span. unfold MAX_PAGES. lia.
Qed.

(** ** Allocation of a run of pages *)

Lemma take_run_spec s start n :
  pmm_ok s → 0 ≤ start → 0 ≤ n → start + n ≤ MAX_PAGES →
  (∀ j, start ≤ j < start + n → page_used s j = false) →
  let s' := for_up (λ j s, add_used PAGE_SIZE (set_page j s)) (span start (start + n)) start s in
  pmm_ok s' ∧ pages_taken s s' start n.
Proof.
  intros Hs H0 Hn Hmax Hfree s'.
  pose (P := λ (j : Z) (t : pmm), pmm_ok t ∧ pages_taken s t start (j - start)).
  assert (P (start + n) s') as [? HP].
  { apply for_span_inv; [lia| |].
    - split; [done|]. rewrite Z.sub_diag. repeat split; try done; intros; lia.
    - intros j t Hj [Ht Hp].
      assert (page_used t j = false) as Hf.
      { destruct Hp as (_ & Hp & _). rewrite Hp by lia. apply Hfree. lia. }
      split; [apply pmm_ok_set; side|].
      replace (j + 1 - start) with (j - start + 1) by lia.
      eapply pages_taken_snoc; [lia|lia|exact Hp|].
      replace (start + (j - start)) with j by lia. by apply pages_taken_one; side. }
  split; [done|]. by replace n with (start + n - start) by lia.
Qed.

(** A free run of length [n] whose last page is before [hi]. *)
Definition free_run (s : pmm) (n lo : Z) : Prop :=
  1 ≤ lo ∧ lo + n ≤ MAX_PAGES ∧ ∀ j, lo ≤ j < lo + n → page_used s j = false.

Lemma pmm_alloc_n_from_spec `{Arch} n k i run start s r s' :
  pmm_ok s → 1 ≤ n → 1 ≤ i → i + Z.of_nat k = MAX_PAGES →
  0 ≤ run < n → (run = 0 ∨ start = i - run) → 1 ≤ i - run →
  (∀ j, i - run ≤ j < i → page_used s j = false) →
  (i - run = 1 ∨ page_used s (i - run - 1) = true) →
  (∀ lo, free_run s n lo → i ≤ lo + n - 1) →
  pmm_alloc_n_from n k i run start s = (r, s') →
  pmm_ok s' ∧
  ((r = 0 ∧ s' = s ∧ ∀ lo, ¬ free_run s n lo) ∨
   (∃ lo, r = lo * PAGE_SIZE ∧ free_run s n lo ∧
      (∀ lo', free_run s n lo' → lo ≤ lo') ∧ pages_taken s s' lo n)).
Proof.
  intros Hs Hn. revert i run start.
  induction k as [|k IH]; intros i run start Hi Hk Hrun Hst Hpos Hfree Hleft Hnone; simpl.
  { intros [= <- <-]. split; [done|]. left. repeat split; try done.
    intros lo Hlo. specialize (Hnone lo Hlo). destruct Hlo as (? & ? & _). lia. }
  rewrite test_page_0. destruct (page_used s i) eqn:Hu; simpl.
  - apply IH; try done; try lia.
    + right. by replace (i + 1 - 0 - 1) with i by lia.
    + intros lo Hlo. specialize (Hnone lo Hlo). destruct Hlo as (H1 & H2 & H3).
      destruct (decide (i = lo + n - 1)) as [->|]; [|lia].
      rewrite H3 in Hu by lia. done.
  - set (st := if run =? 0 then i else start).
    assert (st = i - run) as Est.
    { unfold st. destruct (Z.eqb_spec run 0), Hst; lia. }
    assert (∀ j, st ≤ j < i + 1 → page_used s j = false) as Hfree'.
    { intros j Hj. destruct (decide (j = i)) as [->|]; [done|]. apply Hfree. lia. }
    destruct (Z.eqb_spec (run + 1) n) as [En|Hne].
    + intros [= <- <-].
      destruct (take_run_spec s st n) as [Hok Htk]; try done; try lia.
      { intros j Hj. apply Hfree'. lia. }
      split; [done|]. right. exists st. rewrite page_address by lia.
      split_and!; [done| |intros lo' Hlo'; specialize (Hnone lo' Hlo'); lia|done].
      split_and!; [lia|lia|]. intros j Hj. apply Hfree'. lia.
    + apply IH; try done; try lia.
      * intros j Hj. apply Hfree'. lia.
      * replace (i + 1 - (run + 1)) with (i - run) by lia. done.
      * intros lo Hlo. specialize (Hnone lo Hlo).
        destruct (decide (i = lo + n - 1)) as [E|]; [|lia].
        destruct Hlo as (H1 & H2 & H3). destruct Hleft as [|Hl]; [lia|].
        rewrite H3 in Hl by lia. done.
Qed.

(** [pmm_alloc_n] finds the lowest run of [n] consecutive free pages
    after page 0 (its maximal-run counter never skips one), marks exactly that
    run and charges [n] pages; it returns 0 and changes nothing iff there is no
    such run. *)
Theorem pmm_alloc_n_first_fit `{Arch} (n : Z) (s : pmm) (r : Z) (s' : pmm) :
  pmm_ok s → 1 ≤ n → pmm_alloc_n n s = (r, s') →
  pmm_ok s' ∧
  ((r = 0 ∧ s' = s ∧ ∀ lo, ¬ free_run s n lo) ∨
   (∃ lo, r = lo * PAGE_SIZE ∧ free_run s n lo ∧
      (∀ lo', free_run s n lo' → lo ≤ lo') ∧ pages_taken s s' lo n)).
Proof.
  intros Hs Hn. unfold pmm_alloc_n. destruct (Z.eqb_spec n 0); [lia|]. intros Ha.
  eapply pmm_alloc_n_from_spec; [exact Hs| | | | | | | | | |exact Ha];
    [lia|lia| |lia|lia|lia|intros; lia|lia|].
  - rewrite of_nat_span. unfold MAX_PAGES. lia.
  - intros lo (? & ? & _). lia.
Qed.

(** ** Freeing *)

Lemma pmm_free_unused `{Arch} s phys :
  (MAX_PAGES ≤ phys / PAGE_SIZE ∨ page_used s (phys / PAGE_SIZE) = false) →
  pmm_free phys s = s.
Proof.
  intros Hc. unfold pmm_free, PAGE_SHIFT. rewrite Z.shiftr_div_pow2 by lia.
  change (2 ^ 12) with PAGE_SIZE. rewrite test_page_0.
  destruct (Z.leb_spec MAX_PAGES (phys / PAGE_SIZE)); [done|].
  destruct Hc as [? | ->]; [lia|done].
Qed.

Lemma pmm_free_used `{Arch} s phys :
  phys / PAGE_SIZE < MAX_PAGES → page_used s (phys / PAGE_SIZE) = true →
  pmm_free phys s = add_used (- PAGE_SIZE) (clear_page (phys / PAGE_SIZE) s).
Proof.
  intros Hlt Hu. unfold pmm_free, PAGE_SHIFT. rewrite Z.shiftr_div_pow2 by lia.
  change (2 ^ 12) with PAGE_SIZE. rewrite test_page_0, Hu.
  destruct (Z.leb_spec MAX_PAGES (phys / PAGE_SIZE)); [lia|done].
Qed.

(** [pmm_free] frees exactly the page that contains the address, when it
    is one of the managed pages and in use, giving one page back to the
    counter; a double free, or an address beyond 2 GiB, is a no-op. *)
Theorem pmm_free_spec `{Arch} (s : pmm) (phys : Z) :
  pmm_ok s → 0 ≤ phys →
  let i := phys / PAGE_SIZE in
  let s' := pmm_free phys s in
  pmm_ok s' ∧
  (∀ j, 0 ≤ j < MAX_PAGES → page_used s' j = negb (i =? j) && page_used s j) ∧
  used_bytes s' =
    used_bytes s - (if (i <? MAX_PAGES) && page_used s i then PAGE_SIZE else 0) ∧
  total_bytes s' = total_bytes s.
Proof.
  intros Hs Hp i s'. assert (0 ≤ i) by (unfold i, PAGE_SIZE; dlia).
  destruct (decide (i < MAX_PAGES ∧ page_used s i = true)) as [[Hi Hu]|Hn].
  - unfold s'. rewrite pmm_free_used by done.
    destruct (pmm_ok_clear s i) as [Hok E]; [done|lia|done|]. fold i.
    split_and!; [done| |rewrite E|done].
    + intros j Hj. change (page_used (add_used _ ?t)) with (page_used t).
      apply clear_page_used; [apply Hs|lia|lia].
    + destruct (Z.ltb_spec i MAX_PAGES); [|lia]. by rewrite Hu.
  - assert (s' = s) as ->.
    { apply pmm_free_unused. fold i. destruct (page_used s i); [left|by right].
      destruct (decide (i < MAX_PAGES)); [tauto|lia]. }
    split_and!; [done| | |done].
    + intros j Hj. destruct (Z.eqb_spec i j) as [->|]; [|done].
      destruct (page_used s j); [tauto|done].
    + destruct (Z.ltb_spec i MAX_PAGES); [|simpl; lia].
      destruct (page_used s i); [tauto|simpl; lia].
Qed.

Lemma byte_set_clear b k :
  0 ≤ b < 2 ^ 8 → 0 ≤ k < 8 → Z.testbit b k = false →
  u8 (Z.land (u8 (Z.lor b (u8 (Z.shiftl 1 k)))) (u8 (Z.lnot (Z.shiftl 1 k)))) = b.
Proof.
  intros Hb Hk Hf. apply Z.bits_inj'. intros n Hn.
  rewrite wrap_testbit by lia. case_bool_decide; simpl.
  - rewrite Z.land_spec, testbit_nmask, wrap_testbit by lia.
    rewrite bool_decide_eq_true_2 by lia. simpl.
    rewrite Z.lor_spec, testbit_mask by lia.
    destruct (Z.eqb_spec k n) as [->|]; [by rewrite Hf|].
    by rewrite orb_false_r, andb_true_r.
  - rewrite <- (Z.mod_small b (2 ^ 8)) by lia. by rewrite Z.mod_pow2_bits_high by lia.
Qed.

Lemma clear_set_page s i :
  bitmap_ok s → 0 ≤ i < MAX_PAGES → page_used s i = false →
  bitmap (clear_page i (set_page i s)) = bitmap s.
Proof.
  intros Hs Hi Hf. pose proof (page_byte_in s i Hs Hi).
  unfold clear_page, set_page, page_used in *. simpl.
  rewrite shiftr_3_div, land_7_mod. rewrite rd_wr_eq, wr_wr by lia.
  rewrite byte_set_clear.
  - by apply wr_rd_id.
  - destruct Hs as [_ Hb]. unfold rd.
    destruct (lookup_lt_is_Some_2 (bitmap s) (Z.to_nat (i / 8))) as [x Hx]; [lia|].
    rewrite Hx. eapply (Forall_lookup_1 _ _ _ _ Hb), Hx.
  - apply Z.mod_pos_bound. lia.
  - done.
Qed.

(** Freeing the page an allocation returned restores the allocator's
    state exactly: the bitmap byte for byte and both counters. *)
Theorem pmm_free_alloc_id `{Arch} (s : pmm) (r : Z) (s' : pmm) :
  pmm_ok s → pmm_alloc s = (r, s') → r ≠ 0 → pmm_free r s' = s.
Proof.
  intros Hs Ha Hr. unfold pmm_alloc in Ha.
  assert (∀ n i, 1 ≤ i → i + Z.of_nat n = MAX_PAGES →
    pmm_alloc_from n i s = (r, s') → ∃ k, 1 ≤ k < MAX_PAGES ∧ r = k * PAGE_SIZE ∧
      page_used s k = false ∧ s' = add_used PAGE_SIZE (set_page k s)) as Hgen.
  { induction n as [|n IH]; intros i Hi Hn; simpl; [intros [= <- <-]; done|].
    rewrite test_page_0. destruct (page_used s i) eqn:Hu; simpl.
    - apply IH; lia.
    - intros [= <- <-]. exists i. rewrite page_address by lia. split_and!; [lia|lia|done..]. }
  apply Hgen in Ha as (k & Hk & -> & Hf & ->);
    [clear Hgen|lia|rewrite of_nat_span; unfold MAX_PAGES; lia].
  destruct (pmm_ok_set s k Hs ltac:(lia) Hf) as [Hok Hb].
  assert (k * PAGE_SIZE / PAGE_SIZE = k) as Ediv by (unfold PAGE_SIZE; dlia).
  rewrite pmm_free_used; rewrite ?Ediv; [|lia|].
  - pose proof (clear_set_page s k (proj1 Hs) ltac:(lia) Hf) as Ebm.
    destruct s as [bm tot us]. unfold add_used, clear_page, set_page, with_bitmap in *.
    simpl in *. rewrite Ebm. f_equal. rewrite Hb.
    replace (us + PAGE_SIZE + - PAGE_SIZE) with us by lia. apply wrap_small.
    destruct Hs as [_ E]. simpl in E.
    pose proof (count_used_bound (Pmm bm tot us)). unfold PAGE_SIZE, MAX_PAGES in *. lia.
  - change (page_used (add_used _ ?t)) with (page_used t).
    rewrite set_page_used, Z.eqb_refl by (apply Hs || lia). done.
Qed.

(** ** Initialisation *)

Lemma align_down w x :
  12 ≤ w → 0 ≤ x < 2 ^ w → Z.land x (wrap w (Z.lnot (PAGE_SIZE - 1))) = x / PAGE_SIZE * PAGE_SIZE.
Proof.
  intros Hw Hx. change (PAGE_SIZE - 1) with (2 ^ 12 - 1).
  rewrite land_align_mask by lia. change (2 ^ 12) with PAGE_SIZE.
  pose proof (Z.div_mod x PAGE_SIZE). unfold PAGE_SIZE in *. lia.
Qed.

Lemma PAGE_ALIGN_up `{Arch} a :
  0 ≤ a → a + PAGE_SIZE - 1 < 2 ^ word_bits →
  PAGE_ALIGN a = (a + PAGE_SIZE - 1) / PAGE_SIZE * PAGE_SIZE.
Proof.
  intros H0 H1. pose proof word_bits_bound. unfold PAGE_ALIGN, ALIGN_UP.
  rewrite (wrap_small word_bits (a + PAGE_SIZE - 1)) by (unfold PAGE_SIZE in *; lia).
  apply align_down; unfold PAGE_SIZE in *; lia.
Qed.

Lemma PAGE_ALIGN64_up `{Arch} a :
  0 ≤ a → a + PAGE_SIZE - 1 < 2 ^ word_bits →
  PAGE_ALIGN64 a = (a + PAGE_SIZE - 1) / PAGE_SIZE * PAGE_SIZE.
Proof.
  intros H0 H1. pose proof word_bits_bound.
  assert (2 ^ word_bits ≤ 2 ^ 64) by (apply Z.pow_le_mono_r; lia).
  unfold PAGE_ALIGN64, ALIGN_UP.
  rewrite (wrap_small 64 (a + PAGE_SIZE - 1)) by (unfold PAGE_SIZE in *; lia).
  apply align_down; unfold PAGE_SIZE in *; lia.
Qed.

Lemma addr_to_page_div `{Arch} a : 0 ≤ a < 2 ^ word_bits → addr_to_page a = a / PAGE_SIZE.
Proof.
  intros Ha. unfold addr_to_page, PAGE_SHIFT. rewrite Z.shiftr_div_pow2 by lia.
  change (2 ^ 12) with PAGE_SIZE. apply wrap_small. unfold PAGE_SIZE. dlia.
Qed.

Lemma for_pages_inv (P : Z → pmm → Prop) body p p_end s :
  0 ≤ p → P p s →
  (∀ j t, p ≤ j < p_end → j < MAX_PAGES → P j t → P (j + 1) (body j t)) →
  ∃ q, P q (for_up body (span p (Z.min p_end MAX_PAGES)) p s) ∧
       (∀ j, 0 ≤ j < MAX_PAGES → p ≤ j < q ↔ p ≤ j < p_end).
Proof.
  intros Hp H0 Hstep. destruct (decide (p ≤ Z.min p_end MAX_PAGES)).
  - exists (Z.min p_end MAX_PAGES). split; [|lia].
    apply for_span_inv; [lia|done|]. intros j t Hj. apply Hstep; lia.
  - exists p. rewrite span_nil by lia. split; [done|lia].
Qed.

Lemma for_pages_keep (Q : pmm → Prop) body p p_end s :
  0 ≤ p → Q s → (∀ j t, p ≤ j < MAX_PAGES → Q t → Q (body j t)) →
  Q (for_up body (span p (Z.min p_end MAX_PAGES)) p s).
Proof.
  intros Hp H0 Hstep. destruct (for_pages_inv (λ _, Q) body p p_end s) as (q & HQ & _);
    [done|done| |done].
  intros j t Hj Hm. apply Hstep. lia.
Qed.

(** [pmm_mark_used] sets the bits from the page of [start] to the end of the
    page of [end_ - 1], and keeps the accounting exact when it was. *)
Lemma pmm_mark_used_spec `{Arch} start end_ s :
  bitmap_ok s → 0 ≤ start < 2 ^ word_bits → 0 ≤ end_ → end_ + PAGE_SIZE - 1 < 2 ^ word_bits →
  let s' := pmm_mark_used start end_ s in
  bitmap_ok s' ∧ (pmm_ok s → pmm_ok s') ∧ total_bytes s' = total_bytes s ∧
  ∀ j, 0 ≤ j < MAX_PAGES →
    page_used s' j =
      page_used s j || bool_decide (start < (j + 1) * PAGE_SIZE ∧ j * PAGE_SIZE < end_).
Proof.
  intros Hb Hst He1 He2 s'. unfold s', pmm_mark_used. rewrite PAGE_ALIGN_up by done.
  rewrite !addr_to_page_div by (unfold PAGE_SIZE in *; try dlia; lia).
  set (p := start / PAGE_SIZE).
  replace ((end_ + PAGE_SIZE - 1) / PAGE_SIZE * PAGE_SIZE / PAGE_SIZE)
    with ((end_ + PAGE_SIZE - 1) / PAGE_SIZE) by (unfold PAGE_SIZE; dlia).
  set (q := (end_ + PAGE_SIZE - 1) / PAGE_SIZE).
  assert (0 ≤ p) by (unfold p, PAGE_SIZE; dlia).
  edestruct (for_pages_inv (λ j t, bitmap_ok t ∧ (pmm_ok s → pmm_ok t) ∧
      total_bytes t = total_bytes s ∧
      ∀ k, 0 ≤ k < MAX_PAGES → page_used t k = page_used s k || bool_decide (p ≤ k < j)))
    as (x & (H1 & H2 & H3 & H4) & Hx); cycle 3.
  - split_and!; [exact H1|exact H2|exact H3|].
    intros j Hj. rewrite H4 by done. f_equal. apply bool_decide_ext. rewrite Hx by done.
    unfold p, q, PAGE_SIZE. dlia.
  - done.
  - split_and!; [done..|]. intros k Hk. rewrite bool_decide_eq_false_2 by lia.
    by rewrite orb_false_r.
  - intros j t Hj Hm (T1 & T2 & T3 & T4). rewrite test_page_0.
    destruct (page_used t j) eqn:Hu; simpl.
    + split_and!; [done..|]. intros k Hk. rewrite T4 by done.
      destruct (decide (k = j)) as [->|].
      * rewrite T4 in Hu by done. rewrite Hu. rewrite (bool_decide_eq_true_2 (p ≤ j < j + 1)) by lia.
        by rewrite orb_true_r.
      * f_equal. apply bool_decide_ext. lia.
    + split_and!.
      * by apply set_page_bitmap_ok.
      * intros Hs. apply pmm_ok_set; [tauto|lia|done].
      * done.
      * intros k Hk. change (page_used (add_used _ ?u)) with (page_used u).
        rewrite set_page_used by side. rewrite T4 by done.
        destruct (Z.eqb_spec j k) as [->|].
        -- rewrite (bool_decide_eq_true_2 (p ≤ k < k + 1)) by lia. by rewrite orb_true_r.
        -- simpl. f_equal. apply bool_decide_ext. lia.
Qed.

(** Page [j] lies wholly inside a usable entry of the E820 map. *)
Definition entry_covers (j : Z) (e : e820_entry_t) : bool :=
  (etype e =? E820_TYPE_USABLE) && (base e <=? j * PAGE_SIZE) &&
  ((j + 1) * PAGE_SIZE <=? base e + elength e).

(** The usable entry can be described in the width of a pointer. *)
Definition entry_fits `{Arch} (e : e820_entry_t) : Prop :=
  0 ≤ base e ∧ 0 ≤ elength e ∧ base e + elength e + PAGE_SIZE - 1 < 2 ^ word_bits.

(** The effect of clearing the pages [p..p_end). *)
Lemma clear_range_spec p p_end s :
  bitmap_ok s → 0 ≤ p →
  let s' := for_up (λ p s, clear_page p s) (span p (Z.min p_end MAX_PAGES)) p s in
  bitmap_ok s' ∧ total_bytes s' = total_bytes s ∧
  (∀ j, 0 ≤ j < MAX_PAGES →
    page_used s' j = page_used s j && negb (bool_decide (p ≤ j < p_end))).
Proof.
  intros Hb Hp s'.
  edestruct (for_pages_inv (λ j t, bitmap_ok t ∧ total_bytes t = total_bytes s ∧
      ∀ k, 0 ≤ k < MAX_PAGES → page_used t k = page_used s k && negb (bool_decide (p ≤ k < j))))
    as (x & (H1 & H2 & H3) & Hx); cycle 3.
  - split_and!; [exact H1|exact H2|]. intros j Hj. rewrite H3 by done.
    do 2 f_equal. apply bool_decide_ext. by apply Hx.
  - done.
  - split_and!; [done..|]. intros k Hk. rewrite bool_decide_eq_false_2 by lia.
    by rewrite andb_true_r.
  - intros j t Hj Hm (T1 & T2 & T3). split_and!.
    + by apply clear_page_bitmap_ok.
    + done.
    + intros k Hk. rewrite clear_page_used, T3 by side.
      destruct (Z.eqb_spec j k) as [->|]; simpl.
      * rewrite (bool_decide_eq_true_2 (p ≤ k < k + 1)) by lia. by rewrite andb_false_r.
      * do 2 f_equal. apply bool_decide_ext. lia.
Qed.

Lemma pmm_init_entry_spec `{Arch} e s :
  bitmap_ok s → entry_fits e →
  let s' := pmm_init_entry e s in
  bitmap_ok s' ∧
  ∀ j, 0 ≤ j < MAX_PAGES → page_used s' j = page_used s j && negb (entry_covers j e).
Proof.
  intros Hb (H0 & H1 & H2) s'. unfold s', pmm_init_entry, entry_covers.
  pose proof word_bits_bound.
  assert (2 ^ word_bits ≤ 2 ^ 64) by (apply Z.pow_le_mono_r; lia).
  destruct (etype e =? E820_TYPE_USABLE); simpl; [|split; [done|]; intros; by rewrite andb_true_r].
  rewrite PAGE_ALIGN64_up by (unfold PAGE_SIZE in *; lia).
  rewrite (wrap_small 64 (base e + elength e)) by (unfold PAGE_SIZE in *; lia).
  rewrite align_down by (unfold PAGE_SIZE in *; lia).
  set (q := (base e + elength e) / PAGE_SIZE).
  set (p := (base e + PAGE_SIZE - 1) / PAGE_SIZE).
  assert (∀ j, (base e <=? j * PAGE_SIZE) && ((j + 1) * PAGE_SIZE <=? base e + elength e)
    = bool_decide (p ≤ j < q)) as Ecov.
  { intros j. unfold p, q, PAGE_SIZE in *.
    destruct (Z.leb_spec (base e) (j * 4096)), (Z.leb_spec ((j + 1) * 4096) (base e + elength e));
      symmetry; simpl; first [apply bool_decide_eq_true_2|apply bool_decide_eq_false_2]; dlia. }
  assert (∀ x, x * PAGE_SIZE / PAGE_SIZE = x) as Ediv by (unfold PAGE_SIZE; intros; dlia).
  assert (0 ≤ p) by (unfold p, PAGE_SIZE; dlia).
  destruct (Z.leb_spec (q * PAGE_SIZE) (p * PAGE_SIZE)) as [Hle|Hgt].
  - split; [done|]. intros j Hj. rewrite Ecov, bool_decide_eq_false_2; [by rewrite andb_true_r|].
    unfold PAGE_SIZE in Hle. lia.
  - rewrite !addr_to_page_div, !Ediv by (unfold p, q, PAGE_SIZE in *; dlia).
    destruct (clear_range_spec p q (add_total (q * PAGE_SIZE - p * PAGE_SIZE) s)) as (A & _ & B);
      [done|done|].
    split; [done|]. intros j Hj. rewrite B by done. by rewrite Ecov.
Qed.

Lemma pmm_init_entries_spec `{Arch} map s :
  bitmap_ok s → Forall entry_fits map →
  let s' := foldl (λ s e, pmm_init_entry e s) s map in
  bitmap_ok s' ∧
  ∀ j, 0 ≤ j < MAX_PAGES → page_used s' j = page_used s j && negb (existsb (entry_covers j) map).
Proof.
  revert s. induction map as [|e map IH]; intros s Hb Hf; simpl.
  { split; [done|]. intros. by rewrite andb_true_r. }
  apply Forall_cons_1 in Hf as [He Hf].
  destruct (pmm_init_entry_spec e s Hb He) as [Hb' Hp].
  destruct (IH _ Hb' Hf) as [Hb'' Hp']. split; [done|].
  intros j Hj. rewrite Hp', Hp by done. by destruct (entry_covers j e); simpl; rewrite ?andb_false_r, ?andb_true_r.
Qed.

Lemma bitmap_fill_ok s :
  bitmap_ok (with_bitmap s (replicate (Z.to_nat BITMAP_BYTES) 0xFF)).
Proof.
  split; cbn [bitmap with_bitmap].
  - rewrite length_replicate, Z2Nat.id; [reflexivity|]. unfold BITMAP_BYTES, MAX_PAGES. dlia.
  - apply Forall_replicate. lia.
Qed.

Lemma bitmap_fill_used s j :
  0 ≤ j < MAX_PAGES →
  page_used (with_bitmap s (replicate (Z.to_nat BITMAP_BYTES) 0xFF)) j = true.
Proof.
  intros Hj. unfold page_used. cbn [bitmap with_bitmap]. rewrite rd_replicate.
  - pose proof (Z.mod_pos_bound j 8). change 0xFF with (Z.ones 8).
    apply Z.ones_spec_low. lia.
  - rewrite Z2Nat.id; unfold BITMAP_BYTES, MAX_PAGES in *; dlia.
Qed.

(** The closing loop of [pmm_init] computes the accounting invariant. *)
Lemma pmm_count_used_spec s :
  bitmap_ok s → pmm_ok (pmm_count_used s) ∧
    bitmap (pmm_count_used s) = bitmap s ∧ total_bytes (pmm_count_used s) = total_bytes s.
Proof.
  intros Hb. unfold pmm_count_used.
  set (s' := for_up _ _ _ _).
  pose (P := λ (j : Z) (t : pmm), bitmap t = bitmap s ∧ total_bytes t = total_bytes s ∧
      used_bytes t = PAGE_SIZE * count_up (page_used s) (span 0 j) 0).
  assert (P MAX_PAGES s') as (H1 & H2 & H3).
  { unfold s'. apply for_span_inv; unfold P; [unfold MAX_PAGES; lia| |].
    - simpl. by rewrite span_nil by lia.
    - intros j t Hj (T1 & T2 & T3). rewrite test_page_0.
      assert (page_used t j = page_used s j) as Et by (unfold page_used; by rewrite T1).
      rewrite (span_S 0 j) by lia. rewrite count_up_snoc.
      replace (0 + Z.of_nat (span 0 j)) with j by (rewrite of_nat_span; lia).
      pose proof (count_up_bound (page_used s) (span 0 j) 0) as Hc. rewrite of_nat_span in Hc.
      rewrite Et. destruct (page_used s j); simpl.
      + split_and!; [done..|]. rewrite T3, wrap_small; [lia|].
        unfold PAGE_SIZE, MAX_PAGES in *. lia.
      + split_and!; [done..|]. rewrite T3. lia. }
  split_and!; [|done|done]. split.
  - unfold bitmap_ok. by rewrite H1.
  - rewrite H3. unfold count_used. apply (f_equal (Z.mul PAGE_SIZE)), count_up_ext. intros j _. unfold page_used. by rewrite H1.
Qed.

(** The page frames [pmm_init] withholds whatever the map says: the first
    MiB, the kernel image above 0x10000 and the bitmap. *)
Definition reserved (bss_end bitmap_addr j : Z) : bool :=
  bool_decide (0 < (j + 1) * PAGE_SIZE ∧ j * PAGE_SIZE < 0x100000) ||
  bool_decide (0x10000 < (j + 1) * PAGE_SIZE ∧ j * PAGE_SIZE < bss_end) ||
  bool_decide (bitmap_addr < (j + 1) * PAGE_SIZE ∧ j * PAGE_SIZE < bitmap_addr + BITMAP_BYTES).

(** The image is linked where its end can be rounded up to a page. *)
Definition image_fits `{Arch} (bss_end bitmap_addr : Z) : Prop :=
  0 ≤ bss_end ∧ bss_end + 2 * PAGE_SIZE < 2 ^ word_bits ∧
  0 ≤ bitmap_addr ∧ bitmap_addr + BITMAP_BYTES + 2 * PAGE_SIZE < 2 ^ word_bits.

Lemma page_round_up j a :
  j * PAGE_SIZE < (a + PAGE_SIZE - 1) / PAGE_SIZE * PAGE_SIZE ↔ j * PAGE_SIZE < a.
Proof. unfold PAGE_SIZE. dlia. Qed.

(** The three [pmm_mark_used] calls and the count, from any bitmap. *)
Lemma pmm_init_tail `{Arch} bss_end bitmap_addr s0 :
  bitmap_ok s0 → image_fits bss_end bitmap_addr →
  let s1 := pmm_mark_used 0 0x100000 s0 in
  let s2 := pmm_mark_used 0x10000 (PAGE_ALIGN bss_end) s1 in
  let s3 := pmm_mark_used bitmap_addr (PAGE_ALIGN (uptr (bitmap_addr + BITMAP_BYTES))) s2 in
  let s' := pmm_count_used s3 in
  pmm_ok s' ∧ total_bytes s' = total_bytes s0 ∧
  ∀ j, 0 ≤ j < MAX_PAGES →
    page_used s' j = page_used s0 j || reserved bss_end bitmap_addr j.
Proof.
  intros Hb (I1 & I2 & I3 & I4). pose proof word_bits_bound.
  assert (2 ^ 32 ≤ 2 ^ word_bits) by (apply Z.pow_le_mono_r; lia).
  assert (BITMAP_BYTES = 65536) as Ebb by done.
  intros s1 s2 s3 s'.
  destruct (pmm_mark_used_spec 0 0x100000 s0 Hb) as (A1 & _ & A2 & A3);
    [lia|lia|unfold PAGE_SIZE; lia|].
  destruct (pmm_mark_used_spec 0x10000 (PAGE_ALIGN bss_end) s1 A1) as (B1 & _ & B2 & B3).
  1-3: rewrite ?PAGE_ALIGN_up; unfold PAGE_SIZE in *; try lia; dlia.
  destruct (pmm_mark_used_spec bitmap_addr (PAGE_ALIGN (uptr (bitmap_addr + BITMAP_BYTES))) s2 B1)
    as (C1 & _ & C2 & C3).
  1-3: rewrite ?wrap_small, ?PAGE_ALIGN_up; unfold PAGE_SIZE in *; try lia; dlia.
  destruct (pmm_count_used_spec s3 C1) as (D1 & D2 & D3).
  split_and!; [exact D1| |].
  { unfold s'. rewrite D3. unfold s3. rewrite C2. unfold s2. rewrite B2. exact A2. }
  intros j Hj.
  replace (page_used s' j) with (page_used s3 j) by (unfold page_used, s'; by rewrite D2).
  unfold s3. rewrite C3 by done. unfold s2. rewrite B3 by done. unfold s1. rewrite A3 by done.
  unfold reserved. rewrite !orb_assoc.
  rewrite (wrap_small word_bits) by (unfold PAGE_SIZE in *; lia).
  rewrite !PAGE_ALIGN_up by (unfold PAGE_SIZE in *; lia).
  f_equal; [f_equal|]; apply bool_decide_ext; rewrite page_round_up; done.
Qed.

(** C6: after [pmm_init], a page below 2 GiB is free exactly when it lies
    wholly inside a usable E820 region and is not part of the first MiB, the
    kernel image or the bitmap; and the accounting invariant holds.  The usable
    regions have to end inside the address space of the target. *)
Theorem pmm_init_spec `{Arch} (bss_end bitmap_addr : Z) (map : list e820_entry_t) (s : pmm) :
  image_fits bss_end bitmap_addr → Forall entry_fits map →
  let s' := pmm_init bss_end bitmap_addr map s in
  pmm_ok s' ∧
  ∀ j, 0 ≤ j < MAX_PAGES →
    page_used s' j = false ↔
    existsb (entry_covers j) map = true ∧ reserved bss_end bitmap_addr j = false.
Proof.
  intros Hi Hf s'.
  destruct (pmm_init_entries_spec map _ (bitmap_fill_ok s) Hf) as [Hb Hp].
  destruct (pmm_init_tail bss_end bitmap_addr _ Hb Hi) as (Hok & _ & Hu).
  split; [exact Hok|]. intros j Hj. unfold s', pmm_init. rewrite Hu, Hp by done.
  rewrite bitmap_fill_used by done.
  by rewrite andb_true_l, orb_false_iff, negb_false_iff.
Qed.

(** ** Every reachable state accounts for its pages *)

Lemma addr_to_page_nonneg `{Arch} a : 0 ≤ addr_to_page a.
Proof. pose proof word_bits_bound. apply wrap_bound. lia. Qed.

Lemma pmm_mark_used_ok `{Arch} start end_ s :
  (bitmap_ok s → bitmap_ok (pmm_mark_used start end_ s)) ∧
  (pmm_ok s → pmm_ok (pmm_mark_used start end_ s)).
Proof.
  pose proof (addr_to_page_nonneg start). unfold pmm_mark_used.
  apply (for_pages_keep (λ t, (bitmap_ok s → bitmap_ok t) ∧ (pmm_ok s → pmm_ok t)));
    [done|tauto|].
  intros j t Hj [T1 T2]. rewrite test_page_0.
  destruct (page_used t j) eqn:Hu; simpl; [done|]. split.
  - intros Hb. by apply set_page_bitmap_ok, T1.
  - intros Hs. apply pmm_ok_set; [auto|lia|done].
Qed.

Lemma pmm_init_entry_bitmap `{Arch} e s :
  bitmap_ok s → bitmap_ok (pmm_init_entry e s).
Proof.
  intros Hb. unfold pmm_init_entry.
  destruct (negb _); [done|]. case_test; [done|].
  eapply clear_range_spec; [done|apply addr_to_page_nonneg].
Qed.

Lemma pmm_init_ok `{Arch} bss_end bitmap_addr map s : pmm_ok (pmm_init bss_end bitmap_addr map s).
Proof.
  unfold pmm_init. apply pmm_count_used_spec. do 3 apply (proj1 (pmm_mark_used_ok _ _ _)).
  pose proof (bitmap_fill_ok s) as Hb. revert Hb.
  generalize (with_bitmap s (replicate (Z.to_nat BITMAP_BYTES) 0xFF)).
  induction map as [|e map IH]; intros t Ht; [exact Ht|].
  cbn [foldl]. by apply IH, pmm_init_entry_bitmap.
Qed.

Lemma pmm_free_ok `{Arch} s phys : pmm_ok s → 0 ≤ phys → pmm_ok (pmm_free phys s).
Proof. intros. by apply pmm_free_spec. Qed.

(** The calls other parts of the kernel make. *)
Inductive pmm_step `{Arch} : pmm → pmm → Prop :=
  | step_alloc s : pmm_step s (snd (pmm_alloc s))
  | step_alloc_n n s : 0 ≤ n → pmm_step s (snd (pmm_alloc_n n s))
  | step_free phys s : 0 ≤ phys → pmm_step s (pmm_free phys s)
  | step_free_n phys n s : pmm_step s (pmm_free_n phys n s)
  | step_mark start end_ s : pmm_step s (pmm_mark_used start end_ s).

Lemma pmm_step_ok `{Arch} s s' : pmm_ok s → pmm_step s s' → pmm_ok s'.
Proof.
  intros Hs Hst. pose proof word_bits_bound. destruct Hst as [s|n s Hn|phys s Hp|phys n s|start end_ s].
  - destruct (pmm_alloc s) eqn:E. by apply (pmm_alloc_first_fit _ _ _ Hs) in E as [? _].
  - destruct (decide (n = 0)) as [->|]; [done|].
    destruct (pmm_alloc_n n s) eqn:E. apply pmm_alloc_n_first_fit in E as [? _]; [done|done|lia].
  - by apply pmm_free_ok.
  - unfold pmm_free_n. destruct (decide (0 ≤ n)).
    + apply (for_span_inv (λ _, pmm_ok)); [lia|done|].
      intros j t _ Ht. apply pmm_free_ok; [done|]. apply wrap_bound. lia.
    + by rewrite span_nil by lia.
  - by apply pmm_mark_used_ok.
Qed.

(** C7: whatever memory map the boot loader leaves and whatever calls follow,
    the bitmap keeps its 64 KiB of bytes and [used_bytes] is exactly 4096 times
    the number of used pages, so it never exceeds 2 GiB. *)
Theorem pmm_reachable_accounting `{Arch} (bss_end bitmap_addr : Z)
    (map : list e820_entry_t) (s0 s : pmm) :
  rtc pmm_step (pmm_init bss_end bitmap_addr map s0) s →
  pmm_ok s ∧ 0 ≤ pmm_used s ≤ 2 ^ 31.
Proof.
  intros Hr. assert (pmm_ok s) as Hs.
  { revert Hr. generalize (pmm_init_ok bss_end bitmap_addr map s0). intros H0 Hr.
    induction Hr as [|x y z Hxy _ IH]; [done|]. eauto using pmm_step_ok. }
  split; [done|]. destruct Hs as [_ Hu]. unfold pmm_used. rewrite Hu.
  pose proof (count_used_bound s). unfold PAGE_SIZE, MAX_PAGES in *. lia.
Qed.

(** ** Two consequences of the integer widths and of the accounting *)

Lemma land_mask_low k x :
  0 ≤ k → Z.land x (wrap k (Z.lnot (PAGE_SIZE - 1))) =
  Z.land (x mod 2 ^ k) (wrap k (Z.lnot (PAGE_SIZE - 1))).
Proof.
  intros Hk. apply Z.bits_inj'. intros n Hn. rewrite !Z.land_spec.
  change (x mod 2 ^ k) with (wrap k x). rewrite !wrap_testbit by lia.
  destruct (bool_decide (n < k)); simpl; [done|by rewrite !andb_false_r].
Qed.

(** On the 32-bit target the page mask is 32 bits wide, so the bounds of a
    usable region are taken modulo 4 GiB: a region of [l] bytes at 4 GiB makes
    the pages from address 0 to [l] free, although none of them lies in it. *)
Theorem pmm_init_x86_high_region_aliases (bss_end bitmap_addr l j : Z) (s : pmm) :
  let _ : Arch := X86 in
  let map := [E820 (2 ^ 32) l E820_TYPE_USABLE 0] in
  image_fits bss_end bitmap_addr → 0 ≤ l < 2 ^ 32 → 0 ≤ j < MAX_PAGES →
  existsb (entry_covers j) map = false ∧
  (page_used (pmm_init bss_end bitmap_addr map s) j = false ↔
   (j + 1) * PAGE_SIZE ≤ l ∧ reserved bss_end bitmap_addr j = false).
Proof.
  intros HA map Hi Hl Hj. unfold map. split.
  { unfold entry_covers. simpl. destruct (Z.leb_spec (2 ^ 32) (j * PAGE_SIZE)); [|done].
    unfold PAGE_SIZE, MAX_PAGES in *. lia. }
  unfold pmm_init. cbn [foldl].
  set (s0 := with_bitmap s _). set (s1 := pmm_init_entry _ s0).
  assert (bitmap_ok s1 ∧ page_used s1 j = negb (bool_decide ((j + 1) * PAGE_SIZE ≤ l))) as [Hb Hu].
  { pose proof (bitmap_fill_ok s) as Hb. fold s0 in Hb.
    pose proof (bitmap_fill_used s j Hj) as Hu. fold s0 in Hu.
    unfold s1, pmm_init_entry. cbn [etype base elength]. rewrite Z.eqb_refl.
    change (negb true) with false. cbv iota.
    assert (PAGE_ALIGN64 (2 ^ 32) = 0) as -> by done.
    rewrite (wrap_small 64 (2 ^ 32 + l)) by lia.
    change (Z.land (2 ^ 32 + l) (uptr (Z.lnot (PAGE_SIZE - 1)))) with
      (Z.land (2 ^ 32 + l) (wrap 32 (Z.lnot (PAGE_SIZE - 1)))).
    rewrite land_mask_low by lia.
    replace ((2 ^ 32 + l) mod 2 ^ 32) with l by dlia.
    rewrite align_down by lia. set (q := l / PAGE_SIZE).
    destruct (Z.leb_spec (q * PAGE_SIZE) 0) as [Hle|Hgt].
    - split; [done|]. rewrite Hu, bool_decide_eq_false_2; [done|].
      unfold q, PAGE_SIZE in *. dlia.
    - rewrite !addr_to_page_div by (change (2 ^ word_bits) with (2 ^ 32); unfold q, PAGE_SIZE in *; dlia).
      replace (0 / PAGE_SIZE) with 0 by done.
      replace (q * PAGE_SIZE / PAGE_SIZE) with q by (unfold PAGE_SIZE; dlia).
      destruct (clear_range_spec 0 q (add_total (q * PAGE_SIZE - 0) s0)) as (A & _ & B);
        [done|lia|].
      split; [exact A|]. rewrite B by done.
      change (page_used (add_total _ ?t)) with (page_used t). rewrite Hu. simpl. f_equal.
      apply bool_decide_ext. unfold q, PAGE_SIZE in *. dlia. }
  destruct (pmm_init_tail bss_end bitmap_addr s1 Hb Hi) as (_ & _ & Ht).
  rewrite Ht, Hu by done. rewrite orb_false_iff, negb_false_iff. by rewrite bool_decide_eq_true.
Qed.

(** The bytes of RAM the memory map reports. *)
Definition usable_bytes (map : list e820_entry_t) : Z :=
  foldr (λ e acc, (if etype e =? E820_TYPE_USABLE then elength e else 0) + acc) 0 map.

Lemma usable_bytes_nonneg `{Arch} map : Forall entry_fits map → 0 ≤ usable_bytes map.
Proof.
  induction 1 as [|e map (? & ? & ?) _ IH]; simpl; [lia|]. case_test; lia.
Qed.

Lemma clear_page_count s i :
  bitmap_ok s → 0 ≤ i < MAX_PAGES → count_used s - 1 ≤ count_used (clear_page i s).
Proof.
  intros Hb Hi. destruct (page_used s i) eqn:Hu.
  - rewrite count_clear_used by done. lia.
  - assert (count_used (clear_page i s) = count_used s) as ->; [|lia].
    apply count_up_ext. intros j Hj. rewrite of_nat_span in Hj.
    rewrite clear_page_used by side. destruct (Z.eqb_spec i j) as [->|]; [by rewrite Hu|done].
Qed.

(** Clearing never frees more bytes than it adds to [total_bytes]. *)
Lemma pmm_init_entry_count `{Arch} e s :
  bitmap_ok s → entry_fits e →
  0 ≤ total_bytes s → total_bytes s + elength e < 2 ^ 63 →
  let s' := pmm_init_entry e s in
  let l := if etype e =? E820_TYPE_USABLE then elength e else 0 in
  bitmap_ok s' ∧ total_bytes s ≤ total_bytes s' ≤ total_bytes s + l ∧
  PAGE_SIZE * (count_used s - count_used s') ≤ total_bytes s' - total_bytes s.
Proof.
  intros Hb (H0 & H1 & H2) Ht0 Ht s' l.
  split; [by apply pmm_init_entry_bitmap|].
  unfold s', l, pmm_init_entry. pose proof word_bits_bound.
  assert (2 ^ word_bits ≤ 2 ^ 64) by (apply Z.pow_le_mono_r; lia).
  destruct (etype e =? E820_TYPE_USABLE); cbn [negb]; [|lia].
  rewrite PAGE_ALIGN64_up, (wrap_small 64 (base e + elength e)), align_down
    by (unfold PAGE_SIZE in *; lia).
  set (q := (base e + elength e) / PAGE_SIZE). set (p := (base e + PAGE_SIZE - 1) / PAGE_SIZE).
  assert (0 ≤ p) by (unfold p, PAGE_SIZE; dlia).
  assert (q * PAGE_SIZE - p * PAGE_SIZE ≤ elength e) by (unfold p, q, PAGE_SIZE in *; dlia).
  destruct (Z.leb_spec (q * PAGE_SIZE) (p * PAGE_SIZE)) as [Hle|Hgt]; [lia|].
  rewrite !addr_to_page_div by (unfold p, q, PAGE_SIZE in *; dlia).
  replace (p * PAGE_SIZE / PAGE_SIZE) with p by (unfold PAGE_SIZE; dlia).
  replace (q * PAGE_SIZE / PAGE_SIZE) with q by (unfold PAGE_SIZE; dlia).
  set (n := q * PAGE_SIZE - p * PAGE_SIZE) in *.
  edestruct (for_pages_inv (λ j t, bitmap_ok t ∧ total_bytes t = total_bytes s + n ∧
    count_used s - count_used t ≤ j - p ∧ j ≤ q) (λ p s, clear_page p s) p q (add_total n s))
    as (x & (P1 & P2 & P3 & P4) & _).
  - done.
  - split_and!; [done| |simpl; change (count_used (add_total n s)) with (count_used s); lia|].
    + cbn [add_total total_bytes]. apply wrap_small. unfold n in *. unfold PAGE_SIZE in *. lia.
    + unfold n, PAGE_SIZE in *. lia.
  - intros j t Hj Hm (T1 & T2 & T3 & T4). split_and!; [by apply clear_page_bitmap_ok|done| |lia].
    pose proof (clear_page_count t j T1 ltac:(lia)). lia.
  - rewrite P2. unfold n, PAGE_SIZE in *. lia.
Qed.

Lemma pmm_init_entries_count `{Arch} map s :
  bitmap_ok s → Forall entry_fits map →
  0 ≤ total_bytes s → total_bytes s + usable_bytes map < 2 ^ 62 →
  let s' := foldl (λ s e, pmm_init_entry e s) s map in
  bitmap_ok s' ∧ total_bytes s ≤ total_bytes s' ≤ total_bytes s + usable_bytes map ∧
  PAGE_SIZE * (count_used s - count_used s') ≤ total_bytes s' - total_bytes s.
Proof.
  revert s. induction map as [|e map IH]; intros s Hb Hf H0 H1; simpl; [split; [done|lia]|].
  apply Forall_cons_1 in Hf as [He Hf]. pose proof (usable_bytes_nonneg map Hf).
  assert (total_bytes s < 2 ^ 62).
  { destruct He as (? & ? & ?). simpl in H1. case_test; lia. }
  assert (0 ≤ elength e < 2 ^ 62 ∨ (etype e =? E820_TYPE_USABLE) = false) as Hel.
  { destruct He as (? & ? & ?). simpl in H1. case_test; [left; lia|right; done]. }
  assert (let s1 := pmm_init_entry e s in
    bitmap_ok s1 ∧ total_bytes s ≤ total_bytes s1 ≤
      total_bytes s + (if etype e =? E820_TYPE_USABLE then elength e else 0) ∧
    PAGE_SIZE * (count_used s - count_used s1) ≤ total_bytes s1 - total_bytes s) as (A & B & C).
  { destruct Hel as [Hel|Hel]; [apply pmm_init_entry_count; try done; lia|].
    unfold pmm_init_entry. rewrite Hel. cbn [negb]. split; [done|lia]. }
  simpl in H1. destruct (IH _ A Hf) as (D & E & F); [lia|lia|].
  split; [done|]. unfold PAGE_SIZE in *. lia.
Qed.

(** [used_bytes] counts the frames that hold no RAM while [total_bytes]
    counts only RAM.  On any machine with less than 1 GiB of usable memory the
    boot-time subtraction in [pmm_available] therefore wraps around, and the
    allocator reports almost 2^64 bytes available. *)
Theorem pmm_available_wraps_below_1GiB `{Arch} (bss_end bitmap_addr : Z)
    (map : list e820_entry_t) (s : pmm) :
  image_fits bss_end bitmap_addr → Forall entry_fits map →
  usable_bytes map < 2 ^ 30 → total_bytes s = 0 →
  let s' := pmm_init bss_end bitmap_addr map s in
  pmm_total s' < pmm_used s' ∧ 2 ^ 64 - 2 ^ 31 ≤ pmm_available s'.
Proof.
  intros Hi Hf Hlt H0 s'. unfold s', pmm_init.
  pose proof (bitmap_fill_ok s) as Hb. set (s0 := with_bitmap s _) in *.
  destruct (pmm_init_entries_count map s0 Hb Hf) as (B1 & B2 & B3);
    [simpl; lia|simpl; lia|].
  set (s1 := foldl _ s0 map) in *.
  destruct (pmm_init_tail bss_end bitmap_addr s1 B1 Hi) as ([_ C1] & C2 & C3).
  set (s2 := pmm_count_used _) in *.
  assert (count_used s1 ≤ count_used s2) as Hle.
  { apply count_up_mono. intros j Hj E. rewrite of_nat_span in Hj. rewrite C3 by lia. rewrite E. apply orb_true_l. }
  assert (count_used s0 = MAX_PAGES) as E0.
  { transitivity (count_up (λ _, true) (span 0 MAX_PAGES) 0);
      [|rewrite count_up_true, of_nat_span; reflexivity].
    apply count_up_ext.
    intros j Hj. rewrite of_nat_span in Hj. apply bitmap_fill_used. lia. }
  change (total_bytes s0) with (total_bytes s) in *.
  pose proof (count_used_bound s2). unfold pmm_total, pmm_used, pmm_available, PAGE_SIZE, MAX_PAGES in *.
  split; [lia|]. unfold wrap.
  rewrite <- (Z.mod_add _ 1) by lia. rewrite Z.mod_small by lia. lia.
Qed.

(** ** Concrete instances *)

(** An allocator whose pages are all free. *)
Definition all_free : pmm := Pmm (replicate (Z.to_nat BITMAP_BYTES) 0) 0 0.

Lemma all_free_used i : 0 ≤ i < MAX_PAGES → page_used all_free i = false.
Proof.
  intros Hi. unfold page_used. cbn [bitmap all_free]. rewrite rd_replicate; [apply Z.bits_0|].
  rewrite Z2Nat.id; unfold BITMAP_BYTES, MAX_PAGES in *; dlia.
Qed.

Lemma all_free_ok : pmm_ok all_free.
Proof.
  split; [split|]; cbn [bitmap used_bytes all_free].
  - rewrite length_replicate, Z2Nat.id; [reflexivity|]. unfold BITMAP_BYTES, MAX_PAGES. dlia.
  - apply Forall_replicate. lia.
  - enough (count_used all_free = 0) as -> by reflexivity.
    transitivity (count_up (λ _, false) (span 0 MAX_PAGES) 0); [|apply count_up_false].
    apply count_up_ext. intros j Hj. rewrite of_nat_span in Hj. apply all_free_used. lia.
Qed.

Lemma all_free_alloc `{Arch} :
  pmm_alloc all_free = (1 * PAGE_SIZE, add_used PAGE_SIZE (set_page 1 all_free)).
Proof.
  unfold pmm_alloc. replace (span 1 MAX_PAGES) with (S (span 1 (MAX_PAGES - 1))).
  - cbn [pmm_alloc_from]. rewrite test_page_0, all_free_used by (unfold MAX_PAGES; lia). cbn [negb].
    f_equal. apply page_address. unfold MAX_PAGES. lia.
  - rewrite <- span_S by (unfold MAX_PAGES; lia). f_equal.
Qed.

Lemma pmm_alloc_first_fit_witness :
  let _ : Arch := X86_64 in
  pmm_ok all_free ∧ pmm_alloc all_free = (1 * PAGE_SIZE, add_used PAGE_SIZE (set_page 1 all_free)) ∧
  pmm_ok (add_used PAGE_SIZE (set_page 1 all_free)).
Proof.
  intros HA. split; [apply all_free_ok|]. split; [apply all_free_alloc|].
  exact (proj1 (pmm_alloc_first_fit all_free _ _ all_free_ok all_free_alloc)).
Defined.

Lemma pmm_alloc_n_first_fit_witness :
  let _ : Arch := X86 in
  pmm_ok all_free ∧ 1 ≤ 3 ∧ pmm_ok (snd (pmm_alloc_n 3 all_free)).
Proof.
  intros HA. split; [apply all_free_ok|]. split; [lia|].
  exact (proj1 (pmm_alloc_n_first_fit 3 all_free (fst (pmm_alloc_n 3 all_free))
    (snd (pmm_alloc_n 3 all_free)) all_free_ok ltac:(lia) (surjective_pairing _))).
Defined.

Lemma pmm_free_spec_witness :
  let _ : Arch := X86 in
  pmm_ok all_free ∧ used_bytes (pmm_free 0x5000 all_free) = 0.
Proof.
  intros HA. split; [apply all_free_ok|].
  destruct (pmm_free_spec all_free 0x5000 all_free_ok ltac:(lia)) as (_ & _ & -> & _).
  rewrite all_free_used by (unfold PAGE_SIZE, MAX_PAGES; dlia).
  rewrite andb_false_r. reflexivity.
Defined.

Lemma pmm_free_alloc_id_witness :
  let _ : Arch := X86_64 in
  pmm_alloc all_free = (1 * PAGE_SIZE, add_used PAGE_SIZE (set_page 1 all_free)) ∧
  pmm_free (1 * PAGE_SIZE) (add_used PAGE_SIZE (set_page 1 all_free)) = all_free.
Proof.
  intros HA. split; [apply all_free_alloc|].
  apply (pmm_free_alloc_id all_free _ _ all_free_ok all_free_alloc). unfold PAGE_SIZE. lia.
Defined.

(** A 128 MiB PC: conventional memory and one region above 1 MiB. *)
Definition pc_map : list e820_entry_t :=
  [E820 0 0x9FC00 E820_TYPE_USABLE 0; E820 0xF0000 0x10000 2 0;
   E820 0x100000 0x7F00000 E820_TYPE_USABLE 0].

Lemma pc_map_fits `{Arch} : Forall entry_fits pc_map ∧ image_fits 0x140000 0x120000.
Proof.
  unfold entry_fits, image_fits, pc_map. change BITMAP_BYTES with 65536.
  destruct word_bits_cases as [-> | ->]; unfold PAGE_SIZE.
  all: split; [repeat apply Forall_cons_2; try apply Forall_nil_2; simpl|]; lia.
Qed.

Lemma pmm_init_spec_witness :
  let _ : Arch := X86 in
  Forall entry_fits pc_map ∧ image_fits 0x140000 0x120000 ∧
  page_used (pmm_init 0x140000 0x120000 pc_map all_free) 0x200 = false ∧
  page_used (pmm_init 0x140000 0x120000 pc_map all_free) 0x130 ≠ false.
Proof.
  intros HA. destruct pc_map_fits as [Hf Hi]. split; [exact Hf|]. split; [exact Hi|].
  destruct (pmm_init_spec 0x140000 0x120000 pc_map all_free Hi Hf) as [_ Hp]. split.
  - apply (Hp 0x200); [unfold MAX_PAGES; lia|]. by vm_compute.
  - rewrite (Hp 0x130) by (unfold MAX_PAGES; lia). by vm_compute; intros [_ ?].
Defined.

Lemma pmm_reachable_accounting_witness :
  let _ : Arch := X86_64 in
  let s := pmm_init 0x140000 0x120000 pc_map all_free in
  rtc pmm_step s (pmm_free 0x5000 s) ∧ 0 ≤ pmm_used (pmm_free 0x5000 s) ≤ 2 ^ 31.
Proof.
  intros HA s. assert (rtc pmm_step s (pmm_free 0x5000 s)) as Hr.
  { apply rtc_once, step_free. lia. }
  split; [exact Hr|].
  apply (pmm_reachable_accounting 0x140000 0x120000 pc_map all_free (pmm_free 0x5000 s)).
  exact Hr.
Defined.

Lemma pmm_init_x86_high_region_aliases_witness :
  let _ : Arch := X86 in
  image_fits 0x140000 0x120000 ∧
  page_used (pmm_init 0x140000 0x120000 [E820 (2 ^ 32) 0x80000000 1 0] all_free) 0x1000 = false.
Proof.
  intros HA. assert (image_fits 0x140000 0x120000) as Hi by apply (@pc_map_fits X86).
  split; [exact Hi|].
  apply (pmm_init_x86_high_region_aliases 0x140000 0x120000 0x80000000 0x1000 all_free Hi);
    [lia|unfold MAX_PAGES; lia|]. by vm_compute.
Defined.

Lemma pmm_available_wraps_below_1GiB_witness :
  let _ : Arch := X86 in
  usable_bytes pc_map < 2 ^ 30 ∧
  2 ^ 64 - 2 ^ 31 ≤ pmm_available (pmm_init 0x140000 0x120000 pc_map all_free).
Proof.
  intros HA. destruct pc_map_fits as [Hf Hi]. split; [by vm_compute|].
  apply (pmm_available_wraps_below_1GiB 0x140000 0x120000 pc_map all_free Hi Hf);
    [by vm_compute|reflexivity].
Defined.
