(* ===== verification/Paging.v ===== *)
(** Page tables in physical memory: what src/kernel/mm/vmm.c and
    src/arch/x86_64/mm/vmm.c share.

    A table is a page of entries; an entry with the present bit points to the
    next table, unless it is a large page at the one level where the code looks
    for large pages.  [walk] follows a path of indices from the root. *)
From S2P Require Import Prelude CString Pmm.

(** ** The interface of the page allocator *)

(** [page_alloc] returns the address of a page nobody holds and hands it out,
    or 0 and changes nothing. *)
Class PageAlloc (P : Type) := {
  page_alloc : P → Z * P;
  page_inv : P → Prop;
  page_taken : P → Z → Prop;
  page_alloc_spec : ∀ s r s', page_inv s → page_alloc s = (r, s') →
    page_inv s' ∧
    (r = 0 ∧ s' = s ∨
     0 < r ∧ r + 4096 ≤ 2 ^ 32 ∧ r mod 4096 = 0 ∧ ¬ page_taken s r ∧
     ∀ a, a mod 4096 = 0 → (page_taken s' a ↔ page_taken s a ∨ a = r))
}.

(** The physical page allocator implements it. *)
#[export] Program Instance pmm_page_alloc `{Arch} : PageAlloc pmm := {
  page_alloc := pmm_alloc;
  page_inv := pmm_ok;
  page_taken s a := 0 ≤ a ∧ page_used s (a / 4096) = true
}.
Next Obligation.
  intros HA s r s' Hs E.
  destruct (pmm_alloc_from_spec (span 1 MAX_PAGES) 1 s r s' Hs) as [Hs' [(-> & -> & _)|(k & -> & Hk & _ & Hp)]].
  { lia. } { rewrite of_nat_span. unfold MAX_PAGES. lia. } { intros; lia. } { exact E. }
  { split; [done|]. by left. }
  split; [done|]. right. unfold PAGE_SIZE, MAX_PAGES in *. destruct Hp as (A & B & _).
  split; [lia|]. split; [lia|]. split; [apply Z.mod_mul; lia|]. rewrite Z.div_mul by lia.
  split. { intros [_ Hu]. destruct (A k ltac:(lia)) as [Hf _]. congruence. }
  intros a Ha. destruct (decide (a = k * 4096)) as [->|Hne].
  - rewrite Z.div_mul by lia. split; [by right|]. intros _. split; [lia|]. apply A. lia.
  - destruct (decide (0 ≤ a)) as [Hpos|]; [|naive_solver lia].
    assert (a / 4096 ≠ k) by (intros <-; apply Hne; dlia).
    rewrite (B (a / 4096)); [naive_solver|dlia|lia].
Qed.

(** ** Tables *)

Definition PTE_PRESENT : Z := 0x01.
Definition PTE_WRITABLE : Z := 0x02.
Definition PTE_HUGE : Z := 0x80.

Section tables.
(** Entries of [es] bytes, [nent] to a page; large pages at level [huge_level];
    page-table pages at level [depth]. *)
Context (es : nat) (nent huge_level : Z) (depth : nat).
Context (es_pos : (2 ≤ es)%nat) (page_size : Z.of_nat es * nent = 4096).

Definition entry (m : memory) (t i : Z) : Z := ld_le es (t + Z.of_nat es * i) m.
Definition set_entry (t i v : Z) (m : memory) : memory := st_le es (t + Z.of_nat es * i) v m.

(** The width of an entry. *)
Definition ew : Z := 8 * Z.of_nat es.

(** [e & ~0xFFF] *)
Definition frame (e : Z) : Z := Z.land e (wrap ew (Z.lnot 0xFFF)).

(** Whether an entry at level [lvl] points to a table. *)
Definition points (lvl e : Z) : bool :=
  Z.testbit e 0 && negb ((lvl =? huge_level) && Z.testbit e 7).

Fixpoint walk (m : memory) (lvl t : Z) (p : list Z) : option Z :=
  match p with
  | [] => Some t
  | i :: p =>
      let e := entry m t i in
      if points lvl e then walk m (lvl + 1) (frame e) p else None
  end.

Definition index_ok (i : Z) : Prop := 0 ≤ i < nent.

Lemma ew_bound : 16 ≤ ew.
Proof. unfold ew. lia. Qed.

Lemma index_bound i : index_ok i → 0 ≤ Z.of_nat es * i ∧ Z.of_nat es * i + Z.of_nat es ≤ 4096.
Proof.
  unfold index_ok. intros Hi. split; [nia|]. rewrite <- page_size. nia.
Qed.

Lemma entry_set m t i v t' i' :
  t mod 4096 = 0 → t' mod 4096 = 0 → index_ok i → index_ok i' → 0 ≤ v < 2 ^ ew →
  entry (set_entry t i v m) t' i' = if decide (t' = t ∧ i' = i) then v else entry m t' i'.
Proof.
  intros Ht Ht' Hi Hi' Hv. pose proof (index_bound i Hi). pose proof (index_bound i' Hi').
  unfold entry, set_entry. case_decide as Hd.
  - destruct Hd as [-> ->]. rewrite ld_st_le_eq. by apply wrap_small.
  - apply ld_le_ext. intros b Hb. apply ld_st_le_ne.
    destruct (decide (t' = t)) as [->|Hne].
    + assert (i' ≠ i) by tauto.
      assert (Z.of_nat es * i' + Z.of_nat es ≤ Z.of_nat es * i ∨
              Z.of_nat es * i + Z.of_nat es ≤ Z.of_nat es * i') by nia. lia.
    + assert (t' + 4096 ≤ t ∨ t + 4096 ≤ t') by dlia. lia.
Qed.

Lemma entry_clear m pa t i :
  pa mod 4096 = 0 → t mod 4096 = 0 → index_ok i →
  entry (memset pa 0 4096 m) t i = if decide (t = pa) then 0 else entry m t i.
Proof.
  intros Hp Ht Hi. pose proof (index_bound i Hi). unfold entry. case_decide as Hd.
  - subst. transitivity (ld_le es (pa + Z.of_nat es * i) ∅).
    + apply ld_le_ext. intros b Hb. rewrite memset_spec, decide_True by lia. done.
    + generalize (pa + Z.of_nat es * i). clear. induction es as [|n IH]; intros a; simpl; [done|].
      by rewrite IH.
  - apply ld_le_ext. intros b Hb. rewrite memset_spec by lia. rewrite decide_False; [done|].
    assert (t + 4096 ≤ pa ∨ pa + 4096 ≤ t) by dlia. lia.
Qed.

Lemma walk_app m p q : ∀ lvl t,
  walk m lvl t (p ++ q) =
  match walk m lvl t p with Some t' => walk m (lvl + Z.of_nat (length p)) t' q | None => None end.
Proof.
  induction p as [|i p IH]; intros lvl t; simpl; [by rewrite Z.add_0_r|].
  destruct (points _ _); [|done]. rewrite IH.
  by replace (lvl + 1 + Z.of_nat (length p)) with (lvl + Z.of_nat (S (length p))) by lia.
Qed.

(** *** The invariant: the tables form a tree of pages the kernel holds *)

Definition path_ok (p : list Z) : Prop := (length p ≤ depth)%nat ∧ Forall index_ok p.

Definition tables_ok `{PageAlloc P} (root : Z) (s : P) (m : memory) : Prop :=
  page_inv s ∧
  (∀ p t, path_ok p → walk m 0 root p = Some t → t mod 4096 = 0 ∧ page_taken s t) ∧
  (∀ p q t, path_ok p → path_ok q → walk m 0 root p = Some t → walk m 0 root q = Some t → p = q).

Lemma path_ok_prefix p q : path_ok (p ++ q) → path_ok p.
Proof.
  intros [A B]. rewrite length_app in A. apply Forall_app in B as [B _]. split; [lia|done].
Qed.

Lemma path_ok_snoc p i : path_ok p → (length p < depth)%nat → index_ok i → path_ok (p ++ [i]).
Proof.
  intros [A B] Hl Hi. split; [rewrite length_app; simpl; lia|]. apply Forall_app. split; [done|].
  by apply Forall_singleton.
Qed.

(** The entry [get_or_create] and [vmm_map] install for a new table. *)
Definition link_entry (pa : Z) : Z := Z.lor (Z.lor pa PTE_PRESENT) PTE_WRITABLE.

Lemma frame_link pa : 0 ≤ pa < 2 ^ ew → pa mod 4096 = 0 →
  frame (link_entry pa) = pa ∧ 0 ≤ link_entry pa < 2 ^ ew ∧ ∀ lvl, points lvl (link_entry pa) = true.
Proof.
  intros Hp Hm. pose proof ew_bound.
  assert (∀ x, 0 ≤ x < 4096 → Z.land x (wrap ew (Z.lnot 0xFFF)) = 0) as Hlow.
  { intros x Hx. change 0xFFF with (2 ^ 12 - 1).
    assert (2 ^ 16 ≤ 2 ^ ew) by (apply Z.pow_le_mono_r; lia).
    rewrite land_align_mask by lia. rewrite Z.mod_small by lia. lia. }
  split.
  - unfold frame, link_entry. rewrite !Z.land_lor_distr_l.
    rewrite (Hlow PTE_PRESENT), (Hlow PTE_WRITABLE), !Z.lor_0_r by (unfold PTE_PRESENT, PTE_WRITABLE; lia).
    change 0xFFF with (2 ^ 12 - 1). rewrite land_align_mask by lia.
    change (2 ^ 12) with 4096. lia.
  - split.
    + unfold link_entry. split; [rewrite !Z.lor_nonneg; unfold PTE_PRESENT, PTE_WRITABLE; lia|].
      destruct (decide (Z.lor (Z.lor pa PTE_PRESENT) PTE_WRITABLE = 0)) as [->|Hne]; [lia|].
      assert (0 ≤ Z.lor (Z.lor pa PTE_PRESENT) PTE_WRITABLE) by
        (rewrite !Z.lor_nonneg; unfold PTE_PRESENT, PTE_WRITABLE; lia).
      apply Z.log2_lt_pow2; [lia|]. rewrite !Z.log2_lor by (rewrite ?Z.lor_nonneg; unfold PTE_PRESENT, PTE_WRITABLE; lia).
      change (Z.log2 PTE_PRESENT) with 0. change (Z.log2 PTE_WRITABLE) with 1.
      assert (Z.log2 pa < ew); [|lia]. destruct (decide (pa = 0)) as [->|]; [simpl; lia|].
      apply Z.log2_lt_pow2; lia.
    + intros lvl. unfold points, link_entry. rewrite !Z.lor_spec.
      assert (Z.testbit pa 7 = false) as -> by (apply (aligned_testbit 12); [done|lia]).
      change (Z.testbit PTE_PRESENT 0) with true. change (Z.testbit PTE_PRESENT 7) with false.
      change (Z.testbit PTE_WRITABLE 7) with false. rewrite orb_true_r. simpl.
      by rewrite andb_false_r.
Qed.

(** Writing an entry of a table at the last level moves no table. *)
Lemma walk_set_leaf `{PageAlloc P} root (s : P) m p t i v :
  tables_ok root s m → path_ok p → length p = depth → walk m 0 root p = Some t → index_ok i →
  0 ≤ v < 2 ^ ew →
  ∀ q, path_ok q → walk (set_entry t i v m) 0 root q = walk m 0 root q.
Proof.
  intros (I & T & U) Hp Hl Hw Hi Hv q. destruct (T p t Hp Hw) as [Ht _].
  induction q as [|j q IH] using rev_ind; intros Hq; [done|].
  pose proof (path_ok_prefix _ _ Hq) as Hq'. rewrite !walk_app, IH by done.
  destruct (walk m 0 root q) as [t'|] eqn:E; [|done]. simpl.
  destruct (T q t' Hq' E) as [Ht' _]. destruct Hq as [Lq Fq].
  rewrite length_app in Lq. simpl in Lq. apply Forall_app in Fq as [_ Fj%Forall_inv].
  rewrite entry_set by done. rewrite decide_False; [done|].
  intros [-> _]. pose proof (U p q t Hp Hq' Hw E) as ->. lia.
Qed.

Lemma tables_ok_set_leaf `{PageAlloc P} root (s : P) m p t i v :
  tables_ok root s m → path_ok p → length p = depth → walk m 0 root p = Some t → index_ok i →
  0 ≤ v < 2 ^ ew → tables_ok root s (set_entry t i v m).
Proof.
  intros Hok Hp Hl Hw Hi Hv. pose proof (walk_set_leaf root s m p t i v Hok Hp Hl Hw Hi Hv) as E.
  destruct Hok as (I & T & U). split; [done|]. split.
  - intros q t' Hq. rewrite E by done. by apply T.
  - intros q r t' Hq Hr. rewrite !E by done. by apply U.
Qed.

(** Linking a fresh cleared page adds exactly one path. *)
Lemma tables_link `{PageAlloc P} root (s s' : P) m p t i pa :
  tables_ok root s m → path_ok p → (length p < depth)%nat → walk m 0 root p = Some t → index_ok i →
  points (Z.of_nat (length p)) (entry m t i) = false → 2 ^ 32 ≤ 2 ^ ew →
  page_alloc s = (pa, s') → pa ≠ 0 →
  let m' := set_entry t i (link_entry pa) (memset pa 0 4096 m) in
  tables_ok root s' m' ∧
  (∀ q, path_ok q → walk m' 0 root q = if decide (q = p ++ [i]) then Some pa else walk m 0 root q) ∧
  (∀ t' j, t' mod 4096 = 0 → index_ok j →
     entry m' t' j = if decide (t' = t ∧ j = i) then link_entry pa
                     else if decide (t' = pa) then 0 else entry m t' j) ∧
  pa mod 4096 = 0 ∧ ¬ page_taken s pa ∧ 0 ≤ pa < 2 ^ ew.
Proof.
  intros Hok Hp Hl Hw Hi Hnp Hew Ea Hpa m'. pose proof Hok as (I & T & U).
  destruct (page_alloc_spec s pa s' I Ea) as [I' [[-> _]|(P1 & P2 & P3 & P4 & P5)]]; [done|].
  assert (0 ≤ pa < 2 ^ ew) as Hpa' by lia. destruct (T p t Hp Hw) as [Ht Htt].
  destruct (frame_link pa Hpa' P3) as (L1 & L2 & L3).
  assert (t ≠ pa) as Htp by (intros ->; done).
  assert (∀ t' j, t' mod 4096 = 0 → index_ok j →
     entry m' t' j = if decide (t' = t ∧ j = i) then link_entry pa
                     else if decide (t' = pa) then 0 else entry m t' j) as He.
  { intros t' j Ht' Hj. unfold m'. rewrite entry_set by done. case_decide; [done|]. by rewrite entry_clear. }
  assert (walk m 0 root (p ++ [i]) = None) as Hnone.
  { rewrite walk_app, Hw. cbn [walk]. by rewrite Z.add_0_l, Hnp. }
  assert (∀ q, path_ok q → walk m' 0 root q = if decide (q = p ++ [i]) then Some pa else walk m 0 root q) as Hwalk.
  { intros q. induction q as [|j q IH] using rev_ind; intros Hq.
    { rewrite decide_False; [done|]. by destruct p. }
    pose proof (path_ok_prefix _ _ Hq) as Hq'. destruct Hq as [_ Fq].
    apply Forall_app in Fq as [_ Fj%Forall_inv].
    rewrite !walk_app, IH by done. destruct (decide (q = p ++ [i])) as [->|Hqn].
    - rewrite Hnone, decide_False.
      2: { intros Heq. apply (f_equal length) in Heq. rewrite !length_app in Heq. simpl in Heq. lia. }
      cbn [walk]. rewrite He by done. rewrite decide_False by (intros [-> _]; done).
      by rewrite decide_True by done.
    - destruct (walk m 0 root q) as [t'|] eqn:Eq.
      2: { rewrite decide_False; [done|]. intros [-> ->]%app_inj_tail. congruence. }
      destruct (T q t' Hq' Eq) as [Ht' Htt']. cbn [walk]. rewrite He by done.
      case_decide as Hd.
      + destruct Hd as [-> ->]. pose proof (U p q t Hp Hq' Hw Eq) as <-.
        rewrite decide_True by done. by rewrite L3, L1.
      + rewrite decide_False by (intros ->; done). rewrite decide_False; [done|].
        intros [-> ->]%app_inj_tail. apply Hd. split; [congruence|done]. }
  assert (path_ok (p ++ [i])) as Hpi by (by apply path_ok_snoc).
  split; [|done]. split; [done|]. split.
  - intros q t' Hq. rewrite Hwalk by done. case_decide.
    + intros [= <-]. split; [done|]. apply P5; auto.
    + intros E. destruct (T q t' Hq E) as [A B]. split; [done|]. apply P5; auto.
  - intros q r t' Hq Hr. rewrite !Hwalk by done. repeat case_decide; [congruence| | |by apply U].
    + intros [= <-] E. by destruct (T r pa Hr E).
    + intros E [= <-]. by destruct (T q pa Hq E).
Qed.
(** *** What an address translates to *)

Inductive mapping := Unmapped | Small (e : Z) | Large (e : Z).

(** The entry reached by the path [q] and the index [j] in the last table. *)
Definition target (m : memory) (root : Z) (q : list Z) (j : Z) : mapping :=
  match walk m 0 root q with
  | Some t => let e := entry m t j in if Z.testbit e 0 then Small e else Unmapped
  | None =>
      match walk m 0 root (removelast q) with
      | Some t => let e := entry m t (List.last q 0) in if Z.testbit e 0 then Large e else Unmapped
      | None => Unmapped
      end
  end.

(** A path to a last-level table ends with an index into its parent. *)
Lemma path_split q : path_ok q → length q = depth → (0 < depth)%nat →
  q = removelast q ++ [List.last q 0] ∧ path_ok (removelast q) ∧
  (length (removelast q) < depth)%nat ∧ index_ok (List.last q 0).
Proof.
  intros Hq Hl Hd. assert (q ≠ []) as Hne by (intros ->; simpl in Hl; lia).
  pose proof (app_removelast_last 0 Hne) as E. split; [exact E|].
  pose proof Hq as Hq'. rewrite E in Hq'. split; [by eapply path_ok_prefix|]. split.
  - rewrite E, length_app in Hl. simpl in Hl. lia.
  - destruct Hq' as [_ Hf]. by apply Forall_app in Hf as [_ ?%Forall_inv].
Qed.

(** Writing a last-level entry changes the translation of one page. *)
Lemma target_set_leaf `{PageAlloc P} root (s : P) m p t i v :
  tables_ok root s m → path_ok p → length p = depth → (0 < depth)%nat →
  walk m 0 root p = Some t → index_ok i → 0 ≤ v < 2 ^ ew →
  ∀ q j, path_ok q → length q = depth → index_ok j →
  target (set_entry t i v m) root q j =
    if decide (q = p ∧ j = i) then if Z.testbit v 0 then Small v else Unmapped else target m root q j.
Proof.
  intros Hok Hp Hl Hd Hw Hi Hv q j Hq Hlq Hj.
  pose proof (walk_set_leaf root s m p t i v Hok Hp Hl Hw Hi Hv) as E. pose proof Hok as (I & T & U).
  destruct (T p t Hp Hw) as [Ht _]. destruct (path_split q Hq Hlq Hd) as (Eq & Hq' & Hl' & Hil).
  unfold target. rewrite E by done. destruct (walk m 0 root q) as [t'|] eqn:Ew'.
  - destruct (T q t' Hq Ew') as [Ht' _]. rewrite entry_set by done.
    destruct (decide (t' = t ∧ j = i)) as [[-> ->]|Hne].
    + pose proof (U p q t Hp Hq Hw Ew') as <-. by rewrite decide_True by done.
    + rewrite decide_False; [done|]. intros [-> ->]. apply Hne. split; [congruence|done].
  - rewrite decide_False by (intros [-> _]; congruence). rewrite E by done.
    destruct (walk m 0 root (removelast q)) as [t'|] eqn:Ew2; [|done].
    destruct (T _ t' Hq' Ew2) as [Ht' _]. rewrite entry_set by done.
    rewrite decide_False; [done|]. intros [-> _]. pose proof (U _ _ t Hp Hq' Hw Ew2) as Ep.
    rewrite Ep in Hl. lia.
Qed.

(** Linking a fresh table changes no translation. *)
Lemma target_link `{PageAlloc P} root (s s' : P) m p t i pa :
  tables_ok root s m → path_ok p → (length p < depth)%nat → walk m 0 root p = Some t → index_ok i →
  Z.testbit (entry m t i) 0 = false → 2 ^ 32 ≤ 2 ^ ew →
  page_alloc s = (pa, s') → pa ≠ 0 →
  ∀ q j, path_ok q → length q = depth → index_ok j →
  target (set_entry t i (link_entry pa) (memset pa 0 4096 m)) root q j = target m root q j.
Proof.
  intros Hok Hp Hl Hw Hi Hnp Hew Ea Hpa q j Hq Hlq Hj.
  assert (points (Z.of_nat (length p)) (entry m t i) = false) as Hpt by (unfold points; by rewrite Hnp).
  destruct (tables_link root s s' m p t i pa Hok Hp Hl Hw Hi Hpt Hew Ea Hpa)
    as (Hok' & W & E & Pa & Ptk & Pb).
  pose proof Hok as (I & T & U). destruct (T p t Hp Hw) as [Ht Htt].
  destruct (path_split q Hq Hlq ltac:(lia)) as (Eq & Hq' & Hl' & Hil).
  assert (walk m 0 root (p ++ [i]) = None) as Hnone.
  { rewrite walk_app, Hw. cbn [walk]. by rewrite Z.add_0_l, Hpt. }
  assert (t ≠ pa) as Htp by (intros ->; done).
  unfold target. rewrite W by done. destruct (decide (q = p ++ [i])) as [Hqp|Hqp].
  - rewrite E by done. rewrite decide_False by (intros [? _]; congruence).
    rewrite decide_True by done. rewrite Z.testbit_0_l. rewrite Hqp, Hnone, removelast_last, Hw, last_last.
    by rewrite Hnp.
  - destruct (walk m 0 root q) as [t'|] eqn:Ew'.
    + destruct (T q t' Hq Ew') as [Ht' Htt']. rewrite E by done.
      rewrite decide_False, decide_False; [done|by intros ->|].
      intros [-> _]. pose proof (U p q t Hp Hq Hw Ew') as ->. lia.
    + rewrite W by done. destruct (decide (removelast q = p ++ [i])) as [Hr|Hr].
      * rewrite Hr, Hnone. rewrite E by done. rewrite decide_False by (intros [? _]; congruence).
        by rewrite decide_True, Z.testbit_0_l by done.
      * destruct (walk m 0 root (removelast q)) as [t'|] eqn:Ew2; [|done].
        destruct (T _ t' Hq' Ew2) as [Ht' Htt']. rewrite E by done.
        rewrite decide_False, decide_False; [done|by intros ->|].
        intros [-> Ei]. apply Hqp. rewrite Eq, Ei. f_equal. symmetry. by eapply U.
Qed.
End tables.

(** ** A cleared root *)

Lemma tables_ok_cleared es nent hl depth `{PageAlloc P} root (s : P) m :
  (2 ≤ es)%nat → Z.of_nat es * nent = 4096 → page_inv s → root mod 4096 = 0 → page_taken s root →
  (∀ i, index_ok nent i → points hl 0 (entry es m root i) = false) →
  tables_ok es nent hl depth root s m.
Proof.
  intros H1 H2 Hi Hr Ht Hz.
  assert (∀ p t, path_ok nent depth p → walk es hl m 0 root p = Some t → p = [] ∧ t = root) as Hw.
  { intros [|i p] t [_ Hf] E; simpl in E; [split; [done|congruence]|].
    inversion_clear Hf. rewrite Hz in E by done. done. }
  split; [done|]. split.
  - intros p t Hp E. destruct (Hw p t Hp E) as [_ ->]. done.
  - intros p q t Hp Hq E1 E2. destruct (Hw p t Hp E1) as [-> _]. by destruct (Hw q t Hq E2) as [-> _].
Qed.

(** ** Numbers as a page and an offset *)

Lemma frame_div es x : (2 ≤ es)%nat → 0 ≤ x < 2 ^ ew es → frame es x = x / 4096 * 4096.
Proof.
  intros He Hx. pose proof (ew_bound es He). unfold frame. change 0xFFF with (2 ^ 12 - 1).
  rewrite land_align_mask by lia. change (2 ^ 12) with 4096. dlia.
Qed.

Lemma lor_low k a b : 0 ≤ k → Z.lor (a * 2 ^ k) (b mod 2 ^ k) = a * 2 ^ k + b mod 2 ^ k.
Proof.
  intros Hk. symmetry. assert (Z.land (a * 2 ^ k) (b mod 2 ^ k) = 0) as E.
  { apply Z.bits_inj'. intros n Hn. rewrite Z.land_spec, Z.testbit_0_l.
    destruct (decide (n < k)).
    - rewrite Z.mul_pow2_bits_low by lia. done.
    - rewrite Z.mod_pow2_bits_high by lia. by rewrite andb_false_r. }
  rewrite Z.add_nocarry_lxor by done. by apply Z.lxor_lor.
Qed.

Lemma page_offset es x v : (2 ≤ es)%nat → 0 ≤ x < 2 ^ ew es →
  Z.lor (frame es x) (Z.land v 0xFFF) = x / 4096 * 4096 + v mod 4096.
Proof.
  intros He Hx. rewrite frame_div by done. change 0xFFF with (Z.ones 12). rewrite Z.land_ones by lia.
  by apply (lor_low 12).
Qed.

(** The entry [vmm_map] writes: the frame of [phys], low flag bits, present. *)
Lemma leaf_entry es phys fl : (2 ≤ es)%nat → 0 ≤ phys < 2 ^ ew es → 0 ≤ fl < 4096 →
  let e := Z.lor (Z.lor (frame es phys) fl) PTE_PRESENT in
  0 ≤ e < 2 ^ ew es ∧ Z.testbit e 0 = true ∧ e / 4096 = phys / 4096.
Proof.
  intros He Hp Hf e. pose proof (ew_bound es He).
  assert (Z.lor fl PTE_PRESENT = Z.lor fl 1 mod 2 ^ 12) as El.
  { rewrite Z.mod_small; [done|]. split; [apply Z.lor_nonneg; lia|].
    destruct (decide (Z.lor fl 1 = 0)) as [->|]; [lia|].
    assert (0 ≤ Z.lor fl 1) by (apply Z.lor_nonneg; lia).
    apply Z.log2_lt_pow2; [lia|]. rewrite Z.log2_lor by lia.
    destruct (decide (fl = 0)) as [->|]; [simpl; lia|].
    assert (Z.log2 fl < 12) by (apply Z.log2_lt_pow2; lia). simpl. lia. }
  assert (e = phys / 4096 * 4096 + Z.lor fl 1 mod 4096) as Ee.
  { unfold e. rewrite frame_div by done. rewrite <- Z.lor_assoc, El. by apply (lor_low 12). }
  split; [|split].
  - rewrite Ee. assert (2 ^ ew es = 4096 * 2 ^ (ew es - 12)) as Ew.
    { change 4096 with (2 ^ 12). rewrite <- Z.pow_add_r by lia. f_equal. lia. }
    assert (0 ≤ phys / 4096 < 2 ^ (ew es - 12)).
    { split; [apply Z.div_pos; lia|]. apply Z.div_lt_upper_bound; lia. }
    pose proof (Z.mod_pos_bound (Z.lor fl 1) 4096). nia.
  - unfold e. rewrite Z.lor_spec. change (Z.testbit PTE_PRESENT 0) with true. apply orb_true_r.
  - rewrite Ee. dlia.
Qed.

(** ** A bump allocator, for concrete instances *)

(** The next page to hand out; pages below 2 GiB. *)
Definition bump_alloc (n : Z) : Z * Z := if n <? 2 ^ 31 then (n, n + 4096) else (0, n).

#[export] Program Instance bump_page_alloc : PageAlloc Z := {
  page_alloc := bump_alloc;
  page_inv n := 4096 ≤ n ∧ n mod 4096 = 0;
  page_taken n a := a < n
}.
Next Obligation.
  intros n r n' [Hn Hm] E. unfold bump_alloc in E. case_test; injection E as <- <-.
  - split; [split; [lia|dlia]|]. right. split_and!; try lia. intros a Ha. split; [|lia].
    intros Hlt. destruct (decide (a = n)); [by right|]. left. dlia.
  - split; [done|]. by left.
Qed.
