(* ===== verification/Vmm.v ===== *)
(** Virtual memory: src/kernel/mm/vmm.c (two levels, 4 MiB large pages) and
    src/arch/x86_64/mm/vmm.c (four levels, 2 MiB large pages).

    [root] is the address of the static top table.  The code reads and writes
    tables through their physical addresses, as the identity mapping allows.  The
    lemmas on [maps32] and [maps64] say what each operation does to the mapping
    of every page and to the cached translations. *)
From S2P Require Import Prelude CString Pmm Paging.

(** The control registers, and the translations the processor has cached, by
    page number: it may add the translation of any page that has one and drop any
    entry at any time; loading CR3 and [invlpg] make it drop them. *)
Record mmu := Mmu { cr0 : Z; cr3 : Z; cr4 : Z; tlb : gmap Z mapping }.

(** The page allocator, physical memory and the processor's part. *)
Record vmm (P : Type) := Vmm { pages : P; pmem : memory; v_mmu : mmu }.
Arguments Vmm {P}. Arguments pages {P}. Arguments pmem {P}. Arguments v_mmu {P}.

(** The page number within the 48 bits that are translated. *)
Definition vpage (v : Z) : Z := (v / 4096) mod 2 ^ 36.

Section state.
Context {P : Type}.
Definition with_pmem (s : vmm P) (m : memory) : vmm P := Vmm (pages s) m (v_mmu s).
Definition with_pages (s : vmm P) (p : P) : vmm P := Vmm p (pmem s) (v_mmu s).
Definition load_cr (s : vmm P) (c0 c3 c4 : Z) : vmm P := Vmm (pages s) (pmem s) (Mmu c0 c3 c4 ∅).
Definition with_tlb (s : vmm P) (t : gmap Z mapping) : vmm P :=
  Vmm (pages s) (pmem s) (Mmu (cr0 (v_mmu s)) (cr3 (v_mmu s)) (cr4 (v_mmu s)) t).

(** The same on both targets. *)
Definition vmm_flush_tlb (virt : Z) (s : vmm P) : vmm P := with_tlb s (delete (vpage virt) (tlb (v_mmu s))).
End state.

Module Vmm32.
Definition IDENTITY_MB : Z := 128.
Definition PDE_PRESENT : Z := 0x01.
Definition PDE_WRITABLE : Z := 0x02.
Definition PDE_PS : Z := 0x80.

Abbreviation rd_e m t i := (entry 4 m t i).
Abbreviation wr_e t i v m := (set_entry 4 t i v m).

Section code.
Context `{PageAlloc P}.

Definition vmm_init (root : Z) (s : vmm P) : vmm P :=
  let m := memset root 0 4096 (pmem s) in
  let m := for_up (λ i m, wr_e root i
             (Z.lor (Z.lor (Z.lor (u32 (i * 0x400000)) PDE_PRESENT) PDE_WRITABLE) PDE_PS) m)
             (span 0 (IDENTITY_MB / 4)) 0 m in
  load_cr (with_pmem s m) (Z.lor (cr0 (v_mmu s)) (Z.shiftl 1 31)) root (Z.lor (cr4 (v_mmu s)) (Z.shiftl 1 4)).

Definition vmm_map (root virt phys flags : Z) (s : vmm P) : outcome (vmm P) :=
  let pdi := Z.shiftr virt 22 in
  let pti := Z.land (Z.shiftr virt 12) 0x3FF in
  if negb (Z.land (rd_e (pmem s) root pdi) PDE_PS =? 0) then
    Panic "vmm_map: cannot map within PSE region (virt=%x)"
  else
    '(pt, s) ← (if Z.land (rd_e (pmem s) root pdi) PDE_PRESENT =? 0 then
                  let '(pa, p) := page_alloc (pages s) in
                  let s := with_pages s p in
                  if pa =? 0 then Panic "vmm_map: out of physical memory" else
                  let m := memset pa 0 4096 (pmem s) in
                  let m := wr_e root pdi (Z.lor (Z.lor pa PDE_PRESENT) PDE_WRITABLE) m in
                  Ok (pa, with_pmem s m)
                else Ok (frame 4 (rd_e (pmem s) root pdi), s));
    let s := with_pmem s (wr_e pt pti
               (Z.lor (Z.lor (frame 4 phys) (Z.land flags 0xFFF)) PTE_PRESENT) (pmem s)) in
    Ok (vmm_flush_tlb virt s).

Definition vmm_unmap (root virt : Z) (s : vmm P) : vmm P :=
  let pdi := Z.shiftr virt 22 in
  let pti := Z.land (Z.shiftr virt 12) 0x3FF in
  let e := rd_e (pmem s) root pdi in
  if (Z.land e PDE_PRESENT =? 0) || negb (Z.land e PDE_PS =? 0) then s
  else vmm_flush_tlb virt (with_pmem s (wr_e (frame 4 e) pti 0 (pmem s))).

Definition vmm_phys (root virt : Z) (s : vmm P) : Z :=
  let pdi := Z.shiftr virt 22 in
  let pti := Z.land (Z.shiftr virt 12) 0x3FF in
  let e := rd_e (pmem s) root pdi in
  if Z.land e PDE_PRESENT =? 0 then 0
  else if negb (Z.land e PDE_PS =? 0) then Z.lor (Z.land e 0xFFC00000) (Z.land virt 0x3FFFFF)
  else
    let x := rd_e (pmem s) (frame 4 e) pti in
    if Z.land x PTE_PRESENT =? 0 then 0 else Z.lor (frame 4 x) (Z.land virt 0xFFF).
End code.
End Vmm32.

Module Vmm64.
Abbreviation rd_e m t i := (entry 8 m t i).
Abbreviation wr_e t i v m := (set_entry 8 t i v m).

Section code.
Context `{PageAlloc P}.

Definition get_or_create (table idx : Z) (s : vmm P) : Z * vmm P :=
  if Z.land (rd_e (pmem s) table idx) PTE_PRESENT =? 0 then
    let '(p, a) := page_alloc (pages s) in
    let s := with_pages s a in
    if p =? 0 then (0, s) else
    let m := memset p 0 4096 (pmem s) in
    let m := wr_e table idx (Z.lor (Z.lor p PTE_PRESENT) PTE_WRITABLE) m in
    (frame 8 (rd_e m table idx), with_pmem s m)
  else (frame 8 (rd_e (pmem s) table idx), s).

(** The body of the two inner loops of [vmm_init]: one page directory. *)
Definition vmm_init_pd (i j pdpt : Z) (s : vmm P) : vmm P :=
  let '(pd_p, a) := page_alloc (pages s) in
  let s := with_pages s a in
  let m := memset pd_p 0 4096 (pmem s) in
  let m := wr_e pdpt j (Z.lor (Z.lor pd_p PTE_PRESENT) PTE_WRITABLE) m in
  let m := for_up (λ k m, wr_e pd_p k
             (Z.lor (Z.lor (Z.lor (u64 (i * 512 * 512 * 0x200000 + j * 512 * 0x200000 + k * 0x200000))
                PTE_PRESENT) PTE_WRITABLE) PTE_HUGE) m) (span 0 512) 0 m in
  with_pmem s m.

Definition vmm_init_pdpt (root i : Z) (s : vmm P) : vmm P :=
  let '(pdpt_p, a) := page_alloc (pages s) in
  let s := with_pages s a in
  let m := memset pdpt_p 0 4096 (pmem s) in
  let m := wr_e root i (Z.lor (Z.lor pdpt_p PTE_PRESENT) PTE_WRITABLE) m in
  for_up (λ j s, vmm_init_pd i j pdpt_p s) (span 0 512) 0 (with_pmem s m).

Definition vmm_init (root : Z) (s : vmm P) : vmm P :=
  let s := with_pmem s (memset root 0 4096 (pmem s)) in
  let s := for_up (λ i s, vmm_init_pdpt root i s) (span 0 4) 0 s in
  load_cr s (cr0 (v_mmu s)) root (cr4 (v_mmu s)).

Definition vmm_map (root virt phys flags : Z) (s : vmm P) : vmm P :=
  let pml4i := Z.land (Z.shiftr virt 39) 0x1FF in
  let pdpti := Z.land (Z.shiftr virt 30) 0x1FF in
  let pdi := Z.land (Z.shiftr virt 21) 0x1FF in
  let pti := Z.land (Z.shiftr virt 12) 0x1FF in
  let '(pdpt, s) := get_or_create root pml4i s in
  let '(pd, s) := get_or_create pdpt pdpti s in
  if negb (Z.land (rd_e (pmem s) pd pdi) PTE_HUGE =? 0) then s else
  let '(pt, s) := get_or_create pd pdi s in
  vmm_flush_tlb virt (with_pmem s (wr_e pt pti (Z.lor (Z.lor (frame 8 phys) flags) PTE_PRESENT) (pmem s))).

Definition vmm_unmap (root virt : Z) (s : vmm P) : vmm P :=
  let pml4i := Z.land (Z.shiftr virt 39) 0x1FF in
  let pdpti := Z.land (Z.shiftr virt 30) 0x1FF in
  let pdi := Z.land (Z.shiftr virt 21) 0x1FF in
  let pti := Z.land (Z.shiftr virt 12) 0x1FF in
  let e1 := rd_e (pmem s) root pml4i in
  if Z.land e1 PTE_PRESENT =? 0 then s else
  let e2 := rd_e (pmem s) (frame 8 e1) pdpti in
  if Z.land e2 PTE_PRESENT =? 0 then s else
  let e3 := rd_e (pmem s) (frame 8 e2) pdi in
  if (Z.land e3 PTE_PRESENT =? 0) || negb (Z.land e3 PTE_HUGE =? 0) then s
  else vmm_flush_tlb virt (with_pmem s (wr_e (frame 8 e3) pti 0 (pmem s))).

Definition vmm_phys (root virt : Z) (s : vmm P) : Z :=
  let pml4i := Z.land (Z.shiftr virt 39) 0x1FF in
  let pdpti := Z.land (Z.shiftr virt 30) 0x1FF in
  let pdi := Z.land (Z.shiftr virt 21) 0x1FF in
  let pti := Z.land (Z.shiftr virt 12) 0x1FF in
  let e1 := rd_e (pmem s) root pml4i in
  if Z.land e1 PTE_PRESENT =? 0 then 0 else
  let e2 := rd_e (pmem s) (frame 8 e1) pdpti in
  if Z.land e2 PTE_PRESENT =? 0 then 0 else
  let e3 := rd_e (pmem s) (frame 8 e2) pdi in
  if Z.land e3 PTE_PRESENT =? 0 then 0 else
  if negb (Z.land e3 PTE_HUGE =? 0) then
    Z.lor (Z.land e3 (u64 (Z.lnot 0x1FFFFF))) (Z.land virt 0x1FFFFF)
  else
    let e4 := rd_e (pmem s) (frame 8 e3) pti in
    if Z.land e4 PTE_PRESENT =? 0 then 0 else Z.lor (frame 8 e4) (Z.land virt 0xFFF).
End code.
End Vmm64.

(** ** Two levels *)

Lemma two_four : (2 ≤ 4)%nat.
Proof. lia. Qed.
Lemma two_eight : (2 ≤ 8)%nat.
Proof. lia. Qed.

Section vmm32.
Context `{PageAlloc P}.
Import Vmm32.
Implicit Types s : vmm P.

(** The tables of [s] are well formed. *)
Definition ok32 (root : Z) (s : vmm P) : Prop := tables_ok 4 1024 0 1 root (pages s) (pmem s).

Definition pdi_of (v : Z) : Z := Z.shiftr v 22.
Definition pti_of (v : Z) : Z := Z.land (Z.shiftr v 12) 0x3FF.

Lemma indices32 v : 0 ≤ v < 2 ^ 32 →
  index_ok 1024 (pdi_of v) ∧ index_ok 1024 (pti_of v) ∧ v / 4096 = pdi_of v * 1024 + pti_of v.
Proof.
  intros Hv. unfold pdi_of, pti_of, index_ok. change 0x3FF with (Z.ones 10).
  rewrite Z.land_ones, !Z.shiftr_div_pow2 by lia. change (2 ^ 22) with 4194304.
  change (2 ^ 12) with 4096. change (2 ^ 10) with 1024. split; [dlia|]. split; [dlia|]. dlia.
Qed.

Lemma path32 i : index_ok 1024 i → path_ok 1024 1 [i].
Proof. intros Hi. split; [done|]. repeat constructor; by apply Hi. Qed.

(** [vmm_phys] in terms of what the tables say. *)
Lemma phys32_target root v s :
  vmm_phys root v s =
  match target 4 0 (pmem s) root [pdi_of v] (pti_of v) with
  | Unmapped => 0
  | Small e => Z.lor (frame 4 e) (Z.land v 0xFFF)
  | Large e => Z.lor (Z.land e 0xFFC00000) (Z.land v 0x3FFFFF)
  end.
Proof.
  unfold vmm_phys, target. fold (pdi_of v) (pti_of v). cbn [walk removelast List.last]. unfold points.
  change PDE_PRESENT with (2 ^ 0). change PDE_PS with (2 ^ 7). change PTE_PRESENT with (2 ^ 0).
  rewrite !land_bit, !negb_involutive by lia. cbn [Z.eqb andb].
  set (e := entry 4 (pmem s) root (pdi_of v)).
  destruct (Z.testbit e 0); cbn [negb andb]; [|done].
  destruct (Z.testbit e 7); cbn [negb]; [done|]. by destruct (Z.testbit _ 0).
Qed.

(** The mapping of the page of [v], and what it makes of an address. *)
Definition maps32 (root : Z) (s : vmm P) (v : Z) : mapping := target 4 0 (pmem s) root [pdi_of v] (pti_of v).
Definition leaf32 (phys flags : Z) : Z := Z.lor (Z.lor (frame 4 phys) (Z.land flags 0xFFF)) PTE_PRESENT.
Definition phys32 (v : Z) (x : mapping) : Z :=
  match x with
  | Unmapped => 0
  | Small e => Z.lor (frame 4 e) (Z.land v 0xFFF)
  | Large e => Z.lor (Z.land e 0xFFC00000) (Z.land v 0x3FFFFF)
  end.

Lemma leaf32_spec phys flags v : 0 ≤ phys < 2 ^ 32 →
  0 ≤ leaf32 phys flags < 2 ^ ew 4 ∧ Z.testbit (leaf32 phys flags) 0 = true ∧
  phys32 v (Small (leaf32 phys flags)) = phys / 4096 * 4096 + v mod 4096.
Proof.
  intros Hp. assert (0 ≤ Z.land flags 0xFFF < 4096) as Hf.
  { change 0xFFF with (Z.ones 12). rewrite Z.land_ones by lia. apply Z.mod_pos_bound. lia. }
  destruct (leaf_entry 4 phys (Z.land flags 0xFFF) ltac:(lia) Hp Hf) as (L1 & L2 & L3).
  fold (leaf32 phys flags) in *. split; [done|]. split; [done|]. cbn [phys32]. rewrite page_offset by (done || lia). by rewrite L3.
Qed.

(** Installing the leaf entry once the table is there. *)
Lemma map32_leaf root virt phys flags pt s :
  ok32 root s → 0 ≤ virt < 2 ^ 32 → 0 ≤ phys < 2 ^ 32 →
  walk 4 0 (pmem s) 0 root [pdi_of virt] = Some pt →
  let s' := vmm_flush_tlb virt (with_pmem s (wr_e pt (pti_of virt) (leaf32 phys flags) (pmem s))) in
  ok32 root s' ∧ ∀ v, 0 ≤ v < 2 ^ 32 →
    maps32 root s' v = if decide (v / 4096 = virt / 4096) then Small (leaf32 phys flags) else maps32 root s v.
Proof.
  intros Hok Hv Hp Hw s'. destruct (indices32 virt Hv) as (I1 & I2 & I3).
  destruct (leaf32_spec phys flags 0 Hp) as (L1 & L2 & _). split.
  { apply (tables_ok_set_leaf 4 1024 0 1 ltac:(lia) eq_refl root (pages s) (pmem s) [pdi_of virt]); try done.
    by apply path32. }
  intros v Hv'. destruct (indices32 v Hv') as (J1 & J2 & J3). unfold maps32. cbn [pmem vmm_flush_tlb with_tlb with_pmem s'].
  rewrite (target_set_leaf 4 1024 0 1 ltac:(lia) eq_refl root (pages s) (pmem s) [pdi_of virt] pt
    (pti_of virt)) by (done || lia || by apply path32).
  rewrite L2. destruct (decide (v / 4096 = virt / 4096)) as [Heq|Hne].
  - unfold index_ok in *. assert (pdi_of v = pdi_of virt ∧ pti_of v = pti_of virt) as [-> ->] by lia.
    by rewrite decide_True by done.
  - rewrite decide_False; [done|]. intros [Hx Hy]. apply Hne. rewrite I3, J3, Hy. congruence.
Qed.

Lemma vmm_map_maps root virt phys flags s :
  ok32 root s → 0 ≤ virt < 2 ^ 32 → 0 ≤ phys < 2 ^ 32 →
  match vmm_map root virt phys flags s with
  | Ok s' => ok32 root s' ∧ tlb (v_mmu s') = delete (vpage virt) (tlb (v_mmu s)) ∧ ∀ v, 0 ≤ v < 2 ^ 32 →
      maps32 root s' v = if decide (v / 4096 = virt / 4096) then Small (leaf32 phys flags) else maps32 root s v
  | Panic _ => Z.testbit (rd_e (pmem s) root (pdi_of virt)) 7 = true ∨ (page_alloc (pages s)).1 = 0
  | OutOfFuel => False
  end.
Proof.
  intros Hok Hv Hp. destruct (indices32 virt Hv) as (I1 & I2 & I3). unfold vmm_map.
  fold (pdi_of virt) (pti_of virt) (leaf32 phys flags). change PDE_PRESENT with (2 ^ 0). change PDE_PS with (2 ^ 7).
  rewrite !land_bit, negb_involutive by lia. set (e := rd_e (pmem s) root (pdi_of virt)).
  destruct (Z.testbit e 7) eqn:E7; [by left|]. destruct (Z.testbit e 0) eqn:E0; cbn [negb].
  - cbn [mbind outcome_bind]. destruct (map32_leaf root virt phys flags (frame 4 e) s) as [A B]; [done..| |by split].
    cbn [walk]. unfold points. fold e. by rewrite E0, E7, andb_false_r.
  - destruct (page_alloc (pages s)) as [pa p] eqn:Ea. cbn [pmem with_pages].
    destruct (Z.eqb_spec pa 0) as [Hz|Hnz]; [by right|]. cbn [mbind outcome_bind].
    assert (path_ok 1024 1 []) as Hnil by (by split; [simpl; lia|]).
    assert (points 0 0 e = false) as Hpt by (unfold points; by rewrite E0).
    assert (2 ^ 32 ≤ 2 ^ ew 4) as Hew by (apply Z.pow_le_mono_r; [lia|unfold ew; lia]).
    assert (length (@nil Z) < 1)%nat as Hlen by (simpl; lia).
    assert (walk 4 0 (pmem s) 0 root [] = Some root) as Hw0 by reflexivity.
    destruct (tables_link 4 1024 0 1 two_four eq_refl root (pages s) p (pmem s) [] root (pdi_of virt) pa
      Hok Hnil Hlen Hw0 I1 Hpt Hew Ea Hnz) as (Hok' & W & E & Pa & _ & Pb).
    set (m1 := set_entry 4 root (pdi_of virt) (link_entry pa) (memset pa 0 4096 (pmem s))) in *.
    set (s1 := with_pmem (with_pages s p) m1).
    assert (walk 4 0 (pmem s1) 0 root [pdi_of virt] = Some pa) as Hw.
    { unfold s1. cbn [pmem with_pmem]. rewrite W by (by apply path32). by rewrite decide_True. }
    destruct (map32_leaf root virt phys flags pa s1 Hok' Hv Hp Hw) as [A B]. split; [exact A|]. split; [done|].
    intros v Hv'. etrans; [exact (B v Hv')|]. case_decide; [done|]. unfold maps32, s1.
    destruct (indices32 v Hv') as (J1 & J2 & J3). cbn [pmem with_pmem]. unfold m1.
    assert (path_ok 1024 1 [pdi_of v]) as Hpv by (by apply path32).
    by rewrite (target_link 4 1024 0 1 two_four eq_refl root (pages s) p (pmem s) [] root (pdi_of virt) pa
      Hok Hnil Hlen Hw0 I1 E0 Hew Ea Hnz [pdi_of v] (pti_of v) Hpv eq_refl J2).
Qed.

Lemma vmm_map_cases root virt phys flags s :
  ok32 root s → 0 ≤ virt < 2 ^ 32 → 0 ≤ phys < 2 ^ 32 →
  match vmm_map root virt phys flags s with
  | Ok s' => ok32 root s' ∧ ∀ v, 0 ≤ v < 2 ^ 32 →
      vmm_phys root v s' =
        if decide (v / 4096 = virt / 4096) then phys / 4096 * 4096 + v mod 4096 else vmm_phys root v s
  | Panic _ => Z.testbit (rd_e (pmem s) root (pdi_of virt)) 7 = true ∨ (page_alloc (pages s)).1 = 0
  | OutOfFuel => False
  end.
Proof.
  intros Hok Hv Hp. pose proof (vmm_map_maps root virt phys flags s Hok Hv Hp) as Hm.
  destruct (vmm_map root virt phys flags s) as [s'|?|]; [|exact Hm|exact Hm]. destruct Hm as (A & _ & B).
  split; [done|]. intros v Hv'. rewrite !phys32_target. fold (maps32 root s' v) (maps32 root s v).
  rewrite B by done. case_decide; [|done]. by apply leaf32_spec.
Qed.

(** [vmm_unmap] changes nothing inside a large page and where no table is. *)
Definition unmaps32 (root virt : Z) (s : vmm P) : bool :=
  let e := rd_e (pmem s) root (pdi_of virt) in Z.testbit e 0 && negb (Z.testbit e 7).

Lemma vmm_unmap_maps root virt s :
  ok32 root s → 0 ≤ virt < 2 ^ 32 →
  let s' := vmm_unmap root virt s in
  if unmaps32 root virt s then
    ok32 root s' ∧ tlb (v_mmu s') = delete (vpage virt) (tlb (v_mmu s)) ∧ ∀ v, 0 ≤ v < 2 ^ 32 →
      maps32 root s' v = if decide (v / 4096 = virt / 4096) then Unmapped else maps32 root s v
  else s' = s.
Proof.
  intros Hok Hv s'. destruct (indices32 virt Hv) as (I1 & I2 & I3). unfold s', vmm_unmap, unmaps32.
  fold (pdi_of virt) (pti_of virt). set (e := rd_e (pmem s) root (pdi_of virt)).
  change PDE_PRESENT with (2 ^ 0). change PDE_PS with (2 ^ 7). rewrite !land_bit, negb_involutive by lia.
  destruct (Z.testbit e 0) eqn:E0; [|done]. destruct (Z.testbit e 7) eqn:E7; [done|]. cbn [negb orb andb].
  assert (walk 4 0 (pmem s) 0 root [pdi_of virt] = Some (frame 4 e)) as Hw.
  { cbn [walk]. unfold points. fold e. by rewrite E0, E7, andb_false_r. }
  assert (path_ok 1024 1 [pdi_of virt]) as Hpath by (by apply path32).
  assert (0 ≤ 0 < 2 ^ ew 4) as Hz by (split; [lia|apply Z.pow_pos_nonneg; unfold ew; lia]).
  assert (0 < 1)%nat as H01 by lia. split; [|split; [done|]].
  { exact (tables_ok_set_leaf 4 1024 0 1 two_four eq_refl root (pages s) (pmem s) _ _ _ _ Hok Hpath eq_refl Hw I2 Hz). }
  intros v Hv'. destruct (indices32 v Hv') as (J1 & J2 & J3). unfold maps32. cbn [pmem with_pmem with_tlb vmm_flush_tlb].
  rewrite (target_set_leaf 4 1024 0 1 two_four eq_refl root (pages s) (pmem s) _ _ _ 0 Hok Hpath eq_refl H01
    Hw I2 Hz [pdi_of v] (pti_of v) (path32 _ J1) eq_refl J2).
  rewrite Z.testbit_0_l. case_decide as Hd; case_decide as Hd'; try done.
  + destruct Hd as [[=] ?]. destruct Hd'. rewrite I3, J3; congruence.
  + unfold index_ok in *. assert (pdi_of v = pdi_of virt ∧ pti_of v = pti_of virt) as [E1 E2] by lia.
    destruct Hd. split; congruence.
Qed.

Lemma vmm_unmap_cases root virt s :
  ok32 root s → 0 ≤ virt < 2 ^ 32 →
  let e := rd_e (pmem s) root (pdi_of virt) in
  let s' := vmm_unmap root virt s in
  ok32 root s' ∧ ∀ v, 0 ≤ v < 2 ^ 32 →
    vmm_phys root v s' =
      if decide (v / 4096 = virt / 4096 ∧ Z.testbit e 0 && Z.testbit e 7 = false) then 0
      else vmm_phys root v s.
Proof.
  intros Hok Hv e s'. pose proof (vmm_unmap_maps root virt s Hok Hv) as Hu. cbv zeta in Hu. fold s' in Hu.
  unfold unmaps32 in Hu. fold e in Hu. destruct (Z.testbit e 0) eqn:E0, (Z.testbit e 7) eqn:E7; cbn [andb negb] in *.
  2: { destruct Hu as (A & _ & B). split; [done|]. intros v Hv'. rewrite !phys32_target.
       fold (maps32 root s' v) (maps32 root s v). rewrite B by done. by repeat case_decide; try tauto. }
  all: rewrite Hu; split; [done|]; intros v Hv'; case_decide as Hd; [destruct Hd as [Heq Hf]|done]; try done.
  all: assert (pdi_of v = pdi_of virt) as Ep
    by (destruct (indices32 v Hv') as (J1 & J2 & J3), (indices32 virt Hv) as (I1 & I2 & I3); unfold index_ok in *; lia).
  all: unfold vmm_phys; fold (pdi_of v); rewrite Ep; fold e; change PDE_PRESENT with (2 ^ 0); by rewrite land_bit, E0 by lia.
Qed.

(** The large-page entries of [vmm_init], on the 32 it writes. *)
Definition large32 (i : Z) : Z :=
  Z.lor (Z.lor (Z.lor (u32 (i * 0x400000)) PDE_PRESENT) PDE_WRITABLE) PDE_PS.

Lemma large32_spec i : 0 ≤ i < 32 →
  0 ≤ large32 i < 2 ^ 32 ∧ Z.testbit (large32 i) 0 = true ∧ Z.testbit (large32 i) 7 = true ∧
  Z.land (large32 i) 0xFFC00000 = i * 2 ^ 22.
Proof.
  intros Hi. assert (Forall (λ n : nat, let e := large32 (Z.of_nat n) in
    (0 <=? e) && (e <? 2 ^ 32) && Z.testbit e 0 && Z.testbit e 7 &&
    (Z.land e 0xFFC00000 =? Z.of_nat n * 2 ^ 22) = true) (seq 0 32)) as Hall.
  { repeat (constructor; [vm_compute; reflexivity|]). constructor. }
  assert (In (Z.to_nat i) (seq 0 32)) as Hin by (apply in_seq; lia).
  pose proof (proj1 (List.Forall_forall _ _) Hall _ Hin) as Hx. cbv beta zeta in Hx.
  rewrite Z2Nat.id in Hx by lia. rewrite !andb_true_iff, Z.leb_le, Z.ltb_lt, Z.eqb_eq in Hx.
  destruct Hx as [[[[? ?] ?] ?] ?]. split_and!; assumption.
Qed.

Lemma vmm_init_entries root s j : root mod 4096 = 0 → index_ok 1024 j →
  rd_e (pmem (vmm_init root s)) root j = if decide (j < 32) then large32 j else 0.
Proof.
  intros Hr Hj. unfold vmm_init. cbn [pmem load_cr with_pmem].
  set (m0 := memset root 0 4096 (pmem s)). change (IDENTITY_MB / 4) with 32.
  set (Q := λ i m, rd_e m root j = if decide (j < i) then large32 j else 0).
  apply (for_span_inv Q); [lia| |].
  - unfold Q, m0. rewrite (entry_clear 4 1024 two_four eq_refl) by done. unfold index_ok in Hj.
    by rewrite decide_True, decide_False by (done || lia).
  - intros i m Hi IH. unfold Q in *. fold (large32 i). destruct (large32_spec i Hi) as (L & _).
    unfold index_ok in *. rewrite (entry_set 4 1024 two_four eq_refl) by (done || (unfold index_ok; lia)).
    rewrite IH. destruct (decide (j = i)) as [->|Hne].
    + by rewrite !decide_True by (done || lia).
    + rewrite decide_False by (by intros [_ ?]). destruct (decide (j < i)).
      * by rewrite decide_True by lia.
      * by rewrite decide_False by lia.
Qed.
(** What such entries translate. *)
Lemma phys32_entries root v s : (∀ j, index_ok 1024 j → rd_e (pmem s) root j = if decide (j < 32) then large32 j else 0) →
  0 ≤ v < 2 ^ 32 → vmm_phys root v s = if decide (v < 128 * 2 ^ 20) then v else 0.
Proof.
  intros He Hv. destruct (indices32 v Hv) as (J1 & J2 & J3). unfold vmm_phys. fold (pdi_of v).
  rewrite He by done. change PDE_PRESENT with (2 ^ 0). change PDE_PS with (2 ^ 7).
  rewrite !land_bit, !negb_involutive by lia. unfold index_ok in J1.
  assert (pdi_of v = v / 2 ^ 22) as Ep by (unfold pdi_of; by rewrite Z.shiftr_div_pow2 by lia).
  case_decide as Hd.
  - destruct (large32_spec (pdi_of v) ltac:(lia)) as (_ & -> & -> & ->). cbn [negb].
    change 0x3FFFFF with (Z.ones 22). rewrite Z.land_ones, lor_low by lia.
    change (2 ^ 22) with 4194304 in *. rewrite decide_True by dlia. dlia.
  - rewrite Z.testbit_0_l. cbn [negb]. change (2 ^ 22) with 4194304 in *. by rewrite decide_False by dlia.
Qed.

(** [vmm_init] writes the top table's page only. *)
Lemma vmm_init_mem root s : (∀ a, a < root ∨ root + 4096 ≤ a → ld (pmem (vmm_init root s)) a = ld (pmem s) a) ∧
  (mem_ok (pmem s) → mem_ok (pmem (vmm_init root s))).
Proof.
  unfold vmm_init. cbn [pmem load_cr with_pmem]. change (IDENTITY_MB / 4) with 32.
  set (Q := λ (i : Z) m, (∀ a, a < root ∨ root + 4096 ≤ a → ld m a = ld (pmem s) a) ∧ (mem_ok (pmem s) → mem_ok m)).
  apply (for_span_inv Q); [lia| |].
  - split; [|apply memset_loop_ok]. intros a Ha. by rewrite memset_spec, decide_False by lia.
  - intros i m Hi [A B]. split; [|intros Hm; by apply mem_ok_st_le, B]. intros a Ha. unfold set_entry. rewrite ld_st_le_ne by lia. by apply A.
Qed.
End vmm32.

(** C13: on the 32-bit target [vmm_map], when it returns, changes the translation
    of exactly one page: the page of [virt] goes to the frame of [phys], with the
    offset kept, and every other address translates as before; the page tables stay
    a tree of pages the kernel holds.  It panics only inside a large page or when
    no page is left.  [vmm_unmap] makes exactly the page of [virt] unmapped, or
    does nothing inside a large page. *)
Theorem vmm32_map_unmap `{PageAlloc P} (root virt phys flags : Z) (s : vmm P) :
  ok32 root s → 0 ≤ virt < 2 ^ 32 → 0 ≤ phys < 2 ^ 32 →
  match Vmm32.vmm_map root virt phys flags s with
  | Ok s' => ok32 root s' ∧ ∀ v, 0 ≤ v < 2 ^ 32 →
      Vmm32.vmm_phys root v s' =
        if decide (v / 4096 = virt / 4096) then phys / 4096 * 4096 + v mod 4096
        else Vmm32.vmm_phys root v s
  | Panic _ => Z.testbit (entry 4 (pmem s) root (pdi_of virt)) 7 = true ∨ (page_alloc (pages s)).1 = 0
  | OutOfFuel => False
  end ∧
  let e := entry 4 (pmem s) root (pdi_of virt) in
  let s' := Vmm32.vmm_unmap root virt s in
  ok32 root s' ∧ ∀ v, 0 ≤ v < 2 ^ 32 →
    Vmm32.vmm_phys root v s' =
      if decide (v / 4096 = virt / 4096 ∧ Z.testbit e 0 && Z.testbit e 7 = false) then 0
      else Vmm32.vmm_phys root v s.
Proof. intros Hok Hv Hp. split; [by apply vmm_map_cases|by apply vmm_unmap_cases]. Qed.

(** After [vmm_init] the first 128 MiB translate to themselves and nothing
    else is mapped, paging is on with the table's address in CR3, and the tables
    are well formed. *)
Theorem vmm32_init_identity `{PageAlloc P} (root : Z) (s : vmm P) :
  page_inv (pages s) → page_taken (pages s) root → root mod 4096 = 0 →
  let s' := Vmm32.vmm_init root s in
  ok32 root s' ∧ cr3 (v_mmu s') = root ∧ Z.testbit (cr0 (v_mmu s')) 31 = true ∧ Z.testbit (cr4 (v_mmu s')) 4 = true ∧ tlb (v_mmu s') = ∅ ∧
  ∀ v, 0 ≤ v < 2 ^ 32 → Vmm32.vmm_phys root v s' = if decide (v < 128 * 2 ^ 20) then v else 0.
Proof.
  intros Hi Ht Hr s'. pose proof (vmm_init_entries root s) as He. fold s' in He. split.
  { apply tables_ok_cleared; [apply two_four|done|done|done|done|]. intros i Hi'.
    rewrite He by done. case_decide; [|done]. unfold index_ok in Hi'.
    destruct (large32_spec i ltac:(lia)) as (_ & E0 & E7 & _). unfold points. by rewrite E0, E7. }
  split; [done|]. split. { unfold s', Vmm32.vmm_init. cbn [v_mmu cr0 cr4 load_cr]. rewrite Z.lor_spec. apply orb_true_r. }
  split. { unfold s', Vmm32.vmm_init. cbn [v_mmu cr0 cr4 load_cr]. rewrite Z.lor_spec. apply orb_true_r. }
  split; [done|]. intros v Hv. apply phys32_entries; [|done]. intros j Hj. by apply He.
Qed.

(** The top table at 4096, free pages from 8192 on. *)
Definition demo_vmm : vmm Z := Vmm 8192 ∅ (Mmu 0 0 0 ∅).

Lemma vmm32_init_identity_witness : Vmm32.vmm_phys 4096 0x7654321 (Vmm32.vmm_init 4096 demo_vmm) = 0x7654321.
Proof.
  destruct (vmm32_init_identity 4096 demo_vmm) as (_ & _ & _ & _ & _ & Hv).
  - split; [discriminate|reflexivity].
  - reflexivity.
  - reflexivity.
  - rewrite (Hv 0x7654321 ltac:(lia)). reflexivity.
Defined.

Lemma demo_vmm_ok : ok32 4096 demo_vmm.
Proof.
  apply tables_ok_cleared; [apply two_four|reflexivity|split; [discriminate|reflexivity]|reflexivity|reflexivity|].
  intros i Hi. unfold demo_vmm, entry. cbn [pmem].
  assert (∀ n a, ld_le n a ∅ = 0) as ->; [|reflexivity].
  induction n as [|n IH]; intros a; [reflexivity|]. cbn [ld_le]. rewrite IH. reflexivity.
Qed.

Lemma demo_vmm_ok64 : tables_ok 8 512 2 3 4096 (pages demo_vmm) (pmem demo_vmm).
Proof.
  apply tables_ok_cleared; [apply two_eight|reflexivity|split; [discriminate|reflexivity]|reflexivity|reflexivity|].
  intros i Hi. unfold demo_vmm, entry. cbn [pmem].
  assert (∀ n a, ld_le n a ∅ = 0) as ->; [|reflexivity].
  induction n as [|n IH]; intros a; [reflexivity|]. cbn [ld_le]. rewrite IH. reflexivity.
Qed.

Lemma vmm32_map_unmap_witness :
  match Vmm32.vmm_map 4096 0x12345678 0x765432 3 demo_vmm with
  | Ok s' => Vmm32.vmm_phys 4096 0x12345ABC s' = 0x765ABC
  | _ => False
  end.
Proof.
  pose proof (vmm32_map_unmap 4096 0x12345678 0x765432 3 demo_vmm demo_vmm_ok ltac:(lia) ltac:(lia)) as [Hm _].
  destruct (Vmm32.vmm_map 4096 0x12345678 0x765432 3 demo_vmm) as [s'|msg|].
  - destruct Hm as [_ Hv]. rewrite (Hv 0x12345ABC ltac:(lia)). reflexivity.
  - destruct Hm as [Hm|Hm]; vm_compute in Hm; discriminate Hm.
  - exact Hm.
Defined.

(** ** Four levels *)

Lemma three_lt : (0 < 3)%nat.
Proof. lia. Qed.

Section vmm64.
Context `{PageAlloc P}.
Import Vmm64.
Implicit Types s : vmm P.

Definition ok64 (root : Z) (s : vmm P) : Prop := tables_ok 8 512 2 3 root (pages s) (pmem s).
Abbreviation walk64 root s q := (walk 8 2 (pmem s) 0 root q).
Abbreviation target64 root s q j := (target 8 2 (pmem s) root q j).

(** The 9-bit index of [v] that starts at bit [k]. *)
Definition ix (k v : Z) : Z := Z.land (Z.shiftr v k) 0x1FF.
Definition path64 (v : Z) : list Z := [ix 39 v; ix 30 v; ix 21 v].

(** Whether [vmm_map] and [vmm_unmap] see a large page at [v]. *)
Definition large64 (root v : Z) (s : vmm P) : bool :=
  match walk64 root s [ix 39 v; ix 30 v] with
  | Some pd => Z.testbit (entry 8 (pmem s) pd (ix 21 v)) 7
  | None => false
  end.

(** [n] pages can be allocated. *)
Fixpoint can_alloc (n : nat) (p : P) : Prop :=
  match n with 0%nat => True | S n => (page_alloc p).1 ≠ 0 ∧ can_alloc n (page_alloc p).2 end.

Lemma can_alloc_le n p : can_alloc (S n) p → can_alloc n p.
Proof. revert p. induction n as [|n IH]; intros p [A B]; [exact I|]. split; [exact A|]. apply IH. exact B. Qed.

Lemma ix_ok k v : 0 ≤ k → index_ok 512 (ix k v).
Proof.
  intros Hk. unfold ix, index_ok. change 0x1FF with (Z.ones 9). rewrite Z.land_ones by lia.
  apply Z.mod_pos_bound. lia.
Qed.

Lemma ix_div k v : 0 ≤ k → ix k v = v / 2 ^ k mod 512.
Proof.
  intros Hk. unfold ix. change 0x1FF with (Z.ones 9). by rewrite Z.land_ones, Z.shiftr_div_pow2 by lia.
Qed.

Lemma path64_ok v : path_ok 512 3 (path64 v).
Proof. split; [simpl; lia|]. repeat (constructor; [apply ix_ok; lia|]). constructor. Qed.

Lemma path64_ok2 v : path_ok 512 3 [ix 39 v; ix 30 v].
Proof. split; [simpl; lia|]. repeat (constructor; [apply ix_ok; lia|]). constructor. Qed.

Lemma path64_ok1 v : path_ok 512 3 [ix 39 v].
Proof. split; [simpl; lia|]. repeat (constructor; [apply ix_ok; lia|]). constructor. Qed.

Lemma path64_eq v w :
  (path64 v = path64 w ∧ ix 12 v = ix 12 w) ↔ vpage v = vpage w.
Proof.
  unfold path64, vpage. rewrite !ix_div by lia.
  assert (∀ x, (x / 4096) mod 2 ^ 36 = (((x / 2 ^ 39) mod 512 * 512 + (x / 2 ^ 30) mod 512) * 512 +
    (x / 2 ^ 21) mod 512) * 512 + (x / 2 ^ 12) mod 512) as E.
  { intros x. change (2 ^ 39) with (4096 * 2 ^ 27). change (2 ^ 30) with (4096 * 2 ^ 18).
    change (2 ^ 21) with (4096 * 2 ^ 9). change (2 ^ 12) with 4096.
    rewrite <- !Z.div_div by lia. generalize (x / 4096). intros y. dlia. }
  rewrite !E. pose proof (λ x, Z.mod_pos_bound x 512 eq_refl) as B. split.
  - intros [[= -> -> ->] ->]. reflexivity.
  - intros Heq. pose proof (B (v / 2 ^ 39)). pose proof (B (v / 2 ^ 30)). pose proof (B (v / 2 ^ 21)).
    pose proof (B (v / 2 ^ 12)). pose proof (B (w / 2 ^ 39)). pose proof (B (w / 2 ^ 30)).
    pose proof (B (w / 2 ^ 21)). pose proof (B (w / 2 ^ 12)). clear E B.
    assert ((v / 2 ^ 39) mod 512 = (w / 2 ^ 39) mod 512) as -> by lia.
    assert ((v / 2 ^ 30) mod 512 = (w / 2 ^ 30) mod 512) as -> by lia.
    assert ((v / 2 ^ 21) mod 512 = (w / 2 ^ 21) mod 512) as -> by lia.
    assert ((v / 2 ^ 12) mod 512 = (w / 2 ^ 12) mod 512) as -> by lia. by split.
Qed.

Lemma phys64_target root v s :
  vmm_phys root v s =
  match target64 root s (path64 v) (ix 12 v) with
  | Unmapped => 0
  | Small e => Z.lor (frame 8 e) (Z.land v 0xFFF)
  | Large e => Z.lor (Z.land e (u64 (Z.lnot 0x1FFFFF))) (Z.land v 0x1FFFFF)
  end.
Proof.
  unfold vmm_phys, target, path64. fold (ix 39 v) (ix 30 v) (ix 21 v) (ix 12 v).
  cbn [walk removelast List.last]. unfold points. change PTE_PRESENT with (2 ^ 0). change PTE_HUGE with (2 ^ 7).
  rewrite !land_bit, !negb_involutive by lia. change (0 =? 2) with false. change (0 + 1 =? 2) with false.
  change (0 + 1 + 1 =? 2) with true. cbn [andb negb]. rewrite !andb_true_r.
  set (e1 := entry 8 (pmem s) root (ix 39 v)). destruct (Z.testbit e1 0); cbn [negb]; [|reflexivity].
  set (e2 := entry 8 (pmem s) (frame 8 e1) (ix 30 v)). destruct (Z.testbit e2 0); cbn [negb]; [|reflexivity].
  set (e3 := entry 8 (pmem s) (frame 8 e2) (ix 21 v)). destruct (Z.testbit e3 0); cbn [negb andb]; [|reflexivity].
  destruct (Z.testbit e3 7); cbn [negb]; [reflexivity|]. by destruct (Z.testbit (entry 8 _ (frame 8 e3) _) 0).
Qed.

(** [get_or_create] returns the table at [p ++ [i]], creating it when absent. *)
Lemma get_or_create_spec root s p t i n :
  ok64 root s → path_ok 512 3 p → (length p < 3)%nat → walk64 root s p = Some t → index_ok 512 i →
  points 2 (Z.of_nat (length p)) (entry 8 (pmem s) t i) = Z.testbit (entry 8 (pmem s) t i) 0 →
  can_alloc (S n) (pages s) →
  let '(t', s') := get_or_create t i s in
  ok64 root s' ∧ walk64 root s' (p ++ [i]) = Some t' ∧ can_alloc n (pages s') ∧
  (∀ q j, path_ok 512 3 q → length q = 3%nat → index_ok 512 j → target64 root s' q j = target64 root s q j) ∧
  match walk64 root s (p ++ [i]) with
  | Some t0 => s' = s ∧ t' = t0
  | None => ∀ j, index_ok 512 j → entry 8 (pmem s') t' j = 0
  end.
Proof.
  intros Hok Hp Hl Hw Hi Hpt Hc. unfold get_or_create. change PTE_PRESENT with (2 ^ 0) at 1.
  rewrite land_bit by lia. set (e := entry 8 (pmem s) t i) in *.
  assert (walk64 root s (p ++ [i]) = if Z.testbit e 0 then Some (frame 8 e) else None) as Hwi.
  { rewrite (walk_app 8 2 two_eight), Hw. cbn [walk]. rewrite Z.add_0_l. fold e. by rewrite Hpt. }
  rewrite Hwi. destruct (Z.testbit e 0) eqn:E0; cbn [negb].
  { split_and!; [exact Hok|exact Hwi|by apply can_alloc_le|reflexivity|reflexivity|reflexivity]. }
  destruct Hc as [Hpa Hc]. destruct (page_alloc (pages s)) as [pa a] eqn:Ea. cbn [fst snd] in Hpa, Hc.
  destruct (Z.eqb_spec pa 0) as [->|_]; [done|]. cbn [pmem with_pages].
  assert (2 ^ 32 ≤ 2 ^ ew 8) as Hew by (apply Z.pow_le_mono_r; [lia|unfold ew; lia]).
  destruct (tables_link 8 512 2 3 two_eight eq_refl root (pages s) a (pmem s) p t i pa
    Hok Hp Hl Hw Hi Hpt Hew Ea Hpa) as (Hok' & W & E & Pa & Ptk & Pb).
  pose proof (target_link 8 512 2 3 two_eight eq_refl root (pages s) a (pmem s) p t i pa
    Hok Hp Hl Hw Hi E0 Hew Ea Hpa) as T.
  fold (link_entry pa). set (m1 := set_entry 8 t i (link_entry pa) (memset pa 0 4096 (pmem s))) in *.
  cbn zeta. cbn [pmem pages with_pmem with_pages].
  destruct Hok as (_ & Hpages & _). destruct (Hpages p t Hp Hw) as [Ht Htk].
  assert (entry 8 m1 t i = link_entry pa) as He by (rewrite E, decide_True by done; reflexivity).
  rewrite He. destruct (frame_link 8 2 two_eight pa Pb Pa) as (-> & _ & _).
  assert (pa ≠ t) as Hpt'.
  { intros Heq. rewrite <- Heq in Htk. exact (Ptk Htk). }
  split_and!; [exact Hok'| |exact Hc|exact T|].
  - rewrite W by (by apply (path_ok_snoc 8 512 3 two_eight)). by rewrite decide_True.
  - intros j Hj. rewrite (E pa j Pa Hj). rewrite decide_False by (intros [Heq _]; exact (Hpt' Heq)).
    by rewrite decide_True.
Qed.

Lemma get_or_create_regs t i s : v_mmu (get_or_create t i s).2 = v_mmu s.
Proof. unfold get_or_create. repeat case_match; done. Qed.

(** The mapping of the page of [v], and what it makes of an address. *)
Definition maps64 (root : Z) (s : vmm P) (v : Z) : mapping := target64 root s (path64 v) (ix 12 v).
Definition leaf64 (phys flags : Z) : Z := Z.lor (Z.lor (frame 8 phys) flags) PTE_PRESENT.
Definition phys64 (v : Z) (x : mapping) : Z :=
  match x with
  | Unmapped => 0
  | Small e => Z.lor (frame 8 e) (Z.land v 0xFFF)
  | Large e => Z.lor (Z.land e (u64 (Z.lnot 0x1FFFFF))) (Z.land v 0x1FFFFF)
  end.

Lemma leaf64_spec phys flags v : 0 ≤ phys < 2 ^ 64 → 0 ≤ flags < 4096 →
  0 ≤ leaf64 phys flags < 2 ^ ew 8 ∧ Z.testbit (leaf64 phys flags) 0 = true ∧
  phys64 v (Small (leaf64 phys flags)) = phys / 4096 * 4096 + v mod 4096.
Proof.
  intros Hp Hf. destruct (leaf_entry 8 phys flags two_eight Hp Hf) as (L1 & L2 & L3). fold (leaf64 phys flags) in *.
  split; [done|]. split; [done|]. cbn [phys64]. rewrite (page_offset 8 _ v two_eight L1). by rewrite L3.
Qed.

(** Installing the leaf entry once the three tables are there. *)
Lemma map64_leaf root virt phys flags pt s :
  ok64 root s → 0 ≤ phys < 2 ^ 64 → 0 ≤ flags < 4096 →
  walk64 root s (path64 virt) = Some pt →
  let s' := vmm_flush_tlb virt (with_pmem s (wr_e pt (ix 12 virt) (leaf64 phys flags) (pmem s))) in
  ok64 root s' ∧ ∀ v,
    maps64 root s' v = if decide (vpage v = vpage virt) then Small (leaf64 phys flags) else maps64 root s v.
Proof.
  intros Hok Hp Hf Hw s'. destruct (leaf64_spec phys flags 0 Hp Hf) as (L1 & L2 & _).
  pose proof (ix_ok 12 virt ltac:(lia)) as Hi. split.
  { exact (tables_ok_set_leaf 8 512 2 3 two_eight eq_refl root (pages s) (pmem s) _ _ _ _
      Hok (path64_ok virt) eq_refl Hw Hi L1). }
  intros v. unfold maps64. cbn [pmem with_pmem with_tlb vmm_flush_tlb s'].
  rewrite (target_set_leaf 8 512 2 3 two_eight eq_refl root (pages s) (pmem s) _ pt (ix 12 virt) (leaf64 phys flags)
    Hok (path64_ok virt) eq_refl three_lt Hw Hi L1 _ _ (path64_ok v) eq_refl (ix_ok 12 v ltac:(lia))).
  rewrite L2. destruct (decide (vpage v = vpage virt)) as [Heq|Hne].
  - by rewrite decide_True by (by apply path64_eq).
  - rewrite decide_False; [reflexivity|]. by rewrite path64_eq.
Qed.

Lemma vmm64_map_maps root virt phys flags s :
  ok64 root s → 0 ≤ phys < 2 ^ 64 → 0 ≤ flags < 4096 → can_alloc 3 (pages s) →
  let s' := vmm_map root virt phys flags s in
  ok64 root s' ∧
  (if large64 root virt s then tlb (v_mmu s') = tlb (v_mmu s) ∧ ∀ v, maps64 root s' v = maps64 root s v
   else tlb (v_mmu s') = delete (vpage virt) (tlb (v_mmu s)) ∧ ∀ v,
     maps64 root s' v = if decide (vpage v = vpage virt) then Small (leaf64 phys flags) else maps64 root s v).
Proof.
  intros Hok Hp Hf Hc. unfold vmm_map. fold (ix 39 virt) (ix 30 virt) (ix 21 virt) (ix 12 virt) (leaf64 phys flags).
  assert (∀ (b : Z) (l : nat), (l < 2)%nat → points 2 (Z.of_nat l) b = Z.testbit b 0) as Hpts.
  { intros b l Hl. unfold points. assert ((Z.of_nat l =? 2) = false) as -> by lia. by rewrite andb_true_r. }
  pose proof (get_or_create_spec root s [] root (ix 39 virt) 2 Hok) as G1.
  pose proof (get_or_create_regs root (ix 39 virt) s) as R1. destruct (get_or_create root (ix 39 virt) s) as [pdpt s1].
  destruct G1 as (Hok1 & W1 & C1 & T1 & K1); [split; [simpl; lia|constructor]|simpl; lia|reflexivity|
    apply ix_ok; lia|apply Hpts; simpl; lia|exact Hc|].
  pose proof (get_or_create_spec root s1 [ix 39 virt] pdpt (ix 30 virt) 1 Hok1) as G2.
  pose proof (get_or_create_regs pdpt (ix 30 virt) s1) as R2. destruct (get_or_create pdpt (ix 30 virt) s1) as [pd s2].
  destruct G2 as (Hok2 & W2 & C2 & T2 & K2); [apply path64_ok1|simpl; lia|exact W1|
    apply ix_ok; lia|apply Hpts; simpl; lia|exact C1|].
  cbn [app] in W1, K1, W2, K2.
  assert (Z.testbit (entry 8 (pmem s2) pd (ix 21 virt)) 7 = large64 root virt s) as HL.
  { unfold large64. destruct (walk64 root s1 [ix 39 virt; ix 30 virt]) as [t1|] eqn:E2.
    - destruct K2 as [-> ->]. destruct (walk64 root s [ix 39 virt]) as [t0|] eqn:E1.
      + destruct K1 as [-> ->]. by rewrite E2.
      + exfalso. change [ix 39 virt; ix 30 virt] with ([ix 39 virt] ++ [ix 30 virt]) in E2.
        rewrite (walk_app 8 2 two_eight), W1 in E2. cbn [walk] in E2.
        rewrite K1 in E2 by (apply ix_ok; lia). discriminate E2.
    - rewrite K2 by (apply ix_ok; lia). rewrite Z.testbit_0_l.
      destruct (walk64 root s [ix 39 virt]) as [t0|] eqn:E1.
      + destruct K1 as [-> ->]. by rewrite E2.
      + change [ix 39 virt; ix 30 virt] with ([ix 39 virt] ++ [ix 30 virt]).
        by rewrite (walk_app 8 2 two_eight), E1. }
  change PTE_HUGE with (2 ^ 7). rewrite land_bit, negb_involutive, HL by lia.
  assert (∀ v, maps64 root s2 v = maps64 root s v) as Hsame.
  { intros v. unfold maps64. rewrite T2, T1 by (apply path64_ok || reflexivity || (apply ix_ok; lia)). reflexivity. }
  cbn [snd] in R1, R2. rewrite R1 in R2. destruct (large64 root virt s) eqn:EL; [by rewrite R2|].
  pose proof (get_or_create_spec root s2 [ix 39 virt; ix 30 virt] pd (ix 21 virt) 0 Hok2) as G3.
  pose proof (get_or_create_regs pd (ix 21 virt) s2) as R3. destruct (get_or_create pd (ix 21 virt) s2) as [pt s3].
  destruct G3 as (Hok3 & W3 & _ & T3 & _); [apply path64_ok2|simpl; lia|exact W2|
    apply ix_ok; lia| |exact C2|].
  { unfold points. rewrite HL. apply andb_true_r. }
  destruct (map64_leaf root virt phys flags pt s3 Hok3 Hp Hf W3) as [A B]. split; [exact A|].
  cbn [snd] in R3. rewrite <- R2, <- R3. split; [done|]. intros v. etrans; [exact (B v)|]. case_decide; [done|].
  rewrite <- Hsame. unfold maps64. by rewrite T3 by (apply path64_ok || reflexivity || (apply ix_ok; lia)).
Qed.

Lemma vmm64_map_cases root virt phys flags s :
  ok64 root s → 0 ≤ phys < 2 ^ 64 → 0 ≤ flags < 4096 → can_alloc 3 (pages s) →
  let s' := vmm_map root virt phys flags s in
  ok64 root s' ∧ ∀ v,
    vmm_phys root v s' =
      if decide (vpage v = vpage virt ∧ large64 root virt s = false)
      then phys / 4096 * 4096 + v mod 4096 else vmm_phys root v s.
Proof.
  intros Hok Hp Hf Hc s'. destruct (vmm64_map_maps root virt phys flags s Hok Hp Hf Hc) as [A B]. split; [exact A|].
  intros v. fold s' in B. rewrite !phys64_target. fold (maps64 root s' v) (maps64 root s v).
  destruct (large64 root virt s); destruct B as [_ B]; rewrite B.
  - rewrite decide_False; [done|]. by intros [_ ?].
  - case_decide as Hd; [|by rewrite decide_False by tauto]. rewrite decide_True by done. by apply leaf64_spec.
Qed.

Lemma vmm64_unmap_maps root virt s :
  ok64 root s →
  let s' := vmm_unmap root virt s in
  (s' = s ∧ (large64 root virt s = true ∨ maps64 root s virt = Unmapped)) ∨
  ok64 root s' ∧ large64 root virt s = false ∧ tlb (v_mmu s') = delete (vpage virt) (tlb (v_mmu s)) ∧
  ∀ v, maps64 root s' v = if decide (vpage v = vpage virt) then Unmapped else maps64 root s v.
Proof.
  intros Hok. unfold vmm_unmap. fold (ix 39 virt) (ix 30 virt) (ix 21 virt) (ix 12 virt).
  change PTE_PRESENT with (2 ^ 0). change PTE_HUGE with (2 ^ 7). rewrite !land_bit, negb_involutive by lia.
  set (e1 := entry 8 (pmem s) root (ix 39 virt)). set (e2 := entry 8 (pmem s) (frame 8 e1) (ix 30 virt)).
  set (e3 := entry 8 (pmem s) (frame 8 e2) (ix 21 virt)).
  assert (walk64 root s (path64 virt) =
    if Z.testbit e1 0 && Z.testbit e2 0 && Z.testbit e3 0 && negb (Z.testbit e3 7)
    then Some (frame 8 e3) else None) as Hw.
  { unfold path64. cbn [walk]. fold e1 e2 e3. unfold points. change (0 =? 2) with false.
    change (0 + 1 =? 2) with false. change (0 + 1 + 1 =? 2) with true. cbn [andb negb]. rewrite !andb_true_r.
    destruct (Z.testbit e1 0); [|reflexivity]. destruct (Z.testbit e2 0); reflexivity. }
  assert (walk64 root s [ix 39 virt; ix 30 virt] =
    if Z.testbit e1 0 && Z.testbit e2 0 then Some (frame 8 e2) else None) as Hw2.
  { cbn [walk]. fold e1 e2. unfold points. change (0 =? 2) with false.
    change (0 + 1 =? 2) with false. cbn [andb negb]. rewrite !andb_true_r.
    destruct (Z.testbit e1 0); reflexivity. }
  set (s' := vmm_flush_tlb virt (with_pmem s (set_entry 8 (frame 8 e3) (ix 12 virt) 0 (pmem s)))).
  assert (target64 root s (path64 virt) (ix 12 virt) =
    match walk64 root s (path64 virt) with
    | Some t => if Z.testbit (entry 8 (pmem s) t (ix 12 virt)) 0 then Small (entry 8 (pmem s) t (ix 12 virt)) else Unmapped
    | None => if Z.testbit e1 0 && Z.testbit e2 0 then if Z.testbit e3 0 then Large e3 else Unmapped else Unmapped
    end) as Ht.
  { unfold target. destruct (walk64 root s (path64 virt)); [reflexivity|].
    unfold path64. cbn [removelast List.last]. rewrite Hw2. by destruct (Z.testbit e1 0 && Z.testbit e2 0). }
  assert (large64 root virt s = Z.testbit e1 0 && Z.testbit e2 0 && Z.testbit e3 7) as HL.
  { unfold large64. rewrite Hw2. by destruct (Z.testbit e1 0 && Z.testbit e2 0). }
  rewrite HL. rewrite Hw in *. clearbody e1 e2 e3.
  destruct (Z.testbit e1 0), (Z.testbit e2 0), (Z.testbit e3 0), (Z.testbit e3 7); cbn [negb andb orb] in *.
  1,3-16: (left; split; [reflexivity|first [by left|right; exact Ht]]).
  right. assert (0 ≤ 0 < 2 ^ ew 8) as Hz by (split; [lia|apply Z.pow_pos_nonneg; unfold ew; lia]).
  pose proof (ix_ok 12 virt ltac:(lia)) as Hi. split; [|split; [done|split; [done|]]].
  { exact (tables_ok_set_leaf 8 512 2 3 two_eight eq_refl root (pages s) (pmem s) _ _ _ _
      Hok (path64_ok virt) eq_refl Hw Hi Hz). }
  intros v. unfold maps64, s'. cbn [pmem with_pmem with_tlb vmm_flush_tlb].
  rewrite (target_set_leaf 8 512 2 3 two_eight eq_refl root (pages s) (pmem s) _ _ _ 0
    Hok (path64_ok virt) eq_refl three_lt Hw Hi Hz _ _ (path64_ok v) eq_refl (ix_ok 12 v ltac:(lia))).
  rewrite Z.testbit_0_l. destruct (decide (vpage v = vpage virt)) as [Heq|Hne].
  - by rewrite decide_True by (by apply path64_eq).
  - rewrite decide_False; [reflexivity|]. by rewrite path64_eq.
Qed.

Lemma maps64_page root s v virt : vpage v = vpage virt → maps64 root s v = maps64 root s virt.
Proof. intros [E1 E2]%path64_eq. unfold maps64. by rewrite E1, E2. Qed.

Lemma vmm64_unmap_cases root virt s :
  ok64 root s →
  let s' := vmm_unmap root virt s in
  ok64 root s' ∧ ∀ v,
    vmm_phys root v s' =
      if decide (vpage v = vpage virt ∧ large64 root virt s = false) then 0 else vmm_phys root v s.
Proof.
  intros Hok s'. destruct (vmm64_unmap_maps root virt s Hok) as [[E Hc]|(A & HL & _ & B)].
  - unfold s'. rewrite E. split; [done|]. intros v. case_decide as Hd; [|done]. destruct Hd as [Hv Hl].
    destruct Hc as [?|Hu]; [congruence|]. rewrite phys64_target. fold (maps64 root s v). by rewrite (maps64_page _ _ _ _ Hv), Hu.
  - split; [exact A|]. intros v. rewrite !phys64_target. fold s' in B. fold (maps64 root s' v) (maps64 root s v).
    rewrite B. by repeat case_decide; try tauto.
Qed.
End vmm64.

(** C12: on the 64-bit target, when the page allocator can supply the three tables
    a mapping may need, [vmm_map] changes the translation of exactly one page of
    the 48-bit address space, or does nothing to any translation inside a large
    page; the tables stay a tree of pages the kernel holds.  [vmm_unmap] makes
    exactly that page unmapped, large pages excepted. *)
Theorem vmm64_map_unmap `{PageAlloc P} (root virt phys flags : Z) (s : vmm P) :
  ok64 root s → 0 ≤ phys < 2 ^ 64 → 0 ≤ flags < 4096 → can_alloc 3 (pages s) →
  (let s' := Vmm64.vmm_map root virt phys flags s in
   ok64 root s' ∧ ∀ v,
     Vmm64.vmm_phys root v s' =
       if decide (vpage v = vpage virt ∧ large64 root virt s = false)
       then phys / 4096 * 4096 + v mod 4096 else Vmm64.vmm_phys root v s) ∧
  (let s' := Vmm64.vmm_unmap root virt s in
   ok64 root s' ∧ ∀ v,
     Vmm64.vmm_phys root v s' =
       if decide (vpage v = vpage virt ∧ large64 root virt s = false) then 0
       else Vmm64.vmm_phys root v s).
Proof.
  intros Hok Hp Hf Hc. split.
  - exact (vmm64_map_cases root virt phys flags s Hok Hp Hf Hc).
  - exact (vmm64_unmap_cases root virt s Hok).
Qed.

Lemma vmm64_map_unmap_witness :
  Vmm64.vmm_phys 4096 0xFFFF800012345ABC
    (Vmm64.vmm_map 4096 0xFFFF800012345000 0x765432 3 demo_vmm) = 0x765ABC.
Proof.
  destruct (vmm64_map_unmap 4096 0xFFFF800012345000 0x765432 3 demo_vmm) as [[_ Hm] _].
  - apply demo_vmm_ok64.
  - lia.
  - lia.
  - split; [discriminate|]. split; [discriminate|]. split; [discriminate|exact I].
  - rewrite (Hm 0xFFFF800012345ABC). reflexivity.
Defined.

(** When no page is left [get_or_create] returns NULL, which [vmm_map] does not
    test: the entry goes to the page at address 0. *)
Lemma vmm64_map_exhausted :
  let s' := Vmm64.vmm_map 4096 0x5000 0x765432 3 (Vmm (2 ^ 31) ∅ (Mmu 0 0 0 ∅)) in
  ld_le 8 0x28 (pmem s') = 0x765003 ∧ Vmm64.vmm_phys 4096 0x5000 s' = 0.
Proof. split; vm_compute; reflexivity. Qed.
