(* ===== verification/Mmu.v ===== *)
(** What the processor translates while the code of Vmm.v changes the tables.

    The processor walks the tables on its own and keeps what it finds in its
    cache, and it uses a cached translation without looking at the tables again.
    [mmu_step32] and [mmu_step64] interleave that with [vmm_map] and [vmm_unmap]. *)
From S2P Require Import Prelude CString Pmm Paging Vmm.

(** ** The processor *)

Section cache.
Context {P : Type}.
Implicit Types s : vmm P.

(** The mapping the processor uses for [v] when the tables say [leaf s v]. *)
Definition cached (leaf : vmm P → Z → mapping) s (v : Z) : mapping := default (leaf s v) (tlb (v_mmu s) !! vpage v).

(** The processor caches a translation that exists, or drops one. *)
Inductive cache_step (valid : Z → Prop) (leaf : vmm P → Z → mapping) s : vmm P → Prop :=
  | cache_fill v : valid v → leaf s v ≠ Unmapped → cache_step valid leaf s (with_tlb s (<[vpage v := leaf s v]> (tlb (v_mmu s))))
  | cache_drop p : cache_step valid leaf s (with_tlb s (delete p (tlb (v_mmu s)))).

(** Every cached translation is the one of the tables. *)
Definition coherent (valid : Z → Prop) (leaf : vmm P → Z → mapping) s : Prop :=
  ∀ v e, valid v → tlb (v_mmu s) !! vpage v = Some e → leaf s v = e.

Lemma coherent_cached valid leaf s v : coherent valid leaf s → valid v → cached leaf s v = leaf s v.
Proof. intros Hc Hv. unfold cached. destruct (tlb (v_mmu s) !! vpage v) as [e|] eqn:E; [|done]. cbn. symmetry. by apply Hc. Qed.

Lemma coherent_empty valid leaf s : tlb (v_mmu s) = ∅ → coherent valid leaf s.
Proof. intros E v e _. by rewrite E, lookup_empty. Qed.

(** Steps of the processor: the tables stay, and pages have one mapping. *)
Lemma coherent_step valid leaf s s' :
  (∀ t v, leaf (with_tlb s t) v = leaf s v) → (∀ v w, valid v → valid w → vpage v = vpage w → leaf s v = leaf s w) →
  cache_step valid leaf s s' → coherent valid leaf s → coherent valid leaf s'.
Proof.
  intros Hl Hp Hs Hc v e Hv. destruct Hs as [w Hw _|p]; rewrite Hl; cbn [v_mmu with_tlb tlb].
  - rewrite lookup_insert_Some. intros [[Ep <-]|[_ E]]; [by apply Hp|by apply Hc].
  - rewrite lookup_delete_Some. intros [_ E]. by apply Hc.
Qed.

(** A change of one page's mapping, with that page's entry dropped. *)
Lemma coherent_flush valid leaf s s' virt :
  tlb (v_mmu s') = delete (vpage virt) (tlb (v_mmu s)) → (∀ v, valid v → vpage v ≠ vpage virt → leaf s' v = leaf s v) →
  coherent valid leaf s → coherent valid leaf s'.
Proof.
  intros E Hl Hc v e Hv. rewrite E, lookup_delete_Some. intros [Hne Ee]. rewrite Hl by done. by apply Hc.
Qed.

Lemma coherent_same valid leaf s s' :
  tlb (v_mmu s') = tlb (v_mmu s) → (∀ v, leaf s' v = leaf s v) → coherent valid leaf s → coherent valid leaf s'.
Proof. intros E Hl Hc v e Hv. rewrite E, Hl. by apply Hc. Qed.
End cache.

Section mmu.
Context `{PageAlloc P} (root : Z).
Implicit Types s : vmm P.

(** ** Two levels *)

Definition virt32 (v : Z) : Prop := 0 ≤ v < 2 ^ 32.

Inductive mmu_step32 s : vmm P → Prop :=
  | step32_cache s' : cache_step virt32 (maps32 root) s s' → mmu_step32 s s'
  | step32_map virt phys flags s' : virt32 virt → 0 ≤ phys < 2 ^ 32 →
      Vmm32.vmm_map root virt phys flags s = Ok s' → mmu_step32 s s'
  | step32_unmap virt : virt32 virt → mmu_step32 s (Vmm32.vmm_unmap root virt s).

Lemma vpage32 v w : virt32 v → virt32 w → vpage v = vpage w ↔ v / 4096 = w / 4096.
Proof.
  intros Hv Hw. unfold vpage, virt32 in *. rewrite !Z.mod_small by (split; [dlia|apply Z.div_lt_upper_bound; lia]). done.
Qed.

Lemma maps32_page s v w : virt32 v → virt32 w → vpage v = vpage w → maps32 root s v = maps32 root s w.
Proof.
  intros Hv Hw Hp%vpage32; [|done..]. unfold maps32.
  destruct (indices32 v Hv) as (J1 & J2 & J3), (indices32 w Hw) as (I1 & I2 & I3). unfold index_ok in *.
  assert (pdi_of v = pdi_of w ∧ pti_of v = pti_of w) as [-> ->] by lia. done.
Qed.

Lemma step32_keeps s s' : mmu_step32 s s' → ok32 root s ∧ coherent virt32 (maps32 root) s →
  ok32 root s' ∧ coherent virt32 (maps32 root) s'.
Proof.
  intros Hs [Hok Hc]. destruct Hs as [s' Hs|virt phys flags s' Hv Hp E|virt Hv].
  - split; [by destruct Hs|]. eapply coherent_step; [| |exact Hs|exact Hc]; [done|]. apply maps32_page.
  - pose proof (vmm_map_maps root virt phys flags s Hok Hv Hp) as Hm. rewrite E in Hm. destruct Hm as (A & B & C).
    split; [done|]. eapply coherent_flush; [exact B| |exact Hc]. intros v Hv' Hne. rewrite C by done.
    rewrite decide_False; [done|]. by rewrite <- vpage32.
  - pose proof (vmm_unmap_maps root virt s Hok Hv) as Hm. cbv zeta in Hm. destruct (unmaps32 _ _ _); [|by rewrite Hm].
    destruct Hm as (A & B & C). split; [done|]. eapply coherent_flush; [exact B| |exact Hc]. intros v Hv' Hne. rewrite C by done.
    rewrite decide_False; [done|]. by rewrite <- vpage32.
Qed.

(** ** Four levels *)

(** [vmm_map] is called while the tables it may need can be had. *)
Inductive mmu_step64 s : vmm P → Prop :=
  | step64_cache s' : cache_step (λ _, True) (maps64 root) s s' → mmu_step64 s s'
  | step64_map virt phys flags : 0 ≤ phys < 2 ^ 64 → 0 ≤ flags < 4096 → can_alloc 3 (pages s) →
      mmu_step64 s (Vmm64.vmm_map root virt phys flags s)
  | step64_unmap virt : mmu_step64 s (Vmm64.vmm_unmap root virt s).

Lemma step64_keeps s s' : mmu_step64 s s' → ok64 root s ∧ coherent (λ _, True) (maps64 root) s →
  ok64 root s' ∧ coherent (λ _, True) (maps64 root) s'.
Proof.
  intros Hs [Hok Hc]. destruct Hs as [s' Hs|virt phys flags Hp Hf Ha|virt].
  - split; [by destruct Hs|]. eapply coherent_step; [| |exact Hs|exact Hc]; [done|]. intros v w _ _. apply maps64_page.
  - destruct (vmm64_map_maps root virt phys flags s Hok Hp Hf Ha) as [A B]. split; [done|].
    destruct (large64 root virt s); destruct B as [B C]; [by eapply coherent_same|].
    eapply coherent_flush; [exact B| |exact Hc]. intros v _ Hne. rewrite C. by rewrite decide_False.
  - destruct (vmm64_unmap_maps root virt s Hok) as [[-> _]|(A & _ & B & C)]; [done|]. split; [done|].
    eapply coherent_flush; [exact B| |exact Hc]. intros v _ Hne. rewrite C. by rewrite decide_False.
Qed.
End mmu.

(** ** A page mapped at 0x12345000 *)

Definition demo_mapped : vmm Z :=
  match Vmm32.vmm_map 4096 0x12345000 0x765432 3 demo_vmm with Ok s => s | _ => demo_vmm end.
(** The processor has cached it. *)
Definition demo_cached : vmm Z := with_tlb demo_mapped (<[vpage 0x12345000 := maps32 4096 demo_mapped 0x12345000]> (tlb (v_mmu demo_mapped))).

Lemma demo_mapped_eq : Vmm32.vmm_map 4096 0x12345000 0x765432 3 demo_vmm = Ok demo_mapped.
Proof.
  assert (match Vmm32.vmm_map 4096 0x12345000 0x765432 3 demo_vmm with Ok _ => true | _ => false end = true) as Hok
    by (vm_compute; reflexivity).
  unfold demo_mapped. by destruct (Vmm32.vmm_map _ _ _ _ _).
Qed.

Lemma demo_mapped_phys : Vmm32.vmm_phys 4096 0x12345678 demo_mapped = 0x765678.
Proof. vm_compute. reflexivity. Qed.
Lemma demo_unmapped_phys : Vmm32.vmm_phys 4096 0x12345678 (Vmm32.vmm_unmap 4096 0x12345000 demo_mapped) = 0.
Proof. vm_compute. reflexivity. Qed.
Lemma demo_mapped_leaf : maps32 4096 demo_mapped 0x12345000 ≠ Unmapped.
Proof. vm_compute. discriminate. Qed.

Lemma unmap_tlb `{PageAlloc P} root v w (s : vmm P) t :
  Vmm32.vmm_phys root v (Vmm32.vmm_unmap root w (with_tlb s t)) = Vmm32.vmm_phys root v (Vmm32.vmm_unmap root w s).
Proof. unfold Vmm32.vmm_unmap. cbn [pmem with_tlb]. by destruct (_ || _). Qed.

Lemma demo_steps : rtc (mmu_step32 4096) demo_vmm demo_cached.
Proof.
  eapply rtc_l; [apply (step32_map _ _ 0x12345000 0x765432 3 demo_mapped); [unfold virt32; lia|lia|exact demo_mapped_eq]|].
  apply rtc_once, step32_cache, cache_fill; [unfold virt32; lia|exact demo_mapped_leaf].
Qed.

(** ** The property *)

Lemma rtc_keeps {S} (R : S → S → Prop) (I : S → Prop) s s' : (∀ a b, R a b → I a → I b) → rtc R s s' → I s → I s'.
Proof. intros HR. induction 1; eauto. Qed.

(** C14: no stale translation is ever used.  From well-formed tables just loaded
    into CR3, whatever translations the processor caches and drops in between,
    after any sequence of [vmm_map] and [vmm_unmap] the processor translates every
    address, by its cache or by the tables, to what [vmm_phys] answers, and the
    tables are still well formed; on both targets. *)
Theorem no_stale_translation `{PageAlloc P} (root : Z) (s s' : vmm P) :
  tlb (v_mmu s) = ∅ →
  (ok32 root s → rtc (mmu_step32 root) s s' → ok32 root s' ∧
     ∀ v, 0 ≤ v < 2 ^ 32 → phys32 v (cached (maps32 root) s' v) = Vmm32.vmm_phys root v s') ∧
  (ok64 root s → rtc (mmu_step64 root) s s' → ok64 root s' ∧
     ∀ v, phys64 v (cached (maps64 root) s' v) = Vmm64.vmm_phys root v s').
Proof.
  intros Ht. split; intros Hok Hs.
  - destruct (rtc_keeps _ _ s s' (step32_keeps root) Hs) as [A B]; [split; [done|by apply coherent_empty]|].
    split; [done|]. intros v Hv. rewrite (coherent_cached _ _ _ _ B Hv). symmetry. apply phys32_target.
  - destruct (rtc_keeps _ _ s s' (step64_keeps root) Hs) as [A B]; [split; [done|by apply coherent_empty]|].
    split; [done|]. intros v. rewrite (coherent_cached _ _ _ _ B I). symmetry. apply phys64_target.
Qed.

(** The page is used from the cache; unmapped, it is gone. *)
Lemma no_stale_translation_witness :
  phys32 0x12345678 (cached (maps32 4096) demo_cached 0x12345678) = 0x765678 ∧
  phys32 0x12345678 (cached (maps32 4096) (Vmm32.vmm_unmap 4096 0x12345000 demo_cached) 0x12345678) = 0.
Proof.
  assert (0 ≤ 0x12345678 < 2 ^ 32) as Hv by lia. assert (virt32 0x12345000) as Hv0 by (unfold virt32; lia). split.
  - rewrite (proj2 (proj1 (no_stale_translation 4096 demo_vmm demo_cached eq_refl) demo_vmm_ok demo_steps) _ Hv).
    exact demo_mapped_phys.
  - pose proof (rtc_r _ _ _ demo_steps (step32_unmap 4096 demo_cached 0x12345000 Hv0)) as Hs.
    rewrite (proj2 (proj1 (no_stale_translation 4096 demo_vmm _ eq_refl) demo_vmm_ok Hs) _ Hv).
    unfold demo_cached. rewrite unmap_tlb. exact demo_unmapped_phys.
Defined.
