(* ===== verification/Efi.v ===== *)
(** The UEFI loader: src/arch/x86_64/boot/efi_main.c and efi.h.

    The loader is a 64-bit program that runs under the firmware's identity map.
    The services of the firmware are the interface [Firmware]; the addresses the
    linker gives to the loader's three table arrays are [EfiImage].  What the
    loader hands to the kernel is memory: the image, the page tables in [cr3]
    and the memory map at 0x4FC that kmain.c reads. *)
From S2P Require Import Prelude CString Pmm Paging Vmm.

Definition KERNEL_PHYS : Z := 0x200000.
Definition KERNEL_SECTORS : Z := 128.
Definition E820_ADDR : Z := 0x500.
Definition E820_CNT_ADDR : Z := 0x4FC.
Definition EFI_SUCCESS : Z := 0.
Definition EFI_FILE_MODE_READ : Z := 1.
Definition EfiLoaderCode : Z := 1.
Definition EfiLoaderData : Z := 2.
Definition EfiConventionalMemory : Z := 7.

Inductive EFI_ALLOCATE_TYPE := AllocateAnyPages | AllocateMaxAddress | AllocateAddress.

Record EFI_MEMORY_DESCRIPTOR := Descriptor {
  Type_ : Z; Pad : Z; PhysicalStart : Z; VirtualStart : Z; NumberOfPages : Z; Attribute_ : Z
}.

(** The structure at an address, field by field. *)
Definition ld_descriptor (p : Z) (m : memory) : EFI_MEMORY_DESCRIPTOR :=
  Descriptor (ld_le 4 p m) (ld_le 4 (p + 4) m) (ld_le 8 (p + 8) m) (ld_le 8 (p + 16) m)
    (ld_le 8 (p + 24) m) (ld_le 8 (p + 32) m).

(** The packed entry of 24 bytes at an address. *)
Definition st_e820 (a : Z) (e : e820_entry_t) (m : memory) : memory :=
  st_le 4 (a + 20) (acpi e) (st_le 4 (a + 16) (etype e)
    (st_le 8 (a + 8) (elength e) (st_le 8 a (base e) m))).
Definition ld_e820 (a : Z) (m : memory) : e820_entry_t :=
  E820 (ld_le 8 a m) (ld_le 8 (a + 8) m) (ld_le 4 (a + 16) m) (ld_le 4 (a + 20) m).

(** Where the arrays [pml4], [pdpt] and [pd] of the loader are. *)
Class EfiImage := { pml4_at : Z; pdpt_at : Z; pd_at : Z }.

(** The services of the firmware; the results the loader ignores are left out.
    A protocol interface or a handle is an opaque number. *)
Class Firmware (F : Type) := {
  OutputString : list Z → F → F;
  HandleProtocol : Z → list Z → F → Z * F;
  DeviceHandle : Z → F → Z;
  OpenVolume : Z → F → Z * F;
  Open : Z → list Z → Z → F → (Z * Z) * F;
  AllocatePages : EFI_ALLOCATE_TYPE → Z → Z → Z → F → Z * F;
  Read : Z → Z → Z → memory * F → memory * F;
  Close : Z → F → F;
  GetMemoryMap : Z → Z → memory * F → (Z * Z * Z) * (memory * F);
  ExitBootServices : Z → Z → F → Z * F
}.

(** How the loader ends: halted after its message, or in the kernel with the
    memory and the tables it left. *)
Inductive boot (F : Type) :=
  | Halted (f : F)
  | Kernel (entry cr3 : Z) (m : memory) (f : F).
Arguments Halted {F} f.
Arguments Kernel {F} entry cr3 m f.

(** [(UINT64)table | PT_PRESENT | PT_WRITABLE] is [link_entry]. *)
Definition huge_entry (a : Z) : Z := Z.lor (link_entry a) PTE_HUGE.

Section loader.
Context `{EfiImage}.

Definition pd_page (g : Z) : Z := pd_at + 4096 * g.

Definition build_page_tables (m : memory) : memory :=
  let m := for_up (λ i m, set_entry 8 pml4_at i 0 (set_entry 8 pdpt_at i 0 m)) (span 0 512) 0 m in
  let m := for_up (λ g m, for_up (λ i m, set_entry 8 (pd_page g) i 0 m) (span 0 512) 0 m) (span 0 4) 0 m in
  let m := set_entry 8 pml4_at 0 (link_entry pdpt_at) m in
  for_up (λ g m,
    let m := set_entry 8 pdpt_at g (link_entry (pd_page g)) m in
    for_up (λ i m, set_entry 8 (pd_page g) i (huge_entry (u64 ((g * 512 + i) * 0x200000))) m) (span 0 512) 0 m)
    (span 0 4) 0 m.

(** [d->Type == EfiConventionalMemory || ... ? 1 : 2] and the other fields. *)
Definition e820_of (d : EFI_MEMORY_DESCRIPTOR) : e820_entry_t :=
  let type :=
    if (Type_ d =? EfiConventionalMemory) || (Type_ d =? EfiLoaderCode) || (Type_ d =? EfiLoaderData)
    then 1 else 2 in
  E820 (PhysicalStart d) (u64 (NumberOfPages d * 4096)) type 0.

(** The loop of [build_e820]: [k] is [128 - count]. *)
Fixpoint build_e820_loop (k : nat) (p end_ desc_size count : Z) (m : memory) : Z * memory :=
  match k with
  | O => (count, m)
  | S k =>
      if p <? end_ then
        let m := st_e820 (E820_ADDR + 24 * count) (e820_of (ld_descriptor p m)) m in
        build_e820_loop k (p + desc_size) end_ desc_size (count + 1) m
      else (count, m)
  end.

Definition build_e820 (efi_map map_size desc_size : Z) (m : memory) : memory :=
  let '(count, m) := build_e820_loop 128 efi_map (efi_map + map_size) desc_size 0 m in
  st_le 4 E820_CNT_ADDR count m.

(** The GUIDs of efi.h, by their fields. *)
Definition EFI_LOADED_IMAGE_PROTOCOL_GUID : list Z :=
  [0x5B1B31A1; 0x9562; 0x11d2; 0x8E; 0x3F; 0x00; 0xA0; 0xC9; 0x69; 0x72; 0x3B].
Definition EFI_SIMPLE_FILE_SYSTEM_PROTOCOL_GUID : list Z :=
  [0x964E5B22; 0x6459; 0x11D2; 0x8E; 0x39; 0x00; 0xA0; 0xC9; 0x69; 0x72; 0x3B].

Definition kpath : list Z := bytes "\aerogel\kernel.bin".
Definition crlf : list Z := [13; 10].

Section main.
Context `{Firmware F}.

(** From [OutputString] to the test of the kernel file's status. *)
Definition open_kernel (img : Z) (f : F) : (Z * Z * Z) * F :=
  let f := OutputString (bytes "Aerogel UEFI" ++ crlf) f in
  let '(lip, f) := HandleProtocol img EFI_LOADED_IMAGE_PROTOCOL_GUID f in
  let '(sfs, f) := HandleProtocol (DeviceHandle lip f) EFI_SIMPLE_FILE_SYSTEM_PROTOCOL_GUID f in
  let '(root, f) := OpenVolume sfs f in
  let '((s, kf), f) := Open root kpath EFI_FILE_MODE_READ f in
  ((s, root, kf), f).

(** From the allocation of [kaddr] to [root->Close]. *)
Definition load_kernel (root kf : Z) (s : memory * F) : Z * (memory * F) :=
  let '(m, f) := s in
  let '(kaddr, f) := AllocatePages AllocateAddress EfiLoaderData KERNEL_SECTORS KERNEL_PHYS f in
  let ksize := KERNEL_SECTORS * 4096 in
  let '(m, f) := Read kf ksize kaddr (m, f) in
  (kaddr, (m, Close root (Close kf f))).

(** The buffer for the memory map, and the map in it. *)
Definition get_map (s : memory * F) : (Z * Z * Z * Z) * (memory * F) :=
  let '((map_size, _, desc_size), (m, f)) := GetMemoryMap 0 0 s in
  let map_size := u64 (map_size + desc_size * 32) in
  let '(efi_map, f) := AllocatePages AllocateAnyPages EfiLoaderData (u64 (map_size + 4096 - 1) / 4096) 0 f in
  let '((map_size, map_key, desc_size), s) := GetMemoryMap map_size efi_map (m, f) in
  ((efi_map, map_size, map_key, desc_size), s).

(** [ExitBootServices] with its one retry: the size of the map, the size of a
    descriptor and the state. *)
Definition exit_boot (img efi_map map_size map_key desc_size : Z) (s : memory * F) : (Z * Z) * (memory * F) :=
  let '(m, f) := s in
  let '(st, f) := ExitBootServices img map_key f in
  if negb (st =? EFI_SUCCESS) then
    let map_size := u64 (map_size + desc_size * 8) in
    let '((map_size, map_key, desc_size), (m, f)) := GetMemoryMap map_size efi_map (m, f) in
    let '(_, f) := ExitBootServices img map_key f in
    ((map_size, desc_size), (m, f))
  else ((map_size, desc_size), (m, f)).

Definition efi_main (img : Z) (s : memory * F) : boot F :=
  let '(m, f) := s in
  let '((st, root, kf), f) := open_kernel img f in
  if negb (st =? EFI_SUCCESS) then Halted (OutputString (bytes "Kernel not found" ++ crlf) f) else
  let '(kaddr, s) := load_kernel root kf (m, f) in
  let '((efi_map, map_size, map_key, desc_size), (m, f)) := get_map s in
  let m := build_page_tables m in
  let '((map_size, desc_size), (m, f)) := exit_boot img efi_map map_size map_key desc_size (m, f) in
  let m := build_e820 efi_map map_size desc_size m in
  Kernel kaddr pml4_at m f.
End main.
End loader.

(** What [kmain] passes to [pmm_init]: the entries at 0x500, as many as the
    word at 0x4FC says. *)
Definition boot_map (m : memory) : list e820_entry_t :=
  (λ i, ld_e820 (0x500 + 24 * i) m) <$> seqZ 0 (ld_le 4 0x4FC m).

(** ** The page tables of the loader *)

Lemma eight_two : (2 ≤ 8)%nat.
Proof. lia. Qed.

(** Filling a whole table. *)
Lemma table_fill t (f : Z → Z) m t' j :
  t mod 4096 = 0 → t' mod 4096 = 0 → index_ok 512 j → (∀ i, index_ok 512 i → 0 ≤ f i < 2 ^ 64) →
  entry 8 (for_up (λ i m, set_entry 8 t i (f i) m) (span 0 512) 0 m) t' j =
    if decide (t' = t) then f j else entry 8 m t' j.
Proof.
  intros Ht Ht' Hj Hf. unfold index_ok in *.
  assert (entry 8 (for_up (λ i m, set_entry 8 t i (f i) m) (span 0 512) 0 m) t' j =
    if decide (t' = t ∧ j < 512) then f j else entry 8 m t' j) as ->.
  { apply (for_span_inv (λ i m', entry 8 m' t' j = if decide (t' = t ∧ j < i) then f j else entry 8 m t' j)
      (λ i m, set_entry 8 t i (f i) m) 0 512 m); [lia| |].
    - rewrite decide_False by lia. done.
    - intros i m' Hi IH. rewrite (entry_set 8 512 eight_two eq_refl) by (done || apply Hf; lia || unfold index_ok; lia).
      rewrite IH. repeat case_decide; try lia; try done. f_equal. lia. }
  repeat case_decide; try lia; done.
Qed.

(** A table occupies its page only. *)
Lemma set_entry_frame t i v m a : index_ok 512 i → a < t ∨ t + 4096 ≤ a → ld (set_entry 8 t i v m) a = ld m a.
Proof. unfold index_ok. intros Hi Ha. unfold set_entry. apply ld_st_le_ne. lia. Qed.

Lemma mem_ok_set_entry t i v m : mem_ok m → mem_ok (set_entry 8 t i v m).
Proof. apply mem_ok_st_le. Qed.

Lemma huge_entry_add k : 0 ≤ k → huge_entry (k * 0x200000) = k * 0x200000 + 0x83.
Proof.
  intros Hk. unfold huge_entry, link_entry, PTE_PRESENT, PTE_WRITABLE, PTE_HUGE. rewrite <- !Z.lor_assoc.
  change (Z.lor 1 (Z.lor 2 0x80)) with 0x83.
  exact (lor_low 21 k 0x83 ltac:(lia)).
Qed.

(** The translation of an address by the tables at [root], large pages at the
    third level only, as [vmm_phys] computes it. *)
Definition translate (m : memory) (root v : Z) : option Z :=
  match target 8 2 m root (path64 v) (ix 12 v) with
  | Unmapped => None
  | Small e => Some (Z.lor (frame 8 e) (Z.land v 0xFFF))
  | Large e => Some (Z.lor (Z.land e (u64 (Z.lnot 0x1FFFFF))) (Z.land v 0x1FFFFF))
  end.

Section tables.
Context `{EfiImage}.

(** The three arrays are page-aligned and apart. *)
Definition image_ok : Prop :=
  (pml4_at mod 4096 = 0 ∧ pdpt_at mod 4096 = 0 ∧ pd_at mod 4096 = 0) ∧
  (0 ≤ pml4_at < 2 ^ 48 ∧ 0 ≤ pdpt_at < 2 ^ 48 ∧ 0 ≤ pd_at < 2 ^ 48) ∧
  pml4_at ≠ pdpt_at ∧ (pml4_at < pd_at ∨ pd_at + 16384 ≤ pml4_at) ∧ (pdpt_at < pd_at ∨ pd_at + 16384 ≤ pdpt_at).

(** [a] is outside of the arrays. *)
Definition off_tables (a : Z) : Prop :=
  (a < pml4_at ∨ pml4_at + 4096 ≤ a) ∧ (a < pdpt_at ∨ pdpt_at + 4096 ≤ a) ∧ (a < pd_at ∨ pd_at + 16384 ≤ a).

(** The state after [g] of the four directories are filled. *)
Definition built (g : Z) (m : memory) : Prop :=
  entry 8 m pml4_at 0 = link_entry pdpt_at ∧
  (∀ j, index_ok 512 j → j ≠ 0 → entry 8 m pml4_at j = 0) ∧
  (∀ j, index_ok 512 j → entry 8 m pdpt_at j = if decide (j < g) then link_entry (pd_page j) else 0) ∧
  (∀ k j, 0 ≤ k < g → index_ok 512 j → entry 8 m (pd_page k) j = (k * 512 + j) * 0x200000 + 0x83).

Lemma pd_page_ok g : image_ok → 0 ≤ g < 4 →
  pd_page g mod 4096 = 0 ∧ 0 ≤ pd_page g < 2 ^ 64 ∧ pd_page g ≠ pml4_at ∧ pd_page g ≠ pdpt_at.
Proof. intros ((A1 & A2 & A3) & B & C & D & E) Hg. unfold pd_page. split; [dlia|lia]. Qed.

Lemma link_ok a : 0 ≤ a < 2 ^ 63 → a mod 4096 = 0 → 0 ≤ link_entry a < 2 ^ 64.
Proof. intros Ha Hm. destruct (frame_link 8 2 eight_two a) as (_ & B & _); [unfold ew; lia|done|exact B]. Qed.

Lemma built_step g m : image_ok → 0 ≤ g < 4 → built g m →
  built (g + 1)
    (for_up (λ i m, set_entry 8 (pd_page g) i (huge_entry (u64 ((g * 512 + i) * 0x200000))) m) (span 0 512) 0
      (set_entry 8 pdpt_at g (link_entry (pd_page g)) m)).
Proof.
  intros Hi Hg (A & B & C & D). pose proof (pd_page_ok g Hi Hg) as (P1 & P2 & P3 & P4).
  pose proof Hi as ((I1 & I2 & I3) & I4 & I5 & I6 & I7).
  assert (0 ≤ link_entry (pd_page g) < 2 ^ 64) as Hl by (apply link_ok; [unfold pd_page in *; lia|done]).
  assert (∀ i, index_ok 512 i → huge_entry (u64 ((g * 512 + i) * 0x200000)) = (g * 512 + i) * 0x200000 + 0x83) as Eh.
  { unfold index_ok. intros i Hi'. rewrite wrap_small by lia. apply huge_entry_add. lia. }
  assert (∀ t j, t mod 4096 = 0 → index_ok 512 j →
    entry 8 (for_up (λ i m, set_entry 8 (pd_page g) i (huge_entry (u64 ((g * 512 + i) * 0x200000))) m) (span 0 512) 0
      (set_entry 8 pdpt_at g (link_entry (pd_page g)) m)) t j =
    if decide (t = pd_page g) then (g * 512 + j) * 0x200000 + 0x83 else
    if decide (t = pdpt_at ∧ j = g) then link_entry (pd_page g) else entry 8 m t j) as E.
  { intros t j Ht Hj. rewrite (table_fill (pd_page g) (λ i, huge_entry (u64 ((g * 512 + i) * 0x200000)))); try done.
    - rewrite Eh by done. rewrite (entry_set 8 512 eight_two eq_refl) by (done || unfold index_ok; lia). done.
    - intros i Hi'. rewrite Eh by done. unfold index_ok in Hi'. lia. }
  split_and!.
  - rewrite E, !decide_False by (done || (unfold index_ok; lia) || intuition congruence). exact A.
  - intros j Hj Hn. rewrite E, !decide_False by (done || intuition congruence). by apply B.
  - intros j Hj. rewrite E by done. rewrite decide_False by congruence. case_decide as Hd.
    + destruct Hd as [_ ->]. by rewrite decide_True by lia.
    + rewrite C by done. repeat case_decide; try lia; done.
  - intros k j Hk Hj. destruct (pd_page_ok k Hi ltac:(lia)) as (Q1 & Q2 & Q3 & Q4). rewrite E by done.
    case_decide as Hd; [unfold pd_page in Hd; replace k with g by lia; done|].
    rewrite decide_False by tauto. apply D; [|done]. unfold pd_page in Hd. split; [lia|].
    destruct (decide (k = g)) as [->|]; [lia|lia].
Qed.

Lemma build_page_tables_built m : image_ok → built 4 (build_page_tables m).
Proof.
  intros Hi. pose proof Hi as ((I1 & I2 & I3) & I4 & I5 & I6 & I7). unfold build_page_tables.
  set (m1 := for_up (λ i m, set_entry 8 pml4_at i 0 (set_entry 8 pdpt_at i 0 m)) (span 0 512) 0 m).
  set (m2 := for_up _ (span 0 4) 0 m1).
  assert (∀ t j, t = pml4_at ∨ t = pdpt_at → index_ok 512 j → entry 8 m2 t j = 0) as E2.
  { intros t j Ht Hj. unfold m2.
    apply (for_span_inv (λ _ m', entry 8 m' t j = 0)); [lia| |].
    - unfold index_ok in Hj. assert (j < 512 → entry 8 m1 t j = 0) as Hend; [|apply Hend; lia].
      apply (for_span_inv (λ i m', j < i → entry 8 m' t j = 0)
        (λ i m, set_entry 8 pml4_at i 0 (set_entry 8 pdpt_at i 0 m)) 0 512 m); [lia|unfold index_ok in Hj; lia|].
      intros i m' Hi' IH Hlt. rewrite !(entry_set 8 512 eight_two eq_refl) by
        (done || (destruct Ht; subst; done) || (unfold index_ok; lia)).
      repeat case_decide; try done. apply IH. destruct (decide (j = i)) as [->|]; [|lia].
      destruct Ht as [-> | ->]; tauto.
    - intros g m' Hg IH. destruct (pd_page_ok g Hi Hg) as (P1 & _ & P3 & P4).
      rewrite (table_fill (pd_page g) (λ _, 0)) by (done || (destruct Ht; subst; done) || (intros; lia)).
      by rewrite decide_False by (destruct Ht; congruence). }
  apply (for_span_inv built); [lia| |intros; by apply built_step].
  assert (0 ≤ link_entry pdpt_at < 2 ^ 64) as Hl by (apply link_ok; [lia|done]).
  assert (∀ t j, t mod 4096 = 0 → index_ok 512 j →
    entry 8 (set_entry 8 pml4_at 0 (link_entry pdpt_at) m2) t j =
    if decide (t = pml4_at ∧ j = 0) then link_entry pdpt_at else entry 8 m2 t j) as E3.
  { intros t j Ht Hj. by rewrite (entry_set 8 512 eight_two eq_refl) by (done || unfold index_ok; lia). }
  split_and!.
  - rewrite E3 by (done || unfold index_ok; lia). by rewrite decide_True by done.
  - intros j Hj Hn. rewrite E3 by done. rewrite decide_False by tauto. apply E2; [by left|done].
  - intros j Hj. rewrite E3 by done. rewrite decide_False by (intros [? _]; congruence).
    rewrite E2 by (done || by right). unfold index_ok in Hj. by rewrite decide_False by lia.
  - intros k j Hk. lia.
Qed.

Lemma build_page_tables_frame m a : image_ok → off_tables a → ld (build_page_tables m) a = ld m a.
Proof.
  intros Hi (A & B & C). unfold build_page_tables.
  assert (∀ g i v m', 0 ≤ g < 4 → 0 ≤ i < 512 → ld (set_entry 8 (pd_page g) i v m') a = ld m' a) as Hpd.
  { intros. apply set_entry_frame; [unfold index_ok; lia|unfold pd_page; lia]. }
  assert (∀ (f : Z → Z) g m', 0 ≤ g < 4 →
    ld (for_up (λ i m, set_entry 8 (pd_page g) i (f i) m) (span 0 512) 0 m') a = ld m' a) as Hfill.
  { intros f g m' Hg. apply (for_span_inv (λ _ m2, ld m2 a = ld m' a)); [lia|done|].
    intros i m2 Hi' IH. by rewrite Hpd by lia. }
  apply (for_span_inv (λ _ m', ld m' a = ld m a)); [lia| |].
  - rewrite set_entry_frame by (unfold index_ok; lia || done).
    apply (for_span_inv (λ _ m', ld m' a = ld m a)); [lia| |].
    + apply (for_span_inv (λ _ m', ld m' a = ld m a)); [lia|done|].
      intros i m' Hi' IH. by rewrite !set_entry_frame by (unfold index_ok; lia || done).
    + intros g m' Hg IH. by rewrite Hfill.
  - intros g m' Hg IH. rewrite (Hfill (λ i, huge_entry (u64 ((g * 512 + i) * 0x200000)))) by lia.
    by rewrite set_entry_frame by (unfold index_ok; lia || done).
Qed.
End tables.

Lemma translate_large m root v e :
  walk 8 2 m 0 root (path64 v) = None → 
  (∃ t, walk 8 2 m 0 root (removelast (path64 v)) = Some t ∧ entry 8 m t (ix 21 v) = e) →
  ∀ k, 0 ≤ k < 2 ^ 11 → e = k * 0x200000 + 0x83 → translate m root v = Some (k * 0x200000 + v mod 0x200000).
Proof.
  intros Hw (t & Hw2 & Ht) k Hk ->. unfold translate, target. rewrite Hw, Hw2.
  change (List.last (path64 v) 0) with (ix 21 v). cbv zeta. rewrite Ht.
  assert (Z.testbit (k * 0x200000 + 0x83) 0 = true) as ->.
  { rewrite Z.bit0_odd, Z.odd_add, Z.odd_mul. change (Z.odd 0x200000) with false. by rewrite andb_false_r. }
  f_equal. change (u64 (Z.lnot 0x1FFFFF)) with (wrap 64 (Z.lnot (2 ^ 21 - 1))). rewrite land_align_mask by lia.
  change 0x1FFFFF with (Z.ones 21). rewrite Z.land_ones by lia.
  change 0x200000 with (2 ^ 21). rewrite Z.add_comm, Z.mod_add by lia. change (0x83 mod 2 ^ 21) with 0x83.
  replace (0x83 + k * 2 ^ 21 - 0x83) with (k * 2 ^ 21) by lia. by apply lor_low.
Qed.

Section identity.
Context `{EfiImage}.

Lemma points_link a lvl : 0 ≤ a < 2 ^ 63 → a mod 4096 = 0 →
  points 2 lvl (link_entry a) = true ∧ frame 8 (link_entry a) = a.
Proof.
  intros Ha Hm. destruct (frame_link 8 2 eight_two a) as (A & _ & B); [unfold ew; lia|done|by split].
Qed.

(** Below 4 GiB the tables translate every address to itself; above, none. *)
Lemma built_translates m v : image_ok → built 4 m → 0 ≤ v < 2 ^ 48 →
  translate m pml4_at v = if decide (v < 2 ^ 32) then Some v else None.
Proof.
  intros Hi (A & B & C & D) Hv. pose proof Hi as ((I1 & I2 & I3) & I4 & _).
  pose proof (ix_ok 39 v ltac:(lia)) as H39. pose proof (ix_ok 30 v ltac:(lia)) as H30.
  pose proof (ix_ok 21 v ltac:(lia)) as H21.
  assert (ix 39 v = v / 2 ^ 39 ∧ (v < 2 ^ 39 → ix 30 v = v / 2 ^ 30) ∧ ix 21 v = v / 2 ^ 21 mod 512) as (E39 & E30 & E21).
  { rewrite !ix_div by lia. split_and!; try done; intros; apply Z.mod_small; dlia. }
  destruct (points_link pdpt_at 0) as [Pl Fl]; [lia|done|].
  destruct (decide (ix 39 v = 0)) as [Z39|N39].
  2:{ rewrite decide_False by dlia. unfold translate, target, path64. cbn [walk removelast].
      assert (entry 8 m pml4_at (ix 39 v) = 0) as -> by (apply B; done).
      change (points 2 0 0) with false. done. }
  assert (v < 2 ^ 39) as Hv2 by dlia. specialize (E30 Hv2).
  assert (walk 8 2 m 0 pml4_at [ix 39 v] = Some pdpt_at) as W1.
  { cbn [walk]. by rewrite Z39, A, Pl, Fl. }
  destruct (decide (v < 2 ^ 32)) as [Hlt|Hge].
  - assert (0 ≤ ix 30 v < 4) as H30' by dlia. destruct (pd_page_ok (ix 30 v) Hi H30') as (P1 & P2 & _).
    destruct (points_link (pd_page (ix 30 v)) 1) as [Pl2 Fl2]; [unfold pd_page; lia|done|].
    assert (walk 8 2 m 0 pml4_at [ix 39 v; ix 30 v] = Some (pd_page (ix 30 v))) as W2.
    { change [ix 39 v; ix 30 v] with ([ix 39 v] ++ [ix 30 v]). rewrite (walk_app 8 2 eight_two), W1. cbn [walk].
      rewrite C by done. rewrite decide_True by lia. change (0 + Z.of_nat (length [ix 39 v])) with 1. by rewrite Pl2, Fl2. }
    specialize (D (ix 30 v) (ix 21 v) H30' H21).
    erewrite translate_large with (k := ix 30 v * 512 + ix 21 v); [f_equal; rewrite E30, E21; dlia| | | |].
    + unfold path64. change [ix 39 v; ix 30 v; ix 21 v] with ([ix 39 v; ix 30 v] ++ [ix 21 v]).
      rewrite (walk_app 8 2 eight_two), W2. cbn [walk length]. rewrite D. change (0 + Z.of_nat 2) with 2.
      unfold points. change (2 =? 2) with true. cbn [andb].
      assert (Z.testbit ((ix 30 v * 512 + ix 21 v) * 0x200000 + 0x83) 7 = true) as ->; [|by rewrite andb_false_r].
      rewrite Z.testbit_true by lia. change (2 ^ 7) with 128.
      replace ((ix 30 v * 512 + ix 21 v) * 0x200000 + 0x83) with (3 + ((ix 30 v * 512 + ix 21 v) * 16384 + 1) * 128) by lia.
      rewrite Z.div_add by lia. change (3 / 128) with 0. dlia.
    + exists (pd_page (ix 30 v)). split; [exact W2|exact D].
    + unfold index_ok in H21. lia.
    + done.
  - assert (walk 8 2 m 0 pml4_at [ix 39 v; ix 30 v] = None) as W2.
    { change [ix 39 v; ix 30 v] with ([ix 39 v] ++ [ix 30 v]). rewrite (walk_app 8 2 eight_two), W1. cbn [walk].
      rewrite C by done. rewrite decide_False by dlia. done. }
    unfold translate, target. change (removelast (path64 v)) with [ix 39 v; ix 30 v]. rewrite W2.
    unfold path64. change [ix 39 v; ix 30 v; ix 21 v] with ([ix 39 v; ix 30 v] ++ [ix 21 v]). by rewrite (walk_app 8 2 eight_two), W2.
Qed.
End identity.

(** ** The memory map *)

(** The descriptors [ds] lie from [p] on, [step] bytes apart. *)
Fixpoint descriptors_at (m : memory) (p step : Z) (ds : list EFI_MEMORY_DESCRIPTOR) : Prop :=
  match ds with [] => True | d :: ds => ld_descriptor p m = d ∧ descriptors_at m (p + step) step ds end.

Lemma descriptors_at_ext m m' step : ∀ ds p, 40 ≤ step →
  (∀ a, p ≤ a < p + step * Z.of_nat (length ds) → ld m' a = ld m a) →
  descriptors_at m p step ds → descriptors_at m' p step ds.
Proof.
  induction ds as [|d ds IH]; intros p Hs Hm; [done|]. cbn [descriptors_at length] in *. intros [<- B].
  split; [|apply IH; [done|intros a Ha; apply Hm; nia|done]].
  unfold ld_descriptor. f_equal; apply ld_le_ext; intros a Ha; apply Hm; nia.
Qed.

(** Entries are 24 bytes and are read back as they were stored. *)
Lemma st_e820_frame a e m b : b < a ∨ a + 24 ≤ b → ld (st_e820 a e m) b = ld m b.
Proof. intros Hb. unfold st_e820. by rewrite !ld_st_le_ne by lia. Qed.

Definition e820_ok (e : e820_entry_t) : Prop :=
  0 ≤ base e < 2 ^ 64 ∧ 0 ≤ elength e < 2 ^ 64 ∧ 0 ≤ etype e < 2 ^ 32 ∧ 0 ≤ acpi e < 2 ^ 32.

Lemma ld_e820_st a e m : e820_ok e → ld_e820 a (st_e820 a e m) = e.
Proof.
  intros (A & B & C & D). unfold ld_e820, st_e820.
  assert (∀ n k b v m', b + Z.of_nat n ≤ k → ld_le n b (st_le 4 k v m') = ld_le n b m') as E4.
  { intros n k b v m' Hb. apply ld_le_ext. intros c Hc. apply ld_st_le_ne. lia. }
  assert (∀ n k b v m', b + Z.of_nat n ≤ k → ld_le n b (st_le 8 k v m') = ld_le n b m') as E8.
  { intros n k b v m' Hb. apply ld_le_ext. intros c Hc. apply ld_st_le_ne. lia. }
  rewrite !E4, E8, !ld_st_le_eq by lia. destruct e. cbn -[Z.pow wrap ld_le Z.mul] in *.
  rewrite !wrap_small by (cbn; lia). done.
Qed.

Lemma ld_e820_ext a m m' : (∀ b, a ≤ b < a + 24 → ld m' b = ld m b) → ld_e820 a m' = ld_e820 a m.
Proof. intros Hm. unfold ld_e820. f_equal; apply ld_le_ext; intros b Hb; apply Hm; lia. Qed.

Lemma ld_le_bound n : ∀ a m, mem_ok m → 0 ≤ ld_le n a m < 2 ^ (8 * Z.of_nat n).
Proof.
  induction n as [|n IH]; intros a m Hm; [cbn; lia|]. cbn [ld_le].
  pose proof (ld_bound m a Hm). specialize (IH (a + 1) m Hm).
  replace (8 * Z.of_nat (S n)) with (8 + 8 * Z.of_nat n) by lia. rewrite Z.pow_add_r by lia. lia.
Qed.

Lemma e820_of_ok p m : mem_ok m → e820_ok (e820_of (ld_descriptor p m)).
Proof.
  intros Hm. unfold e820_of, e820_ok. cbn -[Z.pow wrap ld_le Z.mul].
  pose proof (ld_le_bound 8 (p + 8) m Hm). split; [cbn in *; lia|]. split; [by apply wrap_bound|].
  split; [|lia]. destruct (_ || _); lia.
Qed.

Lemma mem_ok_st_e820 a e m : mem_ok m → mem_ok (st_e820 a e m).
Proof. intros Hm. unfold st_e820. by repeat apply mem_ok_st_le. Qed.

(** The loop writes one entry for each descriptor that is left, at most [k]. *)
Lemma build_e820_loop_spec step : 40 ≤ step → ∀ ds k p count m,
  mem_ok m → descriptors_at m p step ds → 0 ≤ count → count + Z.of_nat k = 128 →
  p + step * Z.of_nat (length ds) ≤ 0x4FC ∨ 0x1100 ≤ p →
  let n := Z.of_nat (length (take k ds)) in
  ∃ m', build_e820_loop k p (p + step * Z.of_nat (length ds)) step count m = (count + n, m') ∧ mem_ok m' ∧
    (∀ i, 0 ≤ i < n → ld_e820 (E820_ADDR + 24 * (count + i)) m' =
       e820_of (List.nth (Z.to_nat i) ds (Descriptor 0 0 0 0 0 0))) ∧
    (∀ a, a < E820_ADDR + 24 * count ∨ 0x1100 ≤ a → ld m' a = ld m a).
Proof.
  intros Hs. induction ds as [|d ds IH]; intros [|k] p count m Hm Hd Hc Hk Hfar n; subst n; unfold E820_ADDR in *.
  1-3: exists m; cbn [take length build_e820_loop] in *; rewrite ?Z.add_0_r; try (rewrite (proj2 (Z.ltb_ge _ _)) by lia);
    split; [f_equal; lia|]; split; [done|]; split; [lia|done].
  cbn [descriptors_at] in Hd. destruct Hd as [<- Hd].
  cbn [build_e820_loop length take] in *. rewrite (proj2 (Z.ltb_lt _ _)) by nia. unfold E820_ADDR.
  set (e := e820_of (ld_descriptor p m)). set (m1 := st_e820 (0x500 + 24 * count) e m).
  assert (e820_ok e) as He by (by apply e820_of_ok).
  assert (∀ a, a < 0x500 + 24 * count ∨ 0x500 + 24 * (count + 1) ≤ a → ld m1 a = ld m a) as F1.
  { intros a Ha. apply st_e820_frame. lia. }
  destruct (IH k (p + step) (count + 1) m1) as (m' & E & Hm' & R & F).
  { by apply mem_ok_st_e820. }
  { apply (descriptors_at_ext m); [done| |done]. intros a Ha. apply F1. nia. }
  { lia. } { lia. } { nia. }
  exists m'. split.
  { replace (p + step * Z.of_nat (S (length ds))) with (p + step + step * Z.of_nat (length ds)) by lia.
    rewrite E. f_equal. lia. }
  split; [done|]. split.
  - intros i Hi. destruct (decide (i = 0)) as [->|].
    + rewrite Z.add_0_r. transitivity (ld_e820 (0x500 + 24 * count) m1); [|by apply ld_e820_st].
      apply ld_e820_ext. intros b Hb. apply F. lia.
    + replace (count + i) with (count + 1 + (i - 1)) by lia. rewrite R by lia.
      replace (Z.to_nat i) with (S (Z.to_nat (i - 1))) by lia. done.
  - intros a Ha. rewrite F by lia. apply F1. lia.
Qed.

(** What the kernel reads back is the first 128 descriptors. *)
Lemma build_e820_spec step ds efi_map m : 40 ≤ step → mem_ok m → descriptors_at m efi_map step ds →
  efi_map + step * Z.of_nat (length ds) ≤ 0x4FC ∨ 0x1100 ≤ efi_map →
  let m' := build_e820 efi_map (step * Z.of_nat (length ds)) step m in
  mem_ok m' ∧ boot_map m' = e820_of <$> take 128 ds ∧ (∀ a, a < 0x4FC ∨ 0x1100 ≤ a → ld m' a = ld m a).
Proof.
  intros Hs Hm Hd Hfar m'. subst m'. unfold build_e820.
  destruct (build_e820_loop_spec step Hs ds 128 efi_map 0 m Hm Hd) as (m' & E & Hm' & R & F); try lia.
  set (n := Z.of_nat (length (take 128 ds))) in *. rewrite E. rewrite Z.add_0_l. unfold E820_CNT_ADDR, E820_ADDR in *.
  assert (0 ≤ n ≤ 128) as Hn by (unfold n; rewrite length_take; lia).
  assert (∀ a, a < 0x4FC ∨ 0x500 ≤ a → ld (st_le 4 0x4FC n m') a = ld m' a) as Fc.
  { intros a Ha. apply ld_st_le_ne. lia. }
  split; [by apply mem_ok_st_le|]. split.
  - unfold boot_map. rewrite ld_st_le_eq, wrap_small by lia. apply list_eq. intros k.
    rewrite !list_lookup_fmap. destruct (decide (k < length (take 128 ds))%nat) as [Hk|Hk].
    + rewrite lookup_seqZ_lt by lia. cbn [fmap option_fmap option_map]. rewrite Z.add_0_l.
      rewrite (ld_e820_ext _ m') by (intros b Hb; apply Fc; lia).
      specialize (R (Z.of_nat k) ltac:(lia)). rewrite Z.add_0_l in R. rewrite R, Nat2Z.id.
      rewrite length_take in Hk. rewrite lookup_take_lt by lia.
      destruct (lookup_lt_is_Some_2 ds k) as [d Ed]; [lia|]. rewrite Ed. cbn. do 2 f_equal.
      by apply nth_lookup_Some.
    + rewrite lookup_seqZ_ge, lookup_ge_None_2 by lia. done.
  - intros a Ha. rewrite Fc by lia. apply F. lia.
Qed.

(** ** The whole loader *)

(** What the UEFI specification promises of the services, as far as the loader
    relies on it.  [fw_image] is the kernel file's content and [fw_map] the
    memory map; allocating splits a region in at most three, and a failed
    [ExitBootServices] leaves a map that grew by at most eight descriptors. *)
Class FirmwareLaws (F : Type) `{EfiImage} `{Firmware F} := {
  fw_image : list Z;
  fw_map : F → list EFI_MEMORY_DESCRIPTOR;
  fw_step : Z;
  fw_step_bound : 40 ≤ fw_step ≤ 4096;
  fw_map_bound : ∀ f, Z.of_nat (length (fw_map f)) ≤ 2 ^ 32;
  (** An allocated range is apart from what the loader uses without asking. *)
  fw_alloc_fixed : ∀ t n a f, (AllocatePages AllocateAddress t n a f).1 = a;
  fw_alloc_any : ∀ t n a f b f', AllocatePages AllocateAnyPages t n a f = (b, f') →
    (∀ x, b ≤ x < b + 4096 * n → off_tables x ∧ 0x1100 ≤ x ∧
       (x < KERNEL_PHYS ∨ KERNEL_PHYS + 4096 * KERNEL_SECTORS ≤ x)) ∧
    (length (fw_map f') ≤ length (fw_map f) + 2)%nat;
  fw_read : ∀ kf n b m f m' f', mem_ok m → Read kf n b (m, f) = (m', f') → mem_ok m' ∧
    ∀ i, 0 ≤ i < Z.of_nat (length fw_image) → i < n → ld m' (b + i) = rd fw_image i;
  fw_get_map : ∀ n b m f sz key st m' f', mem_ok m → GetMemoryMap n b (m, f) = ((sz, key, st), (m', f')) →
    mem_ok m' ∧ st = fw_step ∧ sz = fw_step * Z.of_nat (length (fw_map f')) ∧ fw_map f' = fw_map f ∧
    (∀ a, a < b ∨ b + n ≤ a → ld m' a = ld m a) ∧ (sz ≤ n → descriptors_at m' b fw_step (fw_map f'));
  fw_exit : ∀ img key f st f', ExitBootServices img key f = (st, f') →
    (st = EFI_SUCCESS → fw_map f' = fw_map f) ∧ (length (fw_map f') ≤ length (fw_map f) + 8)%nat;
  (** With the key of a fresh map the second attempt succeeds. *)
  fw_retry : ∀ img key f f1 st n b m sz key' step' m' f', ExitBootServices img key f = (st, f1) → st ≠ EFI_SUCCESS →
    GetMemoryMap n b (m, f1) = ((sz, key', step'), (m', f')) → (ExitBootServices img key' f').1 = EFI_SUCCESS
}.

Section boots.
Context `{FirmwareLaws F}.

(** What holds when the memory map's buffer at [b], of [n] bytes, has the map. *)
Definition map_ready (b n : Z) (sz st : Z) (m : memory) (f : F) : Prop :=
  mem_ok m ∧ st = fw_step ∧ sz = fw_step * Z.of_nat (length (fw_map f)) ∧ sz + 8 * fw_step ≤ n ∧
  descriptors_at m b fw_step (fw_map f).

(** The buffer is apart from the rest. *)
Definition buffer_ok (b n : Z) : Prop :=
  ∀ x, b ≤ x < b + n → off_tables x ∧ 0x1100 ≤ x ∧ (x < KERNEL_PHYS ∨ KERNEL_PHYS + 4096 * KERNEL_SECTORS ≤ x).

Lemma get_map_spec m f b sz key st m' f' : mem_ok m → get_map (m, f) = ((b, sz, key, st), (m', f')) →
  ∃ n, buffer_ok b n ∧ map_ready b n sz st m' f' ∧ sz + 30 * fw_step ≤ n ∧
    (0x1100 ≤ b ∨ n ≤ 0) ∧
    ∀ a, KERNEL_PHYS ≤ a < KERNEL_PHYS + 4096 * KERNEL_SECTORS → ld m' a = ld m a.
Proof.
  intros Hm E. unfold get_map in E. pose proof fw_step_bound as Hst.
  destruct (GetMemoryMap 0 0 (m, f)) as [[[sz0 key0] st0] [m0 f0]] eqn:E0.
  destruct (fw_get_map _ _ _ _ _ _ _ _ _ Hm E0) as (Hm0 & -> & -> & Em0 & F0 & _).
  pose proof (fw_map_bound f0) as B0. set (n0 := Z.of_nat (length (fw_map f0))) in *.
  rewrite (wrap_small 64 (fw_step * n0 + fw_step * 32)) in E by nia.
  set (want := fw_step * n0 + fw_step * 32) in *.
  rewrite (wrap_small 64 (want + 4096 - 1)) in E by (unfold want; nia).
  destruct (AllocatePages _ _ _ _ _) as [b1 f1] eqn:E1. destruct (fw_alloc_any _ _ _ _ _ _ E1) as [Hb Hl].
  destruct (GetMemoryMap want b1 (m0, f1)) as [[[sz1 key1] st1] [m1 f2]] eqn:E2.
  destruct (fw_get_map _ _ _ _ _ _ _ _ _ Hm0 E2) as (Hm1 & -> & -> & Em1 & F1 & D1).
  injection E as <- <- <- <- <- <-. exists want.
  assert (buffer_ok b1 want) as Hbuf by (intros x Hx; apply Hb; dlia).
  assert (fw_step * Z.of_nat (length (fw_map f2)) ≤ fw_step * n0 + 2 * fw_step) as Hs.
  { rewrite Em1. unfold n0. nia. }
  split; [exact Hbuf|]. split; [|split; [lia|split]].
  - split_and!; try done; try lia. apply D1. lia.
  - left. apply (Hbuf b1). nia.
  - intros a Ha. rewrite F1, F0; [done| |].
    + lia.
    + destruct (decide (b1 ≤ a < b1 + want)) as [Hin|]; [|lia]. destruct (Hbuf a Hin) as (_ & _ & ?). lia.
Qed.

Lemma exit_boot_spec img b n sz key st m f sz' st' m' f' :
  buffer_ok b n → map_ready b n sz st m f → exit_boot img b sz key st (m, f) = ((sz', st'), (m', f')) →
  mem_ok m' ∧ st' = fw_step ∧ sz' = fw_step * Z.of_nat (length (fw_map f')) ∧
  descriptors_at m' b fw_step (fw_map f') ∧ (∀ a, a < b ∨ b + n ≤ a → ld m' a = ld m a).
Proof.
  intros Hb (Hm & -> & -> & Hn & Hd) E. unfold exit_boot in E. pose proof fw_step_bound as Hst.
  destruct (ExitBootServices img key f) as [r f1] eqn:E1. destruct (fw_exit _ _ _ _ _ E1) as [Hok Hl].
  destruct (Z.eqb_spec r EFI_SUCCESS) as [Hr|Hr]; cbn [negb] in E.
  { injection E as <- <- <- <-. rewrite (Hok Hr). split_and!; done. }
  pose proof (fw_map_bound f) as B0. rewrite wrap_small in E by nia.
  destruct (GetMemoryMap _ b (m, f1)) as [[[sz1 key1] st1] [m1 f2]] eqn:E2.
  destruct (fw_get_map _ _ _ _ _ _ _ _ _ Hm E2) as (Hm1 & -> & -> & Em1 & F1 & D1).
  pose proof (fw_retry _ _ _ _ _ _ _ _ _ _ _ _ _ E1 Hr E2) as Hr2.
  destruct (ExitBootServices img key1 f2) as [r2 f3] eqn:E3. cbn [fst] in Hr2.
  destruct (fw_exit _ _ _ _ _ E3) as [Hok3 _]. specialize (Hok3 Hr2).
  injection E as <- <- <- <-. rewrite Hok3. split_and!; try done.
  - apply D1. rewrite Em1. nia.
  - intros a Ha. apply F1. lia.
Qed.

(** The image of the kernel is in memory. *)
Definition kernel_at (m : memory) : Prop :=
  ∀ i, 0 ≤ i < Z.of_nat (length fw_image) → i < 4096 * KERNEL_SECTORS → ld m (KERNEL_PHYS + i) = rd fw_image i.

Lemma load_kernel_spec root kf m f k m' f' :
  mem_ok m → load_kernel root kf (m, f) = (k, (m', f')) → k = KERNEL_PHYS ∧ mem_ok m' ∧ kernel_at m'.
Proof.
  intros Hm E. unfold load_kernel in E.
  pose proof (fw_alloc_fixed EfiLoaderData KERNEL_SECTORS KERNEL_PHYS f) as Ha.
  destruct (AllocatePages _ _ _ _ _) as [k0 f0]. cbn [fst] in Ha. subst k0.
  destruct (Read _ _ _ _) as [m1 f1] eqn:E1. destruct (fw_read _ _ _ _ _ _ _ Hm E1) as [Hm1 Hr].
  injection E as <- <- <-. split; [done|]. split; [done|]. intros i Hi Hk. apply Hr; [done|lia].
Qed.

Lemma kernel_at_ext m m' : (∀ a, KERNEL_PHYS ≤ a < KERNEL_PHYS + 4096 * KERNEL_SECTORS → ld m' a = ld m a) →
  kernel_at m → kernel_at m'.
Proof. intros Hx Hk i Hi Hn. rewrite Hx by lia. by apply Hk. Qed.

Lemma efi_main_run img m f : mem_ok m → image_ok →
  (∀ a, 0x4FC ≤ a < 0x1100 ∨ KERNEL_PHYS ≤ a < KERNEL_PHYS + 4096 * KERNEL_SECTORS → off_tables a) →
  (open_kernel img f).1.1.1 = EFI_SUCCESS →
  ∃ m' f', efi_main img (m, f) = Kernel KERNEL_PHYS pml4_at m' f' ∧
    built 4 m' ∧ boot_map m' = e820_of <$> take 128 (fw_map f') ∧ kernel_at m'.
Proof.
  intros Hm Hi Hoff Hopen. unfold efi_main.
  destruct (open_kernel img f) as [[[st root] kf] f0]. cbn [fst] in Hopen. subst st. cbn [Z.eqb EFI_SUCCESS negb].
  destruct (load_kernel root kf (m, f0)) as [k [m1 f1]] eqn:E1.
  destruct (load_kernel_spec _ _ _ _ _ _ _ Hm E1) as (-> & Hm1 & Hk1).
  destruct (get_map (m1, f1)) as [[[[b sz] key] st] [m2 f2]] eqn:E2.
  destruct (get_map_spec _ _ _ _ _ _ _ _ Hm1 E2) as (n & Hb & Hr & Hn & Hlow & Hk2).
  pose proof Hr as (Hm2 & Hst & Hsz & _ & Hd2). pose proof fw_step_bound as Hsb.
  assert (mem_ok (build_page_tables m2)) as Hm3.
  { unfold build_page_tables. apply (for_span_inv (λ _ m, mem_ok m)); [lia| |].
    - apply mem_ok_set_entry. apply (for_span_inv (λ _ m, mem_ok m)); [lia| |].
      + apply (for_span_inv (λ _ m, mem_ok m)); [lia|done|]. intros. by do 2 apply mem_ok_set_entry.
      + intros g t _ Ht. apply (for_span_inv (λ _ m, mem_ok m)); [lia|done|]. intros. by apply mem_ok_set_entry.
    - intros g t _ Ht. apply (for_span_inv (λ _ m, mem_ok m)); [lia|by apply mem_ok_set_entry|].
      intros. by apply mem_ok_set_entry. }
  assert (map_ready b n sz st (build_page_tables m2) f2) as Hr3.
  { split_and!; try done; [lia|]. apply (descriptors_at_ext m2); [lia| |done]. intros a Ha.
    apply build_page_tables_frame; [done|]. apply Hb. lia. }
  destruct (exit_boot img b sz key st (build_page_tables m2, f2)) as [[sz' st'] [m4 f4]] eqn:E4.
  destruct (exit_boot_spec _ _ _ _ _ _ _ _ _ _ _ _ Hb Hr3 E4) as (Hm4 & -> & -> & Hd4 & F4).
  assert (0x1100 ≤ b) as Hb1 by (destruct Hlow; [done|nia]).
  destruct (build_e820_spec fw_step (fw_map f4) b m4) as (_ & Hmap & F5); [lia|done|done|by right|].
  assert (∀ a, KERNEL_PHYS ≤ a < KERNEL_PHYS + 4096 * KERNEL_SECTORS → ¬ b ≤ a < b + n) as Hkb.
  { intros a Ha Hin. destruct (Hb a Hin) as (_ & _ & ?). lia. }
  eexists _, f4. split; [reflexivity|]. split; [|split; [exact Hmap|]].
  - assert (∀ a, ¬ off_tables a → ld (build_e820 b (fw_step * Z.of_nat (length (fw_map f4))) fw_step m4) a =
      ld (build_page_tables m2) a) as Hsame.
    { intros a Ha. rewrite F5, F4; [done| |].
      - destruct (decide (b ≤ a < b + n)) as [Hin|]; [|lia]. by destruct (Hb a Hin).
      - destruct (decide (0x4FC ≤ a < 0x1100)) as [Hin|]; [|lia]. exfalso. apply Ha, Hoff. by left. }
    pose proof (build_page_tables_built m2 Hi) as (A & B & C & D). unfold index_ok in *.
    assert (∀ t j, (∀ a, t ≤ a < t + 4096 → ¬ off_tables a) → 0 ≤ j < 512 →
      entry 8 (build_e820 b (fw_step * Z.of_nat (length (fw_map f4))) fw_step m4) t j =
      entry 8 (build_page_tables m2) t j) as He.
    { intros t j Ht Hj. apply ld_le_ext. intros a Ha. apply Hsame, Ht. lia. }
    unfold off_tables, pd_page in *. unfold built, index_ok, pd_page. split_and!.
    + rewrite He by (intros; lia). exact A.
    + intros j Hj Hne. rewrite He by (intros; lia). by apply B.
    + intros j Hj. rewrite He by (intros; lia). by apply C.
    + intros k j Hk Hj. rewrite He by (intros; lia). by apply D.
  - apply (kernel_at_ext m1); [|done]. intros a Ha. rewrite F5 by (unfold KERNEL_PHYS in Ha; lia).
    rewrite F4 by (specialize (Hkb a Ha); lia).
    rewrite build_page_tables_frame by (done || (apply Hoff; by right)). by apply Hk2.
Qed.
End boots.

(** Page [j] lies inside a region the firmware no longer needs. *)
Definition firmware_frees (j : Z) (d : EFI_MEMORY_DESCRIPTOR) : bool :=
  ((Type_ d =? EfiConventionalMemory) || (Type_ d =? EfiLoaderCode) || (Type_ d =? EfiLoaderData)) &&
  (PhysicalStart d <=? j * 4096) && ((j + 1) * 4096 <=? PhysicalStart d + NumberOfPages d * 4096).

Definition descriptor_fits (d : EFI_MEMORY_DESCRIPTOR) : Prop :=
  0 ≤ PhysicalStart d ∧ 0 ≤ NumberOfPages d ∧ PhysicalStart d + NumberOfPages d * 4096 + 4095 < 2 ^ 64.

Lemma e820_of_covers j d : descriptor_fits d → entry_covers j (e820_of d) = firmware_frees j d.
Proof.
  intros (A & B & C). unfold entry_covers, firmware_frees, e820_of. cbn -[Z.mul wrap Z.add Z.eqb Z.leb].
  rewrite wrap_small by lia. unfold PAGE_SIZE. by destruct ((_ =? EfiConventionalMemory) || _ || _).
Qed.

Lemma e820_of_fits d : descriptor_fits d → entry_fits (H := X86_64) (e820_of d).
Proof.
  intros (A & B & C). unfold entry_fits, e820_of. cbn -[Z.mul wrap Z.pow].
  rewrite wrap_small by lia. unfold PAGE_SIZE. change word_bits with 64. lia.
Qed.

Lemma existsb_map {A B} (g : A → B) (p : B → bool) (q : A → bool) l :
  Forall (λ x, p (g x) = q x) l → existsb p (g <$> l) = existsb q l.
Proof. induction 1 as [|x l Hx _ IH]; [done|]. cbn. by rewrite Hx, IH. Qed.


(** A firmware with one region of 64 MiB that refuses the first
    [ExitBootServices]; its state counts the attempts. *)
Module ToyFirmware.
Definition region : EFI_MEMORY_DESCRIPTOR := Descriptor 7 0 0x100000 0 0x4000 0.

Definition put_region (b : Z) (m : memory) : memory :=
  st_le 8 (b + 32) 0 (st_le 8 (b + 24) 0x4000 (st_le 8 (b + 16) 0
    (st_le 8 (b + 8) 0x100000 (st_le 4 (b + 4) 0 (st_le 4 b 7 m))))).

#[local] Instance toy_image : EfiImage := {| pml4_at := 0x3000000; pdpt_at := 0x3001000; pd_at := 0x3002000 |}.

#[local] Instance toy : Firmware nat := {|
  OutputString _ f := f;
  HandleProtocol _ _ f := (1, f);
  DeviceHandle _ _ := 2;
  OpenVolume _ f := (3, f);
  Open _ _ _ f := ((EFI_SUCCESS, 4), f);
  AllocatePages t _ _ a f := (match t with AllocateAnyPages => 0x40000000 | _ => a end, f);
  Read _ n b s := (store_bytes b (take (Z.to_nat n) [0xFA; 0xF4]) s.1, s.2);
  Close _ f := f;
  GetMemoryMap n b s := ((40, Z.of_nat s.2, 40), (if 40 <=? n then put_region b s.1 else s.1, s.2));
  ExitBootServices _ _ f := (match f with O => 1 | _ => EFI_SUCCESS end, S f)
|}.

Lemma put_region_at b m : ld_descriptor b (put_region b m) = region.
Proof.
  unfold ld_descriptor, put_region, region.
  assert (∀ n n' k c v m', c + Z.of_nat n ≤ k → ld_le n c (st_le n' k v m') = ld_le n c m') as E.
  { intros n n' k c v m' Hb. apply ld_le_ext. intros a Ha. apply ld_st_le_ne. lia. }
  f_equal; rewrite ?E by lia; rewrite ld_st_le_eq; by apply wrap_small.
Qed.

Lemma put_region_frame b m a : a < b ∨ b + 40 ≤ a → ld (put_region b m) a = ld m a.
Proof. intros Ha. unfold put_region. by rewrite !ld_st_le_ne by lia. Qed.

Lemma put_region_ok b m : mem_ok m → mem_ok (put_region b m).
Proof. intros Hm. unfold put_region. by repeat apply mem_ok_st_le. Qed.

#[local] Program Instance toy_laws : FirmwareLaws nat := {|
  fw_image := [0xFA; 0xF4]; fw_map := λ _, [region]; fw_step := 40
|}.
Next Obligation. lia. Qed.
Next Obligation. intros. cbn. lia. Qed.
Next Obligation. done. Qed.
Next Obligation.
  intros t n a f b f' [= <- <-]. split; [|lia]. intros x Hx. unfold off_tables, KERNEL_PHYS, KERNEL_SECTORS.
  cbn [pml4_at pdpt_at pd_at toy_image] in *. lia.
Qed.
Next Obligation.
  intros kf n b m f m' f' Hm [= <- <-]. split; [by apply mem_ok_store|]. intros i Hi Hn. cbn [length] in Hi.
  cbn [fst]. rewrite store_bytes_at.
  - unfold rd. rewrite lookup_take_lt by lia. apply wrap_small.
    assert (i = 0 ∨ i = 1) as [-> | ->] by lia; vm_compute; split; congruence.
  - rewrite length_take. cbn [length]. lia.
Qed.
Next Obligation.
  intros n b m f sz key st m' f' Hm [= <- <- <- <- <-]. cbn [fst snd].
  split; [case_test; [by apply put_region_ok|done]|]. do 3 (split; [done|]). split.
  - intros a Ha. case_test; [apply put_region_frame; lia|done].
  - intros Hn. rewrite (proj2 (Z.leb_le 40 n)) by done. split; [apply put_region_at|done].
Qed.
Next Obligation. intros img key f st f' [= <- <-]. split; [done|lia]. Qed.
Next Obligation.
  intros img key f f1 st n b m sz key' step' m' f' [= <- <-] _ [= _ _ _ _ <-]. done.
Qed.

End ToyFirmware.

