(* ===== verification/Heap.v ===== *)
(** The kernel heap: src/kernel/mm/heap.c.

    The heap is an address-ordered doubly linked list of block headers, each
    followed by its payload.  [hdrs] holds the headers by address and [mem] the
    payload bytes, so the model assumes what the code does: nobody writes
    through a payload pointer onto a header. *)
From S2P Require Import Prelude CString.

Definition HEAP_MAGIC : Z := 0xAE0CA001.
Definition MIN_SPLIT : Z := 32.

Record block_hdr := Hdr {
  magic : Z; size : Z; used : Z; next : Z; prev : Z
}.

(** [sizeof(block_hdr_t)]: 20 bytes with 4-byte pointers; with 8-byte pointers
    [next] is aligned to offset 16. *)
Definition HDR `{Arch} : Z := match the_arch with X86 => 20 | X86_64 => 32 end.

Record heap := Heap {
  hdrs : gmap Z block_hdr;
  heap_head : Z;
  heap_used : Z;
  mem : memory
}.

Definition hdr_at (h : heap) (b : Z) : block_hdr :=
  default (Hdr 0 0 0 0 0) (hdrs h !! b).
Definition put_hdr (b : Z) (x : block_hdr) (h : heap) : heap :=
  Heap (<[b := x]> (hdrs h)) (heap_head h) (heap_used h) (mem h).
Definition set_size (b v : Z) (h : heap) : heap :=
  let x := hdr_at h b in put_hdr b (Hdr (magic x) v (used x) (next x) (prev x)) h.
Definition set_used (b v : Z) (h : heap) : heap :=
  let x := hdr_at h b in put_hdr b (Hdr (magic x) (size x) v (next x) (prev x)) h.
Definition set_next (b v : Z) (h : heap) : heap :=
  let x := hdr_at h b in put_hdr b (Hdr (magic x) (size x) (used x) v (prev x)) h.
Definition set_prev (b v : Z) (h : heap) : heap :=
  let x := hdr_at h b in put_hdr b (Hdr (magic x) (size x) (used x) (next x) v) h.
Definition charge (n : Z) `{Arch} (h : heap) : heap :=
  Heap (hdrs h) (heap_head h) (uptr (heap_used h + n)) (mem h).
Definition with_mem (h : heap) (m : memory) : heap :=
  Heap (hdrs h) (heap_head h) (heap_used h) m.

Definition heap_init `{Arch} (start size : Z) (h : heap) : heap :=
  let h := put_hdr start (Hdr HEAP_MAGIC (u32 (uptr (size - HDR))) 0 0 0) h in
  Heap (hdrs h) start 0 (mem h).

(** [for (b = heap_head; b; b = b->next)]; one iteration per header is enough
    on a list without cycles. *)
Fixpoint find_free_from (fuel : nat) (b size_ : Z) (h : heap) : outcome Z :=
  if b =? 0 then Ok 0 else
  match fuel with
  | O => OutOfFuel
  | S k =>
      let x := hdr_at h b in
      if (used x =? 0) && (size_ <=? size x) then Ok b
      else find_free_from k (next x) size_ h
  end.
Definition find_free (size_ : Z) (h : heap) : outcome Z :=
  find_free_from (base.size (hdrs h)) (heap_head h) size_ h.

Definition split `{Arch} (b size_ : Z) (h : heap) : heap :=
  if size (hdr_at h b) <? uptr (size_ + HDR + MIN_SPLIT) then h else
  let nb := uptr (b + HDR + size_) in
  let x := hdr_at h b in
  let h := put_hdr nb (Hdr HEAP_MAGIC (u32 (size x - size_ - HDR)) 0 (next x) b) h in
  let h := if negb (next (hdr_at h b) =? 0)
           then set_prev (next (hdr_at h b)) nb h else h in
  let h := set_next b nb h in
  set_size b (u32 size_) h.

(** [while (b->next && !b->next->used)] *)
Fixpoint coalesce_next `{Arch} (fuel : nat) (b : Z) (h : heap) : outcome heap :=
  let n := next (hdr_at h b) in
  if (n =? 0) || negb (used (hdr_at h n) =? 0) then Ok h else
  match fuel with
  | O => OutOfFuel
  | S k =>
      let h := set_size b (u32 (size (hdr_at h b) + uptr (HDR + size (hdr_at h n)))) h in
      let h := set_next b (next (hdr_at h n)) h in
      let n := next (hdr_at h b) in
      let h := if negb (n =? 0) then set_prev n b h else h in
      coalesce_next k b h
  end.

Definition coalesce `{Arch} (b : Z) (h : heap) : outcome heap :=
  h ← coalesce_next (base.size (hdrs h)) b h;
  let p := prev (hdr_at h b) in
  if (p =? 0) || negb (used (hdr_at h p) =? 0) then Ok h else
  let h := set_size p (u32 (size (hdr_at h p) + uptr (HDR + size (hdr_at h b)))) h in
  let h := set_next p (next (hdr_at h b)) h in
  let n := next (hdr_at h b) in
  Ok (if negb (n =? 0) then set_prev n (prev (hdr_at h b)) h else h).

Definition kmalloc `{Arch} (size_ : Z) (h : heap) : outcome (Z * heap) :=
  if size_ =? 0 then Ok (0, h) else
  let size_ := ALIGN_UP word_bits word_bits size_ 8 in
  b ← find_free size_ h;
  if b =? 0 then Panic "kmalloc: out of heap memory (requested %u bytes)" else
  let h := split b size_ h in
  let h := set_used b 1 h in
  let h := charge size_ h in
  Ok (uptr (b + HDR), h).

Definition kcalloc `{Arch} (n size_ : Z) (h : heap) : outcome (Z * heap) :=
  '(p, h) ← kmalloc (uptr (n * size_)) h;
  Ok (p, if negb (p =? 0) then with_mem h (memset p 0 (uptr (n * size_)) (mem h)) else h).

Definition kfree `{Arch} (ptr : Z) (h : heap) : outcome heap :=
  if ptr =? 0 then Ok h else
  let b := uptr (ptr - HDR) in
  if negb (magic (hdr_at h b) =? HEAP_MAGIC) then Panic "kfree: corrupt heap block at %p" else
  if used (hdr_at h b) =? 0 then Panic "kfree: double free at %p" else
  let h := charge (- size (hdr_at h b)) h in
  let h := set_used b 0 h in
  coalesce b h.

Definition krealloc `{Arch} (ptr size_ : Z) (h : heap) : outcome (Z * heap) :=
  if ptr =? 0 then kmalloc size_ h else
  if size_ =? 0 then h ← kfree ptr h; Ok (0, h) else
  let b := uptr (ptr - HDR) in
  if negb (magic (hdr_at h b) =? HEAP_MAGIC) then Panic "krealloc: corrupt heap block at %p" else
  if size_ <=? size (hdr_at h b) then Ok (ptr, h) else
  '(nb, h) ← kmalloc size_ h;
  let h := with_mem h (memcpy nb ptr (size (hdr_at h b)) (mem h)) in
  h ← kfree ptr h;
  Ok (nb, h).

Definition kheap_used (h : heap) : Z := heap_used h.

(** ** Header updates as function updates *)

Section headers.
Context `{Arch}.
Implicit Types h : heap.

Lemma HDR_bound : 20 ≤ HDR ≤ 32.
Proof. unfold HDR. destruct the_arch; lia. Qed.

Lemma hdr_at_put b x h a :
  hdr_at (put_hdr b x h) a = if decide (a = b) then x else hdr_at h a.
Proof.
  unfold hdr_at, put_hdr. simpl. case_decide; subst.
  - by rewrite lookup_insert_eq.
  - by rewrite lookup_insert_ne.
Qed.

Lemma hdr_at_charge n h a : hdr_at (charge n h) a = hdr_at h a.
Proof. done. Qed.
End headers.

(** Evaluate header reads through header writes. *)
Ltac hdr_simpl :=
  unfold set_size, set_used, set_next, set_prev;
  repeat (rewrite hdr_at_put || rewrite hdr_at_charge);
  cbn [magic size used next prev].

(** ** The block list *)

(** The heap as a list of blocks in address order: payload size, in use or not. *)
Abbreviation blocks := (list (Z * bool)).

Section layout.
Context `{Arch}.
Implicit Types (l : blocks) (g : Z → block_hdr).

(** The address just past the blocks [l] laid out from [p]. *)
Definition fin (p : Z) l : Z := foldl (λ q '(sz, _), q + HDR + sz) p l.

(** The header address of the last block, [pr] if there is none. *)
Fixpoint last_blk (pr p : Z) l : Z :=
  match l with
  | [] => pr
  | (sz, _) :: l' => last_blk p (p + HDR + sz) l'
  end.

(** The pointer to a block list that would start at [q], followed by [nx]. *)
Definition link l (q nx : Z) : Z := match l with [] => nx | _ => q end.

(** The headers from [p] on represent [l]: the first has predecessor [pr] and
    the last has successor [nx]. *)
Fixpoint seg g (pr p nx : Z) l : Prop :=
  match l with
  | [] => True
  | (sz, u) :: l' =>
      0 ≤ sz ∧
      g p = Hdr HEAP_MAGIC sz (Z.b2z u) (link l' (p + HDR + sz) nx) pr ∧
      seg g p (p + HDR + sz) nx l'
  end.

(** No free block is followed by a free block; [pf] tells whether a free
    block comes before. *)
Fixpoint coalesced (pf : bool) l : Prop :=
  match l with
  | [] => True
  | (_, u) :: l' => (pf = true → u = true) ∧ coalesced (negb u) l'
  end.

Definition last_free (pf : bool) l : bool := foldl (λ _ '(_, u), negb u) pf l.

(** The payloads in use: address and size. *)
Fixpoint live (p : Z) l : list (Z * Z) :=
  match l with
  | [] => []
  | (sz, u) :: l' =>
      (if u : bool then [(p + HDR, sz)] else []) ++ live (p + HDR + sz) l'
  end.

Lemma fin_app p l1 l2 : fin p (l1 ++ l2) = fin (fin p l1) l2.
Proof. apply foldl_app. Qed.

Lemma last_free_app pf l1 l2 : last_free pf (l1 ++ l2) = last_free (last_free pf l1) l2.
Proof. apply foldl_app. Qed.

Lemma last_blk_app pr p l1 l2 :
  last_blk pr p (l1 ++ l2) = last_blk (last_blk pr p l1) (fin p l1) l2.
Proof. revert pr p. induction l1 as [|[sz u] l1 IH]; intros; simpl; [done|apply IH]. Qed.

Lemma live_app p l1 l2 : live p (l1 ++ l2) = live p l1 ++ live (fin p l1) l2.
Proof.
  revert p. induction l1 as [|[sz u] l1 IH]; intros; simpl; [done|].
  rewrite IH. by rewrite app_assoc.
Qed.

Lemma coalesced_app pf l1 l2 :
  coalesced pf (l1 ++ l2) ↔ coalesced pf l1 ∧ coalesced (last_free pf l1) l2.
Proof.
  revert pf. induction l1 as [|[sz u] l1 IH]; intros pf; simpl; [tauto|].
  rewrite IH. tauto.
Qed.

Lemma link_app l1 l2 q nx :
  link (l1 ++ l2) q nx = link l1 q (link l2 q nx).
Proof. by destruct l1. Qed.

Lemma seg_app g pr p nx l1 l2 :
  seg g pr p nx (l1 ++ l2) ↔
  seg g pr p (link l2 (fin p l1) nx) l1 ∧ seg g (last_blk pr p l1) (fin p l1) nx l2.
Proof.
  revert pr p. induction l1 as [|[sz u] l1 IH]; intros pr p; simpl; [tauto|].
  rewrite IH. replace (link (l1 ++ l2) (p + HDR + sz) nx)
    with (link l1 (p + HDR + sz) (link l2 (fin (p + HDR + sz) l1) nx)) by (by destruct l1).
  tauto.
Qed.

Lemma seg_fin g pr p nx l : seg g pr p nx l → p ≤ fin p l.
Proof.
  pose proof HDR_bound. revert pr p.
  induction l as [|[sz u] l IH]; intros pr p; simpl; [lia|].
  intros (? & _ & Hs). apply IH in Hs. unfold fin in *. lia.
Qed.

Lemma seg_ext g g' pr p nx l :
  (∀ a, p ≤ a < fin p l → g' a = g a) → seg g pr p nx l → seg g' pr p nx l.
Proof.
  pose proof HDR_bound. revert pr p. induction l as [|[sz u] l IH]; intros pr p Hg; simpl; [done|].
  intros (H1 & H2 & H3). pose proof (seg_fin _ _ _ _ _ H3). unfold fin in *. simpl in *.
  split; [done|]. split; [rewrite Hg by lia; done|].
  eapply IH; [|done]. intros a Ha. apply Hg. lia.
Qed.

(** Changing the predecessor stored in the first header. *)
Lemma seg_set_prev g g' pr pr' p nx l :
  (l ≠ [] → g' p = let x := g p in Hdr (magic x) (size x) (used x) (next x) pr') →
  (∀ a, p < a < fin p l → g' a = g a) →
  seg g pr p nx l → seg g' pr' p nx l.
Proof.
  pose proof HDR_bound. destruct l as [|[sz u] l]; intros H1 H2; simpl; [done|].
  intros (A & B & C). rewrite H1, B by done. split; [done|]. split; [done|].
  eapply seg_ext; [|done]. intros a Ha. apply H2. unfold fin in *. simpl. lia.
Qed.

Lemma live_bound g pr p nx l q k :
  seg g pr p nx l → (q, k) ∈ live p l → p + HDR ≤ q ∧ 0 ≤ k ∧ q + k ≤ fin p l.
Proof.
  pose proof HDR_bound. revert pr p. induction l as [|[sz u] l IH]; intros pr p; simpl.
  { intros _ Hin. by apply not_elem_of_nil in Hin. }
  intros (A & _ & C) Hin. pose proof (seg_fin _ _ _ _ _ C). unfold fin in *. simpl.
  apply elem_of_app in Hin as [Hin|Hin].
  - destruct u; [|by apply not_elem_of_nil in Hin].
    apply list_elem_of_singleton in Hin. simplify_eq. lia.
  - destruct (IH _ _ C Hin). lia.
Qed.

(** Two payload regions have no byte in common. *)
Definition disjoint_regions (r1 r2 : Z * Z) : Prop :=
  r1.1 + r1.2 ≤ r2.1 ∨ r2.1 + r2.2 ≤ r1.1.

(** A used block is found where [live] says. *)
Lemma live_split g pr p nx l q k :
  seg g pr p nx l → (q, k) ∈ live p l →
  ∃ l1 l2, l = l1 ++ (k, true) :: l2 ∧ q = fin p l1 + HDR.
Proof.
  revert pr p. induction l as [|[sz u] l IH]; intros pr p; simpl.
  { intros _ Hin. by apply not_elem_of_nil in Hin. }
  intros (A & _ & C) Hin. apply elem_of_app in Hin as [Hin|Hin].
  - destruct u; [|by apply not_elem_of_nil in Hin].
    apply list_elem_of_singleton in Hin. simplify_eq. by exists [], l.
  - destruct (IH _ _ C Hin) as (l1 & l2 & -> & ->). by exists ((sz, u) :: l1), l2.
Qed.

Lemma live_around g pr p nx l1 l2 k :
  seg g pr p nx (l1 ++ (k, true) :: l2) →
  ∀ r, r ∈ live p l1 ++ live (fin p l1 + HDR + k) l2 →
  disjoint_regions (fin p l1 + HDR, k) r.
Proof.
  pose proof HDR_bound. intros [S1 (Hk & _ & S2)]%seg_app [q n] [Hin|Hin]%elem_of_app;
    unfold disjoint_regions; simpl.
  - destruct (live_bound _ _ _ _ _ _ _ S1 Hin). lia.
  - destruct (live_bound _ _ _ _ _ _ _ S2 Hin). lia.
Qed.
End layout.

Section operations.
Context `{Arch}.
Implicit Types (h : heap) (l : blocks).

(** The invariant: the headers from [s] to [e] represent the non-empty list
    [l], in which no two free blocks are adjacent; the heap lies above the
    first page and below 4 GiB. *)
Definition heap_ok h (s e : Z) l : Prop :=
  heap_head h = s ∧ 4096 ≤ s ∧ e < 2 ^ 32 ∧ l ≠ [] ∧ fin s l = e ∧
  seg (hdr_at h) 0 s 0 l ∧ coalesced false l.

(** *** Bounds on iterations: a list never has more blocks than headers *)

Fixpoint addrs (p : Z) l : list Z :=
  match l with [] => [] | (sz, _) :: l' => p :: addrs (p + HDR + sz) l' end.

Lemma addrs_spec h pr p nx l :
  seg (hdr_at h) pr p nx l →
  (∀ a, a ∈ addrs p l → p ≤ a) ∧ NoDup (addrs p l) ∧ (∀ a, a ∈ addrs p l → a ∈ dom (hdrs h)).
Proof.
  pose proof HDR_bound. revert pr p. induction l as [|[sz u] l IH]; intros pr p; simpl.
  { intros _. split_and!; [|constructor|]; intros a Ha; by apply not_elem_of_nil in Ha. }
  intros (A & B & C). destruct (IH _ _ C) as (D & E & F). split_and!.
  - intros a [->|Ha]%elem_of_cons; [lia|]. apply D in Ha. lia.
  - constructor; [|done]. intros Ha%D. lia.
  - intros a [->|Ha]%elem_of_cons; [|by apply F]. apply elem_of_dom.
    unfold hdr_at in B. destruct (hdrs h !! p); [done|]. simplify_eq/=.
Qed.

Lemma length_blocks h pr p nx l :
  seg (hdr_at h) pr p nx l → (length l ≤ base.size (hdrs h))%nat.
Proof.
  intros Hs. destruct (addrs_spec _ _ _ _ _ Hs) as (_ & Hnd & Hd).
  assert (length l = length (addrs p l)) as ->.
  { clear. revert p. induction l as [|[sz u] l IH]; intros p; simpl; [done|]. f_equal. apply IH. }
  rewrite <- size_dom, <- (size_list_to_set (C := gset Z)) by done.
  apply subseteq_size. intros a Ha%elem_of_list_to_set. auto.
Qed.

(** *** First fit *)

Definition fits (n : Z) (b : Z * bool) : bool := negb b.2 && (n <=? b.1).

Lemma find_free_spec h n : ∀ l fuel pr p,
  seg (hdr_at h) pr p 0 l → 0 < p → (length l ≤ fuel)%nat →
  (find_free_from fuel (link l p 0) n h = Ok 0 ∧ Forall (λ b, fits n b = false) l) ∨
  (∃ l1 sz l2, l = l1 ++ (sz, false) :: l2 ∧ n ≤ sz ∧ Forall (λ b, fits n b = false) l1 ∧
     find_free_from fuel (link l p 0) n h = Ok (fin p l1)).
Proof.
  pose proof HDR_bound. induction l as [|[sz u] l IH]; intros fuel pr p; simpl.
  { intros _ _ _. left. by destruct fuel. }
  intros (A & B & C) Hp Hf. destruct fuel as [|fuel]; [lia|]. simpl.
  rewrite (proj2 (Z.eqb_neq p 0)) by lia. rewrite B. simpl.
  destruct (fits n (sz, u)) eqn:Efit; unfold fits in Efit; simpl in Efit.
  - right. exists [], sz, l. destruct u; simpl in *; [done|]. rewrite Efit.
    split_and!; [done|by apply Z.leb_le|constructor|done].
  - replace ((Z.b2z u =? 0) && (n <=? sz)) with false by (by destruct u).
    destruct (IH fuel p (p + HDR + sz) C) as [[E F]|(l1 & sz' & l2 & -> & D & E & F)]; [lia|lia| |].
    + left. split; [done|]. by constructor.
    + right. exists ((sz, u) :: l1), sz', l2. split_and!; [done|done|by constructor|done].
Qed.

(** *** Splitting *)

Definition place (n sz : Z) : blocks :=
  if sz <? n + HDR + MIN_SPLIT then [(sz, true)] else [(n, true); (sz - n - HDR, false)].

Lemma fin_place p n sz : fin p (place n sz) = p + HDR + sz.
Proof. unfold place, fin. case_test; simpl; lia. Qed.

Lemma hdr_ext (x y : block_hdr) :
  magic x = magic y → size x = size y → used x = used y → next x = next y → prev x = prev y → x = y.
Proof. destruct x, y. simpl. congruence. Qed.

(** [if (x->next) x->next->prev = b;] before a list that starts at [q]. *)
Lemma relink_next h b0 b q l :
  q ≠ 0 → seg (hdr_at h) b0 q 0 l →
  let h' := if negb (link l q 0 =? 0) then set_prev (link l q 0) b h else h in
  (∀ a, a ≠ q → hdr_at h' a = hdr_at h a) ∧ seg (hdr_at h') b q 0 l ∧
  heap_head h' = heap_head h ∧ mem h' = mem h ∧ heap_used h' = heap_used h.
Proof.
  intros Hq Hs h'.
  assert (∀ a, a ≠ q → hdr_at h' a = hdr_at h a) as E.
  { intros a Ha. unfold h'. destruct l; simpl link; [done|].
    rewrite (proj2 (Z.eqb_neq q 0)) by done. cbn [negb]. hdr_simpl. by rewrite decide_False by done. }
  split; [exact E|]. split; [|unfold h'; by destruct (negb _)].
  eapply seg_set_prev; [| |exact Hs].
  - intros Hne. unfold h'. destruct l; [done|]. simpl link. rewrite (proj2 (Z.eqb_neq q 0)) by done.
    cbn [negb]. hdr_simpl. by rewrite decide_True by done.
  - intros a Ha. apply E. lia.
Qed.

(** Outside the new header, the block and the one after it nothing changes. *)
Lemma split_take h pr b n sz l2 :
  let q := b + HDR + sz in
  let h' := set_used b 1 (split b n h) in
  4096 ≤ b → fin q l2 < 2 ^ 32 → 0 ≤ n ≤ sz →
  hdr_at h b = Hdr HEAP_MAGIC sz 0 (link l2 q 0) pr →
  seg (hdr_at h) b q 0 l2 →
  seg (hdr_at h') pr b 0 (place n sz ++ l2) ∧
  (∀ a, a < b → hdr_at h' a = hdr_at h a) ∧ heap_head h' = heap_head h ∧ mem h' = mem h.
Proof.
  intros q h' Hb He Hn Hhb Hs2. pose proof HDR_bound. pose proof (seg_fin _ _ _ _ _ Hs2) as Hfin.
  pose proof word_bits_bound.
  assert (2 ^ 32 ≤ 2 ^ word_bits) as Hw by (apply Z.pow_le_mono_r; lia).
  unfold h', split, place. rewrite Hhb. cbn [size next].
  rewrite (wrap_small word_bits (n + HDR + MIN_SPLIT)) by (unfold MIN_SPLIT, q in *; lia).
  destruct (Z.ltb_spec sz (n + HDR + MIN_SPLIT)) as [Hlt|Hge].
  - split_and!; try done.
    + simpl. split; [lia|]. hdr_simpl. rewrite decide_True, Hhb by done. split; [done|].
      eapply seg_ext; [|exact Hs2]. intros a Ha. hdr_simpl. by rewrite decide_False by lia.
    + intros a Ha. hdr_simpl. by rewrite decide_False by lia.
  - rewrite (wrap_small word_bits (b + HDR + n)) by lia.
    rewrite (wrap_small 32 (sz - n - HDR)) by (unfold MIN_SPLIT, q in *; lia).
    rewrite (wrap_small 32 n) by lia.
    set (nb := b + HDR + n). assert (b < nb < q) by (unfold nb, q, MIN_SPLIT in *; lia).
    set (h1 := put_hdr nb _ h).
    assert (hdr_at h1 b = hdr_at h b) as E1.
    { unfold h1. hdr_simpl. by rewrite decide_False by lia. }
    rewrite E1, Hhb. cbn [next].
    set (h2 := if negb (link l2 q 0 =? 0) then set_prev (link l2 q 0) nb h1 else h1).
    destruct (relink_next h1 b nb q l2) as (E2 & Hs2' & E4 & E5 & _); [lia| |].
    { eapply seg_ext; [|exact Hs2]. intros a Ha. unfold h1. hdr_simpl. by rewrite decide_False by lia. }
    fold h2 in E2, Hs2', E4, E5.
    set (h3 := set_size b n (set_next b nb h2)).
    assert (∀ a, hdr_at (set_used b 1 h3) a =
      if decide (a = b) then Hdr HEAP_MAGIC n 1 nb pr else hdr_at h2 a) as E3.
    { intros a. unfold h3. hdr_simpl. rewrite (decide_True (P := b = b)) by done.
      repeat case_decide; try done. rewrite E2, E1, Hhb by lia. done. }
    split_and!.
    + simpl. split; [lia|]. rewrite !E3. rewrite decide_True by done. split; [done|].
      split; [unfold MIN_SPLIT in *; lia|]. fold nb. rewrite decide_False by lia.
      replace (nb + HDR + (sz - n - HDR)) with q by (unfold nb, q; lia). split.
      * rewrite E2 by lia. unfold h1. hdr_simpl. by rewrite decide_True by done.
      * eapply seg_ext; [|exact Hs2']. intros a Ha. rewrite E3. by rewrite decide_False by lia.
    + intros a Ha. rewrite E3, decide_False, E2 by lia. unfold h1. hdr_simpl.
      by rewrite decide_False by lia.
    + exact E4.
    + exact E5.
Qed.

Lemma coalesced_place pf n sz l1 l2 :
  coalesced pf (l1 ++ (sz, false) :: l2) → coalesced pf (l1 ++ place n sz ++ l2).
Proof.
  rewrite !coalesced_app. intros [A (B & C)]. split; [done|].
  unfold place. case_test; simpl; [|tauto]. split; [done|].
  destruct l2 as [|[sz2 u2] l2]; [done|]. simpl in *. split; [done|tauto].
Qed.

Lemma align8 n : 0 ≤ n → n + 7 < 2 ^ word_bits →
  ALIGN_UP word_bits word_bits n 8 = (n + 7) / 8 * 8.
Proof.
  intros H0 H1. pose proof word_bits_bound. unfold ALIGN_UP.
  replace (n + 8 - 1) with (n + 7) by lia. rewrite (wrap_small word_bits (n + 7)) by lia.
  change (8 - 1) with (2 ^ 3 - 1). rewrite land_align_mask by lia.
  change (2 ^ 3) with 8. dlia.
Qed.

Lemma heap_ok_set_take h s e l1 sz l2 n :
  heap_ok h s e (l1 ++ (sz, false) :: l2) → 0 ≤ n ≤ sz →
  let b := fin s l1 in
  let h' := charge n (set_used b 1 (split b n h)) in
  heap_ok h' s e (l1 ++ place n sz ++ l2) ∧ mem h' = mem h.
Proof.
  intros (A & B & C & D & E & F & G) Hn b h'. pose proof HDR_bound.
  apply seg_app in F as [F1 (F2 & F3 & F4)]. fold b in F1, F3, F4.
  pose proof (seg_fin _ _ _ _ _ F1). fold b in H1.
  assert (fin (b + HDR + sz) l2 = e) as E'.
  { rewrite <- E, fin_app. reflexivity. }
  destruct (split_take h (last_blk 0 s l1) b n sz l2) as (S1 & S2 & S3 & S4);
    [lia|lia|lia|exact F3|exact F4|].
  split; [|exact S4]. unfold heap_ok. split_and!; [by rewrite <- A|lia|lia| | | |].
  - unfold place. case_test; by destruct l1.
  - rewrite !fin_app, fin_place. fold b. done.
  - apply seg_app. split.
    + fold b. assert (link (place n sz ++ l2) b 0 = b) as -> by (unfold place; by case_test).
      eapply seg_ext; [|exact F1]. intros a Ha. apply S2. fold b in Ha. lia.
    + exact S1.
  - by apply coalesced_place.
Qed.

(** The list-level effect of a successful allocation of [n] bytes. *)
Definition first_fit (n : Z) (s : Z) l (p : Z) l' : Prop :=
  ∃ l1 sz l2, l = l1 ++ (sz, false) :: l2 ∧ n ≤ sz ∧ Forall (λ b, fits n b = false) l1 ∧
    p = fin s l1 + HDR ∧ l' = l1 ++ place n sz ++ l2.

Lemma kmalloc_cases h s e l n :
  heap_ok h s e l → 0 < n → n + 7 < 2 ^ word_bits →
  let n8 := (n + 7) / 8 * 8 in
  (∃ p h' l', kmalloc n h = Ok (p, h') ∧ heap_ok h' s e l' ∧ first_fit n8 s l p l' ∧
     mem h' = mem h ∧ heap_used h' = uptr (heap_used h + n8)) ∨
  (kmalloc n h = Panic "kmalloc: out of heap memory (requested %u bytes)" ∧
     Forall (λ b, fits n8 b = false) l).
Proof.
  intros Hok Hn Hw n8. assert (n ≤ n8) by (unfold n8; dlia).
  pose proof Hok as (A & B & C & D & E & F & G). pose proof HDR_bound.
  pose proof word_bits_bound.
  assert (2 ^ 32 ≤ 2 ^ word_bits) by (apply Z.pow_le_mono_r; lia).
  unfold kmalloc. rewrite (proj2 (Z.eqb_neq n 0)) by lia. rewrite align8 by lia. fold n8.
  unfold find_free. rewrite A. pose proof (length_blocks _ _ _ _ _ F) as Hlen.
  assert (link l s 0 = s) as El by (by destruct l).
  pose proof (find_free_spec h n8 l (base.size (hdrs h)) 0 s F ltac:(lia) Hlen) as Hff.
  rewrite El in Hff. destruct Hff as [[-> Hno]|(l1 & sz & l2 & -> & Hsz & Hno & ->)].
  { right. done. }
  left. simpl. pose proof (proj1 (proj1 (seg_app _ _ _ _ _ _) F)) as F1.
  pose proof (seg_fin _ _ _ _ _ F1). rewrite (proj2 (Z.eqb_neq (fin s l1) 0)) by lia.
  destruct (heap_ok_set_take h s e l1 sz l2 n8 Hok ltac:(lia)) as [Hok' Hmem].
  eexists _, _, _. split; [reflexivity|]. split; [exact Hok'|]. split; [|split; [exact Hmem|]].
  - exists l1, sz, l2. split_and!; try done. apply wrap_small.
    pose proof F as [_ (F2 & _ & F4)]%seg_app. pose proof (seg_fin _ _ _ _ _ F4).
    rewrite fin_app in E. unfold fin in *. simpl in *. lia.
  - cbn [charge heap_used]. do 2 f_equal. unfold split, set_used, set_size, set_next, set_prev.
    case_test; [done|]. by destruct (negb _).
Qed.

Lemma live_place s l1 sz l2 n :
  ∃ k, (k = n ∨ k = sz) ∧ (n ≤ sz → n ≤ k < n + HDR + MIN_SPLIT) ∧
  live s (l1 ++ place n sz ++ l2) =
    live s l1 ++ (fin s l1 + HDR, k) :: live (fin s l1 + HDR + sz) l2.
Proof.
  pose proof HDR_bound. rewrite !live_app, fin_place. unfold place, MIN_SPLIT in *.
  case_test; simpl; [exists sz|exists n]; (split; [auto|split; [lia|done]]).
Qed.

(** *** Coalescing *)

(** A block of size [sz] swallows the free blocks that follow it. *)
Fixpoint absorb (sz : Z) (l2 : blocks) : Z * blocks :=
  match l2 with
  | (sz2, false) :: l2' => absorb (sz + HDR + sz2) l2'
  | _ => (sz, l2)
  end.

Lemma absorb_spec sz l2 sz' l2' p :
  absorb sz l2 = (sz', l2') →
  fin (p + HDR + sz') l2' = fin (p + HDR + sz) l2 ∧
  live (p + HDR + sz') l2' = live (p + HDR + sz) l2 ∧
  (coalesced false l2 → coalesced true l2').
Proof.
  revert sz. induction l2 as [|[k u] l2 IH]; intros sz; simpl.
  { intros [= <- <-]. by split_and!. }
  destruct u.
  - intros [= <- <-]. split_and!; [done|done|]. simpl. tauto.
  - intros E. destruct (IH _ E) as (B & C & D).
    replace (p + HDR + (sz + HDR + k)) with (p + HDR + sz + HDR + k) in * by lia.
    split_and!.
    + exact B.
    + exact C.
    + intros [_ Hc]. apply D. destruct l2 as [|[k2 u2] l2]; simpl in *; tauto.
Qed.

(** A block [p] takes the size [k] and the successor of the block [b0] it swallows. *)
Lemma swallow_next h b0 p k q l sz nx pr :
  p < q → 0 < q → hdr_at h p = Hdr HEAP_MAGIC sz 0 nx pr → seg (hdr_at h) b0 q 0 l →
  let h2 := set_next p (link l q 0) (set_size p k h) in
  let h' := if negb (link l q 0 =? 0) then set_prev (link l q 0) p h2 else h2 in
  next (hdr_at h2 p) = link l q 0 ∧ (∀ a, a ≠ p → hdr_at h2 a = hdr_at h a) ∧
  hdr_at h' p = Hdr HEAP_MAGIC k 0 (link l q 0) pr ∧
  (∀ a, a ≠ p → a ≠ q → hdr_at h' a = hdr_at h a) ∧ seg (hdr_at h') p q 0 l ∧
  heap_head h' = heap_head h ∧ mem h' = mem h ∧ heap_used h' = heap_used h.
Proof.
  intros Hpq Hq Hp Hs h2 h'.
  assert (∀ a, hdr_at h2 a = if decide (a = p) then Hdr HEAP_MAGIC k 0 (link l q 0) pr else hdr_at h a) as E.
  { intros a. unfold h2. hdr_simpl. rewrite (decide_True (P := p = p)) by done.
    repeat case_decide; try done. by rewrite Hp. }
  destruct (relink_next h2 b0 p q l) as (E3 & Hs3 & E4 & E5 & E6); [lia| |].
  { eapply seg_ext; [|exact Hs]. intros a Ha. rewrite E. by rewrite decide_False by lia. }
  fold h' in E3, Hs3, E4, E5, E6. split_and!; try done.
  - rewrite E. by rewrite decide_True.
  - intros a Ha. rewrite E. by rewrite decide_False.
  - rewrite E3, E by lia. by rewrite decide_True.
  - intros a Ha Haq. rewrite E3, E by done. by rewrite decide_False.
Qed.

Lemma coalesce_next_spec : ∀ l2 fuel h pr b sz sz' l2',
  let q := b + HDR + sz in
  4096 ≤ b → 0 ≤ sz → fin q l2 < 2 ^ 32 → (length l2 ≤ fuel)%nat →
  hdr_at h b = Hdr HEAP_MAGIC sz 0 (link l2 q 0) pr →
  seg (hdr_at h) b q 0 l2 → absorb sz l2 = (sz', l2') →
  ∃ h', coalesce_next fuel b h = Ok h' ∧ 0 ≤ sz' ∧
    seg (hdr_at h') pr b 0 ((sz', false) :: l2') ∧
    (∀ a, a < b → hdr_at h' a = hdr_at h a) ∧
    heap_head h' = heap_head h ∧ mem h' = mem h ∧ heap_used h' = heap_used h.
Proof.
  pose proof HDR_bound. pose proof word_bits_bound.
  assert (2 ^ 32 ≤ 2 ^ word_bits) by (apply Z.pow_le_mono_r; lia).
  induction l2 as [|[sz2 u2] l2 IH]; intros fuel h pr b sz sz' l2' q Hb Hsz Hfin Hf Hhb Hs Habs.
  { simpl in Habs. simplify_eq. exists h. split; [|done].
    destruct fuel; simpl; by rewrite Hhb. }
  cbn [length] in Hf. destruct fuel as [|fuel]; [lia|].
  destruct Hs as (Hsz2 & Hq & Hs2). pose proof (seg_fin _ _ _ _ _ Hs2) as Hle.
  unfold fin in Hfin. cbn [foldl] in Hfin. fold (fin (q + HDR + sz2) l2) in Hfin.
  cbn [coalesce_next]. rewrite Hhb. cbn [next link]. rewrite Hq. cbn [used].
  rewrite (proj2 (Z.eqb_neq q 0)) by (unfold q; lia).
  destruct u2.
  { simpl in Habs. simplify_eq. exists h. split; [done|]. split; [done|]. split; [|done].
    simpl. split; [done|]. split; [exact Hhb|]. split; [done|]. split; [exact Hq|done]. }
  cbn [Z.b2z Z.eqb negb orb]. cbn [absorb] in Habs.
  set (q2 := q + HDR + sz2) in *. cbn [size].
  replace (u32 (sz + uptr (HDR + sz2))) with (sz + HDR + sz2)
    by (rewrite (wrap_small word_bits), wrap_small by (unfold q, q2 in *; lia); lia).
  replace (hdr_at (set_size b (sz + HDR + sz2) h) q) with (hdr_at h q)
    by (hdr_simpl; by rewrite decide_False by (unfold q; lia)).
  rewrite Hq. cbn [next].
  destruct (swallow_next h q b (sz + HDR + sz2) q2 l2 _ _ _ ltac:(unfold q2, q; lia) ltac:(unfold q2, q; lia) Hhb Hs2)
    as (N & _ & E2 & E3 & Hs3 & E4 & E5 & E6).
  rewrite N. revert E2 E3 Hs3 E4 E5 E6. generalize (if negb (link l2 q2 0 =? 0) then
    set_prev (link l2 q2 0) b (set_next b (link l2 q2 0) (set_size b (sz + HDR + sz2) h))
    else set_next b (link l2 q2 0) (set_size b (sz + HDR + sz2) h)). intros h3 E2 E3 Hs3 E4 E5 E6.
  edestruct (IH fuel h3 pr b (sz + HDR + sz2) sz' l2') as (h' & R1 & R2 & R3 & R4 & R5 & R6 & R7).
  all: try replace (b + HDR + (sz + HDR + sz2)) with q2 by (unfold q2, q; lia).
  - done.
  - lia.
  - lia.
  - lia.
  - exact E2.
  - exact Hs3.
  - exact Habs.
  - exists h'. split_and!; [exact R1|exact R2|exact R3| |rewrite R5|rewrite R6|rewrite R7].
    + intros a Ha. by rewrite R4, E3 by (unfold q2, q in *; lia).
    + exact E4.
    + exact E5.
    + exact E6.
Qed.

(** The list after freeing a block of size [sz] between [l1] and [l2]. *)
Definition free_list (l1 : blocks) (sz : Z) (l2 : blocks) : blocks :=
  let '(sz', l2') := absorb sz l2 in
  match rev l1 with
  | (sz0, false) :: r => rev r ++ (sz0 + HDR + sz', false) :: l2'
  | _ => l1 ++ (sz', false) :: l2'
  end.

Lemma free_list_spec s l1 sz l2 :
  fin s (free_list l1 sz l2) = fin s (l1 ++ (sz, true) :: l2) ∧
  live s (l1 ++ (sz, true) :: l2) ≡ₚ (fin s l1 + HDR, sz) :: live s (free_list l1 sz l2) ∧
  (coalesced false (l1 ++ (sz, true) :: l2) → coalesced false (free_list l1 sz l2)) ∧
  free_list l1 sz l2 ≠ [].
Proof.
  unfold free_list. destruct (absorb sz l2) as [sz' l2'] eqn:Ea.
  destruct l1 as [|[sz0 u0] l1 _] using rev_ind.
  { destruct (absorb_spec _ _ _ _ s Ea) as (B & C & D). simpl in *. split_and!; [done| | |done].
    - by rewrite C.
    - intros [_ Hc]. split; [done|]. auto. }
  rewrite rev_app_distr. simpl. rewrite rev_involutive.
  set (b := fin s (l1 ++ [(sz0, u0)])).
  assert (b = fin s l1 + HDR + sz0) as Eb by (unfold b; rewrite fin_app; done).
  destruct (absorb_spec _ _ _ _ b Ea) as (B & C & D).
  destruct u0; rewrite <- ?app_assoc; cbn [app].
  - split_and!; [| | |by destruct l1].
    + rewrite !fin_app. unfold fin in *. simpl in *. rewrite <- Eb. exact B.
    + rewrite !live_app. simpl. rewrite <- Eb, C.
      solve_Permutation.
    + rewrite !coalesced_app. simpl. tauto.
  - split_and!; [| | |by destruct l1].
    + rewrite !fin_app. unfold fin in *. simpl in *. rewrite <- Eb, <- B. f_equal. lia.
    + rewrite !live_app. simpl. rewrite <- Eb.
      replace (fin s l1 + HDR + (sz0 + HDR + sz')) with (b + HDR + sz') by lia.
      rewrite C. by rewrite <- !Permutation_middle.
    + rewrite !coalesced_app. simpl. tauto.
Qed.

Lemma coalesce_spec h s l1 sz l2 :
  let b := fin s l1 in
  let q := b + HDR + sz in
  4096 ≤ s → 0 ≤ sz → fin q l2 < 2 ^ 32 →
  seg (hdr_at h) 0 s b l1 →
  hdr_at h b = Hdr HEAP_MAGIC sz 0 (link l2 q 0) (last_blk 0 s l1) →
  seg (hdr_at h) b q 0 l2 → (length l2 ≤ base.size (hdrs h))%nat →
  ∃ h', coalesce b h = Ok h' ∧ seg (hdr_at h') 0 s 0 (free_list l1 sz l2) ∧
    heap_head h' = heap_head h ∧ mem h' = mem h ∧ heap_used h' = heap_used h ∧
    magic (hdr_at h' b) = HEAP_MAGIC ∧ used (hdr_at h' b) = 0.
Proof.
  intros b q Hs Hsz Hfin Hl1 Hb Hl2 Hlen. pose proof HDR_bound. pose proof word_bits_bound.
  assert (2 ^ 32 ≤ 2 ^ word_bits) by (apply Z.pow_le_mono_r; lia).
  pose proof (seg_fin _ _ _ _ _ Hl1). fold b in H3.
  destruct (absorb sz l2) as [sz' l2'] eqn:Ea.
  destruct (absorb_spec _ _ _ _ b Ea) as (B & _ & _).
  destruct (coalesce_next_spec l2 (base.size (hdrs h)) h (last_blk 0 s l1) b sz sz' l2')
    as (h1 & R1 & R2 & (R3 & R4 & R5) & R6 & R7 & R8 & R9); try done; [lia|].
  unfold coalesce, free_list. rewrite R1, Ea. cbn [mbind outcome_bind].
  pose proof (seg_fin _ _ _ _ _ R5). fold q in B.
  rewrite R4. cbn [prev size next].
  assert (seg (hdr_at h1) 0 s b l1) as Hl1'.
  { eapply seg_ext; [|exact Hl1]. intros a Ha. apply R6. lia. }
  destruct l1 as [|[sz0 u0] l1 _] using rev_ind.
  { exists h1. rewrite R4. simpl in *. split; [done|]. split; [|done]. split; [done|].
    split; [exact R4|exact R5]. }
  rewrite rev_app_distr, last_blk_app in *. simpl rev. simpl last_blk in *. set (p := fin s l1) in *.
  apply seg_app in Hl1' as [S1 (S2 & S3 & _)]. fold p in S1, S3. simpl link in S1, S3.
  pose proof (seg_fin _ _ _ _ _ S1). fold p in H5.
  assert (b = p + HDR + sz0) as Eb by (unfold b; rewrite fin_app; done).
  rewrite S3. cbn [used size next prev]. rewrite (proj2 (Z.eqb_neq p 0)) by lia.
  destruct u0; cbn [Z.b2z Z.eqb negb orb].
  { exists h1. rewrite R4. split; [done|]. split; [|done]. apply seg_app. split.
    - rewrite fin_app. simpl fin. unfold link. apply seg_app. split; [exact S1|].
      simpl. split; [done|]. split; [|done]. fold p. rewrite <- Eb. exact S3.
    - rewrite last_blk_app. simpl last_blk. fold p.
      replace (fin s (l1 ++ [(sz0, true)])) with b by done.
      split; [done|]. split; [rewrite R4; done|exact R5]. }
  replace (u32 (sz0 + uptr (HDR + sz'))) with (sz0 + HDR + sz')
    by (rewrite (wrap_small word_bits), wrap_small by (unfold q in *; lia); lia).
  set (q' := b + HDR + sz') in *.
  destruct (swallow_next h1 b p (sz0 + HDR + sz') q' l2' _ _ _ ltac:(lia) ltac:(lia) S3 R5)
    as (N & N2 & E2 & E3 & Hs3 & E4 & E5 & E6).
  replace (hdr_at (set_size p (sz0 + HDR + sz') h1) b) with (hdr_at h1 b)
    by (hdr_simpl; by rewrite decide_False by lia).
  rewrite R4. cbn [next prev]. rewrite N2, R4 by lia. cbn [next prev].
  eexists. split; [reflexivity|]. cbn [app]. rewrite rev_involutive.
  split; [|by rewrite E3, R4, E4, E5, E6 by lia]. apply seg_app. split; [|fold p; split; [lia|split]].
  - simpl link. fold p. eapply seg_ext; [|exact S1]. intros a Ha. fold p in Ha. apply E3; lia.
  - rewrite E2. by replace (p + HDR + (sz0 + HDR + sz')) with q' by lia.
  - by replace (p + HDR + (sz0 + HDR + sz')) with q' by lia.
Qed.

Lemma kfree_cases h s e l p n :
  heap_ok h s e l → (p, n) ∈ live s l →
  ∃ h' l', kfree p h = Ok h' ∧ heap_ok h' s e l' ∧ live s l ≡ₚ (p, n) :: live s l' ∧
    mem h' = mem h ∧ heap_used h' = uptr (heap_used h - n) ∧ HDR < p < 2 ^ 32 ∧
    magic (hdr_at h' (p - HDR)) = HEAP_MAGIC ∧ used (hdr_at h' (p - HDR)) = 0.
Proof.
  intros (A & B & C & D & E & F & G) Hin. pose proof HDR_bound. pose proof word_bits_bound.
  assert (2 ^ 32 ≤ 2 ^ word_bits) by (apply Z.pow_le_mono_r; lia).
  destruct (live_split _ _ _ _ _ _ _ F Hin) as (l1 & l2 & -> & ->).
  pose proof (length_blocks _ _ _ _ _ F) as Hlen. rewrite length_app in Hlen. cbn [length] in Hlen.
  pose proof F as [F1 (F2 & F3 & F4)]%seg_app. set (b := fin s l1) in *.
  pose proof (seg_fin _ _ _ _ _ F1). fold b in H3. pose proof (seg_fin _ _ _ _ _ F4).
  assert (fin (b + HDR + n) l2 = e) as E' by (rewrite <- E, fin_app; done).
  unfold kfree. rewrite (proj2 (Z.eqb_neq (b + HDR) 0)) by lia.
  rewrite (wrap_small word_bits (b + HDR - HDR)) by lia. replace (b + HDR - HDR) with b by lia.
  rewrite F3. cbn [magic used size]. rewrite Z.eqb_refl. cbn [negb Z.b2z Z.eqb].
  set (h1 := set_used b 0 (charge (- n) h)).
  assert (∀ a, hdr_at h1 a = if decide (a = b) then Hdr HEAP_MAGIC n 0
    (link l2 (b + HDR + n) 0) (last_blk 0 s l1) else hdr_at h a) as E1.
  { intros a. unfold h1. hdr_simpl. case_decide; [|done]. by rewrite F3. }
  destruct (coalesce_spec h1 s l1 n l2) as (h' & R1 & R2 & R3 & R4 & R5 & R6 & R7).
  - done.
  - done.
  - fold b. lia.
  - eapply seg_ext; [|exact F1]. intros a Ha. rewrite E1, decide_False; [done|]. fold b in Ha. lia.
  - fold b. rewrite E1, decide_True; done.
  - fold b. eapply seg_ext; [|exact F4]. intros a Ha. rewrite E1, decide_False; [done|]. lia.
  - etrans; [|apply (length_blocks h1 (last_blk 0 s l1) b 0 ((n, false) :: l2))].
    { simpl. lia. }
    split; [done|]. split; [rewrite E1, decide_True; done|].
    eapply seg_ext; [|exact F4]. intros a Ha. rewrite E1, decide_False; [done|]. lia.
  - destruct (free_list_spec s l1 n l2) as (K1 & K2 & K3 & K4).
    exists h', (free_list l1 n l2). split; [exact R1|]. split.
    { split_and!; [by rewrite R3|done|done|done|by rewrite K1|exact R2|auto]. }
    split; [exact K2|]. split; [by rewrite R4|]. split; [by rewrite R5|]. split; [lia|done].
Qed.

(** When nothing is in use the heap is one free block. *)
Lemma all_free_single s l : l ≠ [] → coalesced false l → live s l = [] →
  l = [(fin s l - s - HDR, false)].
Proof.
  destruct l as [|[sz []] [|[sz2 []] l]]; intros Hne Hc Hl; simpl in *; try done.
  - unfold fin. simpl. do 2 f_equal. lia.
  - destruct Hc as (_ & Hc & _). by specialize (Hc eq_refl).
Qed.
End operations.

(** ** The regions in use, computed from the headers *)

Fixpoint walk `{Arch} (fuel : nat) (b : Z) (h : heap) : list (Z * Z) :=
  if b =? 0 then [] else
  match fuel with
  | O => []
  | S k => let x := hdr_at h b in
           (if used x =? 0 then [] else [(b + HDR, size x)]) ++ walk k (next x) h
  end.

(** The payloads in use, address and size, in address order. *)
Definition regions `{Arch} (h : heap) : list (Z * Z) :=
  walk (base.size (hdrs h)) (heap_head h) h.

(** The heap occupies the bytes from [s] to [e]. *)
Definition heap_inv `{Arch} (s e : Z) (h : heap) : Prop := ∃ l, heap_ok h s e l.

Section regions.
Context `{Arch}.

Lemma walk_spec h : ∀ l fuel pr p,
  seg (hdr_at h) pr p 0 l → 0 < p → (length l ≤ fuel)%nat →
  walk fuel (link l p 0) h = live p l.
Proof.
  pose proof HDR_bound. induction l as [|[sz u] l IH]; intros fuel pr p; simpl.
  { intros _ _ _. by destruct fuel. }
  intros (A & B & C) Hp Hf. destruct fuel as [|fuel]; [lia|]. simpl.
  rewrite (proj2 (Z.eqb_neq p 0)) by lia. rewrite B. cbn [used size next].
  rewrite (IH fuel p) by (done || lia). by destruct u.
Qed.

Lemma regions_live h s e l : heap_ok h s e l → regions h = live s l.
Proof.
  intros (A & B & C & D & E & F & G). unfold regions. rewrite A.
  pose proof (walk_spec h l (base.size (hdrs h)) 0 s F ltac:(lia) (length_blocks _ _ _ _ _ F)) as <-.
  by destruct l.
Qed.

Lemma live_disjoint g pr p nx l :
  seg g pr p nx l → ForallOrdPairs disjoint_regions (live p l).
Proof.
  pose proof HDR_bound. revert pr p. induction l as [|[sz u] l IH]; intros pr p; simpl; [constructor|].
  intros (A & _ & C). destruct u; simpl; [|eauto]. constructor; [|eauto].
  apply List.Forall_forall. intros [q k] Hin%list_elem_of_In.
  destruct (live_bound _ _ _ _ _ _ _ C Hin). unfold disjoint_regions. simpl. lia.
Qed.
End regions.

Section contracts.
Context `{Arch}.

Lemma first_fit_regions h h' s e l l' n p :
  heap_ok h s e l → heap_ok h' s e l' → 0 ≤ n → first_fit n s l p l' →
  ∃ k, regions h' ≡ₚ (p, k) :: regions h ∧ n ≤ k < n + HDR + MIN_SPLIT ∧
    s + HDR ≤ p ∧ p + k ≤ e ∧ (∀ r, r ∈ regions h → disjoint_regions (p, k) r).
Proof.
  intros Hok Hok' Hn (l1 & sz & l2 & -> & Hsz & Hno & -> & ->).
  rewrite (regions_live _ _ _ _ Hok), (regions_live _ _ _ _ Hok').
  destruct (live_place s l1 sz l2 n) as (k & Hk & Hb & El). exists k.
  pose proof Hok as (_ & _ & _ & _ & E & F & _). pose proof F as [F1 (F2 & F3 & F4)]%seg_app.
  pose proof (seg_fin _ _ _ _ _ F1). pose proof (seg_fin _ _ _ _ _ F4). pose proof HDR_bound.
  assert (fin (fin s l1 + HDR + sz) l2 = e) as E' by (rewrite <- E, fin_app; done).
  specialize (Hb Hsz). assert (k ≤ sz) as Hks by (destruct Hk; lia).
  split; [|split; [done|split; [lia|split; [lia|]]]].
  - rewrite El, (live_app s l1). simpl. by rewrite <- Permutation_middle.
  - intros r. rewrite live_app. simpl. unfold disjoint_regions. simpl.
    destruct r as [q j]. intros [Hin|Hin]%elem_of_app.
    + destruct (live_bound _ _ _ _ _ _ _ F1 Hin). simpl. lia.
    + destruct (live_bound _ _ _ _ _ _ _ F4 Hin). simpl. lia.
Qed.

Lemma kmalloc_fresh h s e n p h' :
  heap_inv s e h → 0 < n → n + 7 < 2 ^ word_bits → kmalloc n h = Ok (p, h') →
  heap_inv s e h' ∧ mem h' = mem h ∧ ∃ k, regions h' ≡ₚ (p, k) :: regions h ∧ n ≤ k ∧
    s + HDR ≤ p ∧ p + k ≤ e ∧ (∀ r, r ∈ regions h → disjoint_regions (p, k) r).
Proof.
  intros [l Hok] Hn Hw Ek.
  destruct (kmalloc_cases h s e l n Hok Hn Hw) as [(q & h1 & l' & E & Hok' & Hff & Hm & Hu)|[E _]];
    [|congruence].
  rewrite E in Ek. injection Ek as <- <-.
  destruct (first_fit_regions h h1 s e l l' ((n + 7) / 8 * 8) q Hok Hok' ltac:(dlia) Hff) as (k & A & B & C).
  split; [by exists l'|]. split; [exact Hm|]. exists k. split; [exact A|]. split; [dlia|exact C].
Qed.

Lemma kmalloc_0 h : kmalloc 0 h = Ok (0, h).
Proof. done. Qed.

Lemma kfree_spec_live h s e p n :
  heap_inv s e h → (p, n) ∈ regions h →
  ∃ h', kfree p h = Ok h' ∧ heap_inv s e h' ∧ regions h ≡ₚ (p, n) :: regions h' ∧
    mem h' = mem h ∧ kheap_used h' = uptr (kheap_used h - n) ∧
    HDR < p < 2 ^ 32 ∧ magic (hdr_at h' (p - HDR)) = HEAP_MAGIC ∧ used (hdr_at h' (p - HDR)) = 0.
Proof.
  intros [l Hok] Hin. rewrite (regions_live _ _ _ _ Hok) in *.
  destruct (kfree_cases _ _ _ _ _ _ Hok Hin) as (h' & l' & E & Hok' & Hp & Hm & Hu & R).
  exists h'. split; [exact E|]. split; [by exists l'|].
  rewrite (regions_live _ _ _ _ Hok'). done.
Qed.

Lemma regions_bound h s e q k :
  heap_inv s e h → (q, k) ∈ regions h →
  s + HDR ≤ q ∧ 0 ≤ k ∧ q + k ≤ e ∧ 4096 ≤ s ∧ e < 2 ^ 32 ∧
  hdr_at h (q - HDR) = Hdr HEAP_MAGIC k 1 (next (hdr_at h (q - HDR))) (prev (hdr_at h (q - HDR))).
Proof.
  intros [l Hok] Hin. rewrite (regions_live _ _ _ _ Hok) in Hin.
  pose proof Hok as (A & B & C & D & E & F & G).
  destruct (live_bound _ _ _ _ _ _ _ F Hin) as (K1 & K2 & K3). rewrite E in K3.
  destruct (live_split _ _ _ _ _ _ _ F Hin) as (l1 & l2 & -> & ->).
  apply seg_app in F as [F1 (F2 & F3 & F4)]. split_and!; try done.
  replace (fin s l1 + HDR - HDR) with (fin s l1) by lia. by rewrite F3.
Qed.

Lemma heap_init_inv s n h :
  4096 ≤ s → HDR ≤ n → s + n < 2 ^ 32 →
  heap_ok (heap_init s n h) s (s + n) [(n - HDR, false)].
Proof.
  intros Hs Hn He. pose proof HDR_bound. unfold heap_init.
  rewrite wrap_word_u32_small, wrap_small by lia. split_and!; [done|done|done|done| | |done].
  - unfold fin. simpl. lia.
  - simpl. split; [lia|]. split; [|done]. unfold hdr_at. simpl. by rewrite lookup_insert_eq.
Qed.

Lemma heap_inv_with_mem s e h m : heap_inv s e h → heap_inv s e (with_mem h m).
Proof. by intros [l Hok]; exists l. Qed.

Lemma regions_with_mem h m : regions (with_mem h m) = regions h.
Proof.
  unfold regions. simpl. generalize (heap_head h). generalize (base.size (hdrs h)).
  intros fuel. induction fuel as [|fuel IH]; intros b; simpl; [done|].
  case_test; [done|]. f_equal. apply IH.
Qed.
End contracts.

(** C1: [kmalloc] of a non-zero request that does not overflow when rounded up
    takes the lowest free block that fits the request rounded to 8 bytes, and
    returns its payload: it lies inside the heap, holds at least the bytes
    requested, overlaps no region in use, and becomes the one region added to
    those in use; payload bytes are untouched and the heap stays well formed.
    It panics exactly when no free block fits. *)
Theorem kmalloc_spec `{Arch} (h : heap) (s e n : Z) (l : list (Z * bool)) :
  heap_ok h s e l → 0 < n → n + 7 < 2 ^ word_bits →
  let n8 := (n + 7) / 8 * 8 in
  match kmalloc n h with
  | Ok (p, h') =>
      (∃ l', heap_ok h' s e l' ∧ first_fit n8 s l p l') ∧
      mem h' = mem h ∧ kheap_used h' = uptr (kheap_used h + n8) ∧
      ∃ k, regions h' ≡ₚ (p, k) :: regions h ∧ n ≤ n8 ∧ n8 ≤ k < n8 + HDR + MIN_SPLIT ∧
        s + HDR ≤ p ∧ p + k ≤ e ∧ (∀ r, r ∈ regions h → disjoint_regions (p, k) r)
  | Panic _ => Forall (λ b, fits n8 b = false) l
  | OutOfFuel => False
  end.
Proof.
  intros Hok Hn Hw n8. destruct (kmalloc_cases h s e l n Hok Hn Hw)
    as [(p & h' & l' & -> & Hok' & Hff & Hm & Hu)|[-> Hno]]; [|done].
  split; [by exists l'|]. split; [done|]. split; [done|].
  destruct (first_fit_regions h h' s e l l' n8 p Hok Hok' ltac:(unfold n8; dlia) Hff)
    as (k & A & B & C).
  exists k. split; [done|]. split; [unfold n8 in *; dlia|done].
Qed.

(** C3: freeing a region in use removes exactly that region, keeps every other
    one and every payload byte, and leaves no two adjacent free blocks: once
    nothing is in use the heap is again one free block of its full size.
    Freeing the same pointer a second time panics instead of corrupting it. *)
Theorem kfree_spec `{Arch} (h : heap) (s e p n : Z) :
  heap_inv s e h → (p, n) ∈ regions h →
  ∃ h', kfree p h = Ok h' ∧ heap_inv s e h' ∧ regions h ≡ₚ (p, n) :: regions h' ∧
    mem h' = mem h ∧ kheap_used h' = uptr (kheap_used h - n) ∧
    (regions h' = [] → heap_ok h' s e [(e - s - HDR, false)]) ∧
    kfree p h' = Panic "kfree: double free at %p".
Proof.
  intros Hi Hin. destruct (kfree_spec_live h s e p n Hi Hin)
    as (h' & E & [l' Hok'] & A & B & C & Hp & D1 & D2).
  exists h'. split; [done|]. split; [by exists l'|]. split_and!; try done.
  - intros Hr. rewrite (regions_live _ _ _ _ Hok') in Hr.
    pose proof Hok' as (_ & _ & _ & Hne & Hf & _ & Hc).
    pose proof (all_free_single s l' Hne Hc Hr) as El. rewrite Hf in El. by rewrite <- El.
  - pose proof HDR_bound. unfold kfree. rewrite (proj2 (Z.eqb_neq p 0)) by lia.
    rewrite (wrap_word_u32_small (p - HDR)) by lia. rewrite D1, D2. done.
Qed.

(** The cases of [krealloc]. *)
Lemma krealloc_cases `{Arch} (h : heap) (s e p n size_ : Z) :
  heap_inv s e h → mem_ok (mem h) → (p, n) ∈ regions h → 0 < size_ → size_ + 7 < 2 ^ word_bits →
  match krealloc p size_ h with
  | Ok (q, h') =>
      heap_inv s e h' ∧
      (size_ ≤ n → q = p ∧ h' = h) ∧
      (n < size_ → ∃ k rest, regions h ≡ₚ (p, n) :: rest ∧ regions h' ≡ₚ (q, k) :: rest ∧ size_ ≤ k ∧
        (∀ i, 0 ≤ i < n → ld (mem h') (q + i) = ld (mem h) (p + i)) ∧
        (∀ r a, r ∈ rest → r.1 ≤ a < r.1 + r.2 → ld (mem h') a = ld (mem h) a))
  | Panic _ => n < size_ ∧ kmalloc size_ h = Panic "kmalloc: out of heap memory (requested %u bytes)"
  | OutOfFuel => False
  end.
Proof.
  intros Hi Hm Hin Hs Hw. destruct (regions_bound h s e p n Hi Hin) as (B1 & B2 & B3 & B4 & B5 & B6).
  pose proof HDR_bound. unfold krealloc. rewrite (proj2 (Z.eqb_neq p 0)), (proj2 (Z.eqb_neq size_ 0)) by lia.
  rewrite (wrap_word_u32_small (p - HDR)) by lia. rewrite B6. cbn [magic size]. rewrite Z.eqb_refl.
  cbn [negb]. case_test; [split; [done|split; [done|lia]]|].
  destruct (kmalloc size_ h) as [[q h1]|msg|] eqn:Ek; cbn [mbind outcome_bind].
  2,3: destruct Hi as [l Hok]; destruct (kmalloc_cases h s e l size_ Hok Hs Hw)
    as [(? & ? & ? & E & _)|[E _]]; [congruence|].
  2: { split; [lia|congruence]. } 2: congruence.
  destruct (kmalloc_fresh h s e size_ q h1 Hi Hs Hw Ek) as (Hi1 & Hm1 & k & P1 & P2 & P3 & P4 & P5).
  assert ((p, n) ∈ regions h1) as Hin1 by (rewrite P1; by right).
  destruct (regions_bound h1 s e p n Hi1 Hin1) as (_ & _ & _ & _ & _ & B7).
  rewrite B7. cbn [size]. rewrite Hm1. set (m := memcpy q p n (mem h)).
  destruct (kfree_spec_live (with_mem h1 m) s e p n) as (h2 & E2 & Hi2 & P6 & Hm2 & _).
  { by apply heap_inv_with_mem. } { by rewrite regions_with_mem. }
  rewrite E2. cbn [mbind outcome_bind]. rewrite regions_with_mem in P6.
  split; [done|]. split; [lia|]. intros _.
  assert (∃ rest, regions h ≡ₚ (p, n) :: rest) as [rest Hrest].
  { apply list_elem_of_split in Hin as (l1 & l2 & ->). exists (l1 ++ l2). solve_Permutation. }
  exists k, rest. split; [done|]. split.
  { apply (Permutation_cons_inv (a := (p, n))). rewrite <- P6, P1, Hrest. apply Permutation_swap. }
  split; [done|]. rewrite Hm2. cbn [mem with_mem].
  pose proof (P5 (p, n) Hin) as Hd. unfold disjoint_regions in Hd. simpl in Hd.
  assert (∀ a, ld m a = if decide (q ≤ a < q + n) then ld (mem h) (p + (a - q)) else ld (mem h) a) as Hld.
  { intros a. apply memcpy_spec; [done|lia|lia]. }
  split.
  - intros i Hi'. rewrite Hld, decide_True by lia. f_equal. lia.
  - intros [r1 r2] a Hr Ha. rewrite Hld, decide_False; [done|].
    assert ((r1, r2) ∈ regions h) as Hr' by (rewrite Hrest; by right).
    specialize (P5 _ Hr'). unfold disjoint_regions in P5. simpl in *. lia.
Qed.

(** C4: [krealloc] of a region in use to a larger size, when it returns, moves
    the region: the new one is as large as asked, takes the place of the old one
    among the regions in use, starts with the old content, and every other
    region keeps its bytes.  A size that fits returns the pointer unchanged. *)
Theorem krealloc_spec `{Arch} (h : heap) (s e p n size_ : Z) :
  heap_inv s e h → mem_ok (mem h) → (p, n) ∈ regions h → 0 < size_ → size_ + 7 < 2 ^ word_bits →
  match krealloc p size_ h with
  | Ok (q, h') =>
      heap_inv s e h' ∧
      (size_ ≤ n → q = p ∧ h' = h) ∧
      (n < size_ → ∃ k rest, regions h ≡ₚ (p, n) :: rest ∧ regions h' ≡ₚ (q, k) :: rest ∧ size_ ≤ k ∧
        (∀ i, 0 ≤ i < n → ld (mem h') (q + i) = ld (mem h) (p + i)) ∧
        (∀ r a, r ∈ rest → r.1 ≤ a < r.1 + r.2 → ld (mem h') a = ld (mem h) a))
  | Panic _ => n < size_ ∧ kmalloc size_ h = Panic "kmalloc: out of heap memory (requested %u bytes)"
  | OutOfFuel => False
  end.
Proof. apply krealloc_cases. Qed.

(** *** All histories of the heap *)

(** The calls of the kernel on a heap of [n] bytes at [s]; a payload write
    changes memory only.  Freed and resized pointers are regions in use. *)
Inductive heap_reach `{Arch} (s n : Z) : heap → Prop :=
  | reach_init h : heap_reach s n (heap_init s n h)
  | reach_kmalloc h k p h' : heap_reach s n h → 0 ≤ k → k + 7 < 2 ^ word_bits →
      kmalloc k h = Ok (p, h') → heap_reach s n h'
  | reach_kcalloc h c k p h' : heap_reach s n h → 0 ≤ c * k → c * k + 7 < 2 ^ word_bits →
      kcalloc c k h = Ok (p, h') → heap_reach s n h'
  | reach_kfree h p k h' : heap_reach s n h → (p, k) ∈ regions h →
      kfree p h = Ok h' → heap_reach s n h'
  | reach_krealloc h p k j q h' : heap_reach s n h → (p, k) ∈ regions h →
      0 ≤ j → j + 7 < 2 ^ word_bits → krealloc p j h = Ok (q, h') → heap_reach s n h'
  | reach_write h m : heap_reach s n h → heap_reach s n (with_mem h m).

Section histories.
Context `{Arch}.

Lemma kmalloc_inv h s e n p h' :
  heap_inv s e h → 0 ≤ n → n + 7 < 2 ^ word_bits → kmalloc n h = Ok (p, h') → heap_inv s e h'.
Proof.
  intros Hi Hn Hw E. destruct (decide (n = 0)) as [->|].
  - rewrite kmalloc_0 in E. congruence.
  - by destruct (kmalloc_fresh h s e n p h' Hi ltac:(lia) Hw E).
Qed.

Lemma kcalloc_inv h s e c n p h' :
  heap_inv s e h → 0 ≤ c * n → c * n + 7 < 2 ^ word_bits → kcalloc c n h = Ok (p, h') →
  heap_inv s e h'.
Proof.
  intros Hi Hn Hw E. unfold kcalloc in E. rewrite wrap_small in E by lia.
  destruct (kmalloc (c * n) h) as [[q h1]|msg|] eqn:Ek; cbn [mbind outcome_bind] in E; try done.
  assert (h' = if negb (q =? 0) then with_mem h1 (memset q 0 (c * n) (mem h1)) else h1) as -> by congruence.
  pose proof (kmalloc_inv h s e _ q h1 Hi Hn Hw Ek). case_match; [|done]. by apply heap_inv_with_mem.
Qed.

Lemma krealloc_inv h s e p n k q h' :
  heap_inv s e h → (p, n) ∈ regions h → 0 ≤ k → k + 7 < 2 ^ word_bits →
  krealloc p k h = Ok (q, h') → heap_inv s e h'.
Proof.
  intros Hi Hin Hk Hw E. destruct (regions_bound h s e p n Hi Hin) as (B1 & B2 & B3 & B4 & B5 & B6).
  pose proof HDR_bound. unfold krealloc in E. rewrite (proj2 (Z.eqb_neq p 0)) in E by lia.
  case_test.
  { destruct (kfree_spec_live h s e p n Hi Hin) as (h1 & E1 & Hi1 & _).
    rewrite E1 in E. cbn [mbind outcome_bind] in E. congruence. }
  rewrite (wrap_word_u32_small (p - HDR)) in E by lia. rewrite B6 in E. cbn [magic size] in E.
  rewrite Z.eqb_refl in E. cbn [negb] in E. case_test; [congruence|].
  destruct (kmalloc k h) as [[q1 h1]|msg|] eqn:Ek; cbn [mbind outcome_bind] in E; try done.
  destruct (kmalloc_fresh h s e k q1 h1 Hi ltac:(lia) Hw Ek) as (Hi1 & Hm1 & j & P1 & _).
  set (m := memcpy _ _ _ _) in E.
  destruct (kfree_spec_live (with_mem h1 m) s e p n) as (h2 & E2 & Hi2 & _).
  { by apply heap_inv_with_mem. } { rewrite regions_with_mem, P1. by right. }
  rewrite E2 in E. cbn [mbind outcome_bind] in E. congruence.
Qed.
End histories.

(** C2: after any sequence of allocations, releases, resizes and payload writes
    the heap is a well formed list covering exactly the bytes it was given, the
    regions in use lie inside it and no two of them overlap. *)
Theorem heap_reach_ok `{Arch} (s n : Z) (h : heap) :
  4096 ≤ s → HDR ≤ n → s + n < 2 ^ 32 → heap_reach s n h →
  heap_inv s (s + n) h ∧ ForallOrdPairs disjoint_regions (regions h) ∧
  (∀ q k, (q, k) ∈ regions h → s + HDR ≤ q ∧ 0 ≤ k ∧ q + k ≤ s + n).
Proof.
  intros Hs Hn He Hr. assert (heap_inv s (s + n) h) as Hi.
  { induction Hr as [h|? ? ? ? _ IH|? ? ? ? ? _ IH|? ? ? ? _ IH|? ? ? ? ? ? _ IH|? ? _ IH].
    - eexists. by apply heap_init_inv.
    - by eapply kmalloc_inv.
    - by eapply kcalloc_inv.
    - destruct (kfree_spec_live _ _ _ _ _ IH H0) as (h2 & E & Hi & _). congruence.
    - by eapply krealloc_inv.
    - by apply heap_inv_with_mem. }
  split; [done|]. split.
  - destruct Hi as [l Hok]. rewrite (regions_live _ _ _ _ Hok).
    destruct Hok as (_ & _ & _ & _ & _ & F & _). by eapply live_disjoint.
  - intros q k Hin. destruct (regions_bound _ _ _ _ _ Hi Hin) as (? & ? & ? & _). done.
Qed.

(** [kcalloc] returns a fresh zeroed region of [c * n] bytes and leaves the
    bytes of every other region alone. *)
Theorem kcalloc_zeroed `{Arch} (h : heap) (s e c n p : Z) (h' : heap) :
  heap_inv s e h → 0 < c * n → c * n + 7 < 2 ^ word_bits → kcalloc c n h = Ok (p, h') →
  heap_inv s e h' ∧ p ≠ 0 ∧
  (∃ k, regions h' ≡ₚ (p, k) :: regions h ∧ c * n ≤ k) ∧
  (∀ a, p ≤ a < p + c * n → ld (mem h') a = 0) ∧
  (∀ r a, r ∈ regions h → r.1 ≤ a < r.1 + r.2 → ld (mem h') a = ld (mem h) a).
Proof.
  intros Hi Hn Hw E. split; [eapply kcalloc_inv; [exact Hi| |exact Hw|exact E]; lia|].
  unfold kcalloc in E. rewrite wrap_small in E by lia. pose proof HDR_bound.
  destruct (kmalloc (c * n) h) as [[q h1]|msg|] eqn:Ek; cbn [mbind outcome_bind] in E; try done.
  destruct (kmalloc_fresh h s e (c * n) q h1 Hi Hn Hw Ek) as (Hi1 & Hm1 & k & P1 & P2 & P3 & P4 & P5).
  assert (4096 ≤ s) by (destruct Hi1 as [l (? & ? & _)]; done).
  rewrite (proj2 (Z.eqb_neq q 0)) in E by lia. cbn [negb] in E. injection E as <- <-.
  rewrite regions_with_mem. cbn [mem with_mem]. split; [lia|]. split; [by exists k|]. rewrite Hm1. split.
  - intros a Ha. rewrite memset_spec, decide_True by lia. done.
  - intros [r1 r2] a Hr Ha. specialize (P5 _ Hr). unfold disjoint_regions in P5. simpl in *.
    rewrite memset_spec, decide_False by lia. done.
Qed.

(** *** Accounting and overflow *)

(** [kmalloc] adds the rounded request to [heap_used] but [kfree] subtracts
    the size of the block, which is up to [HDR + MIN_SPLIT - 1] bytes larger when
    the block was not split: an allocation followed by its release moves
    [kheap_used] by [n8 - k], so the counter drifts down and wraps below zero. *)
Theorem kheap_used_drift `{Arch} (h : heap) (s e n p k : Z) (h1 : heap) :
  heap_inv s e h → 0 < n → n + 7 < 2 ^ word_bits → kmalloc n h = Ok (p, h1) → (p, k) ∈ regions h1 →
  let n8 := (n + 7) / 8 * 8 in
  ∃ h2, kfree p h1 = Ok h2 ∧ regions h2 ≡ₚ regions h ∧
    kheap_used h2 = uptr (kheap_used h - (k - n8)).
Proof.
  intros Hi Hn Hw E Hin n8.
  destruct (kmalloc_fresh h s e n p h1 Hi Hn Hw E) as (Hi1 & _ & j & P1 & P2 & P3 & P4 & P5).
  assert (kheap_used h1 = uptr (kheap_used h + n8)) as Hu.
  { destruct Hi as [l Hok]. destruct (kmalloc_cases h s e l n Hok Hn Hw)
      as [(q & h' & l' & E' & _ & _ & _ & Hu)|[E' _]]; [|congruence].
    rewrite E' in E. injection E as <- <-. exact Hu. }
  destruct (kfree_spec_live h1 s e p k Hi1 Hin) as (h2 & E2 & Hi2 & Q1 & _ & Q2 & _).
  exists h2. split; [done|]. split.
  - assert (k = j) as ->.
    { rewrite P1 in Hin. apply elem_of_cons in Hin as [[=]|Hin]; [done|].
      destruct (regions_bound h s e p k Hi Hin) as (_ & _ & _ & _ & _ & B).
      specialize (P5 _ Hin). unfold disjoint_regions in P5. simpl in P5.
      destruct (regions_bound h1 s e p k Hi1 ltac:(rewrite P1; by right)) as (_ & _ & _ & _ & _ & B1).
      destruct (regions_bound h1 s e p j Hi1 ltac:(rewrite P1; by left)) as (_ & _ & _ & _ & _ & B2).
      rewrite B1 in B2. by injection B2. }
    apply (Permutation_cons_inv (a := (p, j))). by rewrite <- Q1.
  - rewrite Q2, Hu. unfold wrap. pose proof word_bits_bound.
    rewrite Zminus_mod_idemp_l. f_equal. lia.
Qed.

(** Rounding up is not checked for overflow: a request within 7 bytes of the
    largest [size_t] is rounded to zero bytes, and [kmalloc] returns a pointer
    to the first free block (of no more than its own size) instead of failing. *)
Theorem kmalloc_overflow `{Arch} (h : heap) (s e n : Z) (l : list (Z * bool)) :
  heap_ok h s e l → 2 ^ word_bits - 7 ≤ n < 2 ^ word_bits → (∃ sz, (sz, false) ∈ l) →
  ∃ p h', kmalloc n h = Ok (p, h') ∧ p ≠ 0 ∧
    ∃ k, (p, k) ∈ regions h' ∧ k < HDR + MIN_SPLIT.
Proof.
  intros Hok Hn Hfree. pose proof Hok as (A & B & C & D & E & F & G).
  pose proof HDR_bound. pose proof word_bits_bound.
  assert (2 ^ 32 ≤ 2 ^ word_bits) by (apply Z.pow_le_mono_r; lia).
  assert (ALIGN_UP word_bits word_bits n 8 = 0) as E8.
  { unfold ALIGN_UP. replace (wrap word_bits (n + 8 - 1)) with (n + 7 - 2 ^ word_bits).
    2: { unfold wrap. rewrite <- (Z.mod_unique (n + 8 - 1) (2 ^ word_bits) 1 (n + 7 - 2 ^ word_bits)); lia. }
    change (8 - 1) with (2 ^ 3 - 1). rewrite land_align_mask by lia. change (2 ^ 3) with 8. dlia. }
  unfold kmalloc. rewrite (proj2 (Z.eqb_neq n 0)) by lia. rewrite E8. unfold find_free. rewrite A.
  pose proof (length_blocks _ _ _ _ _ F) as Hlen.
  assert (link l s 0 = s) as El by (by destruct l).
  pose proof (find_free_spec h 0 l (base.size (hdrs h)) 0 s F ltac:(lia) Hlen) as Hff.
  rewrite El in Hff. destruct Hff as [[_ Hno]|(l1 & sz & l2 & -> & Hsz & Hno & ->)].
  { destruct Hfree as [sz Hin]. pose proof (proj1 (Forall_forall _ _) Hno _ (proj1 (list_elem_of_In _ _) Hin)) as Hfit. clear Hno.
    apply list_elem_of_split in Hin as (l1 & l2 & ->). apply seg_app in F as [_ (Hsz & _)].
    unfold fits in Hfit. simpl in Hfit. apply Z.leb_gt in Hfit. lia. }
  destruct (heap_ok_set_take h s e l1 sz l2 0 Hok ltac:(lia)) as [Hok' Hmem].
  pose proof (seg_fin _ _ _ _ _ (proj1 (proj1 (seg_app _ _ _ _ _ _) F))).
  simpl. rewrite (proj2 (Z.eqb_neq (fin s l1) 0)) by lia. eexists _, _. split; [reflexivity|].
  assert (uptr (fin s l1 + HDR) = fin s l1 + HDR) as ->.
  { apply wrap_small. pose proof F as [_ (_ & _ & F4)]%seg_app.
    pose proof (seg_fin _ _ _ _ _ F4). rewrite fin_app in E. unfold fin in *. simpl in *. lia. }
  split; [lia|]. rewrite (regions_live _ _ _ _ Hok').
  destruct (live_place s l1 sz l2 0) as (k & Hk & Hb & ->). exists k. split; [|lia].
  apply elem_of_app. right. left.
Qed.

(** *** What a client of the heap relies on *)

Definition oom {A} : outcome A := Panic "kmalloc: out of heap memory (requested %u bytes)".

Section clients.
Context `{Arch}.

Lemma kmalloc_result h s e n :
  heap_inv s e h → 0 ≤ n → n + 7 < 2 ^ word_bits → (∃ p h', kmalloc n h = Ok (p, h')) ∨ kmalloc n h = oom.
Proof.
  intros [l Hok] Hn Hw. destruct (decide (n = 0)) as [->|]; [left; eexists _, _; apply kmalloc_0|].
  destruct (kmalloc_cases h s e l n Hok ltac:(lia) Hw) as [(p & h' & l' & E & _)|[E _]]; [left|right]; eauto.
Qed.

Lemma krealloc_result h s e p n k :
  heap_inv s e h → p = 0 ∨ (p, n) ∈ regions h → 0 < k → k + 7 < 2 ^ word_bits →
  (∃ q h', krealloc p k h = Ok (q, h')) ∨ krealloc p k h = oom.
Proof.
  intros Hi Hp Hk Hw. destruct (decide (p = 0)) as [->|Hp0].
  { unfold krealloc. by apply (kmalloc_result h s e); [|lia|]. }
  destruct Hp as [|Hin]; [done|]. destruct (regions_bound h s e p n Hi Hin) as (B1 & B2 & B3 & B4 & B5 & B6).
  pose proof HDR_bound. unfold krealloc. rewrite (proj2 (Z.eqb_neq p 0)), (proj2 (Z.eqb_neq k 0)) by lia.
  rewrite (wrap_word_u32_small (p - HDR)) by lia. rewrite B6. cbn [magic size]. rewrite Z.eqb_refl.
  cbn [negb]. case_test; [left; eauto|].
  destruct (kmalloc_result h s e k Hi ltac:(lia) Hw) as [(q & h1 & E)|E].
  2: { right. unfold oom in *. by rewrite E. }
  rewrite E. cbn [mbind outcome_bind].
  destruct (kmalloc_fresh h s e k q h1 Hi Hk Hw E) as (Hi1 & Hm1 & j & P1 & _).
  set (m := memcpy _ _ _ _). destruct (kfree_spec_live (with_mem h1 m) s e p n) as (h2 & E2 & _).
  { by apply heap_inv_with_mem. } { rewrite regions_with_mem, P1. by right. }
  left. rewrite E2. cbn [mbind outcome_bind]. eauto.
Qed.

Lemma krealloc_mem_ok h s e p n k q h' :
  heap_inv s e h → p = 0 ∨ (p, n) ∈ regions h → mem_ok (mem h) → 0 < k → k + 7 < 2 ^ word_bits →
  krealloc p k h = Ok (q, h') → mem_ok (mem h').
Proof.
  intros Hi Hp Hm Hk Hw E. destruct (decide (p = 0)) as [->|Hp0].
  { unfold krealloc in E. change (0 =? 0) with true in E. cbn match in E.
    destruct (kmalloc_fresh h s e k q h' Hi Hk Hw E) as (_ & -> & _). done. }
  destruct Hp as [|Hin]; [done|]. destruct (regions_bound h s e p n Hi Hin) as (B1 & B2 & B3 & B4 & B5 & B6).
  pose proof HDR_bound. unfold krealloc in E. rewrite (proj2 (Z.eqb_neq p 0)), (proj2 (Z.eqb_neq k 0)) in E by lia.
  rewrite (wrap_word_u32_small (p - HDR)) in E by lia. rewrite B6 in E. cbn [magic size] in E.
  rewrite Z.eqb_refl in E. cbn [negb] in E. case_test; [by injection E as <- <-|].
  destruct (kmalloc_result h s e k Hi ltac:(lia) Hw) as [(q' & h1 & Ek)|Ek]; rewrite Ek in E; [|done].
  cbn [mbind outcome_bind] in E. destruct (kmalloc_fresh h s e k q' h1 Hi Hk Hw Ek) as (Hi1 & Hm1 & j & P1 & _).
  set (m := memcpy _ _ _ _) in E. destruct (kfree_spec_live (with_mem h1 m) s e p n) as (h2 & E2 & _ & _ & Hm2 & _).
  { by apply heap_inv_with_mem. } { rewrite regions_with_mem, P1. by right. }
  rewrite E2 in E. cbn [mbind outcome_bind] in E. injection E as <- <-. rewrite Hm2. cbn [mem with_mem].
  unfold m, memcpy. apply copy_up_ok. by rewrite Hm1.
Qed.

(** Bytes outside the heap stay as they are. *)
Lemma krealloc_outside h s e p n k q h' a :
  heap_inv s e h → p = 0 ∨ (p, n) ∈ regions h → 0 < k → k + 7 < 2 ^ word_bits →
  krealloc p k h = Ok (q, h') → a < s ∨ e ≤ a → ld (mem h') a = ld (mem h) a.
Proof.
  intros Hi Hp Hk Hw E Ha. destruct (decide (p = 0)) as [->|Hp0].
  { unfold krealloc in E. change (0 =? 0) with true in E. cbn match in E.
    destruct (kmalloc_fresh h s e k q h' Hi Hk Hw E) as (_ & -> & _). done. }
  destruct Hp as [|Hin]; [done|]. destruct (regions_bound h s e p n Hi Hin) as (B1 & B2 & B3 & B4 & B5 & B6).
  pose proof HDR_bound. unfold krealloc in E. rewrite (proj2 (Z.eqb_neq p 0)), (proj2 (Z.eqb_neq k 0)) in E by lia.
  rewrite (wrap_word_u32_small (p - HDR)) in E by lia. rewrite B6 in E. cbn [magic size] in E.
  rewrite Z.eqb_refl in E. cbn [negb] in E. case_test; [by injection E as <- <-|].
  destruct (kmalloc_result h s e k Hi ltac:(lia) Hw) as [(q' & h1 & Ek)|Ek]; rewrite Ek in E; [|done].
  cbn [mbind outcome_bind] in E. destruct (kmalloc_fresh h s e k q' h1 Hi Hk Hw Ek) as (Hi1 & Hm1 & j & P1 & P2 & P3 & P4 & _).
  assert ((p, n) ∈ regions h1) as Hin1 by (rewrite P1; by right).
  destruct (regions_bound h1 s e p n Hi1 Hin1) as (_ & _ & _ & _ & _ & B7). rewrite B7 in E. cbn [size] in E.
  set (m := memcpy _ _ _ _) in E. destruct (kfree_spec_live (with_mem h1 m) s e p n) as (h2 & E2 & _ & _ & Hm2 & _).
  { by apply heap_inv_with_mem. } { by rewrite regions_with_mem. }
  rewrite E2 in E. cbn [mbind outcome_bind] in E. injection E as <- <-. rewrite Hm2. cbn [mem with_mem].
  unfold m, memcpy. rewrite copy_up_frame by lia. by rewrite Hm1.
Qed.

Lemma regions_perm_disjoint h s e q k l :
  heap_inv s e h → regions h ≡ₚ (q, k) :: l → Forall (disjoint_regions (q, k)) l.
Proof.
  intros [b Hok] Hp. pose proof (regions_live _ _ _ _ Hok) as El. destruct Hok as (_ & _ & _ & _ & _ & F & _).
  pose proof (live_disjoint _ _ _ _ _ F) as D. rewrite <- El in D. clear El F.
  assert (∀ l1 l2, l1 ≡ₚ l2 → ForallOrdPairs disjoint_regions l1 → ForallOrdPairs disjoint_regions l2) as Hperm.
  { clear. intros l1 l2 Hp. induction Hp as [|x l1 l2 Hp IH|x y l|l1 l2 l3 _ IH1 _ IH2]; auto.
    - intros D. inversion_clear D. constructor; [|by apply IH]. by rewrite <- Hp.
    - intros D. inversion_clear D as [|? ? D1 D2]. inversion_clear D1 as [|? ? S1 S2].
      inversion_clear D2 as [|? ? T1 T2]. constructor; [|by constructor].
      constructor; [|done]. unfold disjoint_regions in *. lia. }
  apply (Hperm _ _ Hp) in D. by inversion_clear D.
Qed.

(** Resizing an allocation of [n] bytes to at least [k] of them. *)
Lemma krealloc_grow h s e p n k q h' :
  heap_inv s e h → mem_ok (mem h) → (p = 0 ∧ n = 0) ∨ (∃ j, (p, j) ∈ regions h ∧ n ≤ j) →
  0 < k → k + 7 < 2 ^ word_bits → krealloc p k h = Ok (q, h') →
  heap_inv s e h' ∧ mem_ok (mem h') ∧ (∃ j, (q, j) ∈ regions h' ∧ k ≤ j) ∧
  (∀ i, 0 ≤ i < n → ld (mem h') (q + i) = ld (mem h) (p + i)) ∧
  (∀ a, a < s ∨ e ≤ a → ld (mem h') a = ld (mem h) a) ∧
  (∀ r, r ∈ regions h → 0 < r.2 → r.1 ≠ p → r ∈ regions h' ∧ r.1 ≠ q ∧
     ∀ a, r.1 ≤ a < r.1 + r.2 → ld (mem h') a = ld (mem h) a).
Proof.
  intros Hi Hm Hp Hk Hw E.
  assert (mem_ok (mem h')) as Hm'.
  { destruct Hp as [[-> _]|(j & Hj & _)].
    - exact (krealloc_mem_ok h s e 0 0 k q h' Hi (or_introl eq_refl) Hm Hk Hw E).
    - exact (krealloc_mem_ok h s e p j k q h' Hi (or_intror Hj) Hm Hk Hw E). }
  assert (∀ a, a < s ∨ e ≤ a → ld (mem h') a = ld (mem h) a) as Hout.
  { intros a Ha. destruct Hp as [[-> _]|(j & Hj & _)].
    - exact (krealloc_outside h s e 0 0 k q h' a Hi (or_introl eq_refl) Hk Hw E Ha).
    - exact (krealloc_outside h s e p j k q h' a Hi (or_intror Hj) Hk Hw E Ha). }
  destruct Hp as [[-> ->]|(j & Hj & Hnj)].
  - unfold krealloc in E. change (0 =? 0) with true in E. cbn match in E.
    destruct (kmalloc_fresh h s e k q h' Hi Hk Hw E) as (Hi' & Hmm & j & P1 & P2 & P3 & P4 & P5).
    split; [done|]. split; [done|]. split; [exists j; split; [rewrite P1; by left|done]|].
    split; [lia|]. split; [exact Hout|]. intros r Hr Hpos _. split; [rewrite P1; by right|]. rewrite Hmm.
    split; [|done]. specialize (P5 r Hr). unfold disjoint_regions in P5. simpl in P5. lia.
  - pose proof (krealloc_cases h s e p j k Hi Hm Hj Hk Hw) as C. rewrite E in C.
    destruct C as (Hi' & C1 & C2). split; [done|]. split; [done|].
    destruct (decide (k ≤ j)) as [Hle|Hgt].
    { destruct (C1 Hle) as [-> ->]. split; [eauto|]. split; [done|]. split; [exact Hout|]. done. }
    destruct (C2 ltac:(lia)) as (j' & rest & R1 & R2 & Hj' & Hb & Hr).
    split; [exists j'; split; [rewrite R2; by left|done]|]. split; [intros i Hi0; apply Hb; lia|].
    split; [exact Hout|].
    intros r Hin Hpos Hne. rewrite R1 in Hin. apply elem_of_cons in Hin as [->|Hin]; [done|].
    split; [rewrite R2; by right|]. split; [|intros a Ha; by apply (Hr r)].
    pose proof (regions_perm_disjoint h' s e q j' rest Hi' R2) as D. rewrite List.Forall_forall in D.
    specialize (D r (proj1 (list_elem_of_In _ _) Hin)). unfold disjoint_regions in D. simpl in D. lia.
Qed.

(** A fresh allocation. *)
Lemma kmalloc_grow h s e n p h' :
  heap_inv s e h → 0 < n → n + 7 < 2 ^ word_bits → kmalloc n h = Ok (p, h') →
  heap_inv s e h' ∧ mem h' = mem h ∧ (∃ j, (p, j) ∈ regions h' ∧ n ≤ j) ∧
  (∀ r, r ∈ regions h → 0 < r.2 → r ∈ regions h' ∧ r.1 ≠ p).
Proof.
  intros Hi Hk Hw E. destruct (kmalloc_fresh h s e n p h' Hi Hk Hw E) as (Hi' & Hmm & j & P1 & P2 & P3 & P4 & P5).
  split; [done|]. split; [done|]. split; [exists j; split; [rewrite P1; by left|done]|].
  intros r Hr Hpos. split; [rewrite P1; by right|].
  specialize (P5 r Hr). unfold disjoint_regions in P5. simpl in P5. lia.
Qed.

(** Two regions in use at different addresses do not overlap. *)
Lemma regions_disjoint h s e p k q j :
  heap_inv s e h → (p, k) ∈ regions h → (q, j) ∈ regions h → p ≠ q → p + k ≤ q ∨ q + j ≤ p.
Proof.
  intros Hi Hp Hq Hne. apply list_elem_of_split in Hp as (l1 & l2 & E).
  assert (regions h ≡ₚ (p, k) :: (l1 ++ l2)) as R by (rewrite E; solve_Permutation).
  pose proof (regions_perm_disjoint h s e p k _ Hi R) as D. rewrite List.Forall_forall in D.
  rewrite R in Hq. apply elem_of_cons in Hq as [[= -> ->]|Hq]; [done|].
  specialize (D (q, j) (proj1 (list_elem_of_In _ _) Hq)). unfold disjoint_regions in D. simpl in D. lia.
Qed.
End clients.

(** *** The properties at a concrete heap: 256 bytes at 4096 on the 32-bit
    target, before and after a first allocation of 10 bytes *)

Definition demo_heap0 : heap := heap_init (H := X86) 4096 256 (Heap ∅ 0 0 ∅).
Definition demo_alloc : outcome (Z * heap) := kmalloc (H := X86) 10 demo_heap0.
Definition demo_heap1 : heap :=
  match demo_alloc with Ok (_, h) => h | _ => demo_heap0 end.

Lemma demo_heap0_ok : heap_ok (H := X86) demo_heap0 4096 4352 [(236, false)].
Proof. apply (heap_init_inv (H := X86) 4096 256 (Heap ∅ 0 0 ∅)); cbv; done. Qed.

Lemma demo_alloc_ok : kmalloc (H := X86) 10 demo_heap0 = Ok (4116, demo_heap1).
Proof. vm_compute. reflexivity. Qed.

Lemma demo_heap1_inv : heap_inv (H := X86) 4096 4352 demo_heap1.
Proof.
  apply (kmalloc_inv (H := X86) demo_heap0 4096 4352 10 4116); [|lia|cbv; done|exact demo_alloc_ok].
  eexists. exact demo_heap0_ok.
Qed.

Lemma demo_heap1_regions : regions (H := X86) demo_heap1 = [(4116, 16)].
Proof. vm_compute. reflexivity. Qed.

Lemma kmalloc_spec_witness :
  let _ : Arch := X86 in
  ∃ p h', kmalloc 10 demo_heap0 = Ok (p, h') ∧ ∃ l', heap_ok h' 4096 4352 l' ∧ p = 4116.
Proof.
  intros HA. pose proof (kmalloc_spec (H := X86) demo_heap0 4096 4352 10 [(236, false)]
    demo_heap0_ok ltac:(lia) ltac:(cbv; done)) as Hk.
  exists 4116, demo_heap1. unfold HA in *. rewrite demo_alloc_ok in *.
  destruct Hk as ((l' & Hl' & _) & _). split; [reflexivity|]. exists l'. split; [exact Hl'|reflexivity].
Defined.

Lemma kfree_spec_witness :
  let _ : Arch := X86 in
  ∃ h', kfree 4116 demo_heap1 = Ok h' ∧ heap_inv 4096 4352 h'.
Proof.
  intros HA. destruct (kfree_spec (H := X86) demo_heap1 4096 4352 4116 16 demo_heap1_inv) as (h' & E & Hi & _).
  { rewrite demo_heap1_regions. left. }
  exists h'. split; [exact E|exact Hi].
Defined.

Lemma krealloc_spec_witness :
  let _ : Arch := X86 in
  match krealloc 4116 40 demo_heap1 with Ok (q, h') => heap_inv 4096 4352 h' | _ => False end.
Proof.
  intros HA. pose proof (krealloc_spec (H := X86) demo_heap1 4096 4352 4116 16 40 demo_heap1_inv
    (map_Forall_empty _) ltac:(rewrite demo_heap1_regions; left) ltac:(lia) ltac:(cbv; done)) as Hk.
  unfold HA. destruct (krealloc 4116 40 demo_heap1) as [[q h']|msg|] eqn:E.
  - exact (proj1 Hk).
  - vm_compute in E. discriminate E.
  - exact Hk.
Defined.

Lemma heap_reach_ok_witness :
  let _ : Arch := X86 in heap_inv 4096 (4096 + 256) demo_heap1.
Proof.
  intros HA. apply (heap_reach_ok (H := X86) 4096 256); [lia|cbv; done|lia|].
  apply (reach_kmalloc (H := X86) 4096 256 demo_heap0 10 4116); [|lia|cbv; done|exact demo_alloc_ok].
  apply (reach_init (H := X86) 4096 256).
Defined.

Lemma kcalloc_zeroed_witness :
  let _ : Arch := X86 in
  match kcalloc 3 8 demo_heap1 with Ok (p, h') => heap_inv 4096 4352 h' | _ => False end.
Proof.
  intros HA. unfold HA. destruct (kcalloc 3 8 demo_heap1) as [[q h']|msg|] eqn:E.
  - apply (kcalloc_zeroed (H := X86) demo_heap1 4096 4352 3 8 q h' demo_heap1_inv); [lia|cbv; done|exact E].
  - vm_compute in E. discriminate E.
  - vm_compute in E. discriminate E.
Defined.

(** 200 of 236 bytes leave too little for another block, so the whole block is
    taken: after the release the counter has wrapped to [2^32 - 36]. *)
Lemma kheap_used_drift_witness :
  let _ : Arch := X86 in
  ∃ p h1 h2, kmalloc 200 demo_heap0 = Ok (p, h1) ∧ kfree p h1 = Ok h2 ∧
    kheap_used demo_heap0 = 0 ∧ kheap_used h2 = 2 ^ 32 - 36.
Proof.
  intros HA. destruct (kmalloc (H := X86) 200 demo_heap0) as [[p h1]|msg|] eqn:E.
  2,3: vm_compute in E; discriminate E.
  assert (p = 4116 ∧ regions (H := X86) h1 = [(4116, 236)]) as [-> Hr].
  { vm_compute in E. injection E as <- <-. split; vm_compute; reflexivity. }
  destruct (kheap_used_drift (H := X86) demo_heap0 4096 4352 200 4116 236 h1) as (h2 & E2 & _ & Hu).
  - eexists. exact demo_heap0_ok.
  - lia.
  - cbv; done.
  - exact E.
  - rewrite Hr. left.
  - exists 4116, h1, h2. split; [exact E|]. split; [exact E2|]. split; [reflexivity|].
    rewrite Hu. vm_compute. reflexivity.
Defined.

Lemma kmalloc_overflow_witness :
  let _ : Arch := X86 in ∃ p h', kmalloc (2 ^ 32 - 1) demo_heap0 = Ok (p, h') ∧ p ≠ 0.
Proof.
  intros HA. destruct (kmalloc_overflow (H := X86) demo_heap0 4096 4352 (2 ^ 32 - 1) _ demo_heap0_ok)
    as (p & h' & E & Hp & _).
  - cbv. split; [intros K; discriminate K|reflexivity].
  - exists 236. left.
  - exists p, h'. split; [exact E|exact Hp].
Defined.
