(* ===== verification/Alloc.v ===== *)
(** Ownership of heap blocks by address: what a client of heap.c may rely on.

    [holds lo hi h B] says that the blocks in [B], a map from addresses to the
    sizes asked for, are allocated in the heap [h] between [lo] and [hi].  The
    lemmas give, for each operation of the heap, the map it leaves, and which
    bytes of the other blocks it keeps. *)
From S2P Require Import Prelude CString Heap.

Definition holds `{Arch} (lo hi : Z) (h : heap) (B : gmap Z Z) : Prop :=
  heap_inv lo hi h ∧ mem_ok (mem h) ∧ map_Forall (λ p n, 0 < n ∧ ∃ k, (p, k) ∈ regions h ∧ n ≤ k) B.

(** The computation ends with [P], or the heap is exhausted. *)
Definition or_oom {A} (P : A → Prop) (x : outcome A) : Prop :=
  match x with Ok a => P a | x => x = oom end.

Lemma or_oom_bind {A B} (P : A → Prop) (Q : B → Prop) x (k : A → outcome B) :
  or_oom P x → (∀ a, P a → or_oom Q (k a)) → or_oom Q (x ≫= k).
Proof. destruct x as [a|?|]; cbn; [by intros Ha Hk; apply Hk|by intros [= ->]|done]. Qed.

Lemma or_oom_mono {A} (P Q : A → Prop) x : or_oom P x → (∀ a, P a → Q a) → or_oom Q x.
Proof. destruct x; cbn; auto. Qed.

(** The bytes of the blocks of [B] are the same in both memories. *)
Definition same_bytes (B : gmap Z Z) (m m' : memory) : Prop :=
  ∀ p n a, B !! p = Some n → p ≤ a < p + n → ld m' a = ld m a.

#[global] Instance same_bytes_preorder B : PreOrder (same_bytes B).
Proof.
  split; [by intros m p n a|]. intros m1 m2 m3 H1 H2 p n a Ep Ha. by rewrite (H2 p n a Ep Ha), (H1 p n a Ep Ha).
Qed.

Lemma same_bytes_subseteq B B' m m' : B ⊆ B' → same_bytes B' m m' → same_bytes B m m'.
Proof. intros Hs Hb p n a Ep. apply Hb. by eapply lookup_weaken. Qed.

Section alloc.
Context `{Arch} (lo hi : Z).
Implicit Types (h : heap) (B : gmap Z Z).

Lemma holds_with_mem h B m : mem_ok m → holds lo hi h B → holds lo hi (with_mem h m) B.
Proof.
  intros Hm (A & _ & C). split; [by apply heap_inv_with_mem|]. split; [done|].
  intros p n E. rewrite regions_with_mem. by apply C.
Qed.

Lemma holds_weaken h B B' : B ⊆ B' → holds lo hi h B' → holds lo hi h B.
Proof.
  intros Hs (A & C & D). split; [done|]. split; [done|]. intros p n E. apply (D p n). by eapply lookup_weaken.
Qed.

Lemma holds_bound h B p n : holds lo hi h B → B !! p = Some n → 4096 ≤ lo ∧ lo < p ∧ 0 < n ∧ p + n ≤ hi ∧ hi < 2 ^ 32.
Proof.
  intros (A & _ & D) E. destruct (D p n E) as (Hn & k & Hk & Hle).
  destruct (regions_bound h lo hi p k A Hk) as (B1 & B2 & B3 & B4 & B5 & _). pose proof HDR_bound. lia.
Qed.

Lemma holds_disjoint h B p n q k : holds lo hi h B → B !! p = Some n → B !! q = Some k → p ≠ q → p + n ≤ q ∨ q + k ≤ p.
Proof.
  intros (A & _ & D) E E' Hne. destruct (D p n E) as (Hn & i & Hi & Hle). destruct (D q k E') as (Hk & j & Hj & Hle').
  destruct (regions_disjoint h lo hi p i q j A Hi Hj Hne); lia.
Qed.

Lemma holds_insert h B p n : holds lo hi h B → 0 < n → (∃ k, (p, k) ∈ regions h ∧ n ≤ k) → holds lo hi h (<[p := n]> B).
Proof. intros (A & C & D) Hn Hk. split; [done|]. split; [done|]. by apply map_Forall_insert_2. Qed.

(** [kmalloc] gives an address that no block has. *)
Lemma holds_kmalloc h B n p h' : holds lo hi h B → 0 < n → n + 7 < 2 ^ word_bits → kmalloc n h = Ok (p, h') →
  B !! p = None ∧ holds lo hi h' (<[p := n]> B) ∧ mem h' = mem h.
Proof.
  intros (A & C & D) Hn Hw E. destruct (kmalloc_grow h lo hi n p h' A Hn Hw E) as (A' & M & J & R).
  split; [|split; [|done]].
  - destruct (B !! p) as [k|] eqn:Ep; [|done]. destruct (D p k Ep) as (Hk & j & Hj & Hle).
    destruct (R _ Hj) as [_ Hne]; [simpl; lia|]. by destruct Hne.
  - apply holds_insert; [|done|done]. split; [done|]. split; [by rewrite M|].
    intros q k Eq. destruct (D q k Eq) as (Hk & j & Hj & Hle). split; [done|]. exists j. split; [|done]. apply (R _ Hj). simpl. lia.
Qed.

Lemma kmalloc_ok_or_oom h B n : holds lo hi h B → 0 ≤ n → n + 7 < 2 ^ word_bits →
  (∃ p h', kmalloc n h = Ok (p, h')) ∨ kmalloc n h = oom.
Proof. intros (A & _) Hn Hw. by apply (kmalloc_result h lo hi). Qed.

(** [kfree] of a block takes it out. *)
Lemma holds_kfree h B p n : holds lo hi h B → B !! p = Some n →
  ∃ h', kfree p h = Ok h' ∧ holds lo hi h' (delete p B) ∧ mem h' = mem h.
Proof.
  intros (A & C & D) E. destruct (D p n E) as (Hn & k & Hk & Hle).
  destruct (kfree_spec_live h lo hi p k A Hk) as (h' & E' & A' & P & M & _).
  exists h'. split; [done|]. split; [|done]. split; [done|]. split; [by rewrite M|].
  intros q j Eq. apply lookup_delete_Some in Eq as [Hne Eq]. destruct (D q j Eq) as (Hj & i & Hi & Hle').
  split; [done|]. exists i. split; [|done]. rewrite P in Hi. apply elem_of_cons in Hi as [[= -> _]|Hi]; done.
Qed.

(** [krealloc] moves a block, or makes one of the null pointer; the others keep
    their bytes. *)
Lemma holds_krealloc h B p n k q h' : holds lo hi h B → (p = 0 ∧ n = 0) ∨ B !! p = Some n →
  0 < k → k + 7 < 2 ^ word_bits → krealloc p k h = Ok (q, h') →
  holds lo hi h' (<[q := k]> (delete p B)) ∧ delete p B !! q = None ∧
  (∀ i, 0 ≤ i < n → ld (mem h') (q + i) = ld (mem h) (p + i)) ∧ same_bytes (delete p B) (mem h) (mem h').
Proof.
  intros (A & C & D) Hp Hk Hw E.
  assert ((p = 0 ∧ n = 0) ∨ ∃ j, (p, j) ∈ regions h ∧ n ≤ j) as Hp'.
  { destruct Hp as [|Ep]; [by left|right]. by destruct (D p n Ep) as (_ & J). }
  destruct (krealloc_grow h lo hi p n k q h' A C Hp' Hk Hw E) as (A' & C' & J & Hb & _ & R).
  assert (∀ r j, delete p B !! r = Some j → ∃ i, (r, i) ∈ regions h ∧ j ≤ i ∧ 0 < j ∧ r ≠ p) as Hother.
  { intros r j Er. apply lookup_delete_Some in Er as [Hne Er]. destruct (D r j Er) as (Hj & i & Hi & Hle). eauto 6. }
  split; [|split; [|split; [done|]]].
  - apply holds_insert; [|done|done]. split; [done|]. split; [done|]. intros r j Er.
    destruct (Hother r j Er) as (i & Hi & Hle & Hj & Hne). split; [done|]. exists i. split; [|done]. apply (R _ Hi); simpl; [lia|done].
  - destruct (delete p B !! q) as [j|] eqn:Eq; [|done]. destruct (Hother q j Eq) as (i & Hi & Hle & Hj & Hne).
    destruct (R _ Hi) as (_ & Hq & _); [simpl; lia|done|]. done.
  - intros r j a Er Ha. destruct (Hother r j Er) as (i & Hi & Hle & Hj & Hne). apply (R _ Hi); simpl; [lia|done|lia].
Qed.

Lemma krealloc_ok_or_oom h B p n k : holds lo hi h B → (p = 0 ∧ n = 0) ∨ B !! p = Some n → 0 < k → k + 7 < 2 ^ word_bits →
  (∃ q h', krealloc p k h = Ok (q, h')) ∨ krealloc p k h = oom.
Proof.
  intros (A & _ & D) Hp Hk Hw. destruct Hp as [[-> _]|Ep].
  - apply (krealloc_result h lo hi 0 0); [done|by left|done|done].
  - destruct (D p n Ep) as (_ & j & Hj & _). apply (krealloc_result h lo hi p j); [done|by right|done|done].
Qed.

(** Writing inside one block, or one about to be allocated, keeps the others. *)
Lemma same_bytes_block h B p n m : holds lo hi h B → B !! p = Some n →
  (∀ a, a < p ∨ p + n ≤ a → ld m a = ld (mem h) a) → same_bytes (delete p B) (mem h) m.
Proof.
  intros Hh Ep Hm q k a Eq Ha. apply lookup_delete_Some in Eq as [Hne Eq]. apply Hm.
  destruct (holds_disjoint h B p n q k Hh Ep Eq Hne); lia.
Qed.
End alloc.
