(* ===== verification/Vfs.v ===== *)
(** The virtual file system: src/kernel/fs/vfs.c.

    Nodes, and the structures tmpfs.c and fat32.c hang from them, are records
    found by the address [kmalloc] gave them; a fixed [char] array that is
    cleared before a string is copied into it is that string.  The functions a
    file system installs in a node are code pointers, and what calling one does
    is the interface [FsCode]; [Fs.v] discharges it. *)
From S2P Require Import Prelude CString Heap.

Definition VFS_FILE : Z := 0x01.
Definition VFS_DIR : Z := 0x02.
Definition MAX_MOUNTS : Z := 16.

(** A string: the bytes before the terminator. *)
Abbreviation str := (list Z).

(** The functions installed in nodes anywhere in the kernel. *)
Inductive fs_fn :=
  | tmpfs_read_fn | tmpfs_write_fn | tmpfs_readdir_fn | tmpfs_finddir_fn
  | fat32_read_file_fn | fat32_readdir_fn | fat32_finddir_fn.

#[global] Instance fs_fn_eq_dec : EqDecision fs_fn.
Proof. solve_decision. Defined.

Record vfs_node_t := Node {
  name : str; flags : Z; nsize : Z; fs_data : Z;
  read : option fs_fn; write : option fs_fn;
  readdir : option fs_fn; finddir : option fs_fn;
  open : option fs_fn; close : option fs_fn; mount : Z
}.
Definition node_0 : vfs_node_t := Node [] 0 0 0 None None None None None None 0.

(** [sizeof(vfs_node_t)]: a [u64] is 4-aligned on i386 and 8-aligned on x86_64. *)
Definition sizeof_node `{Arch} : Z := match the_arch with X86 => 300 | X86_64 => 336 end.

(** tmpfs.c *)
Record tmpfs_dir_t := TDir { entries : Z; count : Z; cap : Z }.
Record tmpfs_file_t := TFile { data : Z; fsize : Z }.

(** fat32.c; the volume's sector buffer is its 512 bytes. *)
Record fat32_vol_t := FVol {
  part_lba : Z; fat_lba : Z; data_lba : Z; root_cluster : Z;
  sectors_per_cluster : Z; bytes_per_cluster : Z; sector_buf : list Z
}.
Record fat32_file_t := FFile { f_vol : Z; start_cluster : Z; f_size : Z }.
Record fat32_dir_t := FDir { d_vol : Z; d_cluster : Z; d_entries : Z; d_count : Z; loaded : bool }.

(** The file systems' objects, the heap that holds their arrays, and the statics
    of vfs.c; the first [nmounts] slots of [mounts]. *)
Record fsys := Fsys {
  vnodes : gmap Z vfs_node_t;
  tdirs : gmap Z tmpfs_dir_t;
  tfiles : gmap Z tmpfs_file_t;
  fvols : gmap Z fat32_vol_t;
  ffiles : gmap Z fat32_file_t;
  fdirs : gmap Z fat32_dir_t;
  fheap : heap;
  mounts : list (str * Z);
  vfs_root : Z
}.

Definition node (s : fsys) (n : Z) : vfs_node_t := default node_0 (vnodes s !! n).
Definition put_node (n : Z) (x : vfs_node_t) (s : fsys) : fsys :=
  Fsys (<[n := x]> (vnodes s)) (tdirs s) (tfiles s) (fvols s) (ffiles s) (fdirs s) (fheap s) (mounts s) (vfs_root s).
Definition with_fheap (h : heap) (s : fsys) : fsys :=
  Fsys (vnodes s) (tdirs s) (tfiles s) (fvols s) (ffiles s) (fdirs s) h (mounts s) (vfs_root s).
Definition with_mounts (ms : list (str * Z)) (r : Z) (s : fsys) : fsys :=
  Fsys (vnodes s) (tdirs s) (tfiles s) (fvols s) (ffiles s) (fdirs s) (fheap s) ms r.

(** Calling a code pointer on a node. *)
Class FsCode := {
  call_read : fs_fn → Z → Z → Z → Z → fsys → outcome (Z * fsys);
  call_write : fs_fn → Z → Z → Z → Z → fsys → outcome (Z * fsys);
  call_readdir : fs_fn → Z → Z → fsys → outcome (Z * fsys);
  call_finddir : fs_fn → Z → str → fsys → outcome (Z * fsys);
  call_open : fs_fn → Z → Z → fsys → outcome fsys;
  call_close : fs_fn → Z → fsys → outcome fsys
}.

Definition vfs_init (s : fsys) : fsys := with_mounts [] 0 s.

Definition vfs_mount (path : str) (root : Z) (s : fsys) : Z * fsys :=
  if MAX_MOUNTS <=? Z.of_nat (length (mounts s)) then (-1, s) else
  let s := with_mounts (mounts s ++ [(take 255 path, root)]) (vfs_root s) s in
  (0, if (vfs_root s =? 0) && bool_decide (path = [47]) then with_mounts (mounts s) root s else s).

(** [strncpy(buf, path, 255)] into an uninitialised array: a longer path is not
    terminated, and the string goes on with what the stack holds. *)
Definition strncpy_buf (path stack : str) : str :=
  if Z.of_nat (length path) <? 255 then path else take 255 path ++ stack.

(** [sep = strchr(tok, '/'); if (sep) *sep = 0;]: the token and what follows. *)
Fixpoint split_slash (tok : str) : str * option str :=
  match tok with
  | [] => ([], None)
  | c :: tok' => if c =? 47 then ([], Some tok') else let '(a, b) := split_slash tok' in (c :: a, b)
  end.

Section ops.
Context `{FsCode}.

Fixpoint resolve_loop (fuel : nat) (tok : str) (n : Z) (s : fsys) : outcome (Z * fsys) :=
  match fuel, tok with
  | _, [] => Ok (n, s)
  | O, _ => OutOfFuel
  | S k, _ =>
      let '(nm, sep) := split_slash tok in
      match finddir (node s n) with
      | None => Ok (0, s)
      | Some f =>
          '(n, s) ← call_finddir f n nm s;
          if n =? 0 then Ok (0, s) else
          match sep with Some tok => resolve_loop k tok n s | None => Ok (n, s) end
      end
  end.

(** [None] is the null path; [stack] what the stack holds after [buf]. *)
Definition resolve (stack : str) (path : option str) (s : fsys) : outcome (Z * fsys) :=
  match path with
  | None => Ok (0, s)
  | Some path =>
      match path with
      | [] => Ok (0, s)
      | c :: path' =>
          if negb (c =? 47) then Ok (0, s) else
          if vfs_root s =? 0 then Ok (0, s) else
          match path' with
          | [] => Ok (vfs_root s, s)
          | _ => let buf := strncpy_buf path' stack in
                 resolve_loop (length buf) buf (vfs_root s) s
          end
      end
  end.

Definition vfs_open (stack : str) (path : option str) (fl : Z) (s : fsys) : outcome (Z * fsys) :=
  '(n, s) ← resolve stack path s;
  if n =? 0 then Ok (0, s) else
  match open (node s n) with
  | Some f => s ← call_open f n fl s; Ok (n, s)
  | None => Ok (n, s)
  end.

Definition vfs_close (n : Z) (s : fsys) : outcome fsys :=
  if n =? 0 then Ok s else
  match close (node s n) with Some f => call_close f n s | None => Ok s end.

Definition vfs_read (n off sz buf : Z) (s : fsys) : outcome (Z * fsys) :=
  if n =? 0 then Ok (0, s) else
  match read (node s n) with Some f => call_read f n off sz buf s | None => Ok (0, s) end.

Definition vfs_write (n off sz buf : Z) (s : fsys) : outcome (Z * fsys) :=
  if n =? 0 then Ok (0, s) else
  match write (node s n) with Some f => call_write f n off sz buf s | None => Ok (0, s) end.

Definition vfs_readdir (n idx : Z) (s : fsys) : outcome (Z * fsys) :=
  if (n =? 0) || (Z.land (flags (node s n)) VFS_DIR =? 0) then Ok (0, s) else
  match readdir (node s n) with Some f => call_readdir f n idx s | None => Ok (0, s) end.

Definition vfs_finddir (n : Z) (nm : str) (s : fsys) : outcome (Z * fsys) :=
  if (n =? 0) || (Z.land (flags (node s n)) VFS_DIR =? 0) then Ok (0, s) else
  match finddir (node s n) with Some f => call_finddir f n nm s | None => Ok (0, s) end.
End ops.

(** ** Paths *)

(** The path made of components. *)
Fixpoint join (l : list str) : str :=
  match l with
  | [] => []
  | [c] => c
  | c :: l' => c ++ 47 :: join l'
  end.

Definition component (c : str) : Prop := c ≠ [] ∧ 47 ∉ c.

Lemma split_slash_last c : 47 ∉ c → split_slash c = (c, None).
Proof.
  induction c as [|x c IH]; intros Hn; [done|]. cbn [split_slash].
  apply not_elem_of_cons in Hn as [Hx Hn]. rewrite (proj2 (Z.eqb_neq x 47)) by done. by rewrite IH.
Qed.

Lemma split_slash_more c r : 47 ∉ c → split_slash (c ++ 47 :: r) = (c, Some r).
Proof.
  induction c as [|x c IH]; intros Hn; [done|]. cbn [split_slash app].
  apply not_elem_of_cons in Hn as [Hx Hn]. rewrite (proj2 (Z.eqb_neq x 47)) by done. by rewrite IH.
Qed.

(** Looking the components up one after the other, in a function that answers 0
    for a missing entry and for what is not a directory. *)
Fixpoint lookup_path (find : Z → str → Z) (l : list str) (n : Z) : Z :=
  match l with
  | [] => n
  | c :: l' => let n' := find n c in if n' =? 0 then 0 else lookup_path find l' n'
  end.

(** What one step of [resolve] finds when every lookup leaves the state alone. *)
Definition finds `{FsCode} (s : fsys) (find : Z → str → Z) : Prop :=
  ∀ n c, match finddir (node s n) with
         | Some f => call_finddir f n c s = Ok (find n c, s)
         | None => find n c = 0
         end.

Lemma resolve_loop_path `{FsCode} s find : finds s find →
  ∀ l n fuel, Forall component l → (length (join l) ≤ fuel)%nat →
  resolve_loop fuel (join l) n s = Ok (lookup_path find l n, s).
Proof.
  intros Hf. induction l as [|c l IH]; intros n fuel Hl Hn; [by destruct fuel|].
  apply Forall_cons_1 in Hl as [[Hc Hs] Hl]. destruct c as [|x c]; [done|].
  assert (∀ k tok sep, (tok = x :: c ∧ sep = None ∧ l = []) ∨ (tok = (x :: c) ++ 47 :: join l ∧ sep = Some (join l) ∧ l ≠ []) →
    (length (join l) ≤ k)%nat → resolve_loop (S k) tok n s = Ok (lookup_path find ((x :: c) :: l) n, s)) as Hstep.
  { intros k tok sep Hcase Hk.
    assert (split_slash tok = (x :: c, sep)) as Esp.
    { destruct Hcase as [(-> & -> & _)|(-> & -> & _)]; [by apply split_slash_last|by apply split_slash_more]. }
    assert (∃ y t, tok = y :: t) as (y & t & Etok) by (destruct Hcase as [(-> & _)|(-> & _)]; eexists _, _; done).
    cbn [resolve_loop]. rewrite Etok at 1. rewrite Esp. specialize (Hf n (x :: c)).
    cbn [lookup_path]. destruct (finddir (node s n)) as [f|].
    - rewrite Hf. cbn [mbind outcome_bind]. destruct (find n (x :: c) =? 0); [done|].
      destruct Hcase as [(_ & -> & ->)|(_ & -> & _)]; [done|by apply IH].
    - by rewrite Hf. }
  destruct l as [|c' l].
  - cbn [join] in *. destruct fuel as [|fuel]; [simpl in Hn; lia|].
    apply (Hstep fuel _ None); [by left|simpl; lia].
  - change (join ((x :: c) :: c' :: l)) with ((x :: c) ++ 47 :: join (c' :: l)) in *.
    rewrite length_app in Hn. cbn [length] in Hn. destruct fuel as [|fuel]; [lia|].
    apply (Hstep fuel _ (Some (join (c' :: l)))); [by right|lia].
Qed.
