(* ===== verification/Tmpfs.v ===== *)
(** The memory file system: src/kernel/fs/tmpfs.c. *)
From S2P Require Import Prelude CString Heap Vfs.

Definition dir_at (s : fsys) (d : Z) : tmpfs_dir_t := default (TDir 0 0 0) (tdirs s !! d).
Definition file_at (s : fsys) (f : Z) : tmpfs_file_t := default (TFile 0 0) (tfiles s !! f).
Definition put_dir (d : Z) (x : tmpfs_dir_t) (s : fsys) : fsys :=
  Fsys (vnodes s) (<[d := x]> (tdirs s)) (tfiles s) (fvols s) (ffiles s) (fdirs s) (fheap s) (mounts s) (vfs_root s).
Definition put_file (f : Z) (x : tmpfs_file_t) (s : fsys) : fsys :=
  Fsys (vnodes s) (tdirs s) (<[f := x]> (tfiles s)) (fvols s) (ffiles s) (fdirs s) (fheap s) (mounts s) (vfs_root s).

(** A pointer, a [u32], and padding to the pointer's alignment. *)
Definition sizeof_tmpfs_dir `{Arch} : Z := W + 8.
Definition sizeof_tmpfs_file `{Arch} : Z := 2 * W.

(** [d->entries[i]] *)
Definition entry_at `{Arch} (h : heap) (es i : Z) : Z := ld_word (mem h) (es + i * W).

Section code.
Context `{Arch}.

Definition tmpfs_read (n off sz buf : Z) (s : fsys) : outcome (Z * fsys) :=
  let f := file_at s (fs_data (node s n)) in
  if fsize f <=? off then Ok (0, s) else
  let sz := if fsize f <? u64 (off + sz) then u32 (fsize f - off) else sz in
  Ok (sz, with_fheap (with_mem (fheap s) (memcpy buf (uptr (data f + u32 off)) sz (mem (fheap s)))) s).

Definition tmpfs_write (n off sz buf : Z) (s : fsys) : outcome (Z * fsys) :=
  let fp := fs_data (node s n) in
  let f := file_at s fp in
  s ← (if fsize f <? u32 (u32 off + sz) then
         '(p, h) ← krealloc (data f) (u32 (u32 off + sz)) (fheap s);
         let s := put_file fp (TFile p (u32 (u32 off + sz))) (with_fheap h s) in
         let x := node s n in
         Ok (put_node n (Node (name x) (flags x) (fsize (file_at s fp)) (fs_data x) (read x) (write x)
                              (readdir x) (finddir x) (open x) (close x) (mount x)) s)
       else Ok s);
  let f := file_at s fp in
  Ok (sz, with_fheap (with_mem (fheap s) (memcpy (uptr (data f + u32 off)) buf sz (mem (fheap s)))) s).

Definition tmpfs_readdir (n idx : Z) (s : fsys) : Z :=
  let d := dir_at s (fs_data (node s n)) in
  if idx <? count d then entry_at (fheap s) (entries d) idx else 0.

Fixpoint find_entry (k : nat) (i : Z) (d : tmpfs_dir_t) (nm : str) (s : fsys) : Z :=
  match k with
  | O => 0
  | S k => let e := entry_at (fheap s) (entries d) i in
           if bool_decide (name (node s e) = nm) then e else find_entry k (i + 1) d nm s
  end.
Definition tmpfs_finddir (n : Z) (nm : str) (s : fsys) : Z :=
  let d := dir_at s (fs_data (node s n)) in
  find_entry (Z.to_nat (count d)) 0 d nm s.

Definition dir_add (d n : Z) (s : fsys) : outcome fsys :=
  s ← (let x := dir_at s d in
       if cap x <=? count x then
         let c := if negb (cap x =? 0) then u32 (cap x * 2) else 4 in
         '(p, h) ← krealloc (entries x) (uptr (c * W)) (fheap s);
         Ok (put_dir d (TDir p (count x) c) (with_fheap h s))
       else Ok s);
  let x := dir_at s d in
  let s := with_fheap (with_mem (fheap s) (st_word (entries x + count x * W) n (mem (fheap s)))) s in
  Ok (put_dir d (TDir (entries x) (u32 (count x + 1)) (cap x)) s).

(** [memset] then [strncpy] of at most 255 characters into a zeroed array. *)
Definition tmpfs_create (nm : str) (s : fsys) : outcome (Z * fsys) :=
  '(d, h) ← kmalloc sizeof_tmpfs_dir (fheap s);
  let s := put_dir d (TDir 0 0 0) (with_fheap (with_mem h (memset d 0 sizeof_tmpfs_dir (mem h))) s) in
  '(n, h) ← kmalloc sizeof_node (fheap s);
  let s := with_fheap (with_mem h (memset n 0 sizeof_node (mem h))) s in
  Ok (n, put_node n (Node (take 255 nm) VFS_DIR 0 d None None (Some tmpfs_readdir_fn)
                          (Some tmpfs_finddir_fn) None None 0) s).

Definition tmpfs_mkdir (parent : Z) (nm : str) (s : fsys) : outcome (Z * fsys) :=
  '(n, s) ← tmpfs_create nm s;
  let d := fs_data (node s parent) in
  s ← dir_add d n s;
  Ok (n, s).

(** [src = 0] is the null [data] argument. *)
Definition tmpfs_mkfile (parent : Z) (nm : str) (src sz : Z) (s : fsys) : outcome (Z * fsys) :=
  '(f, h) ← kmalloc sizeof_tmpfs_file (fheap s);
  '(p, h) ← kmalloc sz h;
  let s := put_file f (TFile p sz) (with_fheap h s) in
  let s := if negb (src =? 0) then with_fheap (with_mem (fheap s) (memcpy p src sz (mem (fheap s)))) s else s in
  '(n, h) ← kmalloc sizeof_node (fheap s);
  let s := with_fheap (with_mem h (memset n 0 sizeof_node (mem h))) s in
  let s := put_node n (Node (take 255 nm) VFS_FILE sz f (Some tmpfs_read_fn) (Some tmpfs_write_fn)
                            None None None None 0) s in
  let d := fs_data (node s parent) in
  s ← dir_add d n s;
  Ok (n, s).
End code.

(** ** Ownership: which object holds which allocation *)

Inductive owner := ONode (n : Z) | ODir (d : Z) | OFile (f : Z) | OEntries (d : Z) | OData (f : Z).

#[global] Instance owner_eq_dec : EqDecision owner.
Proof. solve_decision. Defined.

(** The address and size each object needs. *)
Definition owned `{Arch} (s : fsys) (o : owner) : option (Z * Z) :=
  match o with
  | ONode n => _ ← vnodes s !! n; Some (n, sizeof_node)
  | ODir d => _ ← tdirs s !! d; Some (d, sizeof_tmpfs_dir)
  | OFile f => _ ← tfiles s !! f; Some (f, sizeof_tmpfs_file)
  | OEntries d => x ← tdirs s !! d; Some (entries x, cap x * W)
  | OData f => x ← tfiles s !! f; Some (data x, fsize x)
  end.

(** The allocations of [O] are regions in use, no two of them the same. *)
Definition sep `{Arch} (lo hi : Z) (h : heap) (O : owner → option (Z * Z)) : Prop :=
  heap_inv lo hi h ∧ mem_ok (mem h) ∧
  (∀ o p n, O o = Some (p, n) → 0 < n → ∃ k, (p, k) ∈ regions h ∧ n ≤ k) ∧
  (∀ o o' p n n', O o = Some (p, n) → O o' = Some (p, n') → 0 < n → 0 < n' → o = o').

(** [O] with [o] holding [x]. *)
Definition give (o : owner) (x : Z * Z) (O : owner → option (Z * Z)) (o' : owner) : option (Z * Z) :=
  if decide (o' = o) then Some x else O o'.

Section separation.
Context `{Arch}.

Lemma sep_ext lo hi h O O' : (∀ o, O' o = O o) → sep lo hi h O → sep lo hi h O'.
Proof.
  intros E (A & B & C & D). split_and!; [done|done| |].
  - intros o p n. rewrite E. apply C.
  - intros o o' p n n'. rewrite !E. apply D.
Qed.

Lemma sep_with_mem lo hi h O m : mem_ok m → sep lo hi h O → sep lo hi (with_mem h m) O.
Proof.
  intros Hm (A & _ & C & D). split_and!; [by apply heap_inv_with_mem|done| |done].
  intros o p n. rewrite regions_with_mem. apply C.
Qed.

(** Different objects' bytes do not overlap. *)
Lemma sep_disjoint lo hi h O o o' p n p' n' :
  sep lo hi h O → O o = Some (p, n) → O o' = Some (p', n') → o ≠ o' → 0 < n → 0 < n' →
  p + n ≤ p' ∨ p' + n' ≤ p.
Proof.
  intros (A & B & C & D) E E' Hne Hn Hn'.
  destruct (C _ _ _ E Hn) as (k & K1 & K2). destruct (C _ _ _ E' Hn') as (k' & K1' & K2').
  destruct (regions_disjoint h lo hi p k p' k' A K1 K1'); [|lia|lia].
  intros ->. by apply Hne, (D o o' p' n n').
Qed.

Lemma sep_bound lo hi h O o p n :
  sep lo hi h O → O o = Some (p, n) → 0 < n → 4096 ≤ lo ∧ lo < p ∧ p + n ≤ hi ∧ hi < 2 ^ 32.
Proof.
  intros (A & B & C & D) E Hn. destruct (C _ _ _ E Hn) as (k & K1 & K2).
  destruct (regions_bound h lo hi p k A K1) as (B1 & B2 & B3 & B4 & B5 & _). pose proof HDR_bound. lia.
Qed.

Lemma sep_kmalloc lo hi h O n p h' :
  sep lo hi h O → 0 ≤ n → n + 7 < 2 ^ word_bits → kmalloc n h = Ok (p, h') →
  mem h' = mem h ∧ (0 < n → ∀ o p' n', O o = Some (p', n') → 0 < n' → p' ≠ p) ∧ (n = 0 → p = 0) ∧
  ∀ o, O o = None → sep lo hi h' (give o (p, n) O).
Proof.
  intros (A & B & C & D) Hn Hw E. destruct (decide (n = 0)) as [->|Hn0].
  { rewrite kmalloc_0 in E. injection E as <- <-. split_and!; [done|lia|done|]. intros o Ho.
    split_and!; [done|done| |].
    - intros o' p' n'. unfold give. case_decide; [intros [= <- <-]; lia|apply C].
    - intros o1 o2 p' n1 n2. unfold give. do 2 case_decide; intros E1 E2 Hn1 Hn2; try (injection E1; lia);
        try (injection E2; lia). by apply (D o1 o2 p' n1 n2). }
  destruct (kmalloc_grow h lo hi n p h' A ltac:(lia) Hw E) as (A' & M & J & R).
  assert (∀ o' p' n', O o' = Some (p', n') → 0 < n' → p' ≠ p) as Hfresh.
  { intros o' p' n' E' Hn'. destruct (C _ _ _ E' Hn') as (k & K1 & K2). apply (R _ K1). simpl. lia. }
  split_and!; [done|by intros _|done|]. intros o Ho. split_and!; [done|by rewrite M| |].
  - intros o' p' n'. unfold give. case_decide; [intros [= <- <-] _; done|].
    intros E' Hn'. destruct (C _ _ _ E' Hn') as (k & K1 & K2). exists k. split; [|done]. apply (R _ K1). simpl. lia.
  - intros o1 o2 p' n1 n2. unfold give. do 2 case_decide; [congruence| | |by apply D].
    + intros [= <- <-] E2 _ Hn2. by destruct (Hfresh _ _ _ E2 Hn2).
    + intros E1 [= <- <-] Hn1 _. by destruct (Hfresh _ _ _ E1 Hn1).
Qed.

(** A block that is not given to any object. *)
Lemma sep_kmalloc_apart lo hi h O n p h' : sep lo hi h O → 0 < n → n + 7 < 2 ^ word_bits → kmalloc n h = Ok (p, h') →
  sep lo hi h' O ∧ mem h' = mem h ∧ lo < p ∧ p + n ≤ hi ∧
  ∀ o p' n', O o = Some (p', n') → 0 < n' → p' + n' ≤ p ∨ p + n ≤ p'.
Proof.
  intros (A & B & C & D) Hn Hw E. destruct (kmalloc_grow h lo hi n p h' A Hn Hw E) as (A' & M & (j & J1 & J2) & R).
  destruct (regions_bound h' lo hi p j A' J1) as (B1 & B2 & B3 & B4 & B5 & _). pose proof HDR_bound.
  split; [split_and!; [done|by rewrite M| |done]|].
  - intros o p' n' E' Hn'. destruct (C _ _ _ E' Hn') as (k & K1 & K2). exists k. split; [|done]. apply (R _ K1). simpl. lia.
  - split; [done|]. split; [lia|]. split; [lia|]. intros o p' n' E' Hn'. destruct (C _ _ _ E' Hn') as (k & K1 & K2).
    destruct (R _ K1) as [K1' Hne]; [simpl; lia|]. destruct (regions_disjoint h' lo hi p' k p j A' K1' J1 Hne); lia.
Qed.

Lemma sep_krealloc lo hi h O o p n k q h' :
  sep lo hi h O → O o = Some (p, n) → 0 ≤ n → (n = 0 → p = 0) → 0 < k → k + 7 < 2 ^ word_bits →
  krealloc p k h = Ok (q, h') →
  sep lo hi h' (give o (q, k) O) ∧
  (∀ i, 0 ≤ i < n → ld (mem h') (q + i) = ld (mem h) (p + i)) ∧
  (∀ a, a < lo ∨ hi ≤ a → ld (mem h') a = ld (mem h) a) ∧
  (∀ o' p' n' a, O o' = Some (p', n') → o' ≠ o → p' ≤ a < p' + n' → ld (mem h') a = ld (mem h) a).
Proof.
  intros (A & B & C & D) Ho Hn Hz Hk Hw E.
  assert ((p = 0 ∧ n = 0) ∨ ∃ j, (p, j) ∈ regions h ∧ n ≤ j) as Hp.
  { destruct (decide (n = 0)) as [->|]; [left; by split; [apply Hz|]|right]. eapply C; [done|lia]. }
  destruct (krealloc_grow h lo hi p n k q h' A B Hp Hk Hw E) as (A' & B' & J & Hb & Hout & R).
  assert (∀ o' p' n', O o' = Some (p', n') → o' ≠ o → 0 < n' →
    ∃ j, (p', j) ∈ regions h ∧ n' ≤ j ∧ p' ≠ p) as Hother.
  { intros o' p' n' E' Hne Hn'. destruct (C _ _ _ E' Hn') as (j & K1 & K2). exists j. split_and!; [done|done|].
    intros ->. destruct (decide (n = 0)) as [->|].
    - specialize (Hz eq_refl). subst p. destruct (regions_bound h lo hi 0 j A K1) as (? & ? & ? & ? & _).
      pose proof HDR_bound. lia.
    - apply Hne, (D o' o p n' n); auto; lia. }
  split; [|split; [done|split; [done|]]].
  - split_and!; [done|done| |].
    + intros o' p' n'. unfold give. case_decide; [intros [= <- <-] _; done|].
      intros E' Hn'. destruct (Hother _ _ _ E' ltac:(done) Hn') as (j & K1 & K2 & K3).
      exists j. split; [|done]. apply (R _ K1); simpl; [lia|done].
    + assert (∀ o' p' n', O o' = Some (p', n') → o' ≠ o → 0 < n' → p' ≠ q) as Hq.
      { intros o' p' n' E' Hne Hn'. destruct (Hother _ _ _ E' Hne Hn') as (j & K1 & K2 & K3).
        apply (R _ K1); simpl; [lia|done]. }
      intros o1 o2 p' n1 n2. unfold give. do 2 case_decide; [congruence| | |by apply D].
      * intros [= <- <-] E2 _ Hn2. by destruct (Hq _ _ _ E2 ltac:(done) Hn2).
      * intros E1 [= <- <-] Hn1 _. by destruct (Hq _ _ _ E1 ltac:(done) Hn1).
  - intros o' p' n' a E' Hne Ha. destruct (Hother _ _ _ E' Hne ltac:(lia)) as (j & K1 & K2 & K3).
    apply (R _ K1); simpl; [lia|done|lia].
Qed.
End separation.

(** ** The invariant of the file system *)

Section invariant.
Context `{Arch}.
Implicit Types s : fsys.

(** A directory's nodes and a file's bytes. *)
Definition kids (m : memory) (x : tmpfs_dir_t) : list Z :=
  (λ i, ld_word m (entries x + i * W)) <$> seqZ 0 (count x).
Definition content (m : memory) (x : tmpfs_file_t) : list Z :=
  (λ i, ld m (data x + i)) <$> seqZ 0 (fsize x).

Definition dir_ok s (x : tmpfs_dir_t) : Prop :=
  0 ≤ count x ≤ cap x ∧ (cap x = 0 → entries x = 0) ∧
  Forall (λ e, is_Some (vnodes s !! e)) (kids (mem (fheap s)) x).
Definition file_ok (x : tmpfs_file_t) : Prop := 0 ≤ fsize x < 2 ^ 32 ∧ (fsize x = 0 → data x = 0).

(** A node's functions and [fs_data] agree. *)
Definition node_ok s (x : vfs_node_t) : Prop :=
  (finddir x = Some tmpfs_finddir_fn ∨ readdir x = Some tmpfs_readdir_fn → is_Some (tdirs s !! fs_data x)) ∧
  (read x = Some tmpfs_read_fn ∨ write x = Some tmpfs_write_fn → is_Some (tfiles s !! fs_data x)).

(** The heap, at most 1 GiB, is the bytes from [lo] to [hi]. *)
Definition tmpfs_ok (lo hi : Z) s : Prop :=
  hi - lo < 2 ^ 30 ∧ sep lo hi (fheap s) (owned s) ∧
  (∀ d x, tdirs s !! d = Some x → dir_ok s x) ∧
  (∀ f x, tfiles s !! f = Some x → file_ok x) ∧
  (∀ n x, vnodes s !! n = Some x → node_ok s x).

(** Every object but [X]'s is as before, content included. *)
Definition kept (X : owner) s s' : Prop :=
  (∀ d x, OEntries d ≠ X → tdirs s !! d = Some x →
     tdirs s' !! d = Some x ∧ kids (mem (fheap s')) x = kids (mem (fheap s)) x) ∧
  (∀ f x, OData f ≠ X → tfiles s !! f = Some x →
     tfiles s' !! f = Some x ∧ content (mem (fheap s')) x = content (mem (fheap s)) x).

Lemma kids_ext m m' x : 0 ≤ count x ≤ cap x →
  (∀ a, entries x ≤ a < entries x + cap x * W → ld m' a = ld m a) → kids m' x = kids m x.
Proof.
  intros Hc Ha. unfold kids. apply list_fmap_ext. intros j i [-> Hi]%lookup_seqZ.
  pose proof W_bound. apply ld_word_ext. intros b Hb. apply Ha. nia.
Qed.

Lemma content_ext m m' x :
  (∀ a, data x ≤ a < data x + fsize x → ld m' a = ld m a) → content m' x = content m x.
Proof.
  intros Ha. unfold content. apply list_fmap_ext. intros j i [-> Hi]%lookup_seqZ. apply Ha. lia.
Qed.

(** Bytes of every object but [X]'s. *)
Definition mem_kept (X : owner) (O : owner → option (Z * Z)) (m m' : memory) : Prop :=
  ∀ o p n a, O o = Some (p, n) → o ≠ X → p ≤ a < p + n → ld m' a = ld m a.

Lemma kept_of_mem lo hi X s s' :
  tmpfs_ok lo hi s → mem_kept X (owned s) (mem (fheap s)) (mem (fheap s')) →
  (∀ d x, OEntries d ≠ X → tdirs s !! d = Some x → tdirs s' !! d = Some x) →
  (∀ f x, OData f ≠ X → tfiles s !! f = Some x → tfiles s' !! f = Some x) → kept X s s'.
Proof.
  intros (_ & _ & Hd & _) Hm H1 H2. split.
  - intros d x Hne E. split; [by apply H1|]. destruct (Hd d x E) as (Hc & _). apply kids_ext; [done|].
    intros a Ha. eapply (Hm (OEntries d)); [|done|exact Ha]. simpl. by rewrite E.
  - intros f x Hne E. split; [by apply H2|]. apply content_ext.
    intros a Ha. eapply (Hm (OData f)); [|done|exact Ha]. simpl. by rewrite E.
Qed.

Lemma kept_trans X s1 s2 s3 : kept X s1 s2 → kept X s2 s3 → kept X s1 s3.
Proof.
  intros [A1 B1] [A2 B2]. split.
  - intros d x Hne E. destruct (A1 d x Hne E) as [E' <-]. destruct (A2 d x Hne E') as [? <-]. done.
  - intros f x Hne E. destruct (B1 f x Hne E) as [E' <-]. destruct (B2 f x Hne E') as [? <-]. done.
Qed.

Definition grows {A} (m m' : gmap Z A) : Prop := ∀ k, is_Some (m !! k) → is_Some (m' !! k).

Lemma grows_refl {A} (m : gmap Z A) : grows m m.
Proof. by intros k ?. Qed.

Lemma grows_insert {A} (m : gmap Z A) k x : grows m (<[k := x]> m).
Proof. intros j Hj. destruct (decide (k = j)) as [->|]; [by rewrite lookup_insert_eq|by rewrite lookup_insert_ne]. Qed.

(** An operation that touches one object keeps the invariant if its own objects do. *)
Lemma tmpfs_ok_step lo hi X s s' :
  tmpfs_ok lo hi s → kept X s s' → sep lo hi (fheap s') (owned s') →
  grows (vnodes s) (vnodes s') → grows (tdirs s) (tdirs s') → grows (tfiles s) (tfiles s') →
  (∀ d x, tdirs s' !! d = Some x → (OEntries d ≠ X ∧ tdirs s !! d = Some x) ∨ dir_ok s' x) →
  (∀ f x, tfiles s' !! f = Some x → tfiles s !! f = Some x ∨ file_ok x) →
  (∀ n x, vnodes s' !! n = Some x → node_ok s x ∨ node_ok s' x) →
  tmpfs_ok lo hi s'.
Proof.
  intros (Hb & Hs & Hd & Hf & Hn) [K1 K2] Hs' Gn Gd Gf D F N. split_and!; [done|done| | |].
  - intros d x E. destruct (D d x E) as [[Hne E']|]; [|done]. destruct (Hd d x E') as (A & B & C).
    destruct (K1 d x Hne E') as [_ Ek]. split_and!; [apply A|apply A|done|]. rewrite Ek.
    eapply Forall_impl; [|exact C]. intros e. apply Gn.
  - intros f x E. destruct (F f x E) as [E'|]; [by eapply Hf|done].
  - intros n x E. destruct (N n x E) as [[A B]|]; [|done]. split; intros Hx; [apply Gd|apply Gf]; auto.
Qed.
End invariant.

Section operations.
Context `{Arch}.
Implicit Types s : fsys.

Lemma owned_put_dir s d x h o : 
  owned (put_dir d x (with_fheap h s)) o =
    give (OEntries d) (entries x, cap x * W) (give (ODir d) (d, sizeof_tmpfs_dir) (owned s)) o.
Proof.
  unfold give. destruct o as [n|e|f|e|f]; simpl; repeat case_decide; simplify_eq; try done;
    try (by rewrite lookup_insert_eq); by rewrite lookup_insert_ne by congruence.
Qed.

Lemma owned_put_file s f x h o :
  owned (put_file f x (with_fheap h s)) o =
    give (OData f) (data x, fsize x) (give (OFile f) (f, sizeof_tmpfs_file) (owned s)) o.
Proof.
  unfold give. destruct o as [n|e|g|e|g]; simpl; repeat case_decide; simplify_eq; try done;
    try (by rewrite lookup_insert_eq); by rewrite lookup_insert_ne by congruence.
Qed.

Lemma owned_put_node s n x h o :
  owned (put_node n x (with_fheap h s)) o = give (ONode n) (n, sizeof_node) (owned s) o.
Proof.
  unfold give. destruct o as [e|e|g|e|g]; simpl; repeat case_decide; simplify_eq; try done;
    try (by rewrite lookup_insert_eq); by rewrite lookup_insert_ne by congruence.
Qed.

Lemma owned_with_fheap s h o : owned (with_fheap h s) o = owned s o.
Proof. by destruct o. Qed.

Lemma give_same o x O o' : O o = Some x → give o x O o' = O o'.
Proof. intros E. unfold give. case_decide; congruence. Qed.

Lemma sizes_pos : 0 < sizeof_tmpfs_dir < 1024 ∧ 0 < sizeof_tmpfs_file < 1024 ∧ 0 < sizeof_node < 1024 ∧ 2 ^ 32 ≤ 2 ^ word_bits.
Proof.
  unfold sizeof_tmpfs_dir, sizeof_tmpfs_file, sizeof_node. pose proof W_bound. pose proof word_bits_bound.
  assert (2 ^ 32 ≤ 2 ^ word_bits) by (apply Z.pow_le_mono_r; lia). by destruct the_arch; lia.
Qed.

Lemma cap_bound lo hi s d x :
  tmpfs_ok lo hi s → tdirs s !! d = Some x → 0 ≤ cap x ∧ cap x * W < 2 ^ 30.
Proof.
  intros (Hb & Hs & Hd & _) E. destruct (Hd d x E) as ([H1 H2] & _). pose proof W_bound.
  destruct (decide (cap x = 0)) as [->|]; [lia|]. split; [lia|].
  destruct (sep_bound lo hi (fheap s) (owned s) (OEntries d) (entries x) (cap x * W) Hs); [|nia|lia].
  simpl. by rewrite E.
Qed.

(** The array has room after the first step of [dir_add]. *)
Lemma dir_grow_spec lo hi s d x :
  tmpfs_ok lo hi s → tdirs s !! d = Some x → cap x ≤ count x →
  let c := if negb (cap x =? 0) then u32 (cap x * 2) else 4 in
  (∃ p h', krealloc (entries x) (uptr (c * W)) (fheap s) = Ok (p, h') ∧
    let x' := TDir p (count x) c in
    let s' := put_dir d x' (with_fheap h' s) in
    tmpfs_ok lo hi s' ∧ kept (OEntries d) s s' ∧ count x < c ∧
    kids (mem h') x' = kids (mem (fheap s)) x) ∨
  krealloc (entries x) (uptr (c * W)) (fheap s) = oom.
Proof.
  intros Hok E Hfull c. pose proof (cap_bound lo hi s d x Hok E) as [C1 C2]. pose proof W_bound.
  pose proof sizes_pos as (_ & _ & _ & Hw). pose proof Hok as (Hb & Hs & Hd & Hf & Hn).
  destruct (Hd d x E) as (Hc & Hz & Hkids).
  assert (owned s (OEntries d) = Some (entries x, cap x * W)) as Eo by (simpl; by rewrite E).
  assert (cap x < c ∧ cap x * W ≤ c * W ∧ c * W < 2 ^ 31 ∧ 0 < c) as (K1 & K2 & K3 & K4).
  { unfold c. destruct (Z.eqb_spec (cap x) 0) as [->|Hne]; cbn [negb]; [lia|].
    rewrite wrap_small by nia. nia. }
  rewrite wrap_word_u32_small by lia.
  assert (entries x = 0 ∨ ∃ j, (entries x, j) ∈ regions (fheap s)) as Hp.
  { destruct (decide (cap x = 0)) as [E0|]; [left; by apply Hz|right]. destruct Hs as (_ & _ & Hr & _).
    destruct (Hr _ _ _ Eo ltac:(nia)) as (k & K & _). eauto. }
  assert ((∃ q h', krealloc (entries x) (c * W) (fheap s) = Ok (q, h')) ∨ krealloc (entries x) (c * W) (fheap s) = oom)
    as [(p & h' & Ek)|]; [|left|by right].
  { destruct Hp as [E0|[j Hj]];
      [apply (krealloc_result (fheap s) lo hi (entries x) 0)|apply (krealloc_result (fheap s) lo hi (entries x) j)];
      [apply Hs|by left|nia|lia|apply Hs|by right|nia|lia]. }
  exists p, h'. split; [exact Ek|]. cbv zeta.
  destruct (sep_krealloc lo hi (fheap s) (owned s) (OEntries d) (entries x) (cap x * W) (c * W) p h' Hs Eo
    ltac:(nia)) as (Hs' & Hbytes & _ & Hrest); [intros Hz'; apply Hz; nia|nia|lia|exact Ek|].
  set (x' := TDir p (count x) c). set (s' := put_dir d x' (with_fheap h' s)).
  assert (kids (mem h') x' = kids (mem (fheap s)) x) as Hk.
  { unfold kids, x'. cbn [entries count]. apply list_fmap_ext. intros j i [-> Hi]%lookup_seqZ.
    unfold ld_word. transitivity (ld_le (Z.to_nat W) (entries x + (0 + Z.of_nat j) * W) (mem (fheap s))); [|done].
    apply ld_le_move. intros i Hi'. rewrite <- !Z.add_assoc. apply Hbytes. nia. }
  assert (kept (OEntries d) s s') as Hkept.
  { apply (kept_of_mem lo hi); [done| | |done].
    - intros o q n a Eo' Hne Ha. exact (Hrest o q n a Eo' Hne Ha).
    - intros e y Hne Ey. unfold s'. simpl. rewrite lookup_insert_ne by congruence. done. }
  split_and!; [|done|lia|done].
  apply (tmpfs_ok_step lo hi (OEntries d) s s' Hok Hkept); try apply grows_refl; try (by left).
  - unfold s'. cbn [fheap put_dir with_fheap]. eapply sep_ext; [|exact Hs']. intros o.
    rewrite owned_put_dir. cbn [entries cap x']. unfold give at 1 3. case_decide; [done|].
    apply give_same. simpl. by rewrite E.
  - apply grows_insert.
  - intros e y Ey. unfold s' in Ey. simpl in Ey. apply lookup_insert_Some in Ey as [[<- <-]|[Hne Ey]].
    + right. split_and!; [cbn; lia|cbn; lia|cbn; intros; nia|]. cbn [fheap put_dir with_fheap s'].
      unfold s'. cbn [fheap put_dir with_fheap]. by rewrite Hk.
    + left. split; [congruence|done].
  - intros n y Ey. left. by eapply Hn.
Qed.
End operations.

Section updates.
Context `{Arch}.
Implicit Types s : fsys.

Lemma dir_store_spec lo hi s d x n :
  tmpfs_ok lo hi s → tdirs s !! d = Some x → count x < cap x → is_Some (vnodes s !! n) →
  let m' := st_word (entries x + count x * W) n (mem (fheap s)) in
  let x' := TDir (entries x) (u32 (count x + 1)) (cap x) in
  let s' := put_dir d x' (with_fheap (with_mem (fheap s) m') s) in
  tmpfs_ok lo hi s' ∧ kept (OEntries d) s s' ∧ kids m' x' = kids (mem (fheap s)) x ++ [n].
Proof.
  intros Hok E Hroom Hn m' x' s'. pose proof (cap_bound lo hi s d x Hok E) as [C1 C2]. pose proof W_bound.
  pose proof sizes_pos as (_ & _ & Hnode & Hw). pose proof Hok as (Hb & Hs & Hd & Hf & Hnd).
  destruct (Hd d x E) as (Hc & Hz & Hkids).
  assert (owned s (OEntries d) = Some (entries x, cap x * W)) as Eo by (simpl; by rewrite E).
  assert (u32 (count x + 1) = count x + 1) as Ec by (apply wrap_small; nia).
  assert (0 ≤ n < 2 ^ word_bits) as Hnb.
  { destruct Hn as [y Ey]. destruct (sep_bound lo hi (fheap s) (owned s) (ONode n) n sizeof_node Hs); [|lia|lia].
    simpl. by rewrite Ey. }
  assert (∀ a, a < entries x + count x * W ∨ entries x + count x * W + W ≤ a → ld m' a = ld (mem (fheap s)) a) as Hout.
  { intros a Ha. apply ld_st_le_ne. lia. }
  assert (kids m' x' = kids (mem (fheap s)) x ++ [n]) as Hk.
  { unfold kids, x'. cbn [entries count]. rewrite Ec, seqZ_app by lia. rewrite fmap_app. f_equal.
    - apply list_fmap_ext. intros j i [-> Hi]%lookup_seqZ. apply ld_word_ext. intros b Hb'. apply Hout. nia.
    - change (seqZ (0 + count x) 1) with [0 + count x].
      transitivity [ld_word m' (entries x + (0 + count x) * W)]; [reflexivity|].
      rewrite Z.add_0_l. unfold m'. by rewrite ld_st_word_eq. }
  assert (kept (OEntries d) s s') as Hkept.
  { apply (kept_of_mem lo hi); [done| | |done].
    - intros o q k a Eo' Hne Ha. apply Hout.
      destruct (sep_disjoint lo hi (fheap s) (owned s) _ _ _ _ _ _ Hs Eo' Eo Hne); nia.
    - intros e y Hne Ey. unfold s'. simpl. rewrite lookup_insert_ne by congruence. done. }
  split_and!; [|done|done].
  apply (tmpfs_ok_step lo hi (OEntries d) s s' Hok Hkept); try apply grows_refl; try (by left).
  - unfold s'. cbn [fheap put_dir with_fheap]. apply sep_with_mem.
    { apply mem_ok_st_le. apply Hs. }
    eapply sep_ext; [|exact Hs]. intros o.
    rewrite owned_put_dir. cbn [entries cap x']. rewrite !give_same; [done|simpl; by rewrite E|].
    unfold give. case_decide; [done|exact Eo].
  - apply grows_insert.
  - intros e y Ey. unfold s' in Ey. simpl in Ey. apply lookup_insert_Some in Ey as [[<- <-]|[Hne Ey]].
    + right. split_and!; [cbn; lia|cbn; lia|done|]. unfold s'. cbn [fheap put_dir with_fheap mem with_mem vnodes].
      rewrite Hk. apply Forall_app. split; [done|by apply Forall_singleton].
    + left. split; [congruence|done].
  - intros k y Ey. left. by eapply Hnd.
Qed.

(** [dir_add] appends to one directory. *)
Lemma dir_add_spec lo hi s d x n :
  tmpfs_ok lo hi s → tdirs s !! d = Some x → is_Some (vnodes s !! n) →
  (∃ s' x', dir_add d n s = Ok s' ∧ tmpfs_ok lo hi s' ∧ kept (OEntries d) s s' ∧
    tdirs s' !! d = Some x' ∧ kids (mem (fheap s')) x' = kids (mem (fheap s)) x ++ [n] ∧
    vnodes s' = vnodes s ∧ tfiles s' = tfiles s) ∨
  dir_add d n s = oom.
Proof.
  intros Hok E Hn. unfold dir_add. assert (dir_at s d = x) as -> by (unfold dir_at; by rewrite E).
  destruct (Z.leb_spec (cap x) (count x)) as [Hfull|Hroom].
  - destruct (dir_grow_spec lo hi s d x Hok E Hfull) as [(p & h' & Ek & Hok' & Hkept & Hlt & Hk)|Ek]; rewrite Ek;
      [left|by right]. cbn [mbind outcome_bind]. set (c := if negb _ then _ else _) in *.
    set (x1 := TDir p (count x) c) in *. set (s1 := put_dir d x1 (with_fheap h' s)) in *.
    assert (tdirs s1 !! d = Some x1) as E1 by (apply lookup_insert_eq).
    assert (dir_at s1 d = x1) as -> by (unfold dir_at; by rewrite E1).
    destruct (dir_store_spec lo hi s1 d x1 n Hok' E1 Hlt Hn) as (A & B & C).
    eexists _, _. split; [reflexivity|]. split; [exact A|]. split; [by eapply kept_trans|].
    split; [apply lookup_insert_eq|]. split; [|done]. etrans; [exact C|]. by f_equal.
  - left. cbn [mbind outcome_bind]. assert (dir_at s d = x) as -> by (unfold dir_at; by rewrite E).
    destruct (dir_store_spec lo hi s d x n Hok E Hroom Hn) as (A & B & C).
    eexists _, _. split; [reflexivity|]. split; [exact A|]. split; [done|].
    split; [apply lookup_insert_eq|]. by split.
Qed.
End updates.

Section creation.
Context `{Arch}.
Implicit Types s : fsys.

Lemma kept_mono n X s s' : kept (ONode n) s s' → kept X s s'.
Proof. intros [A B]. split; intros; [by apply A|by apply B]. Qed.

Lemma kept_same_mem s s' X :
  mem (fheap s') = mem (fheap s) → (∀ d x, tdirs s !! d = Some x → tdirs s' !! d = Some x) →
  (∀ f x, tfiles s !! f = Some x → tfiles s' !! f = Some x) → kept X s s'.
Proof. intros E A B. split; intros; (split; [auto|by rewrite E]). Qed.

Lemma kept_fresh X s s1 s2 f :
  kept (ONode 0) s s1 → kept (OData f) s1 s2 → tfiles s !! f = None → kept X s s2.
Proof.
  intros [A1 B1] [A2 B2] Hf. split.
  - intros d x _ E. destruct (A1 d x ltac:(done) E) as [E1 K1].
    destruct (A2 d x ltac:(done) E1) as [E2 K2]. split; [done|congruence].
  - intros g x _ E. destruct (B1 g x ltac:(done) E) as [E1 K1]. assert (OData g ≠ OData f) as Hne by congruence.
    destruct (B2 g x Hne E1) as [E2 K2]. split; [done|congruence].
Qed.

(** A fresh block that is cleared: nobody else's bytes change. *)
Lemma alloc_clear lo hi h O o n p h' :
  sep lo hi h O → O o = None → 0 < n < 1024 → kmalloc n h = Ok (p, h') →
  let m := memset p 0 n (mem h') in
  sep lo hi (with_mem h' m) (give o (p, n) O) ∧ mem_kept o O (mem h) m.
Proof.
  intros Hs Ho Hn E m. pose proof sizes_pos as (_ & _ & _ & Hw).
  assert (n + 7 < 2 ^ word_bits) as K1 by lia.
  destruct (sep_kmalloc lo hi h O n p h' Hs ltac:(lia) K1 E) as (M & Hf & _ & Hg).
  specialize (Hg o Ho). assert (mem_ok m) as Hm by (apply memset_loop_ok; apply Hg).
  split; [by apply sep_with_mem|]. intros o' p' n' a E' Hne Ha. unfold m. rewrite memset_spec, M by lia.
  rewrite decide_False; [done|].
  assert (give o (p, n) O o' = Some (p', n')) as G1 by (unfold give; by rewrite decide_False).
  assert (give o (p, n) O o = Some (p, n)) as G2 by (unfold give; by rewrite decide_True).
  assert (0 < n') as P1 by lia. assert (0 < n) as P2 by lia.
  destruct (sep_disjoint lo hi h' _ o' o p' n' p n Hg G1 G2 Hne P1 P2) ; lia.
Qed.

Lemma new_node_spec lo hi s n h' y :
  tmpfs_ok lo hi s → kmalloc sizeof_node (fheap s) = Ok (n, h') → node_ok s y →
  let s' := put_node n y (with_fheap (with_mem h' (memset n 0 sizeof_node (mem h'))) s) in
  tmpfs_ok lo hi s' ∧ kept (ONode 0) s s' ∧ vnodes s !! n = None.
Proof.
  intros Hok E Hy s'. pose proof sizes_pos as (_ & _ & Hsz & Hw). pose proof Hok as (Hb & Hs & Hd & Hf & Hn).
  assert (0 ≤ sizeof_node) as K0 by lia. assert (sizeof_node + 7 < 2 ^ word_bits) as K1 by lia.
  assert (0 < sizeof_node) as K2 by lia. assert (sizeof_node < 1024) as K3 by lia.
  destruct (sep_kmalloc lo hi (fheap s) (owned s) sizeof_node n h' Hs K0 K1 E) as (M & Hfr & _).
  assert (vnodes s !! n = None) as Hnone.
  { destruct (vnodes s !! n) as [x|] eqn:Ex; [|done]. destruct (Hfr K2 (ONode n) n sizeof_node); [|lia|done].
    simpl. by rewrite Ex. }
  assert (owned s (ONode n) = None) as Ho by (simpl; by rewrite Hnone).
  destruct (alloc_clear lo hi (fheap s) (owned s) (ONode n) sizeof_node n h' Hs Ho (conj K2 K3) E) as [Hs' Hm].
  assert (kept (ONode 0) s s') as Hk.
  { apply (kept_mono n). by apply (kept_of_mem lo hi). }
  split_and!; [|done|done]. apply (tmpfs_ok_step lo hi (ONode 0) s s' Hok Hk); try apply grows_refl.
  - unfold s'. eapply sep_ext; [|exact Hs']. intros o. by rewrite owned_put_node.
  - apply grows_insert.
  - intros d x Ex. left. by split.
  - by left.
  - intros k x Ex. unfold s' in Ex. simpl in Ex. apply lookup_insert_Some in Ex as [[<- <-]|[Hne Ex]]; left; [done|by eapply Hn].
Qed.

Lemma new_dir_spec lo hi s d h' :
  tmpfs_ok lo hi s → kmalloc sizeof_tmpfs_dir (fheap s) = Ok (d, h') →
  let s' := put_dir d (TDir 0 0 0) (with_fheap (with_mem h' (memset d 0 sizeof_tmpfs_dir (mem h'))) s) in
  tmpfs_ok lo hi s' ∧ kept (ONode 0) s s' ∧ tdirs s !! d = None.
Proof.
  intros Hok E s'. pose proof sizes_pos as (Hsz & _ & _ & Hw). pose proof Hok as (Hb & Hs & Hd & Hf & Hn).
  assert (0 ≤ sizeof_tmpfs_dir) as K0 by lia. assert (sizeof_tmpfs_dir + 7 < 2 ^ word_bits) as K1 by lia.
  assert (0 < sizeof_tmpfs_dir) as K2 by lia. assert (sizeof_tmpfs_dir < 1024) as K3 by lia.
  destruct (sep_kmalloc lo hi (fheap s) (owned s) sizeof_tmpfs_dir d h' Hs K0 K1 E) as (M & Hfr & _).
  assert (tdirs s !! d = None) as Hnone.
  { destruct (tdirs s !! d) as [x|] eqn:Ex; [|done]. destruct (Hfr K2 (ODir d) d sizeof_tmpfs_dir); [|lia|done].
    simpl. by rewrite Ex. }
  assert (owned s (ODir d) = None) as Ho by (simpl; by rewrite Hnone).
  destruct (alloc_clear lo hi (fheap s) (owned s) (ODir d) sizeof_tmpfs_dir d h' Hs Ho (conj K2 K3) E) as [Hs' Hm].
  assert (kept (ONode 0) s s') as Hk.
  { apply (kept_of_mem lo hi); [done| | |done].
    - intros o p n a Eo _ Ha. apply (Hm o p n a Eo); [|done]. intros ->. congruence.
    - intros e x _ Ex. unfold s'. simpl. rewrite lookup_insert_ne; [done|congruence]. }
  split_and!; [|done|done]. apply (tmpfs_ok_step lo hi (ONode 0) s s' Hok Hk); try apply grows_refl.
  - unfold s'. cbn [fheap put_dir with_fheap]. destruct Hs' as (A & B & C & D). cbn [mem with_mem] in *.
    assert (∀ o, owned s' o = if decide (o = OEntries d) then Some (0, 0) else give (ODir d) (d, sizeof_tmpfs_dir) (owned s) o) as Eo.
    { intros o. unfold s'. by rewrite owned_put_dir. }
    split_and!; [done|done| |].
    + intros o p n. rewrite Eo. case_decide; [intros [= <- <-]; lia|apply C].
    + intros o o' p n n'. rewrite !Eo. repeat case_decide; intros E1 E2 P1 P2;
        try (injection E1; lia); try (injection E2; lia). by apply (D o o' p n n').
  - apply grows_insert.
  - intros e x Ex. unfold s' in Ex. simpl in Ex. apply lookup_insert_Some in Ex as [[<- <-]|[Hne Ex]]; [right|by left].
    split_and!; [done|done|done|]. constructor.
  - by left.
  - intros k x Ex. left. by eapply Hn.
Qed.

Lemma new_file_spec lo hi s f h1 p h2 sz :
  tmpfs_ok lo hi s → 0 ≤ sz → sz + 7 < 2 ^ 32 →
  kmalloc sizeof_tmpfs_file (fheap s) = Ok (f, h1) → kmalloc sz h1 = Ok (p, h2) →
  let s' := put_file f (TFile p sz) (with_fheap h2 s) in
  tmpfs_ok lo hi s' ∧ kept (ONode 0) s s' ∧ tfiles s !! f = None ∧ mem h2 = mem (fheap s).
Proof.
  intros Hok H0 H1 E1 E2 s'. pose proof sizes_pos as (_ & Hsz & _ & Hw). pose proof Hok as (Hb & Hs & Hd & Hf & Hn).
  assert (0 ≤ sizeof_tmpfs_file) as K0 by lia. assert (sizeof_tmpfs_file + 7 < 2 ^ word_bits) as K1 by lia.
  assert (0 < sizeof_tmpfs_file) as K2 by lia. assert (sizeof_tmpfs_file < 1024) as K3 by lia.
  destruct (sep_kmalloc lo hi (fheap s) (owned s) sizeof_tmpfs_file f h1 Hs K0 K1 E1) as (M1 & Hfr & _ & Hg1).
  assert (tfiles s !! f = None) as Hnone.
  { destruct (tfiles s !! f) as [x|] eqn:Ex; [|done]. destruct (Hfr K2 (OFile f) f sizeof_tmpfs_file); [|lia|done].
    simpl. by rewrite Ex. }
  assert (sz + 7 < 2 ^ word_bits) as K4 by lia.
  specialize (Hg1 (OFile f) ltac:(simpl; by rewrite Hnone)).
  destruct (sep_kmalloc lo hi h1 (give (OFile f) (f, sizeof_tmpfs_file) (owned s)) sz p h2 Hg1 H0 K4 E2) as (M2 & _ & Hz & Hg2).
  specialize (Hg2 (OData f) ltac:(unfold give; rewrite decide_False by done; simpl; by rewrite Hnone)).
  assert (mem h2 = mem (fheap s)) as M by congruence.
  assert (kept (ONode 0) s s') as Hk.
  { apply kept_same_mem; [done|done|]. intros g x Ex. unfold s'. simpl. rewrite lookup_insert_ne; [done|congruence]. }
  split_and!; [|done|done|done]. apply (tmpfs_ok_step lo hi (ONode 0) s s' Hok Hk); try apply grows_refl.
  - eapply sep_ext; [|exact Hg2]. intros o. unfold s'. by rewrite owned_put_file.
  - apply grows_insert.
  - by left.
  - intros g x Ex. unfold s' in Ex. simpl in Ex. apply lookup_insert_Some in Ex as [[<- <-]|[Hne Ex]]; [right|by left].
    split; [cbn; lia|done].
  - intros k x Ex. left. by eapply Hn.
Qed.

(** Writing inside one file's data. *)
Lemma fill_spec lo hi s f x m :
  tmpfs_ok lo hi s → tfiles s !! f = Some x → mem_ok m →
  (∀ a, a < data x ∨ data x + fsize x ≤ a → ld m a = ld (mem (fheap s)) a) →
  let s' := with_fheap (with_mem (fheap s) m) s in
  tmpfs_ok lo hi s' ∧ kept (OData f) s s'.
Proof.
  intros Hok E Hm Hout s'. pose proof Hok as (Hb & Hs & Hd & Hf & Hn).
  assert (kept (OData f) s s') as Hk.
  { apply (kept_of_mem lo hi); [done| |done|done]. intros o p n a Eo Hne Ha. apply Hout.
    destruct (decide (fsize x ≤ 0)); [lia|].
    assert (owned s (OData f) = Some (data x, fsize x)) as Eo' by (simpl; by rewrite E).
    destruct (sep_disjoint lo hi (fheap s) (owned s) _ _ _ _ _ _ Hs Eo Eo' Hne); lia. }
  split; [|done]. apply (tmpfs_ok_step lo hi (OData f) s s' Hok Hk); try apply grows_refl.
  - unfold s'. apply sep_with_mem; [done|]. eapply sep_ext; [|exact Hs]. intros o. apply owned_with_fheap.
  - by left.
  - by left.
  - intros k y Ey. left. by eapply Hn.
Qed.
End creation.

(** ** Looking names up *)

Section lookup.
Context `{Arch}.
Implicit Types s : fsys.

(** The first node of [l] with the name. *)
Fixpoint first_named s (nm : str) (l : list Z) : Z :=
  match l with
  | [] => 0
  | e :: l => if bool_decide (name (node s e) = nm) then e else first_named s nm l
  end.

Lemma find_entry_kids s d nm : ∀ k i, 0 ≤ i →
  find_entry k i d nm s =
  first_named s nm ((λ i, ld_word (mem (fheap s)) (entries d + i * W)) <$> seqZ i (Z.of_nat k)).
Proof.
  induction k as [|k IH]; intros i Hi; [done|].
  rewrite seqZ_cons by lia. cbn [find_entry fmap list_fmap first_named]. unfold entry_at.
  rewrite IH by lia. by replace (Z.pred (Z.of_nat (S k))) with (Z.of_nat k) by lia.
Qed.

Lemma tmpfs_finddir_kids lo hi s n x y nm :
  tmpfs_ok lo hi s → vnodes s !! n = Some y → tdirs s !! fs_data y = Some x →
  tmpfs_finddir n nm s = first_named s nm (kids (mem (fheap s)) x).
Proof.
  intros (_ & _ & Hd & _) En Ed. destruct (Hd _ _ Ed) as (Hc & _). unfold tmpfs_finddir, node. rewrite En.
  cbn [default]. unfold dir_at. cbn. rewrite Ed. cbn. rewrite find_entry_kids, Z2Nat.id by lia. done.
Qed.

Lemma first_named_snoc s nm l n :
  Forall (λ e, e ≠ 0) l →
  first_named s nm (l ++ [n]) =
    let e := first_named s nm l in
    if e =? 0 then if bool_decide (name (node s n) = nm) then n else 0 else e.
Proof.
  induction l as [|e l IH]; intros Hl; [done|]. apply Forall_cons_1 in Hl as [He Hl].
  cbn [first_named app]. destruct (bool_decide (name (node s e) = nm)); [|by apply IH].
  cbn zeta. by rewrite (proj2 (Z.eqb_neq e 0)).
Qed.

Lemma first_named_ext s s' nm l :
  Forall (λ e, name (node s' e) = name (node s e)) l → first_named s' nm l = first_named s nm l.
Proof. induction 1 as [|e l He Hl IH]; [done|]. simpl. by rewrite He, IH. Qed.

Lemma node_addr lo hi s n : tmpfs_ok lo hi s → is_Some (vnodes s !! n) → 4096 ≤ lo ∧ lo < n ∧ n < hi ∧ hi < 2 ^ 32.
Proof.
  intros (_ & Hs & _) [y Ey]. pose proof sizes_pos as (_ & _ & Hsz & _).
  destruct (sep_bound lo hi (fheap s) (owned s) (ONode n) n sizeof_node Hs); [simpl; by rewrite Ey|lia|lia].
Qed.

(** A new node appended to a directory is found when its name was not there. *)
Lemma finddir_added lo hi s s' parent px x x' n y nm :
  tmpfs_ok lo hi s → tmpfs_ok lo hi s' → vnodes s !! parent = Some px → tdirs s !! fs_data px = Some x →
  vnodes s !! n = None → vnodes s' = <[n := y]> (vnodes s) → tdirs s' !! fs_data px = Some x' →
  kids (mem (fheap s')) x' = kids (mem (fheap s)) x ++ [n] →
  tmpfs_finddir parent nm s' =
    let e := tmpfs_finddir parent nm s in
    if e =? 0 then if bool_decide (name y = nm) then n else 0 else e.
Proof.
  intros Hok Hok' Ep Ed Hfr Ev Ed' Ek.
  assert (vnodes s' !! parent = Some px) as Ep' by (rewrite Ev, lookup_insert_ne; [done|congruence]).
  rewrite (tmpfs_finddir_kids lo hi s' parent x' px nm Hok' Ep' Ed').
  rewrite (tmpfs_finddir_kids lo hi s parent x px nm Hok Ep Ed). rewrite Ek.
  pose proof Hok as (_ & _ & Hd & _). destruct (Hd _ _ Ed) as (_ & _ & Hkids).
  rewrite first_named_snoc.
  - cbn zeta. rewrite (first_named_ext s s').
    + assert (node s' n = y) as -> by (unfold node; by rewrite Ev, lookup_insert_eq). done.
    + eapply Forall_impl; [|exact Hkids]. intros e [z Ez]. unfold node. rewrite Ev, lookup_insert_ne; [done|congruence].
  - eapply Forall_impl; [|exact Hkids]. intros e He. pose proof (node_addr lo hi s e Hok He). lia.
Qed.
End lookup.

(** The file object of [tmpfs_mkfile], filled when there is a source. *)
Lemma new_file_filled `{Arch} lo hi s f h1 p h2 src sz :
  tmpfs_ok lo hi s → 0 ≤ sz → sz + 7 < 2 ^ 32 → src + sz ≤ lo ∨ hi ≤ src →
  kmalloc sizeof_tmpfs_file (fheap s) = Ok (f, h1) → kmalloc sz h1 = Ok (p, h2) →
  let s1 := put_file f (TFile p sz) (with_fheap h2 s) in
  let s2 := if negb (src =? 0)
            then with_fheap (with_mem (fheap s1) (memcpy p src sz (mem (fheap s1)))) s1 else s1 in
  tmpfs_ok lo hi s2 ∧ kept (ONode 0) s s2 ∧ vnodes s2 = vnodes s ∧ tdirs s2 = tdirs s ∧
  tfiles s !! f = None ∧ tfiles s2 !! f = Some (TFile p sz) ∧
  (src ≠ 0 → content (mem (fheap s2)) (TFile p sz) = (λ i, ld (mem (fheap s)) (src + i)) <$> seqZ 0 sz).
Proof.
  intros Hok Hsz Hsz7 Hsrc E1 E2 s1 s2.
  destruct (new_file_spec lo hi s f h1 p h2 sz Hok Hsz Hsz7 E1 E2) as (Hok1 & Hk1 & Hfr & Hm2). fold s1 in Hok1, Hk1.
  assert (tfiles s1 !! f = Some (TFile p sz)) as Ef1 by apply lookup_insert_eq.
  unfold s2. destruct (Z.eqb_spec src 0) as [->|Hs0]; cbn [negb]; [by split_and!|].
  assert (mem_ok (mem (fheap s1))) as Hmo by (destruct Hok1 as (_ & (_ & ? & _) & _); done).
  assert (p + sz ≤ src ∨ src + sz ≤ p ∨ sz = 0) as Hdis.
  { destruct (decide (sz = 0)); [by right; right|].
    destruct Hok1 as (_ & Hs1 & _). destruct (sep_bound lo hi (fheap s1) (owned s1) (OData f) p sz Hs1); [|lia|lia].
    cbn [owned]. by rewrite Ef1. }
  set (m := memcpy p src sz (mem (fheap s1))).
  destruct (fill_spec lo hi s1 f (TFile p sz) m Hok1 Ef1) as (Hok2 & Hk2).
  { by apply copy_up_ok. }
  { intros a Ha. apply copy_up_frame. cbn [data fsize] in Ha. lia. }
  split_and!; [done|by apply (kept_fresh _ s s1 _ f)|done|done|done|exact Ef1|].
  intros _. cbn [fheap with_fheap mem with_mem]. unfold content. cbn [fsize data].
  apply list_fmap_ext. intros j i [-> Hi]%lookup_seqZ. unfold m. rewrite memcpy_spec by (done || lia).
  rewrite decide_True by lia. unfold s1. cbn [fheap put_file with_fheap]. rewrite Hm2. f_equal. lia.
Qed.

(** ** The operations *)

Lemma tmpfs_mkfile_cases `{Arch} (lo hi : Z) (s : fsys) (parent : Z) (px : vfs_node_t) (x : tmpfs_dir_t)
    (nm : str) (src sz : Z) :
  tmpfs_ok lo hi s → vnodes s !! parent = Some px → tdirs s !! fs_data px = Some x →
  0 ≤ sz → sz + 7 < 2 ^ 32 → src + sz ≤ lo ∨ hi ≤ src →
  match tmpfs_mkfile parent nm src sz s with
  | Ok (n, s') =>
      tmpfs_ok lo hi s' ∧ kept (OEntries (fs_data px)) s s' ∧ vnodes s !! n = None ∧
      (∃ y z, vnodes s' = <[n := y]> (vnodes s) ∧ name y = take 255 nm ∧ nsize y = sz ∧
        flags y = VFS_FILE ∧ finddir y = None ∧ open y = None ∧ close y = None ∧
        read y = Some tmpfs_read_fn ∧ write y = Some tmpfs_write_fn ∧
        tfiles s !! fs_data y = None ∧ tfiles s' !! fs_data y = Some z ∧ fsize z = sz ∧
        (src ≠ 0 → content (mem (fheap s')) z = (λ i, ld (mem (fheap s)) (src + i)) <$> seqZ 0 sz)) ∧
      (∀ nm', tmpfs_finddir parent nm' s' =
        let e := tmpfs_finddir parent nm' s in
        if e =? 0 then if bool_decide (take 255 nm = nm') then n else 0 else e)
  | r => r = oom
  end.
Proof.
  intros Hok Ep Ed Hsz Hsz7 Hsrc. unfold tmpfs_mkfile. pose proof sizes_pos as (_ & Kf & Kn & Kw).
  pose proof Hok as (_ & Hs & _).
  assert (sizeof_tmpfs_file + 7 < 2 ^ word_bits) as K1 by lia. assert (0 ≤ sizeof_tmpfs_file) as K2 by lia.
  destruct (kmalloc_result (fheap s) lo hi sizeof_tmpfs_file (proj1 Hs) K2 K1) as [(f & h1 & E1)|E1];
    rewrite E1; [|reflexivity]. cbn [mbind outcome_bind].

  assert (heap_inv lo hi h1) as Hi1.
  { destruct (kmalloc_grow (fheap s) lo hi sizeof_tmpfs_file f h1 (proj1 Hs) ltac:(apply Kf) K1 E1) as [? _]. done. }
  destruct (kmalloc_result h1 lo hi sz Hi1 Hsz ltac:(lia)) as [(p & h2 & E2)|E2];
    rewrite E2; [|reflexivity]. cbn [mbind outcome_bind].
  destruct (new_file_filled lo hi s f h1 p h2 src sz Hok Hsz Hsz7 Hsrc E1 E2)
    as (Hok2 & Hk2 & Ev2 & Ed2 & Hfr & Efs2 & Hc2).
  set (s2 := if negb (src =? 0) then _ else _) in *.
  clearbody s2.
  assert (0 ≤ sizeof_node) as K3 by lia. assert (sizeof_node + 7 < 2 ^ word_bits) as K4 by lia.
  pose proof Hok2 as (_ & Hs2 & _).
  destruct (kmalloc_result (fheap s2) lo hi sizeof_node (proj1 Hs2) K3 K4) as [(n & h3 & E3)|E3];
    rewrite E3; [|reflexivity]. cbn [mbind outcome_bind].
  set (y := Node (take 255 nm) VFS_FILE sz f (Some tmpfs_read_fn) (Some tmpfs_write_fn) None None None None 0).
  destruct (new_node_spec lo hi s2 n h3 y Hok2 E3) as (Hok3 & Hk3 & Hn3).
  { split; [intros [?|?]; done|]. intros _. cbn. by rewrite Efs2. }
  set (s3 := put_node n y _) in *. rewrite Ev2 in Hn3.
  assert (vnodes s3 = <[n := y]> (vnodes s)) as Ev3 by (unfold s3; cbn; by rewrite Ev2).
  assert (fs_data (node s3 parent) = fs_data px) as ->.
  { unfold node. rewrite Ev3, lookup_insert_ne by congruence. by rewrite Ep. }
  assert (tdirs s3 !! fs_data px = Some x) as Ed3 by (unfold s3; cbn; by rewrite Ed2).
  assert (is_Some (vnodes s3 !! n)) as Hn' by (rewrite Ev3, lookup_insert_eq; eauto).
  destruct (dir_add_spec lo hi s3 (fs_data px) x n Hok3 Ed3 Hn')
    as [(s4 & x' & E4 & Hok4 & Hk4 & Ed4 & Ekids & Ev4 & Ef4)|E4]; rewrite E4; [|reflexivity].
  cbn [mbind outcome_bind].
  assert (kids (mem (fheap s3)) x = kids (mem (fheap s)) x) as Ek3.
  { destruct Hk3 as [A3 _]. destruct (A3 (fs_data px) x ltac:(done)) as [_ ->]; [by rewrite Ed2|].
    by apply (proj1 Hk2 (fs_data px)). }
  split; [done|]. split; [|split; [done|split]].
  - eapply kept_trans; [by eapply kept_mono|]. eapply kept_trans; [by eapply kept_mono|exact Hk4].
  - exists y, (TFile p sz). split_and!; try done; [by rewrite Ev4| |].
    + rewrite Ef4. exact Efs2.
    + intros Hs0. rewrite <- Hc2 by done. destruct Hk3 as [_ B3]. destruct Hk4 as [_ B4].
      destruct (B3 f (TFile p sz) ltac:(done) Efs2) as [E5 <-].
      destruct (B4 f (TFile p sz) ltac:(done) E5) as [_ <-]. done.
  - intros nm'. eapply (finddir_added lo hi s s4 parent px x x' n y); try done; [by rewrite Ev4|].
    by rewrite Ekids, Ek3.
Qed.

(** *** Directories *)

Lemma tmpfs_create_cases `{Arch} lo hi s nm :
  tmpfs_ok lo hi s →
  match tmpfs_create nm s with
  | Ok (n, s') => tmpfs_ok lo hi s' ∧ kept (ONode 0) s s' ∧ vnodes s !! n = None ∧ ∃ d,
      tdirs s !! d = None ∧ tdirs s' = <[d := TDir 0 0 0]> (tdirs s) ∧ tfiles s' = tfiles s ∧
      vnodes s' = <[n := Node (take 255 nm) VFS_DIR 0 d None None (Some tmpfs_readdir_fn)
                              (Some tmpfs_finddir_fn) None None 0]> (vnodes s)
  | r => r = oom
  end.
Proof.
  intros Hok. unfold tmpfs_create. pose proof sizes_pos as (Kd & _ & Kn & Kw). pose proof Hok as (_ & Hs & _).
  assert (sizeof_tmpfs_dir + 7 < 2 ^ word_bits) as K1 by lia. assert (0 ≤ sizeof_tmpfs_dir) as K2 by lia.
  destruct (kmalloc_result (fheap s) lo hi sizeof_tmpfs_dir (proj1 Hs) K2 K1) as [(d & h1 & E1)|E1];
    rewrite E1; [|reflexivity]. cbn [mbind outcome_bind].
  destruct (new_dir_spec lo hi s d h1 Hok E1) as (Hok1 & Hk1 & Hd).
  set (s1 := put_dir d _ _) in *. pose proof Hok1 as (_ & Hs1 & _).
  assert (0 ≤ sizeof_node) as K3 by lia. assert (sizeof_node + 7 < 2 ^ word_bits) as K4 by lia.
  destruct (kmalloc_result (fheap s1) lo hi sizeof_node (proj1 Hs1) K3 K4) as [(n & h2 & E2)|E2];
    rewrite E2; [|reflexivity]. cbn [mbind outcome_bind].
  set (y := Node _ _ _ _ _ _ _ _ _ _ _).
  destruct (new_node_spec lo hi s1 n h2 y Hok1 E2) as (Hok2 & Hk2 & Hn).
  { split; [|intros [?|?]; done]. intros _. unfold s1, y. cbn. rewrite lookup_insert_eq. eauto. }
  split; [done|]. split; [by eapply kept_trans|]. split; [done|]. by exists d.
Qed.

Lemma tmpfs_mkdir_cases `{Arch} lo hi s parent px x nm :
  tmpfs_ok lo hi s → vnodes s !! parent = Some px → tdirs s !! fs_data px = Some x →
  match tmpfs_mkdir parent nm s with
  | Ok (n, s') => tmpfs_ok lo hi s' ∧ kept (OEntries (fs_data px)) s s' ∧ vnodes s !! n = None ∧
      (∃ y, vnodes s' = <[n := y]> (vnodes s) ∧ name y = take 255 nm ∧ flags y = VFS_DIR ∧
        finddir y = Some tmpfs_finddir_fn ∧ open y = None ∧ close y = None ∧
        tdirs s !! fs_data y = None ∧ tdirs s' !! fs_data y = Some (TDir 0 0 0)) ∧
      (∀ nm', tmpfs_finddir parent nm' s' =
        let e := tmpfs_finddir parent nm' s in
        if e =? 0 then if bool_decide (take 255 nm = nm') then n else 0 else e)
  | r => r = oom
  end.
Proof.
  intros Hok Ep Ed. unfold tmpfs_mkdir. pose proof (tmpfs_create_cases lo hi s nm Hok) as Hc.
  destruct (tmpfs_create nm s) as [[n s1]|m|]; cbn [mbind outcome_bind]; [|by injection Hc as ->|done].
  destruct Hc as (Hok1 & Hk1 & Hn & d & Hd & Etd & Etf & Ev). set (y := Node _ _ _ _ _ _ _ _ _ _ _) in *.
  assert (fs_data (node s1 parent) = fs_data px) as ->.
  { unfold node. rewrite Ev, lookup_insert_ne by congruence. by rewrite Ep. }
  assert (tdirs s1 !! fs_data px = Some x) as Ed1 by (rewrite Etd, lookup_insert_ne; [done|congruence]).
  assert (is_Some (vnodes s1 !! n)) as Hn' by (rewrite Ev, lookup_insert_eq; eauto).
  destruct (dir_add_spec lo hi s1 (fs_data px) x n Hok1 Ed1 Hn')
    as [(s2 & x' & E2 & Hok2 & Hk2 & Ed2 & Ekids & Ev2 & Ef2)|E2]; rewrite E2; [|reflexivity].
  cbn [mbind outcome_bind].
  split; [done|]. split; [eapply kept_trans; [by eapply kept_mono|done]|]. split; [done|]. split.
  - exists y. split_and!; try done; [by rewrite Ev2|]. destruct Hk2 as [A _].
    assert (tdirs s1 !! d = Some (TDir 0 0 0)) as E by (by rewrite Etd, lookup_insert_eq).
    destruct (A d (TDir 0 0 0)) as [E' _]; [congruence|done|]. exact E'.
  - intros nm'. eapply (finddir_added lo hi s s2 parent px x x' n y); try done; [by rewrite Ev2|].
    rewrite Ekids. f_equal. by destruct (proj1 Hk1 (fs_data px) x ltac:(done) Ed) as [_ ->].
Qed.

(** A directory that the operation does not touch finds what it found. *)
Lemma finddir_kept `{Arch} lo hi X s s' m my x n y nm :
  tmpfs_ok lo hi s → tmpfs_ok lo hi s' → kept X s s' → vnodes s !! n = None → vnodes s' = <[n := y]> (vnodes s) →
  vnodes s !! m = Some my → tdirs s !! fs_data my = Some x → OEntries (fs_data my) ≠ X →
  tdirs s' !! fs_data my = Some x ∧ tmpfs_finddir m nm s' = tmpfs_finddir m nm s.
Proof.
  intros Hok Hok' [Hk _] Hfr Ev Em Ed Hne. destruct (Hk _ _ Hne Ed) as [Ed' Ek]. split; [done|].
  assert (vnodes s' !! m = Some my) as Em' by (rewrite Ev, lookup_insert_ne; [done|congruence]).
  rewrite (tmpfs_finddir_kids lo hi s m x my nm Hok Em Ed), (tmpfs_finddir_kids lo hi s' m x my nm Hok' Em' Ed'), Ek.
  apply first_named_ext. pose proof Hok as (_ & _ & Hd & _). destruct (Hd _ _ Ed) as (_ & _ & Hkids).
  eapply Forall_impl; [|exact Hkids]. intros e [z Ez]. unfold node. rewrite Ev, lookup_insert_ne; [done|congruence].
Qed.

(** No operation of tmpfs.c changes the mount table. *)
Lemma dir_add_mounts `{Arch} d n s s' : dir_add d n s = Ok s' → vfs_root s' = vfs_root s ∧ mounts s' = mounts s.
Proof.
  unfold dir_add. destruct (cap _ <=? count _); cbn [mbind outcome_bind]; [|by intros [= <-]].
  destruct (krealloc _ _ _) as [[p h]|?|]; cbn [mbind outcome_bind]; [by intros [= <-]|done|done].
Qed.

Lemma tmpfs_create_mounts `{Arch} nm s n s' : tmpfs_create nm s = Ok (n, s') → vfs_root s' = vfs_root s ∧ mounts s' = mounts s.
Proof.
  unfold tmpfs_create. destruct (kmalloc _ _) as [[d h]|?|]; cbn [mbind outcome_bind]; [|done|done].
  destruct (kmalloc _ _) as [[p h']|?|]; cbn [mbind outcome_bind]; [by intros [= <- <-]|done|done].
Qed.

Lemma tmpfs_mkdir_mounts `{Arch} parent nm s n s' : tmpfs_mkdir parent nm s = Ok (n, s') →
  vfs_root s' = vfs_root s ∧ mounts s' = mounts s.
Proof.
  unfold tmpfs_mkdir. destruct (tmpfs_create nm s) as [[d s1]|?|] eqn:E; cbn [mbind outcome_bind]; [|done|done].
  destruct (tmpfs_create_mounts _ _ _ _ E) as [<- <-].
  destruct (dir_add _ _ s1) as [s2|?|] eqn:E2; cbn [mbind outcome_bind]; [|done|done].
  intros [= <- <-]. by apply dir_add_mounts in E2.
Qed.

Lemma tmpfs_mkfile_mounts `{Arch} parent nm src sz s n s' : tmpfs_mkfile parent nm src sz s = Ok (n, s') →
  vfs_root s' = vfs_root s ∧ mounts s' = mounts s.
Proof.
  unfold tmpfs_mkfile. destruct (kmalloc _ (fheap s)) as [[f h]|?|]; cbn [mbind outcome_bind]; [|done|done].
  destruct (kmalloc _ h) as [[p h']|?|]; cbn [mbind outcome_bind]; [|done|done].
  set (s1 := if negb (src =? 0) then _ else _).
  assert (vfs_root s1 = vfs_root s ∧ mounts s1 = mounts s) as [E1 E1'] by (unfold s1; by destruct (negb _)).
  clearbody s1. destruct (kmalloc _ (fheap s1)) as [[k h2]|?|]; cbn [mbind outcome_bind]; [|done|done].
  destruct (dir_add _ _ _) as [s2|?|] eqn:E2; cbn [mbind outcome_bind]; [|done|done].
  intros [= <- <-]. apply dir_add_mounts in E2 as [-> ->]. by rewrite <- E1, <- E1'.
Qed.

(** No operation writes outside of the heap. *)
Definition outside (lo hi : Z) (m m' : memory) : Prop := ∀ a, a < lo ∨ hi ≤ a → ld m' a = ld m a.

Lemma outside_trans lo hi m1 m2 m3 : outside lo hi m1 m2 → outside lo hi m2 m3 → outside lo hi m1 m3.
Proof. intros A B a Ha. by rewrite B, A. Qed.

Lemma alloc_clear_outside `{Arch} lo hi h O o n p h' :
  sep lo hi h O → O o = None → 0 < n < 1024 → kmalloc n h = Ok (p, h') → outside lo hi (mem h) (memset p 0 n (mem h')).
Proof.
  intros Hs Ho Hn E a Ha. pose proof sizes_pos as (_ & _ & _ & Hw).
  destruct (sep_kmalloc lo hi h O n p h' Hs ltac:(lia) ltac:(lia) E) as (M & _ & _ & Hg). specialize (Hg o Ho).
  destruct (sep_bound lo hi h' _ o p n Hg) as (? & ? & ? & ?); [unfold give; by rewrite decide_True|lia|].
  rewrite memset_spec, M by lia. by rewrite decide_False by lia.
Qed.

Lemma dir_add_outside `{Arch} lo hi s d x n s' : tmpfs_ok lo hi s → tdirs s !! d = Some x → is_Some (vnodes s !! n) →
  dir_add d n s = Ok s' → outside lo hi (mem (fheap s)) (mem (fheap s')).
Proof.
  intros Hok E Hn. unfold dir_add. assert (dir_at s d = x) as -> by (unfold dir_at; by rewrite E). pose proof W_bound as HW.
  assert (∀ s1 x1, tmpfs_ok lo hi s1 → tdirs s1 !! d = Some x1 → count x1 < cap x1 →
    outside lo hi (mem (fheap s1)) (st_word (entries x1 + count x1 * W) n (mem (fheap s1)))) as Hstore.
  { intros s1 x1 (_ & Hs1 & Hd1 & _) E1 Hlt a Ha. destruct (Hd1 d x1 E1) as (Hc & _).
    destruct (sep_bound lo hi (fheap s1) (owned s1) (OEntries d) (entries x1) (cap x1 * W) Hs1) as (? & ? & ? & ?);
      [simpl; by rewrite E1|nia|]. apply ld_st_le_ne. rewrite Z2Nat.id by lia. nia. }
  destruct (Z.leb_spec (cap x) (count x)) as [Hfull|Hroom].
  - destruct (dir_grow_spec lo hi s d x Hok E Hfull) as [(p & h' & Ek & Hok' & Hkept & Hlt & Hk)|Ek]; rewrite Ek;
      cbn [mbind outcome_bind]; [|done].
    set (c := if negb _ then _ else _) in *. set (x1 := TDir p (count x) c) in *.
    set (s1 := put_dir d x1 (with_fheap h' s)) in *. assert (tdirs s1 !! d = Some x1) as E1 by (apply lookup_insert_eq).
    assert (dir_at s1 d = x1) as -> by (unfold dir_at; by rewrite E1). intros [= <-].
    eapply outside_trans; [|apply (Hstore s1 x1 Hok' E1 Hlt)].
    pose proof Hok as (_ & Hs & Hd & _). destruct (Hd d x E) as (Hc & Hz & _). pose proof (cap_bound lo hi s d x Hok E) as [C1 C2].
    assert (owned s (OEntries d) = Some (entries x, cap x * W)) as Eo by (simpl; by rewrite E).
    pose proof sizes_pos as (_ & _ & _ & Hw).
    assert (c * W < 2 ^ 31 ∧ 0 < c) as [K3 K4].
    { unfold c. destruct (Z.eqb_spec (cap x) 0) as [->|Hne]; cbn [negb]; [lia|]. rewrite wrap_small by nia. nia. }
    rewrite wrap_word_u32_small in Ek by lia.
    destruct (sep_krealloc lo hi (fheap s) (owned s) (OEntries d) (entries x) (cap x * W) (c * W) p h' Hs Eo
      ltac:(nia)) as (_ & _ & Hout & _); [intros Hz'; apply Hz; nia|nia|lia|exact Ek|exact Hout].
  - cbn [mbind outcome_bind]. assert (dir_at s d = x) as -> by (unfold dir_at; by rewrite E). intros [= <-].
    by apply (Hstore s x).
Qed.

Lemma tmpfs_create_outside `{Arch} lo hi nm s n s' : tmpfs_ok lo hi s → tmpfs_create nm s = Ok (n, s') →
  outside lo hi (mem (fheap s)) (mem (fheap s')).
Proof.
  intros Hok. unfold tmpfs_create. destruct (kmalloc sizeof_tmpfs_dir _) as [[d h1]|?|] eqn:E1; cbn [mbind outcome_bind]; [|done|done].
  destruct (new_dir_spec lo hi s d h1 Hok E1) as (Hok1 & _ & Hfr). set (s1 := put_dir d _ _) in *.
  destruct (kmalloc sizeof_node _) as [[k h2]|?|] eqn:E2; cbn [mbind outcome_bind]; [|done|done]. intros [= <- <-].
  pose proof sizes_pos as (Kd & _ & Kn & _). pose proof Hok as (_ & Hs & _). pose proof Hok1 as (_ & Hs1 & _).
  eapply outside_trans.
  - apply (alloc_clear_outside lo hi (fheap s) (owned s) (ODir d) sizeof_tmpfs_dir d h1 Hs); [simpl; by rewrite Hfr|lia|done].
  - change (memset d 0 sizeof_tmpfs_dir (mem h1)) with (mem (fheap s1)).
    destruct (new_node_spec lo hi s1 k h2 (Node [] 0 0 0 None None None None None None 0) Hok1 E2) as (_ & _ & Hk).
    { split; intros [?|?]; done. }
    apply (alloc_clear_outside lo hi (fheap s1) (owned s1) (ONode k) sizeof_node k h2 Hs1); [cbn [owned]; by rewrite Hk|lia|done].
Qed.

Lemma tmpfs_mkdir_outside `{Arch} lo hi s parent px x nm n s' :
  tmpfs_ok lo hi s → vnodes s !! parent = Some px → tdirs s !! fs_data px = Some x → tmpfs_mkdir parent nm s = Ok (n, s') →
  outside lo hi (mem (fheap s)) (mem (fheap s')).
Proof.
  intros Hok Ep Ed. unfold tmpfs_mkdir. destruct (tmpfs_create nm s) as [[k s1]|?|] eqn:E; cbn [mbind outcome_bind]; [|done|done].
  pose proof (tmpfs_create_outside lo hi nm s k s1 Hok E) as Ho1. pose proof (tmpfs_create_cases lo hi s nm Hok) as Hc.
  rewrite E in Hc. destruct Hc as (Hok1 & _ & Hn & d & Hd & Etd & _ & Ev).
  assert (fs_data (node s1 parent) = fs_data px) as ->.
  { unfold node. rewrite Ev, lookup_insert_ne by congruence. by rewrite Ep. }
  destruct (dir_add _ k s1) as [s2|?|] eqn:E2; cbn [mbind outcome_bind]; [|done|done]. intros [= <- <-].
  eapply outside_trans; [exact Ho1|]. apply (dir_add_outside lo hi s1 (fs_data px) x k s2); try done.
  - rewrite Etd, lookup_insert_ne; [done|congruence].
  - rewrite Ev, lookup_insert_eq. eauto.
Qed.

Lemma tmpfs_mkfile_outside `{Arch} lo hi s parent px x nm src sz n s' :
  tmpfs_ok lo hi s → vnodes s !! parent = Some px → tdirs s !! fs_data px = Some x →
  0 ≤ sz → sz + 7 < 2 ^ 32 → src + sz ≤ lo ∨ hi ≤ src → tmpfs_mkfile parent nm src sz s = Ok (n, s') →
  outside lo hi (mem (fheap s)) (mem (fheap s')).
Proof.
  intros Hok Ep Ed Hsz H7 Hsrc. unfold tmpfs_mkfile. pose proof sizes_pos as (_ & Kf & Kn & Kw).
  destruct (kmalloc sizeof_tmpfs_file (fheap s)) as [[f h1]|?|] eqn:E1; cbn [mbind outcome_bind]; [|done|done].
  destruct (kmalloc sz h1) as [[p h2]|?|] eqn:E2; cbn [mbind outcome_bind]; [|done|done].
  destruct (new_file_spec lo hi s f h1 p h2 sz Hok Hsz H7 E1 E2) as (Hok1 & _ & _ & Em).
  destruct (new_file_filled lo hi s f h1 p h2 src sz Hok Hsz H7 Hsrc E1 E2) as (Hok2 & Hk2 & Ev2 & Ed2 & _ & Efs2 & _).
  set (s1 := put_file f _ _) in *. set (s2 := if negb (src =? 0) then _ else _) in *.
  assert (outside lo hi (mem (fheap s)) (mem (fheap s2))) as Ho2.
  { intros a Ha. unfold s2. destruct (src =? 0); cbn [negb]; [unfold s1; cbn; by rewrite Em|].
    cbn [fheap with_fheap mem with_mem]. unfold memcpy. rewrite copy_up_frame; [unfold s1; cbn; by rewrite Em|].
    destruct (decide (sz = 0)) as [->|]; [lia|]. pose proof Hok1 as (_ & Hs1 & _).
    destruct (sep_bound lo hi (fheap s1) (owned s1) (OData f) p sz Hs1); [|lia|lia].
    unfold s1. cbn [owned put_file tfiles]. by rewrite lookup_insert_eq. }
  clearbody s2. clear s1 Hok1. pose proof Hok2 as (_ & Hs2 & _).
  destruct (kmalloc sizeof_node (fheap s2)) as [[k h3]|?|] eqn:E3; cbn [mbind outcome_bind]; [|done|done].
  set (y := Node _ _ _ _ _ _ _ _ _ _ _). destruct (new_node_spec lo hi s2 k h3 y Hok2 E3) as (Hok3 & Hk3 & Hn3).
  { split; [intros [?|?]; done|]. intros _. cbn. by rewrite Efs2. }
  set (s3 := put_node k y _) in *.
  assert (vnodes s3 = <[k := y]> (vnodes s)) as Ev3 by (unfold s3; cbn; by rewrite Ev2).
  rewrite Ev2 in Hn3. assert (fs_data (node s3 parent) = fs_data px) as ->.
  { unfold node. rewrite Ev3, lookup_insert_ne by congruence. by rewrite Ep. }
  destruct (dir_add _ k s3) as [s4|?|] eqn:E4; cbn [mbind outcome_bind]; [|done|done]. intros [= <- <-].
  eapply outside_trans; [exact Ho2|]. eapply outside_trans.
  - apply (alloc_clear_outside lo hi (fheap s2) (owned s2) (ONode k) sizeof_node k h3 Hs2); [cbn [owned]; by rewrite Ev2, Hn3|lia|done].
  - change (memset k 0 sizeof_node (mem h3)) with (mem (fheap s3)). apply (dir_add_outside lo hi s3 (fs_data px) x k s4); try done.
    + unfold s3. cbn. by rewrite Ed2.
    + rewrite Ev3, lookup_insert_eq. eauto.
Qed.

(** *** Reading and writing *)

(** Growing a file for a write that ends at [e]. *)
Lemma file_grow_spec `{Arch} lo hi s n y x e :
  tmpfs_ok lo hi s → vnodes s !! n = Some y → tfiles s !! fs_data y = Some x → fsize x < e → e + 7 < 2 ^ 32 →
  match krealloc (data x) e (fheap s) with
  | Ok (p, h) =>
      let y' := Node (name y) (flags y) e (fs_data y) (read y) (write y)
                  (readdir y) (finddir y) (open y) (close y) (mount y) in
      let s' := put_node n y' (put_file (fs_data y) (TFile p e) (with_fheap h s)) in
      tmpfs_ok lo hi s' ∧ kept (OData (fs_data y)) s s' ∧
      (∀ i, 0 ≤ i < fsize x → ld (mem h) (p + i) = ld (mem (fheap s)) (data x + i)) ∧
      (∀ a, a < lo ∨ hi ≤ a → ld (mem h) a = ld (mem (fheap s)) a)
  | r => r = oom
  end.
Proof.
  intros Hok En Ef Hlt Hw. pose proof sizes_pos as (_ & _ & _ & Kw). pose proof Hok as (Hb & Hs & Hd & Hf & Hn).
  destruct (Hf _ _ Ef) as [Hsz Hz]. set (f := fs_data y) in *.
  assert (owned s (OData f) = Some (data x, fsize x)) as Eo by (simpl; by rewrite Ef).
  assert ((∃ q h', krealloc (data x) e (fheap s) = Ok (q, h')) ∨ krealloc (data x) e (fheap s) = oom)
    as [(p & h & Ek)|Ek]; [|rewrite Ek|rewrite Ek; reflexivity].
  { destruct (decide (fsize x = 0)) as [E0|].
    - apply (krealloc_result (fheap s) lo hi (data x) 0); [apply Hs|left; by apply Hz|lia|lia].
    - pose proof Hs as (_ & _ & Hr & _). destruct (Hr _ _ _ Eo ltac:(lia)) as (k & K & _).
      apply (krealloc_result (fheap s) lo hi (data x) k); [apply Hs|by right|lia|lia]. }
  assert (e + 7 < 2 ^ word_bits) as K1 by lia. assert (0 < e) as K2 by lia.
  destruct (sep_krealloc lo hi (fheap s) (owned s) (OData f) (data x) (fsize x) e p h Hs Eo (proj1 Hsz) Hz K2 K1 Ek)
    as (Hs' & Hbytes & Hout & Hrest).
  cbv zeta. set (y' := Node _ _ _ _ _ _ _ _ _ _ _). set (s' := put_node _ _ _).
  assert (kept (OData f) s s') as Hk.
  { apply (kept_of_mem lo hi); [done| |done|].
    - intros o q k a Eo' Hne Ha. exact (Hrest o q k a Eo' Hne Ha).
    - intros g z Hne Ez. unfold s'. simpl. rewrite lookup_insert_ne by congruence. done. }
  split_and!; [|done|done|done]. apply (tmpfs_ok_step lo hi (OData f) s s' Hok Hk); try apply grows_refl.
  - eapply sep_ext; [|exact Hs']. intros o. unfold s'.
    change (put_node n y' (put_file f (TFile p e) (with_fheap h s))) with
      (put_node n y' (with_fheap h (put_file f (TFile p e) (with_fheap h s)))).
    rewrite owned_put_node. rewrite give_same.
    + rewrite owned_put_file. cbn [data fsize]. unfold give at 1 3. case_decide; [done|].
      apply give_same. simpl. by rewrite Ef.
    + simpl. by rewrite En.
  - apply grows_insert.
  - apply grows_insert.
  - by left.
  - intros g z Ez. unfold s' in Ez. simpl in Ez. apply lookup_insert_Some in Ez as [[<- <-]|[Hne Ez]]; [right|by left].
    split; [cbn; lia|cbn; intros; lia].
  - intros k z Ez. unfold s' in Ez. simpl in Ez. left. apply lookup_insert_Some in Ez as [[<- <-]|[Hne Ez]]; [|by eapply Hn].
    apply (Hn n y En).
Qed.

(** The [n] bytes at [p] meet no object of the file system. *)
Definition clear_of `{Arch} (s : fsys) (p n : Z) : Prop :=
  ∀ o p' n', owned s o = Some (p', n') → 0 < n' → p' + n' ≤ p ∨ p + n ≤ p'.

Lemma outside_clear `{Arch} lo hi s p n : tmpfs_ok lo hi s → p + n ≤ lo ∨ hi ≤ p → clear_of s p n.
Proof.
  intros (_ & Hs & _) Hp o p' n' E Hn. pose proof (sep_bound lo hi (fheap s) (owned s) o p' n' Hs E Hn). lia.
Qed.

Lemma clear_of_sub `{Arch} s p n q k : clear_of s p n → p ≤ q → q + k ≤ p + n → clear_of s q k.
Proof. intros Ha H1 H2 o p' n' E Hn. destruct (Ha o p' n' E Hn); lia. Qed.

Lemma clear_with_fheap `{Arch} s h p n : clear_of (with_fheap h s) p n ↔ clear_of s p n.
Proof. unfold clear_of. by setoid_rewrite owned_with_fheap. Qed.

(** What is written there is not the file system's. *)
Lemma clear_kept `{Arch} s p n m m' : clear_of s p n → (∀ a, a < p ∨ p + n ≤ a → ld m' a = ld m a) → mem_kept (ONode 0) (owned s) m m'.
Proof. intros Ha Hm o p' n' a E _ Hin. apply Hm. destruct (Ha o p' n' E); lia. Qed.

(** The bytes a read copies out. *)
Lemma tmpfs_read_cases `{Arch} lo hi s n y x off sz buf :
  tmpfs_ok lo hi s → vnodes s !! n = Some y → tfiles s !! fs_data y = Some x →
  0 ≤ off → 0 ≤ sz → off + sz < 2 ^ 64 → clear_of s buf sz →
  let k := Z.max 0 (Z.min sz (fsize x - off)) in
  ∃ s', tmpfs_read n off sz buf s = Ok (k, s') ∧ vnodes s' = vnodes s ∧ tdirs s' = tdirs s ∧ tfiles s' = tfiles s ∧
    ∀ a, ld (mem (fheap s')) a =
      if decide (buf ≤ a < buf + k) then ld (mem (fheap s)) (data x + off + (a - buf)) else ld (mem (fheap s)) a.
Proof.
  intros Hok En Ef H0 H1 H2 Hbuf k. pose proof sizes_pos as (_ & _ & _ & Kw). pose proof Hok as (Hb & Hs & Hd & Hf & Hn).
  destruct (Hf _ _ Ef) as [Hsz Hz]. unfold tmpfs_read, node. rewrite En. cbn [default].
  unfold file_at. cbn. rewrite Ef. cbn. destruct (Z.leb_spec (fsize x) off) as [Hle|Hlt].
  { exists s. split; [by replace k with 0 by lia|]. split_and!; try done. intros a. by rewrite decide_False by lia. }
  rewrite (wrap_small 64) by lia.
  assert ((if fsize x <? off + sz then u32 (fsize x - off) else sz) = k) as ->.
  { case_test; [rewrite wrap_small by lia|]; lia. }
  assert (owned s (OData (fs_data y)) = Some (data x, fsize x)) as Eo by (simpl; by rewrite Ef).
  destruct (sep_bound lo hi (fheap s) (owned s) _ _ _ Hs Eo ltac:(lia)) as (B1 & B2 & B3 & B4).
  rewrite (wrap_small 32 off) by lia. rewrite wrap_word_u32_small by lia.
  eexists. split; [reflexivity|]. split_and!; try done. intros a. cbn [fheap with_fheap mem with_mem].
  apply memcpy_spec; [apply Hs|lia|]. destruct (Hbuf _ _ _ Eo); lia.
Qed.

(** Another heap in which the objects have their blocks and their bytes. *)
Lemma tmpfs_ok_heap `{Arch} lo hi s h : tmpfs_ok lo hi s → sep lo hi h (owned s) →
  mem_kept (ONode 0) (owned s) (mem (fheap s)) (mem h) →
  tmpfs_ok lo hi (with_fheap h s) ∧ kept (ONode 0) s (with_fheap h s).
Proof.
  intros Hok Hsep Hm. pose proof Hok as (Hb & _ & Hd & Hf & Hn). set (s' := with_fheap h s).
  assert (kept (ONode 0) s s') as Hk by (by apply (kept_of_mem lo hi)).
  split; [|done]. apply (tmpfs_ok_step lo hi (ONode 0) s s'); [done|done| |apply grows_refl..| | |].
  - apply (sep_ext lo hi (fheap s') (owned s)); [intros o; apply owned_with_fheap|done].
  - intros d x E. left. by split.
  - intros f x E. by left.
  - intros n x E. left. by apply (Hn n).
Qed.

(** Memory outside of the heap is not the file system's. *)
Lemma tmpfs_ok_outside `{Arch} lo hi s m :
  tmpfs_ok lo hi s → mem_ok m → (∀ a, lo ≤ a < hi → ld m a = ld (mem (fheap s)) a) →
  tmpfs_ok lo hi (with_fheap (with_mem (fheap s) m) s) ∧ kept (ONode 0) s (with_fheap (with_mem (fheap s) m) s).
Proof.
  intros Hok Hm Ha. pose proof Hok as (_ & Hs & _). apply tmpfs_ok_heap; [done|by apply sep_with_mem|].
  intros o p n a E _ Hin. apply Ha. pose proof (sep_bound lo hi (fheap s) (owned s) o p n Hs E ltac:(lia)). lia.
Qed.

(** A read changes memory only. *)
Lemma tmpfs_read_mem `{Arch} n off sz buf s k s' : mem_ok (mem (fheap s)) → tmpfs_read n off sz buf s = Ok (k, s') →
  ∃ m, s' = with_fheap (with_mem (fheap s) m) s ∧ mem_ok m.
Proof.
  intros Hm. unfold tmpfs_read. destruct (_ <=? off); intros [= <- <-].
  - exists (mem (fheap s)). split; [|done]. by destruct s as [? ? ? ? ? ? [] ? ?].
  - eexists. split; [reflexivity|]. by apply copy_up_ok.
Qed.

(** What a write of [sz] bytes at [off] leaves of the file [f]: [m] is memory
    before, [x] the file before, [s'] and [z] after. *)
Definition written (m : memory) (x : tmpfs_file_t) (off sz buf : Z) (s' : fsys) (z : tmpfs_file_t) : Prop :=
  fsize z = Z.max (fsize x) (off + sz) ∧
  (∀ i, off ≤ i < off + sz → ld (mem (fheap s')) (data z + i) = ld m (buf + (i - off))) ∧
  (∀ i, 0 ≤ i < fsize x → ¬ off ≤ i < off + sz → ld (mem (fheap s')) (data z + i) = ld m (data x + i)).

(** The copy into a file [z] that is large enough and starts with the bytes of [x]. *)
Lemma write_copy `{Arch} lo hi s f x z m off sz buf :
  tmpfs_ok lo hi s → tfiles s !! f = Some z → fsize z = Z.max (fsize x) (off + sz) → 0 ≤ off → 0 ≤ sz →
  buf + sz ≤ lo ∨ hi ≤ buf →
  (∀ i, 0 ≤ i < fsize x → ld (mem (fheap s)) (data z + i) = ld m (data x + i)) →
  (∀ a, a < lo ∨ hi ≤ a → ld (mem (fheap s)) a = ld m a) →
  let s' := with_fheap (with_mem (fheap s) (memcpy (uptr (data z + off)) buf sz (mem (fheap s)))) s in
  tmpfs_ok lo hi s' ∧ kept (OData f) s s' ∧ written m x off sz buf s' z.
Proof.
  intros Hok Ez Hz H0 H1 Hbuf Hold Hstack s'. pose proof Hok as (_ & Hs & _).
  assert (mem_ok (mem (fheap s))) as Hmo by apply Hs.
  assert (∀ a, ld (mem (fheap s')) a = if decide (data z + off ≤ a < data z + off + sz)
    then ld (mem (fheap s)) (buf + (a - (data z + off))) else ld (mem (fheap s)) a) as Hld.
  { intros a. unfold s'. cbn [fheap with_fheap mem with_mem]. destruct (decide (sz = 0)) as [->|Hsz].
    { by rewrite decide_False by lia. }
    assert (owned s (OData f) = Some (data z, fsize z)) as Eo by (simpl; by rewrite Ez).
    assert (0 < fsize z) as Hpos by lia.
    destruct (sep_bound lo hi (fheap s) (owned s) _ _ _ Hs Eo Hpos) as (B1 & B2 & B3 & B4).
    rewrite wrap_word_u32_small by lia. apply memcpy_spec; [done|lia|lia]. }
  destruct (fill_spec lo hi s f z (mem (fheap s')) Hok Ez) as [Hok2 Hk2].
  { by apply copy_up_ok. }
  { intros a Ha. rewrite Hld. by rewrite decide_False by lia. }
  split; [done|]. split; [done|]. split; [done|]. split.
  - intros i Hi. rewrite Hld, decide_True by lia. rewrite Hstack by lia. f_equal. lia.
  - intros i Hi Hn. rewrite Hld, decide_False by lia. by apply Hold.
Qed.

Lemma tmpfs_write_cases `{Arch} lo hi s n y x off sz buf :
  tmpfs_ok lo hi s → vnodes s !! n = Some y → tfiles s !! fs_data y = Some x →
  0 ≤ off → 0 ≤ sz → off + sz + 7 < 2 ^ 32 → buf + sz ≤ lo ∨ hi ≤ buf →
  match tmpfs_write n off sz buf s with
  | Ok (r, s') => r = sz ∧ tmpfs_ok lo hi s' ∧ kept (OData (fs_data y)) s s' ∧
      (∃ y', vnodes s' = <[n := y']> (vnodes s) ∧ fs_data y' = fs_data y ∧ name y' = name y ∧
        nsize y' = if fsize x <? off + sz then off + sz else nsize y) ∧
      ∃ z, tfiles s' !! fs_data y = Some z ∧ written (mem (fheap s)) x off sz buf s' z
  | r => r = oom
  end.
Proof.
  intros Hok En Ef H0 H1 H2 Hbuf. unfold tmpfs_write. rewrite (wrap_small 32 off), (wrap_small 32 (off + sz)) by lia.
  assert (∀ s n y, vnodes s !! n = Some y → node s n = y) as Hnode by (intros ? ? ? E; unfold node; by rewrite E).
  assert (∀ s f x, tfiles s !! f = Some x → file_at s f = x) as Hfile by (intros ? ? ? E; unfold file_at; by rewrite E).
  rewrite !(Hnode s n y En), (Hfile s _ x Ef). pose proof Hok as (_ & _ & _ & Hf & _). destruct (Hf _ _ Ef) as [Hsz Hz].
  set (f := fs_data y) in *. destruct (Z.ltb_spec (fsize x) (off + sz)) as [Hlt|Hge].
  - pose proof (file_grow_spec lo hi s n y x (off + sz) Hok En Ef Hlt H2) as Hg. fold f in Hg.
    destruct (krealloc (data x) (off + sz) (fheap s)) as [[p h]|m|]; cbn [mbind outcome_bind];
      [|by injection Hg as ->|done].
    set (s1 := put_file f (TFile p (off + sz)) (with_fheap h s)) in *.
    assert (node s1 n = y) as -> by (apply Hnode; exact En).
    assert (file_at s1 f = TFile p (off + sz)) as Ef1 by (apply Hfile, lookup_insert_eq).
    rewrite Ef1. cbn [fsize]. fold f. set (y' := Node _ _ _ _ _ _ _ _ _ _ _) in *. set (s2 := put_node n y' s1) in *.
    destruct Hg as (Hok2 & Hk2 & Hold & Hstack).
    assert (tfiles s2 !! f = Some (TFile p (off + sz))) as Ef2 by apply lookup_insert_eq.
    rewrite (Hfile s2 f _ Ef2). cbn [data].
    destruct (write_copy lo hi s2 f x (TFile p (off + sz)) (mem (fheap s)) off sz buf Hok2 Ef2) as (A & B & C);
      [cbn; lia|done|done|done|done|done|].
    split; [done|]. split; [done|]. split; [by eapply kept_trans|]. split; [by exists y'|]. by eexists.
  - cbn [mbind outcome_bind]. rewrite (Hfile s _ x Ef).
    destruct (write_copy lo hi s f x x (mem (fheap s)) off sz buf Hok Ef) as (A & B & C);
      [lia|done|done|done|done|done|].
    split; [done|]. split; [done|]. split; [done|]. split; [|by exists x].
    exists y. split_and!; [|done|done|done]. cbn. by rewrite insert_id.
Qed.

(** ** The properties *)

(** [tmpfs_mkfile], unless memory runs out, adds one entry to the directory:
    looking a name up finds what it found before or, failing that, the new file
    under its name of at most 255 characters; the file has the size and the bytes
    given; every other file and directory is untouched and every allocation
    still has one owner. *)
Theorem tmpfs_mkfile_spec `{Arch} (lo hi : Z) (s : fsys) (parent : Z) (px : vfs_node_t) (x : tmpfs_dir_t)
    (nm : str) (src sz : Z) :
  tmpfs_ok lo hi s → vnodes s !! parent = Some px → tdirs s !! fs_data px = Some x →
  0 ≤ sz → sz + 7 < 2 ^ 32 → src + sz ≤ lo ∨ hi ≤ src →
  match tmpfs_mkfile parent nm src sz s with
  | Ok (n, s') =>
      tmpfs_ok lo hi s' ∧ kept (OEntries (fs_data px)) s s' ∧ vnodes s !! n = None ∧
      (∃ y z, vnodes s' = <[n := y]> (vnodes s) ∧ name y = take 255 nm ∧ nsize y = sz ∧
        flags y = VFS_FILE ∧ finddir y = None ∧ open y = None ∧ close y = None ∧
        read y = Some tmpfs_read_fn ∧ write y = Some tmpfs_write_fn ∧
        tfiles s !! fs_data y = None ∧ tfiles s' !! fs_data y = Some z ∧ fsize z = sz ∧
        (src ≠ 0 → content (mem (fheap s')) z = (λ i, ld (mem (fheap s)) (src + i)) <$> seqZ 0 sz)) ∧
      (∀ nm', tmpfs_finddir parent nm' s' =
        let e := tmpfs_finddir parent nm' s in
        if e =? 0 then if bool_decide (take 255 nm = nm') then n else 0 else e)
  | r => r = oom
  end.
Proof. apply tmpfs_mkfile_cases. Qed.

(** C18: a write of [sz] bytes at [off] whose end fits in 32 bits, unless memory
    runs out, returns [sz]; the file then has those bytes at [off], its other old
    bytes as they were, and the length max(size, off + sz), in the node too when
    it grew; every other file and every directory is untouched.  Reading the
    range back returns [sz] and copies out exactly the bytes written. *)
Theorem tmpfs_write_read `{Arch} (lo hi : Z) (s : fsys) (n : Z) (y : vfs_node_t) (x : tmpfs_file_t)
    (off sz buf buf' : Z) :
  tmpfs_ok lo hi s → vnodes s !! n = Some y → tfiles s !! fs_data y = Some x →
  0 ≤ off → 0 ≤ sz → off + sz + 7 < 2 ^ 32 → buf + sz ≤ lo ∨ hi ≤ buf → buf' + sz ≤ lo ∨ hi ≤ buf' →
  match tmpfs_write n off sz buf s with
  | Ok (r, s') => r = sz ∧ tmpfs_ok lo hi s' ∧ kept (OData (fs_data y)) s s' ∧
      (∃ z, tfiles s' !! fs_data y = Some z ∧ written (mem (fheap s)) x off sz buf s' z) ∧
      nsize (node s' n) = (if fsize x <? off + sz then off + sz else nsize y) ∧
      ∃ s'', tmpfs_read n off sz buf' s' = Ok (sz, s'') ∧
        ∀ i, 0 ≤ i < sz → ld (mem (fheap s'')) (buf' + i) = ld (mem (fheap s)) (buf + i)
  | r => r = oom
  end.
Proof.
  intros Hok En Ef H0 H1 H2 Hbuf Hbuf'.
  pose proof (tmpfs_write_cases lo hi s n y x off sz buf Hok En Ef H0 H1 H2 Hbuf) as Hw.
  destruct (tmpfs_write n off sz buf s) as [[r s']|m|]; [|done|done].
  destruct Hw as (-> & Hok' & Hk & (y' & Ev & Ey & _ & Esz) & z & Ez & Hz & Hin & Hout).
  assert (vnodes s' !! n = Some y') as En' by (by rewrite Ev, lookup_insert_eq).
  split; [done|]. split; [done|]. split; [done|]. split; [by exists z|].
  split; [unfold node; by rewrite En'|].
  assert (tfiles s' !! fs_data y' = Some z) as Ez' by (by rewrite Ey).
  destruct (tmpfs_read_cases lo hi s' n y' z off sz buf' Hok' En' Ez' H0 H1 ltac:(lia) (outside_clear lo hi s' buf' sz Hok' Hbuf')) as (s'' & Er & _ & _ & _ & Hld).
  exists s''. assert (Z.max 0 (Z.min sz (fsize z - off)) = sz) as Ek by lia. rewrite Ek in *.
  split; [done|]. intros i Hi. rewrite Hld, decide_True by lia.
  replace (data z + off + (buf' + i - buf')) with (data z + (off + i)) by lia.
  rewrite Hin by lia. f_equal. lia.
Qed.

(** *** The properties at a concrete file system: a root directory and a file
    [a] of two bytes, on the 32-bit target *)

Definition demo_bytes : memory := list_to_map [(100, 72); (101, 105)].
Definition demo_fs0 : fsys :=
  Fsys ∅ ∅ ∅ ∅ ∅ ∅ (heap_init (H := X86) 0x400000 0x10000 (Heap ∅ 0 0 demo_bytes)) [] 0.

Lemma demo_bytes_ok : mem_ok demo_bytes.
Proof.
  unfold demo_bytes. simpl. repeat (apply map_Forall_insert_2; [lia|]). apply map_Forall_empty.
Qed.
Definition demo_root : Z := Eval vm_compute in
  match tmpfs_create (H := X86) [114] demo_fs0 with Ok (n, _) => n | _ => 0 end.
Definition demo_fs1 : fsys :=
  match tmpfs_create (H := X86) [114] demo_fs0 with Ok (_, s) => s | _ => demo_fs0 end.
Definition demo_file : Z := Eval vm_compute in
  match tmpfs_mkfile (H := X86) demo_root [97] 100 2 demo_fs1 with Ok (n, _) => n | _ => 0 end.
Definition demo_fs2 : fsys :=
  match tmpfs_mkfile (H := X86) demo_root [97] 100 2 demo_fs1 with Ok (_, s) => s | _ => demo_fs0 end.

Lemma demo_fs0_ok : tmpfs_ok (H := X86) 0x400000 0x410000 demo_fs0.
Proof.
  split; [reflexivity|]. split; [|split_and!; intros k x E; unfold demo_fs0 in E; cbn [tdirs tfiles vnodes] in E;
    rewrite lookup_empty in E; discriminate E].
  split.
  - eexists. apply (heap_init_inv (H := X86) 0x400000 0x10000); [done|done|reflexivity].
  - split.
    + apply demo_bytes_ok.
    + split; intros [?|?|?|?|?]; cbn; by intros.
Qed.

Lemma demo_fs1_spec : tmpfs_create (H := X86) [114] demo_fs0 = Ok (demo_root, demo_fs1).
Proof. vm_compute. reflexivity. Qed.

Lemma demo_fs1_ok : tmpfs_ok (H := X86) 0x400000 0x410000 demo_fs1.
Proof.
  pose proof (tmpfs_create_cases (H := X86) 0x400000 0x410000 demo_fs0 [114] demo_fs0_ok) as Hc.
  rewrite demo_fs1_spec in Hc. apply Hc.
Qed.

Lemma demo_fs2_spec : tmpfs_mkfile (H := X86) demo_root [97] 100 2 demo_fs1 = Ok (demo_file, demo_fs2).
Proof. vm_compute. reflexivity. Qed.

Definition demo_root_node : vfs_node_t := Eval vm_compute in node demo_fs1 demo_root.
Definition demo_file_node : vfs_node_t := Eval vm_compute in node demo_fs2 demo_file.
Definition demo_file_obj : tmpfs_file_t := Eval vm_compute in file_at demo_fs2 (fs_data demo_file_node).

Lemma demo_root_node_spec : vnodes demo_fs1 !! demo_root = Some demo_root_node.
Proof. vm_compute. reflexivity. Qed.
Lemma demo_root_dir_spec : tdirs demo_fs1 !! fs_data demo_root_node = Some (TDir 0 0 0).
Proof. vm_compute. reflexivity. Qed.

Lemma tmpfs_mkfile_spec_witness :
  tmpfs_finddir (H := X86) demo_root [97] demo_fs2 = demo_file ∧ tmpfs_finddir (H := X86) demo_root [98] demo_fs2 = 0.
Proof.
  assert (100 + 2 ≤ 0x400000 ∨ 0x410000 ≤ 100) as Hs by (left; discriminate).
  pose proof (tmpfs_mkfile_spec (H := X86) 0x400000 0x410000 demo_fs1 demo_root demo_root_node (TDir 0 0 0) [97] 100 2
    demo_fs1_ok demo_root_node_spec demo_root_dir_spec ltac:(discriminate) ltac:(reflexivity) Hs) as Hm.
  rewrite demo_fs2_spec in Hm. destruct Hm as (_ & _ & _ & _ & Hf). rewrite !Hf. split; vm_compute; reflexivity.
Defined.

Lemma demo_fs2_ok : tmpfs_ok (H := X86) 0x400000 0x410000 demo_fs2.
Proof.
  assert (100 + 2 ≤ 0x400000 ∨ 0x410000 ≤ 100) as Hs by (left; discriminate).
  pose proof (tmpfs_mkfile_cases (H := X86) 0x400000 0x410000 demo_fs1 demo_root demo_root_node (TDir 0 0 0) [97] 100 2
    demo_fs1_ok demo_root_node_spec demo_root_dir_spec ltac:(discriminate) ltac:(reflexivity) Hs) as Hm.
  rewrite demo_fs2_spec in Hm. apply Hm.
Qed.

Lemma demo_file_node_spec : vnodes demo_fs2 !! demo_file = Some demo_file_node.
Proof. vm_compute. reflexivity. Qed.
Lemma demo_file_obj_spec : tfiles demo_fs2 !! fs_data demo_file_node = Some demo_file_obj.
Proof. vm_compute. reflexivity. Qed.

(** Two bytes at offset 1 of the two-byte file: it grows to three. *)
Lemma tmpfs_write_read_witness :
  match tmpfs_write (H := X86) demo_file 1 2 100 demo_fs2 with
  | Ok (r, s') => r = 2 ∧ nsize (node s' demo_file) = 3
  | _ => False
  end.
Proof.
  assert (100 + 2 ≤ 0x400000 ∨ 0x410000 ≤ 100) as Hs by (left; discriminate).
  assert (200 + 2 ≤ 0x400000 ∨ 0x410000 ≤ 200) as Hs' by (left; discriminate).
  pose proof (tmpfs_write_read (H := X86) 0x400000 0x410000 demo_fs2 demo_file demo_file_node demo_file_obj 1 2 100 200
    demo_fs2_ok demo_file_node_spec demo_file_obj_spec ltac:(discriminate) ltac:(discriminate) ltac:(reflexivity) Hs Hs') as Hm.
  assert (match tmpfs_write (H := X86) demo_file 1 2 100 demo_fs2 with Ok _ => true | _ => false end = true) as Ho
    by (vm_compute; reflexivity).
  destruct (tmpfs_write (H := X86) demo_file 1 2 100 demo_fs2) as [[r s']|m|].
  - destruct Hm as (Hr & _ & _ & _ & Hsz & _). split; [exact Hr|]. rewrite Hsz. vm_compute. reflexivity.
  - discriminate Ho.
  - discriminate Ho.
Defined.
