(* ===== verification/Fat32.v ===== *)
(** The FAT32 reader: src/kernel/fs/fat32.c.

    The block device is the callback [fat32_mount] is given: [read_sector lba b]
    is what the 512-byte buffer [b] holds after it was called for sector [lba];
    the code ignores its result. *)
From S2P Require Import Prelude CString Heap Vfs.

Definition FAT_EOC : Z := 0x0FFFFFF8.
Definition FAT_ATTR_VOLID : Z := 0x08.
Definition FAT_ATTR_DIR : Z := 0x10.
Definition FAT_ATTR_LFN : Z := 0x0F.

Class BlockDev := read_sector : Z → list Z → list Z.

Definition sizeof_vol `{Arch} : Z := match the_arch with X86 => 544 | X86_64 => 552 end.
Definition sizeof_ffile `{Arch} : Z := match the_arch with X86 => 16 | X86_64 => 24 end.
Definition sizeof_fdir `{Arch} : Z := match the_arch with X86 => 20 | X86_64 => 32 end.
Definition sizeof_lfn : Z := 32.

Definition vol_at (s : fsys) (v : Z) : fat32_vol_t := default (FVol 0 0 0 0 0 0 []) (fvols s !! v).
Definition ffile_at (s : fsys) (f : Z) : fat32_file_t := default (FFile 0 0 0) (ffiles s !! f).
Definition fdir_at (s : fsys) (d : Z) : fat32_dir_t := default (FDir 0 0 0 0 false) (fdirs s !! d).
Definition put_vol (v : Z) (x : fat32_vol_t) (s : fsys) : fsys :=
  Fsys (vnodes s) (tdirs s) (tfiles s) (<[v := x]> (fvols s)) (ffiles s) (fdirs s) (fheap s) (mounts s) (vfs_root s).
Definition put_ffile (f : Z) (x : fat32_file_t) (s : fsys) : fsys :=
  Fsys (vnodes s) (tdirs s) (tfiles s) (fvols s) (<[f := x]> (ffiles s)) (fdirs s) (fheap s) (mounts s) (vfs_root s).
Definition put_fdir (d : Z) (x : fat32_dir_t) (s : fsys) : fsys :=
  Fsys (vnodes s) (tdirs s) (tfiles s) (fvols s) (ffiles s) (<[d := x]> (fdirs s)) (fheap s) (mounts s) (vfs_root s).
Definition with_fmem (m : memory) (s : fsys) : fsys := with_fheap (with_mem (fheap s) m) s.

(** The [n]-byte little-endian number at [i] of a buffer. *)
Fixpoint rd_le (n : nat) (l : list Z) (i : Z) : Z :=
  match n with O => 0 | S n => rd l i + 256 * rd_le n l (i + 1) end.

(** Copying the bytes [l] of a buffer to memory. *)
Fixpoint st_bytes (a : Z) (l : list Z) (m : memory) : memory :=
  match l with [] => m | b :: l => st_bytes (a + 1) l (st a b m) end.

(** The bytes of an array up to the terminator. *)
Fixpoint c_string (l : list Z) : str :=
  match l with [] => [] | c :: l => if c =? 0 then [] else c :: c_string l end.

Section names.
(** [parse_83] on the directory entry at [de] of the buffer [b]. *)
Fixpoint until_space (n : nat) (b : list Z) (i : Z) : str :=
  match n with
  | O => []
  | S n => if rd b i =? 32 then [] else rd b i :: until_space n b (i + 1)
  end.
Definition parse_83 (b : list Z) (de : Z) : str :=
  c_string (until_space 8 b de ++
            if negb (rd b (de + 8) =? 32) then 46 :: until_space 3 b (de + 8) else []).

(** One of the loops of [parse_lfn], over UTF-16 units; [pos] is the length of
    what is written so far. *)
Fixpoint lfn_run (units : list Z) (out : str) : str :=
  match units with
  | [] => out
  | c :: units =>
      if (Z.of_nat (length out) <? 255) && negb (c =? 0) && negb (c =? 0xFFFF)
      then lfn_run units (out ++ [Z.land c 0xFF]) else out
  end.

(** [n] units at [a]. *)
Fixpoint units (n : nat) (a : Z) (m : memory) : list Z :=
  match n with O => [] | S n => ld_le 2 a m :: units n (a + 2) m end.

Definition parse_lfn (lfns : list Z) (m : memory) : str :=
  c_string (foldl (λ out l,
    if Z.of_nat (length out) <? 255 then
      lfn_run (units 2 (l + 28) m) (lfn_run (units 6 (l + 14) m) (lfn_run (units 5 (l + 1) m) out))
    else out) [] (rev lfns)).
End names.

Section code.
Context `{Arch} `{BlockDev}.

(** [v->read_sector(v->ctx, lba, v->sector_buf)] *)
Definition vol_read (v lba : Z) (s : fsys) : fsys :=
  let x := vol_at s v in
  put_vol v (FVol (part_lba x) (fat_lba x) (data_lba x) (root_cluster x) (sectors_per_cluster x)
               (bytes_per_cluster x) (read_sector lba (sector_buf x))) s.

Definition next_cluster (v cluster : Z) (s : fsys) : Z * fsys :=
  let fat_offset := u32 (cluster * 4) in
  let fat_sec := u32 (fat_lba (vol_at s v) + fat_offset / 512) in
  let fat_off := fat_offset mod 512 in
  let s := vol_read v fat_sec s in
  (Z.land (rd_le 4 (sector_buf (vol_at s v)) fat_off) 0x0FFFFFFF, s).

Definition cluster_to_lba (v : fat32_vol_t) (cluster : Z) : Z :=
  u32 (data_lba v + (cluster - 2) * sectors_per_cluster v).

(** The loop that skips to the cluster of the offset; [None] at the chain's end. *)
Fixpoint skip_clusters (skip : nat) (v cluster : Z) (s : fsys) : option Z * fsys :=
  match skip with
  | O => (Some cluster, s)
  | S k => let '(cluster, s) := next_cluster v cluster s in
           if FAT_EOC <=? cluster then (None, s) else skip_clusters k v cluster s
  end.

(** [while (wrote < chunk)] *)
Fixpoint read_chunk (fuel : nat) (v lba sec_off byte_off wrote chunk dst : Z) (s : fsys) : outcome fsys :=
  if chunk <=? wrote then Ok s else
  match fuel with
  | O => OutOfFuel
  | S k =>
      let s := vol_read v (u32 (lba + sec_off)) s in
      let take_ := if chunk - wrote <? 512 - byte_off then chunk - wrote else 512 - byte_off in
      let bytes := take (Z.to_nat take_) (drop (Z.to_nat byte_off) (sector_buf (vol_at s v))) in
      let s := with_fmem (st_bytes (uptr (dst + wrote)) bytes (mem (fheap s))) s in
      read_chunk k v lba (u32 (sec_off + 1)) 0 (u32 (wrote + take_)) chunk dst s
  end.

(** [while (read_total < size && cluster < FAT_EOC)] *)
Fixpoint read_clusters (fuel : nat) (v cluster in_cluster read_total size buf : Z) (s : fsys)
    : outcome (Z * fsys) :=
  if negb ((read_total <? size) && (cluster <? FAT_EOC)) then Ok (read_total, s) else
  match fuel with
  | O => OutOfFuel
  | S k =>
      let x := vol_at s v in
      let lba := cluster_to_lba x cluster in
      let avail := u32 (bytes_per_cluster x - in_cluster) in
      let chunk := if size - read_total <? avail then size - read_total else avail in
      s ← read_chunk (Z.to_nat chunk) v lba (in_cluster / 512) (in_cluster mod 512) 0 chunk
            (uptr (buf + read_total)) s;
      let read_total := u32 (read_total + chunk) in
      let '(cluster, s) := next_cluster v cluster s in
      read_clusters k v cluster 0 read_total size buf s
  end.

(** Dividing by a cluster size of zero raises exception 0. *)
Definition fat32_read_file (n off size buf : Z) (s : fsys) : outcome (Z * fsys) :=
  let f := ffile_at s (fs_data (node s n)) in
  let v := f_vol f in
  if f_size f <=? off then Ok (0, s) else
  let size := if f_size f <? u64 (off + size) then u32 (f_size f - off) else size in
  let bpc := bytes_per_cluster (vol_at s v) in
  let off32 := u32 off in
  if bpc =? 0 then Panic "Division by zero" else
  match skip_clusters (Z.to_nat (off32 / bpc)) v (start_cluster f) s with
  | (None, s) => Ok (0, s)
  | (Some cluster, s) => read_clusters (Z.to_nat size) v cluster (off32 mod bpc) 0 size buf s
  end.

Definition make_dir_node (v : Z) (nm : str) (cluster : Z) (s : fsys) : outcome (Z * fsys) :=
  '(d, h) ← kmalloc sizeof_fdir (fheap s);
  let s := put_fdir d (FDir v cluster 0 0 false) (with_fheap (with_mem h (memset d 0 sizeof_fdir (mem h))) s) in
  '(n, h) ← kmalloc sizeof_node (fheap s);
  let s := with_fheap (with_mem h (memset n 0 sizeof_node (mem h))) s in
  Ok (n, put_node n (Node (take 255 nm) VFS_DIR 0 d None None (Some fat32_readdir_fn)
                          (Some fat32_finddir_fn) None None 0) s).

Fixpoint kfree_all (ps : list Z) (s : fsys) : outcome fsys :=
  match ps with
  | [] => Ok s
  | p :: ps => h ← kfree p (fheap s); kfree_all ps (with_fheap h s)
  end.

(** The locals of [load_dir]: the pointers in [lfns] and the array's capacity. *)
Record load_st := LoadSt { lfns : list Z; lcap : Z }.

(** The name of a node: the long one, whose entries are freed, or the short one. *)
Definition entry_name (de : Z) (b : list Z) (l : load_st) (s : fsys) : outcome (str * fsys) :=
  if 0 <? Z.of_nat (length (lfns l)) then
    let nm := parse_lfn (lfns l) (mem (fheap s)) in
    s ← kfree_all (lfns l) s; Ok (nm, s)
  else Ok (parse_83 b de, s).

(** The directory or the file behind the node [n]. *)
Definition entry_object (v n de : Z) (b : list Z) (nm : str) (s : fsys) : outcome fsys :=
  let cluster_start := Z.lor (u32 (Z.shiftl (rd_le 2 b (de + 20)) 16)) (rd_le 2 b (de + 26)) in
  if negb (Z.land (rd b (de + 11)) FAT_ATTR_DIR =? 0) then
    '(x, s) ← make_dir_node v nm cluster_start s;
    Ok (put_node n (Node nm VFS_DIR 0 (fs_data (node s x)) None None (Some fat32_readdir_fn)
                         (Some fat32_finddir_fn) None None 0) s)
  else
    '(f, h) ← kmalloc sizeof_ffile (fheap s);
    let s := put_ffile f (FFile v cluster_start (rd_le 4 b (de + 28))) (with_fheap h s) in
    Ok (put_node n (Node nm VFS_FILE (rd_le 4 b (de + 28)) f (Some fat32_read_file_fn) None
                         None None None None 0) s).

(** [if (dir->count >= cap)]: room for one more entry. *)
Definition entry_room (d cap : Z) (s : fsys) : outcome (Z * fsys) :=
  let x := fdir_at s d in
  if cap <=? d_count x then
    let cap := if negb (cap =? 0) then u32 (cap * 2) else 8 in
    '(p, h) ← krealloc (d_entries x) (uptr (cap * W)) (fheap s);
    Ok (cap, put_fdir d (FDir (d_vol x) (d_cluster x) p (d_count x) (loaded x)) (with_fheap h s))
  else Ok (cap, s).

(** [dir->entries[dir->count++] = node;] *)
Definition entry_store (d n : Z) (s : fsys) : fsys :=
  let x := fdir_at s d in
  let s := with_fmem (st_word (d_entries x + d_count x * W) n (mem (fheap s))) s in
  put_fdir d (FDir (d_vol x) (d_cluster x) (d_entries x) (u32 (d_count x + 1)) (loaded x)) s.

(** One directory entry; [true] is [goto done]. *)
Definition load_entry (d v : Z) (i : Z) (l : load_st) (s : fsys) : outcome (bool * load_st * fsys) :=
  let b := sector_buf (vol_at s v) in
  let de := 32 * i in
  let attr := rd b (de + 11) in
  if rd b de =? 0 then Ok (true, l, s) else
  if rd b de =? 0xE5 then Ok (false, LoadSt [] (lcap l), s) else
  if attr =? FAT_ATTR_LFN then
    if Z.of_nat (length (lfns l)) <? 20 then
      '(p, h) ← kmalloc sizeof_lfn (fheap s);
      let h := with_mem h (st_bytes p (take 32 (drop (Z.to_nat de) b)) (mem h)) in
      Ok (false, LoadSt (lfns l ++ [p]) (lcap l), with_fheap h s)
    else Ok (false, l, s)
  else if negb (Z.land attr FAT_ATTR_VOLID =? 0) then Ok (false, LoadSt [] (lcap l), s) else
  if rd b de =? 46 then Ok (false, LoadSt [] (lcap l), s) else
  '(n, h) ← kmalloc sizeof_node (fheap s);
  let s := with_fheap (with_mem h (memset n 0 sizeof_node (mem h))) s in
  '(nm, s) ← entry_name de b l s;
  s ← entry_object v n de b nm s;
  '(cap, s) ← entry_room d (lcap l) s;
  Ok (false, LoadSt [] cap, entry_store d n s).

(** The 16 entries of a sector, the sectors of a cluster, the clusters. *)
Fixpoint load_sector (k : nat) (d v i : Z) (l : load_st) (s : fsys) : outcome (bool * load_st * fsys) :=
  match k with
  | O => Ok (false, l, s)
  | S k => '(stop, l, s) ← load_entry d v i l s;
           if (stop : bool) then Ok (true, l, s) else load_sector k d v (i + 1) l s
  end.

Fixpoint load_cluster (k : nat) (d v lba sec : Z) (l : load_st) (s : fsys) : outcome (bool * load_st * fsys) :=
  match k with
  | O => Ok (false, l, s)
  | S k => let s := vol_read v (u32 (lba + sec)) s in
           '(stop, l, s) ← load_sector 16 d v 0 l s;
           if (stop : bool) then Ok (true, l, s) else load_cluster k d v lba (sec + 1) l s
  end.

Fixpoint load_clusters (fuel : nat) (d v cluster : Z) (l : load_st) (s : fsys) : outcome fsys :=
  if FAT_EOC <=? cluster then Ok s else
  match fuel with
  | O => OutOfFuel
  | S k =>
      let x := vol_at s v in
      '(stop, l, s) ← load_cluster (Z.to_nat (sectors_per_cluster x)) d v (cluster_to_lba x cluster) 0 l s;
      if (stop : bool) then Ok s else
      let '(cluster, s) := next_cluster v cluster s in
      load_clusters k d v cluster l s
  end.

(** [fuel] bounds the clusters visited: the code has no bound, and a chain with
    a cycle and no end marker keeps it in the loop. *)
Definition load_dir (fuel : nat) (d : Z) (s : fsys) : outcome fsys :=
  let x := fdir_at s d in
  '(buf, h) ← kmalloc (bytes_per_cluster (vol_at s (d_vol x))) (fheap s);
  let s := put_fdir d (FDir (d_vol x) (d_cluster x) 0 0 (loaded x)) (with_fheap h s) in
  s ← load_clusters fuel d (d_vol x) (d_cluster x) (LoadSt [] 0) s;
  h ← kfree buf (fheap s);
  let x := fdir_at s d in
  Ok (put_fdir d (FDir (d_vol x) (d_cluster x) (d_entries x) (d_count x) true) (with_fheap h s)).

Definition fentry (s : fsys) (d : fat32_dir_t) (i : Z) : Z := ld_word (mem (fheap s)) (d_entries d + i * W).

Fixpoint find_fentry (k : nat) (i : Z) (d : fat32_dir_t) (nm : str) (s : fsys) : Z :=
  match k with
  | O => 0
  | S k => let e := fentry s d i in
           if bool_decide (name (node s e) = nm) then e else find_fentry k (i + 1) d nm s
  end.

Definition fat32_finddir (fuel : nat) (n : Z) (nm : str) (s : fsys) : outcome (Z * fsys) :=
  let d := fs_data (node s n) in
  s ← (if negb (loaded (fdir_at s d)) then load_dir fuel d s else Ok s);
  let x := fdir_at s d in
  Ok (find_fentry (Z.to_nat (d_count x)) 0 x nm s, s).

Definition fat32_readdir (fuel : nat) (n idx : Z) (s : fsys) : outcome (Z * fsys) :=
  let d := fs_data (node s n) in
  s ← (if negb (loaded (fdir_at s d)) then load_dir fuel d s else Ok s);
  let x := fdir_at s d in
  Ok (if idx <? d_count x then fentry s x idx else 0, s).

(** The offsets are those of [fat32_bpb_t]. *)
Definition fat32_mount (part_lba : Z) (s : fsys) : outcome (Z * fsys) :=
  '(v, h) ← kmalloc sizeof_vol (fheap s);
  let s := put_vol v (FVol part_lba 0 0 0 0 0 (replicate 512 0))
             (with_fheap (with_mem h (memset v 0 sizeof_vol (mem h))) s) in
  let s := vol_read v part_lba s in
  let bpb := sector_buf (vol_at s v) in
  if negb (rd_le 2 bpb 11 =? 512) then
    h ← kfree v (fheap s); Ok (0, with_fheap h s)
  else
    let spc := rd bpb 13 in
    let fat := u32 (part_lba + rd_le 2 bpb 14) in
    let data := u32 (fat + rd bpb 16 * rd_le 4 bpb 36) in
    let s := put_vol v (FVol part_lba fat data (rd_le 4 bpb 44) spc (u32 (spc * 512)) bpb) s in
    make_dir_node v [102; 97; 116; 51; 50] (rd_le 4 bpb 44) s.
End code.

(** ** Names *)

Lemma c_string_nonzero l : Forall (λ c, c ≠ 0) l → c_string l = l.
Proof.
  induction 1 as [|c l Hc Hl IH]; [done|]. cbn [c_string]. by rewrite (proj2 (Z.eqb_neq c 0)), IH.
Qed.

(** A field of [n] bytes at [i] of a buffer that holds [l] padded with spaces. *)
Definition field (b : list Z) (i : Z) (n : nat) (l : list Z) : Prop :=
  (length l ≤ n)%nat ∧ Forall (λ c, 0 < c < 256 ∧ c ≠ 32) l ∧
  ∀ k, (k < n)%nat → rd b (i + Z.of_nat k) = default 32 (l !! k).

Lemma until_space_field b : ∀ n i l, field b i n l → until_space n b i = l.
Proof.
  induction n as [|n IH]; intros i l (Hn & Hl & Hb); [by destruct l; [|simpl in Hn; lia]|].
  cbn [until_space]. pose proof (Hb 0%nat ltac:(lia)) as H0. rewrite Z.add_0_r in H0. rewrite H0.
  destruct l as [|c l]; [done|]. cbn. apply Forall_cons_1 in Hl as [[Hc Hs] Hl].
  rewrite (proj2 (Z.eqb_neq c 32)) by done. f_equal. apply IH. split_and!; [simpl in Hn; lia|done|].
  intros k Hk. transitivity (rd b (i + Z.of_nat (S k))); [f_equal; lia|]. exact (Hb (S k) ltac:(lia)).
Qed.

(** The 13 units of a long-name entry. *)
Definition lfn_units (m : memory) (l : Z) : list Z :=
  units 5 (l + 1) m ++ units 6 (l + 14) m ++ units 2 (l + 28) m.

(** The units of a name in entries of 13, the last one ended by 0 and padded
    with 0xFFFF when the name does not fill it. *)
Fixpoint lfn_encode (fuel : nat) (l : str) : list (list Z) :=
  match fuel with
  | O => []
  | S k =>
      if Z.of_nat (length l) <? 13 then
        match l with [] => [] | _ => [l ++ 0 :: replicate (12 - length l) 0xFFFF] end
      else take 13 l :: lfn_encode k (drop 13 l)
  end.

Definition lfn_char (c : Z) : Prop := 0 < c < 256.

Lemma lfn_run_chars l out rest :
  Forall lfn_char l → (length out + length l ≤ 255)%nat →
  lfn_run (l ++ rest) out = lfn_run rest (out ++ l).
Proof.
  revert out. induction l as [|c l IH]; intros out Hl Hn; [by rewrite app_nil_r|].
  apply Forall_cons_1 in Hl as [Hc Hl]. unfold lfn_char in Hc. cbn [length] in Hn. cbn [lfn_run app].
  assert ((Z.of_nat (length out) <? 255) = true) as -> by lia. assert ((c =? 0) = false) as -> by lia.
  assert ((c =? 65535) = false) as -> by lia. cbn [negb andb].
  assert (Z.land c 255 = c) as ->.
  { change 255 with (Z.ones 8). rewrite Z.land_ones by lia. apply Z.mod_small. lia. }
  rewrite IH by (done || (rewrite length_app; simpl; lia)). by rewrite <- app_assoc.
Qed.

(** The three loops over an entry's fields are one loop over its units when
    nothing readable follows a terminator. *)
Lemma lfn_run_stop l out :
  (∀ c, In c l → c = 0 ∨ c = 0xFFFF) → lfn_run l out = out.
Proof.
  destruct l as [|c l]; intros Hl; [done|]. cbn [lfn_run].
  destruct (Hl c (or_introl eq_refl)) as [-> | ->]; by rewrite ?andb_false_r.
Qed.

Lemma lfn_run_app_stop l k out :
  Forall lfn_char l → (length out + length l ≤ 255)%nat → (∀ c, In c k → c = 0 ∨ c = 0xFFFF) →
  ∀ a b d, l ++ k = a ++ b ++ d → lfn_run d (lfn_run b (lfn_run a out)) = out ++ l.
Proof.
  intros Hl Hn Hk a b d E.
  assert (∀ w l k out z, Forall lfn_char l → (length out + length l ≤ 255)%nat → (∀ c, In c k → c = 0 ∨ c = 0xFFFF) →
    l ++ k = w ++ z → ∃ l' k', lfn_run w out ++ l' = out ++ l ∧ z = l' ++ k' ∧ Forall lfn_char l' ∧
      (∀ c, In c k' → c = 0 ∨ c = 0xFFFF) ∧ (length (lfn_run w out) + length l' ≤ 255)%nat) as Hstep.
  { clear. intros w l k out z Hl Hn Hk E.
    apply app_eq_app in E as (r & [[-> ->]|[-> ->]]).
    - apply Forall_app in Hl as [Hw Hr]. rewrite length_app in Hn. exists r, k.
      rewrite <- (app_nil_r w), lfn_run_chars by (done || lia). cbn [lfn_run]. rewrite app_nil_r.
      split_and!; [by rewrite app_assoc|done|done|done|]. rewrite length_app. lia.
    - exists [], z. rewrite lfn_run_chars by done. rewrite lfn_run_stop by (intros c Hc; apply Hk, in_or_app; by left).
      split_and!; [by rewrite app_nil_r|done|constructor| |].
      + intros c Hc. apply Hk, in_or_app. by right.
      + rewrite length_app. simpl. lia. }
  destruct (Hstep a l k out (b ++ d) Hl Hn Hk E) as (l1 & k1 & E1 & E1' & Hl1 & Hk1 & Hn1).
  symmetry in E1'.
  destruct (Hstep b l1 k1 _ d Hl1 Hn1 Hk1 E1') as (l2 & k2 & E2 & -> & Hl2 & Hk2 & Hn2).
  rewrite lfn_run_chars by done. rewrite lfn_run_stop by done. by rewrite E2, E1.
Qed.

Lemma cons_eq_inv {A} (x y : A) l k : x :: l = y :: k → x = y ∧ l = k.
Proof. intros E. split; congruence. Qed.

(** [parse_lfn] reads back the entries of a name, last entry first on disk. *)
Lemma parse_lfn_encode m nm ls :
  Forall lfn_char nm → (length nm ≤ 255)%nat → lfn_units m <$> rev ls = lfn_encode 20 nm → parse_lfn ls m = nm.
Proof.
  intros Hnm Hlen E. unfold parse_lfn.
  assert (∀ fuel rs out nm, Forall lfn_char nm → (length out + length nm ≤ 255)%nat → (length nm ≤ fuel * 13)%nat →
    lfn_units m <$> rs = lfn_encode fuel nm →
    foldl (λ out l, if Z.of_nat (length out) <? 255 then
      lfn_run (units 2 (l + 28) m) (lfn_run (units 6 (l + 14) m) (lfn_run (units 5 (l + 1) m) out))
      else out) out rs = out ++ nm) as Hfold.
  { clear. induction fuel as [|fuel IH]; intros rs out nm Hnm Hn Hf E.
    { destruct rs; [|done]. destruct nm; [by rewrite app_nil_r|simpl in Hf; lia]. }
    cbn [lfn_encode] in E. destruct (Z.ltb_spec (Z.of_nat (length nm)) 13) as [Hlt|Hge].
    - destruct nm as [|c nm]; [destruct rs; [by rewrite app_nil_r|done]|].
      destruct rs as [|r [|r' rs]]; try done. cbn [fmap list_fmap] in E. apply cons_eq_inv in E as [E _]. cbn [foldl]. assert ((Z.of_nat (length out) <? 255) = true) as -> by (simpl in Hn; lia).
      eapply lfn_run_app_stop; [exact Hnm|exact Hn| |symmetry; exact E].
      intros x [<-|Hx]; [by left|right]. apply list_elem_of_In, elem_of_replicate in Hx as [-> _]. done.
    - assert (length nm ≠ 0%nat) as Hne by lia.
      destruct rs as [|r rs]; [done|]. cbn [fmap list_fmap] in E. apply cons_eq_inv in E as [E Er]. cbn [foldl].
      assert ((Z.of_nat (length out) <? 255) = true) as -> by lia.
      assert (Forall lfn_char (take 13 nm) ∧ Forall lfn_char (drop 13 nm)) as [Ht Hd].
      { rewrite <- (take_drop 13 nm) in Hnm. by apply Forall_app in Hnm. }
      rewrite (lfn_run_app_stop (take 13 nm) [] out Ht); [|rewrite length_take; lia|done|].
      2: { rewrite app_nil_r. symmetry. exact E. }
      rewrite (IH rs (out ++ take 13 nm) (drop 13 nm) Hd); [| | |exact Er].
      + by rewrite <- app_assoc, take_drop.
      + rewrite length_app, length_take, length_drop. lia.
      + rewrite length_drop. lia. }
  rewrite (Hfold 20%nat (rev ls) [] nm Hnm) by (simpl; lia || done). apply c_string_nonzero.
  eapply Forall_impl; [|exact Hnm]. unfold lfn_char. intros; lia.
Qed.

(** ** Reading a file *)

Section read.
Context `{Arch} `{BlockDev} (disk : Z → list Z).

(** The device: every sector can be read and has 512 bytes. *)
Definition disk_ok : Prop :=
  (∀ lba b, read_sector lba b = disk lba) ∧
  ∀ lba, length (disk lba) = 512%nat ∧ Forall (λ c, 0 ≤ c < 2 ^ 8) (disk lba).

(** The table entry of a cluster, the clusters of a chain and the bytes of the
    file that starts it. *)
Definition fat_next (x : fat32_vol_t) (c : Z) : Z :=
  Z.land (rd_le 4 (disk (u32 (fat_lba x + u32 (c * 4) / 512))) (u32 (c * 4) mod 512)) 0x0FFFFFFF.
Definition chain (x : fat32_vol_t) (c j : Z) : Z := Nat.iter (Z.to_nat j) (fat_next x) c.
Definition file_byte (x : fat32_vol_t) (c i : Z) : Z :=
  let p := i mod bytes_per_cluster x in
  rd (disk (u32 (cluster_to_lba x (chain x c (i / bytes_per_cluster x)) + p / 512))) (p mod 512).

Context (Hdisk : disk_ok).

Lemma st_bytes_spec l : ∀ a m b, Forall (λ c, 0 ≤ c < 2 ^ 8) l →
  ld (st_bytes a l m) b = if decide (a ≤ b < a + Z.of_nat (length l)) then rd l (b - a) else ld m b.
Proof.
  induction l as [|c l IH]; intros a m b Hl; cbn [st_bytes length].
  { by rewrite decide_False by lia. }
  apply Forall_cons_1 in Hl as [Hc Hl]. rewrite IH, ld_st by done. rewrite (wrap_small 8 c) by lia.
  unfold rd. destruct (decide (a = b)) as [->|Hne].
  - rewrite decide_False, decide_True by lia. by rewrite Z.sub_diag.
  - repeat case_decide; try lia; try done. replace (Z.to_nat (b - a)) with (S (Z.to_nat (b - (a + 1)))) by lia. done.
Qed.

(** The state while the volume [x] at [v] is read: a memory and a buffer. *)
Definition set_buf (x : fat32_vol_t) (b : list Z) : fat32_vol_t :=
  FVol (part_lba x) (fat_lba x) (data_lba x) (root_cluster x) (sectors_per_cluster x) (bytes_per_cluster x) b.
Definition reading (s : fsys) (v : Z) (x : fat32_vol_t) (m : memory) (b : list Z) : fsys :=
  with_fmem m (put_vol v (set_buf x b) s).

Lemma reading_start s v x : fvols s !! v = Some x → reading s v x (mem (fheap s)) (sector_buf x) = s.
Proof.
  intros E. unfold reading, with_fmem, put_vol, with_fheap, with_mem. destruct s as [? ? ? vs ? ? h ? ?], h. cbn in *.
  f_equal. destruct x. by apply insert_id.
Qed.

Lemma list_rd_slice l i k n : 0 ≤ i → 0 ≤ n < k → rd (take (Z.to_nat k) (drop (Z.to_nat i) l)) n = rd l (i + n).
Proof.
  intros Hi Hn. unfold rd. rewrite lookup_take_lt, lookup_drop by lia. f_equal. f_equal. lia.
Qed.

Section volume.
Context (s : fsys) (v : Z) (x : fat32_vol_t).
Abbreviation R := (reading s v x).

Lemma vol_reading m b : vol_at (R m b) v = set_buf x b.
Proof. unfold vol_at, reading. cbn. by rewrite lookup_insert_eq. Qed.

Lemma vol_read_reading m b lba : vol_read v lba (R m b) = R m (disk lba).
Proof.
  unfold vol_read. rewrite vol_reading, (proj1 Hdisk). unfold reading, with_fmem, put_vol, with_fheap. cbn.
  f_equal. by rewrite insert_insert_eq.
Qed.

Lemma with_fmem_reading m b m' : with_fmem m' (R m b) = R m' b.
Proof. done. Qed.

Lemma next_cluster_reading m b c : ∃ b', next_cluster v c (R m b) = (fat_next x c, R m b').
Proof. unfold next_cluster. rewrite vol_read_reading, !vol_reading. by eexists. Qed.

Lemma chain_S c j : 0 ≤ j → chain x c (j + 1) = fat_next x (chain x c j).
Proof. intros Hj. unfold chain. by replace (Z.to_nat (j + 1)) with (S (Z.to_nat j)) by lia. Qed.

Lemma skip_reading n : ∀ c m b j, 0 ≤ j →
  (∀ i, j < i ≤ j + Z.of_nat n → chain x c i < FAT_EOC) →
  ∃ b', skip_clusters n v (chain x c j) (R m b) = (Some (chain x c (j + Z.of_nat n)), R m b').
Proof.
  induction n as [|n IH]; intros c m b j Hj Hc; cbn [skip_clusters].
  { exists b. by rewrite Z.add_0_r. }
  destruct (next_cluster_reading m b (chain x c j)) as [b' ->]. rewrite <- chain_S by done.
  rewrite (proj2 (Z.leb_gt _ _)) by (apply Hc; lia).
  destruct (IH c m b' (j + 1) ltac:(lia)) as [b'' ->]; [intros i Hi; apply Hc; lia|].
  exists b''. by replace (j + 1 + Z.of_nat n) with (j + Z.of_nat (S n)) by lia.
Qed.

(** One cluster's part: [ic + wrote] is the position in the cluster. *)
Lemma read_chunk_reading lba ic chunk dst : ∀ fuel sec byte wrote m b,
  0 ≤ wrote ≤ chunk → (wrote < chunk → sec * 512 + byte = ic + wrote) → 0 ≤ byte < 512 → 0 ≤ sec → 0 ≤ dst →
  dst + chunk ≤ 2 ^ word_bits → 0 ≤ ic → ic + chunk < 2 ^ 32 → (Z.to_nat (chunk - wrote) ≤ fuel)%nat →
  ∃ m' b', read_chunk fuel v lba sec byte wrote chunk dst (R m b) = Ok (R m' b') ∧
    ∀ a, ld m' a = if decide (dst + wrote ≤ a < dst + chunk)
                   then rd (disk (u32 (lba + (ic + (a - dst)) / 512))) ((ic + (a - dst)) mod 512)
                   else ld m a.
Proof.
  induction fuel as [|fuel IH]; intros sec byte wrote m b Hw Hpos Hb Hs Hd Hdw Hic0 Hic Hf; cbn [read_chunk].
  - rewrite (proj2 (Z.leb_le _ _)) by lia. exists m, b. split; [done|]. intros a. by rewrite decide_False by lia.
  - destruct (Z.leb_spec chunk wrote) as [Hle|Hlt].
    { exists m, b. split; [done|]. intros a. by rewrite decide_False by lia. }
    pose proof (Hpos Hlt) as Hp.
    rewrite vol_read_reading, vol_reading. cbn [sector_buf set_buf].
    set (tk := if _ <? _ then _ else _).
    assert (tk = Z.min (chunk - wrote) (512 - byte)) as Htk by (unfold tk; case_test; lia). clearbody tk.
    set (lb := u32 (lba + sec)). destruct (proj2 Hdisk lb) as [Hlen Hbytes].
    set (bs := take (Z.to_nat tk) (drop (Z.to_nat byte) (disk lb))).
    assert (Z.of_nat (length bs) = tk) as Hbs by (unfold bs; rewrite length_take, length_drop, Hlen; lia).
    assert (Forall (λ c, 0 ≤ c < 2 ^ 8) bs) as Hbf.
    { unfold bs. rewrite <- (take_drop (Z.to_nat byte) (disk lb)) in Hbytes. apply Forall_app in Hbytes as [_ Hb2].
      rewrite <- (take_drop (Z.to_nat tk) (drop (Z.to_nat byte) (disk lb))) in Hb2. by apply Forall_app in Hb2 as [? _]. }
    change (mem (fheap (R m (disk lb)))) with m. rewrite with_fmem_reading.
    rewrite (wrap_small word_bits), (wrap_small 32 (sec + 1)), (wrap_small 32 (wrote + tk)) by lia.
    destruct (IH (sec + 1) 0 (wrote + tk) (st_bytes (dst + wrote) bs m) (disk lb)) as (m' & b' & E & Hm');
      try lia.
    rewrite E. exists m', b'. split; [done|]. intros a. rewrite Hm', st_bytes_spec, Hbs by done.
    destruct (decide (dst + wrote + tk ≤ a < dst + chunk)).
    + by rewrite !decide_True by lia.
    + rewrite decide_False by lia. destruct (decide (dst + wrote ≤ a < dst + wrote + tk)) as [Hin|Hout].
      * rewrite !decide_True by lia. unfold bs. rewrite list_rd_slice by lia.
        assert (ic + (a - dst) = sec * 512 + (byte + (a - (dst + wrote)))) as -> by lia.
        set (q := byte + (a - (dst + wrote))). assert (0 ≤ q < 512) by (unfold q; lia).
        assert ((sec * 512 + q) / 512 = sec) as -> by dlia. by assert ((sec * 512 + q) mod 512 = q) as -> by dlia.
      * by rewrite !decide_False by lia.
Qed.

(** The whole request: from cluster [j], at position [ic] in it. *)
Lemma read_clusters_reading c size buf off : ∀ fuel j ic rt m b,
  0 < bytes_per_cluster x < 2 ^ 32 → 0 ≤ off → 0 ≤ rt ≤ size → 0 ≤ j → 0 ≤ ic < bytes_per_cluster x →
  (rt < size → off + rt = j * bytes_per_cluster x + ic) → off + size < 2 ^ 32 → 0 ≤ buf → buf + size ≤ 2 ^ word_bits →
  (∀ i, j ≤ i → i * bytes_per_cluster x < off + size → chain x c i < FAT_EOC) → (Z.to_nat (size - rt) ≤ fuel)%nat →
  ∃ m' b', read_clusters fuel v (chain x c j) ic rt size buf (R m b) = Ok (size, R m' b') ∧
    ∀ a, ld m' a = if decide (buf + rt ≤ a < buf + size) then file_byte x c (off + (a - buf)) else ld m a.
Proof.
  induction fuel as [|fuel IH]; intros j ic rt m b Hbpc Hoff Hrt Hj Hic Hpos Hend Hbuf Hbw Hch Hf; cbn [read_clusters].
  - rewrite (proj2 (Z.ltb_ge rt size)) by lia. cbn [negb andb]. replace size with rt by lia.
    exists m, b. split; [done|]. intros a. by rewrite decide_False by lia.
  - destruct (Z.ltb_spec rt size) as [Hlt|Hge].
    2: { cbn [negb andb]. replace size with rt by lia. exists m, b. split; [done|]. intros a. by rewrite decide_False by lia. }
    rewrite (proj2 (Z.ltb_lt (chain x c j) FAT_EOC)) by (apply Hch; nia). cbn [negb andb].
    rewrite vol_reading. change (bytes_per_cluster (set_buf x b)) with (bytes_per_cluster x).
    change (cluster_to_lba (set_buf x b)) with (cluster_to_lba x).
    set (bpc := bytes_per_cluster x) in *. rewrite (wrap_small 32 (bpc - ic)) by lia.
    set (chunk := if _ <? _ then _ else _).
    assert (chunk = Z.min (size - rt) (bpc - ic)) as Hck by (unfold chunk; case_test; lia). clearbody chunk.
    rewrite (wrap_small word_bits) by lia.
    destruct (read_chunk_reading (cluster_to_lba x (chain x c j)) ic chunk (buf + rt) (Z.to_nat chunk)
      (ic / 512) (ic mod 512) 0 m b) as (m1 & b1 & -> & Hm1); [lia|intros _; dlia|dlia|dlia|lia|lia|lia|lia|lia|].
    cbn [mbind outcome_bind]. rewrite (wrap_small 32 (rt + chunk)) by lia.
    destruct (next_cluster_reading m1 b1 (chain x c j)) as [b2 ->]. rewrite <- chain_S by done.
    destruct (IH (j + 1) 0 (rt + chunk) m1 b2) as (m2 & b3 & E & Hm2); try lia.
    { intros i Hi. apply Hch. lia. }
    exists m2, b3. split; [exact E|]. intros a. rewrite Hm2, Hm1.
    destruct (decide (buf + (rt + chunk) ≤ a < buf + size)).
    + by rewrite decide_True by lia.
    + destruct (decide (buf + rt ≤ a < buf + size)).
      * rewrite decide_True by lia. unfold file_byte. fold bpc.
        assert (off + (a - buf) = j * bpc + (ic + (a - (buf + rt)))) as -> by lia.
        set (q := ic + (a - (buf + rt))). assert (0 ≤ q < bpc) as Hq by (unfold q; lia).
        clearbody q.
        assert (bpc ≠ 0) as Hnz by lia. rewrite (Z.add_comm (j * bpc) q), (Z.mod_add q j bpc Hnz), (Z.div_add q j bpc Hnz).
        by rewrite (Z.mod_small q bpc Hq), (Z.div_small q bpc Hq).
      * by rewrite decide_False by lia.
Qed.
End volume.
End read.

(** ** The properties *)

(** On a device whose sectors can be read, reading [size] bytes of a file at
    [off] terminates, returns [min(size, f_size - off)], or 0 past the end, and
    puts at [buf] exactly the file's bytes from [off] on, wherever the range
    starts and ends in the clusters of the chain; no other memory and no other
    object changes.  The chain must hold the clusters the range needs. *)
Theorem fat32_read_file_correct `{Arch} `{BlockDev} (disk : Z → list Z) (s : fsys) (n off size buf : Z)
    (y : vfs_node_t) (f : fat32_file_t) (x : fat32_vol_t) :
  disk_ok disk → vnodes s !! n = Some y → ffiles s !! fs_data y = Some f → fvols s !! f_vol f = Some x →
  0 < bytes_per_cluster x < 2 ^ 32 → 0 ≤ f_size f < 2 ^ 32 → 0 ≤ off → 0 < size → off + size < 2 ^ 64 →
  0 ≤ buf → buf + size ≤ 2 ^ word_bits →
  let k := Z.max 0 (Z.min size (f_size f - off)) in
  (∀ i, 0 ≤ i → i * bytes_per_cluster x < off + k → chain disk x (start_cluster f) i < FAT_EOC) →
  ∃ m b, fat32_read_file n off size buf s = Ok (k, reading s (f_vol f) x m b) ∧
    ∀ a, ld m a = if decide (buf ≤ a < buf + k) then file_byte disk x (start_cluster f) (off + (a - buf))
                  else ld (mem (fheap s)) a.
Proof.
  intros Hd En Ef Ev Hbpc Hfs Hoff Hsize Hos Hbuf Hbw k Hch. unfold fat32_read_file, node. rewrite En. cbn [default].
  unfold ffile_at. cbn. rewrite Ef. cbn. unfold vol_at. rewrite Ev. cbn. fold (u32 off).
  destruct (Z.leb_spec (f_size f) off) as [Hle|Hlt].
  { exists (mem (fheap s)), (sector_buf x). rewrite reading_start by done. replace k with 0 by lia.
    split; [done|]. intros a. by rewrite decide_False by lia. }
  rewrite (wrap_small 64) by lia.
  assert ((if f_size f <? off + size then u32 (f_size f - off) else size) = k) as ->.
  { case_test; [rewrite wrap_small by lia|]; lia. }
  rewrite (proj2 (Z.eqb_neq _ 0)) by lia. rewrite (wrap_small 32 off) by lia.
  set (bpc := bytes_per_cluster x) in *. assert (0 ≤ off / bpc) as Hq by (apply Z.div_pos; lia).
  assert (off = off / bpc * bpc + off mod bpc ∧ 0 ≤ off mod bpc < bpc) as [Hdm Hmod].
  { pose proof (Z.div_mod off bpc ltac:(lia)). pose proof (Z.mod_pos_bound off bpc ltac:(lia)). lia. }
  destruct (skip_reading disk Hd s (f_vol f) x (Z.to_nat (off / bpc)) (start_cluster f) (mem (fheap s)) (sector_buf x) 0)
    as [b1 Esk]; [lia|intros i Hi; apply Hch; [lia|nia]|].
  change (chain disk x (start_cluster f) 0) with (start_cluster f) in Esk.
  rewrite (reading_start s (f_vol f) x Ev) in Esk. rewrite Esk.
  rewrite Z2Nat.id, Z.add_0_l by lia.
  destruct (read_clusters_reading disk Hd s (f_vol f) x (start_cluster f) k buf off (Z.to_nat k) (off / bpc)
    (off mod bpc) 0 (mem (fheap s)) b1) as (m & b & E & Hm); try lia.
  { intros i Hi Hb. apply Hch; [lia|done]. }
  exists m, b. split; [exact E|]. intros a. rewrite Hm. by rewrite Z.add_0_r.
Qed.

(** Names survive: an 8.3 entry whose fields hold a name and an extension
    without spaces reads as [name.ext], or as [name] without an extension; the
    long-name entries of a name of up to 255 one-byte characters, stored last
    part first as on disk, read back as that name. *)
Theorem fat32_names (b : list Z) (de : Z) (nm ext : str) (m : memory) (ls : list Z) (long : str) :
  field b de 8 nm → field b (de + 8) 3 ext → Forall lfn_char long → (length long ≤ 255)%nat →
  lfn_units m <$> rev ls = lfn_encode 20 long →
  parse_83 b de = nm ++ (if decide (ext = []) then [] else 46 :: ext) ∧ parse_lfn ls m = long.
Proof.
  intros Hn He Hl Hlen Hu. split; [|by apply parse_lfn_encode].
  unfold parse_83. rewrite (until_space_field b 8 de nm Hn), (until_space_field b 3 (de + 8) ext He).
  pose proof (proj2 (proj2 He) 0%nat ltac:(lia)) as H0. rewrite Z.add_0_r in H0. rewrite H0.
  destruct Hn as (_ & Hn & _). destruct He as (_ & He & _).
  assert (∀ l, Forall (λ c, 0 < c < 256 ∧ c ≠ 32) l → Forall (λ c, c ≠ 0) l) as Hnz.
  { intros l H1. eapply Forall_impl; [|exact H1]. intros c ?. cbn in *. lia. }
  destruct ext as [|c ext].
  - rewrite decide_True by done. change (negb (default 32 ([] !! 0%nat) =? 32)) with false. cbn match.
    rewrite !app_nil_r. by apply c_string_nonzero, Hnz.
  - rewrite decide_False by done. change (default 32 ((c :: ext) !! 0%nat)) with c.
    pose proof (Forall_inv He) as [_ Hc]. rewrite (proj2 (Z.eqb_neq c 32)) by done. cbn [negb].
    apply c_string_nonzero, Forall_app. split; [by apply Hnz|]. constructor; [done|by apply Hnz].
Qed.

(** Every sector is filled with its number; one file of three bytes at cluster 2. *)
Definition demo_disk (lba : Z) : list Z := replicate 512 (u8 lba).
Definition demo_fat : fsys :=
  Fsys {[ 1 := Node [97] VFS_FILE 3 2 (Some fat32_read_file_fn) None None None None None 0 ]} ∅ ∅
    {[ 4 := FVol 0 1 7 2 1 512 [] ]} {[ 2 := FFile 4 2 3 ]} ∅ (Heap ∅ 0 0 ∅) [] 0.

Lemma demo_disk_ok : disk_ok (H0 := λ lba _, demo_disk lba) demo_disk.
Proof.
  split; [done|]. intros lba. unfold demo_disk. split; [apply length_replicate|].
  apply Forall_replicate, wrap_bound. lia.
Qed.

Lemma fat32_read_file_correct_witness :
  ∃ s', fat32_read_file (H := X86) (H0 := λ lba _, demo_disk lba) 1 1 100 1000 demo_fat = Ok (2, s') ∧
    ld (mem (fheap s')) 1001 = 7 ∧ ld (mem (fheap s')) 1002 = 0.
Proof.
  destruct (fat32_read_file_correct (H := X86) (H0 := λ lba _, demo_disk lba) demo_disk demo_fat 1 1 100 1000
    (Node [97] VFS_FILE 3 2 (Some fat32_read_file_fn) None None None None None 0) (FFile 4 2 3) (FVol 0 1 7 2 1 512 [])
    demo_disk_ok eq_refl eq_refl eq_refl) as (m & b & E & Hm); try (cbn; lia).
  - cbn [f_size bytes_per_cluster start_cluster]. intros i Hi Hb. assert (i = 0) as -> by lia. reflexivity.
  - exists (reading demo_fat 4 (FVol 0 1 7 2 1 512 []) m b). split; [exact E|].
    change (ld m 1001 = 7 ∧ ld m 1002 = 0). rewrite !Hm. split; reflexivity.
Defined.

(** The entry of [ab.c], and the long name [abc] in one entry at 1000. *)
Definition demo_dirent : list Z := [97; 98; 32; 32; 32; 32; 32; 32; 99; 32; 32].
Definition demo_lfn : memory :=
  list_to_map (zip (seqZ 1000 32)
    [65; 97; 0; 98; 0; 99; 0; 0; 0; 255; 255; 15; 0; 0; 255; 255; 255; 255; 255; 255; 255; 255; 255; 255; 255; 255; 0; 0; 255; 255; 255; 255]).

Lemma fat32_names_witness : parse_83 demo_dirent 0 = [97; 98; 46; 99] ∧ parse_lfn [1000] demo_lfn = [97; 98; 99].
Proof.
  destruct (fat32_names demo_dirent 0 [97; 98] [99] demo_lfn [1000] [97; 98; 99]) as [A B].
  - split; [simpl; lia|]. split; [repeat constructor; lia|]. intros k Hk. do 8 (destruct k as [|k]; [reflexivity|]). lia.
  - split; [simpl; lia|]. split; [repeat constructor; lia|]. intros k Hk. do 3 (destruct k as [|k]; [reflexivity|]). lia.
  - repeat constructor; lia.
  - simpl; lia.
  - vm_compute. reflexivity.
  - split; [exact A|exact B].
Defined.
