(* ===== verification/FatDir.v ===== *)
(** FAT32 directories: what [load_dir] of src/kernel/fs/fat32.c makes of the
    clusters on the disk.

    [entries_of] is the reference: the entries that the 32-byte slots of a
    directory stand for.  The state of the loops is related to it by [loading],
    in which every block of the heap has a role; the loops then end with the
    listing of the directory, and [fat32_finddir], [fat32_readdir] and
    [fat32_mount] are proved against it. *)
From S2P Require Import Prelude CString Heap Alloc Vfs Fat32.

(** ** The entries of a directory *)

Record dirent := Dirent { e_name : str; e_dir : bool; e_cluster : Z; e_size : Z }.

(** The characters of one field of a long-name slot: up to the first unit that
    is 0 or 0xFFFF, the low byte of each. *)
Fixpoint readable (us : list Z) : str :=
  match us with
  | [] => []
  | c :: us => if (c =? 0) || (c =? 0xFFFF) then [] else Z.land c 0xFF :: readable us
  end.

Fixpoint rd_units (n : nat) (sl : list Z) (i : Z) : list Z :=
  match n with O => [] | S n => rd_le 2 sl i :: rd_units n sl (i + 2) end.

Definition slot_text (sl : list Z) : str :=
  readable (rd_units 5 sl 1) ++ readable (rd_units 6 sl 14) ++ readable (rd_units 2 sl 28).

(** The slots of a long name are stored last part first; 255 characters count. *)
Definition long_name (sls : list (list Z)) : str := c_string (take 255 (concat (slot_text <$> rev sls))).

Definition dirent_of (pend : list (list Z)) (sl : list Z) : dirent :=
  Dirent (match pend with [] => parse_83 sl 0 | _ => long_name pend end)
    (negb (Z.land (rd sl 11) FAT_ATTR_DIR =? 0))
    (Z.lor (u32 (Z.shiftl (rd_le 2 sl 20) 16)) (rd_le 2 sl 26)) (rd_le 4 sl 28).

(** The slots of a directory in order, [pend] the long-name slots that wait for
    the entry they belong to: a first byte of 0 ends the directory, 0xE5 marks a
    deleted entry, the volume's label and the names that start with a dot are not
    listed. *)
Fixpoint entries_of (pend : list (list Z)) (sls : list (list Z)) : list dirent :=
  match sls with
  | [] => []
  | sl :: sls =>
      if rd sl 0 =? 0 then [] else
      if rd sl 0 =? 0xE5 then entries_of [] sls else
      if rd sl 11 =? FAT_ATTR_LFN then
        entries_of (if Z.of_nat (length pend) <? 20 then pend ++ [sl] else pend) sls else
      if negb (Z.land (rd sl 11) FAT_ATTR_VOLID =? 0) || (rd sl 0 =? 46) then entries_of [] sls else
      dirent_of pend sl :: entries_of [] sls
  end.

(** The slots of a sector from the [i]-th on, of the sectors of a cluster from
    the [sec]-th on, and of the first [n] clusters of a chain. *)
Fixpoint sector_slots (k : nat) (i : Z) (b : list Z) : list (list Z) :=
  match k with O => [] | S k => take 32 (drop (Z.to_nat (32 * i)) b) :: sector_slots k (i + 1) b end.
Fixpoint cluster_slots (disk : Z → list Z) (k : nat) (lba sec : Z) : list (list Z) :=
  match k with O => [] | S k => sector_slots 16 0 (disk (u32 (lba + sec))) ++ cluster_slots disk k lba (sec + 1) end.
Fixpoint chain_slots (disk : Z → list Z) (x : fat32_vol_t) (n : nat) (c : Z) : list (list Z) :=
  match n with
  | O => []
  | S n => cluster_slots disk (Z.to_nat (sectors_per_cluster x)) (cluster_to_lba x c) 0 ++
           chain_slots disk x n (fat_next disk x c)
  end.

(** *** Slots of a buffer *)

Lemma rd_slot b i k : 0 ≤ i → 0 ≤ k < 32 → rd (take 32 (drop (Z.to_nat i) b)) k = rd b (i + k).
Proof. intros Hi Hk. by apply (list_rd_slice b i 32 k). Qed.

Lemma rd_le_slot n b i k : 0 ≤ i → 0 ≤ k → k + Z.of_nat n ≤ 32 →
  rd_le n (take 32 (drop (Z.to_nat i) b)) k = rd_le n b (i + k).
Proof.
  revert k. induction n as [|n IH]; intros k Hi Hk Hn; [done|]. cbn [rd_le].
  rewrite rd_slot, IH by lia. by rewrite Z.add_assoc.
Qed.

Lemma until_space_slot n b i k : 0 ≤ i → 0 ≤ k → k + Z.of_nat n ≤ 32 →
  until_space n (take 32 (drop (Z.to_nat i) b)) k = until_space n b (i + k).
Proof.
  revert k. induction n as [|n IH]; intros k Hi Hk Hn; [done|]. cbn [until_space].
  rewrite rd_slot, IH by lia. by rewrite Z.add_assoc.
Qed.

Lemma parse_83_slot b i : 0 ≤ i → parse_83 (take 32 (drop (Z.to_nat i) b)) 0 = parse_83 b i.
Proof.
  intros Hi. unfold parse_83. rewrite rd_slot, !until_space_slot by lia. by rewrite !Z.add_0_r.
Qed.

Lemma mem_ok_st_bytes l : ∀ a m, mem_ok m → mem_ok (st_bytes a l m).
Proof. induction l as [|c l IH]; intros a m Hm; [done|]. by apply IH, mem_ok_st. Qed.

(** *** Long names: the three bounded loops over the fields of each entry read
    the first 255 characters of the text *)

Lemma lfn_run_readable us : ∀ out, (length out ≤ 255)%nat → lfn_run us out = take 255 (out ++ readable us).
Proof.
  induction us as [|c us IH]; intros out Hout; cbn [lfn_run readable].
  { rewrite app_nil_r. by rewrite take_ge. }
  destruct (Z.ltb_spec (Z.of_nat (length out)) 255) as [Hlt|Hge]; cbn [andb].
  - destruct (Z.eqb_spec c 0), (Z.eqb_spec c 65535); cbn [negb andb orb];
      try (rewrite app_nil_r; by rewrite take_ge by lia).
    rewrite IH by (rewrite length_app; simpl; lia). by rewrite <- app_assoc.
  - by rewrite take_app_le, take_ge by lia.
Qed.

Lemma take_app_absorb {A} n (l k : list A) : take n (take n l ++ k) = take n (l ++ k).
Proof.
  destruct (decide (length l ≤ n)%nat).
  - by rewrite (take_ge l).
  - rewrite (take_app_le l) by lia. rewrite take_app_le by (rewrite length_take; lia). rewrite take_take. f_equal. lia.
Qed.

(** [m] holds the slot [sl] at [p]. *)
Definition slot_at (m : memory) (p : Z) (sl : list Z) : Prop := ∀ k, 0 ≤ k < 32 → ld m (p + k) = rd sl k.

Lemma units_slot m p sl n : ∀ k, slot_at m p sl → 0 ≤ k → k + 2 * Z.of_nat n ≤ 32 → units n (p + k) m = rd_units n sl k.
Proof.
  induction n as [|n IH]; intros k Hm Hk Hn; [done|]. cbn [units rd_units]. f_equal.
  - cbn [ld_le rd_le]. rewrite <- !Z.add_assoc, !Hm by lia. done.
  - rewrite <- IH by (done || lia). by rewrite Z.add_assoc.
Qed.

Lemma parse_lfn_text ls m sls : Forall2 (slot_at m) ls sls → parse_lfn ls m = long_name sls.
Proof.
  intros Hm. unfold parse_lfn, long_name. f_equal.
  assert (∀ ls sls, Forall2 (slot_at m) ls sls → ∀ out, (length out ≤ 255)%nat →
    foldl (λ out l, if Z.of_nat (length out) <? 255 then
      lfn_run (units 2 (l + 28) m) (lfn_run (units 6 (l + 14) m) (lfn_run (units 5 (l + 1) m) out))
      else out) out ls = take 255 (out ++ concat (slot_text <$> sls))) as Hfold.
  { clear. induction 1 as [|l sl ls sls Hl Hls IH]; intros out Hout; cbn [foldl fmap list_fmap concat].
    { rewrite app_nil_r. by rewrite take_ge. }
    assert ((if Z.of_nat (length out) <? 255 then
      lfn_run (units 2 (l + 28) m) (lfn_run (units 6 (l + 14) m) (lfn_run (units 5 (l + 1) m) out))
      else out) = take 255 (out ++ slot_text sl)) as ->.
    { rewrite !(units_slot m l sl) by (done || lia). unfold slot_text.
      assert (∀ k : list Z, (length (take 255 k) ≤ 255)%nat) as Ht by (intros k; rewrite length_take; lia).
      rewrite (lfn_run_readable (rd_units 5 sl 1)) by done. rewrite (lfn_run_readable (rd_units 6 sl 14)) by apply Ht.
      rewrite (lfn_run_readable (rd_units 2 sl 28)) by apply Ht.
      rewrite take_app_absorb, <- app_assoc, take_app_absorb, <- app_assoc. destruct (Z.ltb_spec (Z.of_nat (length out)) 255); [done|].
      by rewrite take_app_le, take_ge by lia. }
    rewrite IH by (rewrite length_take; lia). by rewrite take_app_absorb, <- app_assoc. }
  rewrite (Hfold (rev ls) (rev sls)); [done| |simpl; lia].
  clear Hfold. induction Hm as [|l sl ls sls Hl Hls IH]; [done|]. cbn [rev]. apply Forall2_app; [done|by repeat constructor].
Qed.

(** ** The state of the loops of [load_dir] *)

(** What a block of the heap is for: it was there before, it was just allocated,
    it is part of the tree, it holds a long-name slot, or it is the array of the
    directory. *)
Inductive role := Frame | Fresh | Kept | LongName | Array.

#[global] Instance role_eq_dec : EqDecision role.
Proof. solve_decision. Defined.

Abbreviation roles := (gmap Z (Z * role)).

(** The node [n] of the volume [v] stands for the entry [e]; [own] tells the
    blocks that are in use. *)
Definition entry_node `{Arch} (own : Z → Z → Prop) (s : fsys) (v n : Z) (e : dirent) : Prop :=
  own n sizeof_node ∧ ∃ f,
  if e_dir e then
    vnodes s !! n = Some (Node (e_name e) VFS_DIR 0 f None None (Some fat32_readdir_fn) (Some fat32_finddir_fn) None None 0) ∧
    own f sizeof_fdir ∧ fdirs s !! f = Some (FDir v (e_cluster e) 0 0 false)
  else
    vnodes s !! n = Some (Node (e_name e) VFS_FILE (e_size e) f (Some fat32_read_file_fn) None None None None None 0) ∧
    own f sizeof_ffile ∧ ffiles s !! f = Some (FFile v (e_cluster e) (e_size e)).

(** The parts of the state no loop changes. *)
Definition same_globals (s s' : fsys) : Prop :=
  tdirs s' = tdirs s ∧ tfiles s' = tfiles s ∧ mounts s' = mounts s ∧ vfs_root s' = vfs_root s.

#[global] Instance same_globals_preorder : PreOrder same_globals.
Proof. unfold same_globals. split; [done|]. intros s1 s2 s3 (? & ? & ? & ?) (? & ? & ? & ?). split_and!; congruence. Qed.

(** The object at [p] and its bytes are the same in both states; the directory
    [d] and the volume [v] are the two objects being changed. *)
Definition same_object (d v p k : Z) (s s' : fsys) : Prop :=
  (∀ a, p ≤ a < p + k → ld (mem (fheap s')) a = ld (mem (fheap s)) a) ∧
  vnodes s' !! p = vnodes s !! p ∧ ffiles s' !! p = ffiles s !! p ∧
  (p ≠ d → fdirs s' !! p = fdirs s !! p) ∧ (p ≠ v → fvols s' !! p = fvols s !! p).

Lemma same_object_refl d v p k s : same_object d v p k s s.
Proof. done. Qed.

Lemma same_object_trans d v p k s1 s2 s3 : same_object d v p k s1 s2 → same_object d v p k s2 s3 → same_object d v p k s1 s3.
Proof.
  intros (A1 & A2 & A3 & A4 & A5) (C1 & C2 & C3 & C4 & C5). split_and!; try congruence.
  - intros a Ha. by rewrite C1, A1.
  - intros Hp. by rewrite C4, A4.
  - intros Hp. by rewrite C5, A5.
Qed.

Section load.
Context `{Arch} `{BlockDev} (disk : Z → list Z) (Hdisk : disk_ok disk) (lo hi : Z) (Hsmall : hi - lo < 2 ^ 30).
Context (s0 : fsys) (B0 : gmap Z Z) (d v : Z) (x : fat32_vol_t) (c0 : Z) (ld0 : bool).
Context (Hd : is_Some (B0 !! d)) (Hv : is_Some (B0 !! v)).
Implicit Types (O : roles) (s : fsys) (l : load_st).

(** The blocks of the roles [R] keep their role and their contents. *)
Definition stays (R : role → Prop) O s O' s' : Prop :=
  ∀ p k r, O !! p = Some (k, r) → R r → O' !! p = Some (k, r) ∧ same_object d v p k s s'.

Definition own O (p k : Z) : Prop := O !! p = Some (k, Kept).

Record framed O s : Prop := {
  fr_holds : holds lo hi (fheap s) (fst <$> O);
  fr_old : ∀ p k, B0 !! p = Some k → O !! p = Some (k, Frame) ∧ same_object d v p k s0 s;
  fr_rest : same_globals s0 s;
  fr_vol : ∃ b, fvols s !! v = Some (set_buf x b)
}.

(** [ns] are the nodes made so far, for the entries [dn]; the long-name entries
    that [lfns] points to hold the slots [pend]. *)
Record loading O (es : Z) (ns : list Z) (dn : list dirent) (pend : list (list Z)) l s : Prop := {
  lo_framed : framed O s;
  lo_dir : fdirs s !! d = Some (FDir v c0 es (Z.of_nat (length dn)) ld0);
  lo_cap : Z.of_nat (length dn) ≤ lcap l;
  lo_array : (lcap l = 0 ∧ es = 0) ∨ (0 < lcap l ∧ O !! es = Some (lcap l * W, Array));
  lo_words : ∀ i n, ns !! i = Some n → ld_word (mem (fheap s)) (es + Z.of_nat i * W) = n;
  lo_nodes : Forall2 (entry_node (own O) s v) ns dn;
  lo_long : Forall2 (λ p sl, O !! p = Some (sizeof_lfn, LongName) ∧ slot_at (mem (fheap s)) p sl) (lfns l) pend;
  lo_nodup : NoDup (lfns l)
}.

Lemma framed_d O s : framed O s → ∃ k, O !! d = Some (k, Frame).
Proof. intros Hf. destruct Hd as [k E]. exists k. by apply Hf. Qed.

Lemma framed_v O s : framed O s → ∃ k, O !! v = Some (k, Frame).
Proof. intros Hf. destruct Hv as [k E]. exists k. by apply Hf. Qed.

Lemma framed_ne O s p k r : framed O s → O !! p = Some (k, r) → r ≠ Frame → p ≠ d ∧ p ≠ v.
Proof.
  intros Hf E Hr. destruct (framed_d O s Hf) as [kd Ed], (framed_v O s Hf) as [kv Ev]. split; intros ->; congruence.
Qed.

Lemma framed_bound O s p k r : framed O s → O !! p = Some (k, r) → 4096 ≤ lo ∧ lo < p ∧ 0 < k ∧ p + k ≤ hi ∧ hi < 2 ^ 32.
Proof. intros Hf E. eapply holds_bound; [apply Hf|]. by rewrite lookup_fmap, E. Qed.

Lemma framed_disjoint O s p k r q j r' : framed O s → O !! p = Some (k, r) → O !! q = Some (j, r') → p ≠ q → p + k ≤ q ∨ q + j ≤ p.
Proof.
  intros Hf E E' Hne. eapply (holds_disjoint lo hi); [apply Hf| | |done]; rewrite lookup_fmap; [by rewrite E|by rewrite E'].
Qed.

Lemma framed_step O s O' s' : framed O s → holds lo hi (fheap s') (fst <$> O') → stays (eq Frame) O s O' s' →
  same_globals s s' → (∃ b, fvols s' !! v = Some (set_buf x b)) → framed O' s'.
Proof.
  intros [A1 A2 A3 A4] Hh Hst Hg Hb. split; [done| |by etrans|done].
  intros p k E. destruct (A2 p k E) as [Ep Es]. destruct (Hst p k Frame Ep eq_refl) as [Ep' Es'].
  split; [done|]. by eapply same_object_trans.
Qed.

Lemma entry_node_stays O s O' s' n e : framed O s → stays (eq Kept) O s O' s' →
  entry_node (own O) s v n e → entry_node (own O') s' v n e.
Proof.
  intros Hf Hst (Hn & f & Hx). destruct (Hst n _ Kept Hn eq_refl) as [Hn' (_ & En & _)].
  split; [done|]. exists f. destruct (e_dir e); destruct Hx as (E1 & E2 & E3);
    destruct (Hst f _ Kept E2 eq_refl) as [E2' (_ & _ & Ef & Efd & _)];
    destruct (framed_ne O s f _ _ Hf E2) as [Hne _]; try done.
  - by rewrite En, Efd.
  - by rewrite En, Ef.
Qed.

Lemma nodes_stay O s O' s' ns dn : framed O s → stays (eq Kept) O s O' s' →
  Forall2 (entry_node (own O) s v) ns dn → Forall2 (entry_node (own O') s' v) ns dn.
Proof. intros Hf Hst Hn. eapply Forall2_impl; [|exact Hn]. intros n e. by apply entry_node_stays. Qed.

Lemma long_stays O s O' s' ls pend : stays (eq LongName) O s O' s' →
  Forall2 (λ p sl, O !! p = Some (sizeof_lfn, LongName) ∧ slot_at (mem (fheap s)) p sl) ls pend →
  Forall2 (λ p sl, O' !! p = Some (sizeof_lfn, LongName) ∧ slot_at (mem (fheap s')) p sl) ls pend.
Proof.
  intros Hst Hl. eapply Forall2_impl; [|exact Hl]. intros p sl [E Hs]. destruct (Hst p _ _ E eq_refl) as [E' (Hm & _)].
  split; [done|]. intros k Hk. rewrite Hm by (unfold sizeof_lfn; lia). by apply Hs.
Qed.

Lemma words_stay O s O' s' es cap (ns : list Z) : stays (eq Array) O s O' s' →
  (cap = 0 ∧ es = 0) ∨ (0 < cap ∧ O !! es = Some (cap * W, Array)) → Z.of_nat (length ns) ≤ cap →
  (∀ i n, ns !! i = Some n → ld_word (mem (fheap s)) (es + Z.of_nat i * W) = n) →
  ((cap = 0 ∧ es = 0) ∨ (0 < cap ∧ O' !! es = Some (cap * W, Array))) ∧
  (∀ i n, ns !! i = Some n → ld_word (mem (fheap s')) (es + Z.of_nat i * W) = n).
Proof.
  intros Hst [[-> ->]|[Hc E]] Hlen Hw; pose proof W_bound.
  - split; [by left|]. intros i n En. apply lookup_lt_Some in En. lia.
  - destruct (Hst es _ _ E eq_refl) as [E' (Hm & _)]. split; [by right|]. intros i n En. rewrite <- (Hw i n En).
    apply lookup_lt_Some in En. apply ld_word_ext. intros j Hj. apply Hm. nia.
Qed.

Lemma loading_length O es ns dn pend l s : loading O es ns dn pend l s → length ns = length dn.
Proof. intros Hl. by eapply Forall2_length, Hl. Qed.

(** A step that leaves all blocks but the just allocated ones. *)
Lemma loading_step O s O' s' es ns dn pend l : loading O es ns dn pend l s →
  holds lo hi (fheap s') (fst <$> O') → stays (λ r, r ≠ Fresh) O s O' s' → fdirs s' !! d = fdirs s !! d →
  same_globals s s' → (∃ b, fvols s' !! v = Some (set_buf x b)) → loading O' es ns dn pend l s'.
Proof.
  intros Hl Hh Hst Hdd Hg Hb. pose proof (loading_length _ _ _ _ _ _ _ Hl) as Hlen. destruct Hl as [A1 A2 A3 A4 A5 A6 A7 A8].
  assert (∀ r, r ≠ Fresh → stays (eq r) O s O' s') as Hr by (intros r Hr p k r' E <-; by apply Hst).
  destruct (words_stay O s O' s' es (lcap l) ns (Hr Array ltac:(done)) A4 ltac:(lia) A5) as [A4' A5'].
  split; [|by rewrite Hdd|done|done|done| | |done].
  - by apply (framed_step O s); [| |apply Hr| |].
  - by apply (nodes_stay O s); [|apply Hr|].
  - by apply (long_stays O s); [apply Hr|].
Qed.

(** *** The steps *)

(** No block changes; there may be new ones. *)
Definition advance O s O' s' : Prop :=
  holds lo hi (fheap s') (fst <$> O') ∧ stays (λ _, True) O s O' s' ∧ fdirs s' !! d = fdirs s !! d ∧
  fvols s' !! v = fvols s !! v ∧ same_globals s s'.

Lemma advance_trans O1 s1 O2 s2 O3 s3 : advance O1 s1 O2 s2 → advance O2 s2 O3 s3 → advance O1 s1 O3 s3.
Proof.
  intros (A1 & A2 & A3 & A4 & A5) (C1 & C2 & C3 & C4 & C5). 
  split; [done|]. split; [|split; [by rewrite C3|split; [by rewrite C4|by etrans]]]. intros p k r Ep _. destruct (A2 p k r Ep I) as [Ep' S1].
  destruct (C2 p k r Ep' I) as [Ep'' S2]. split; [done|]. by eapply same_object_trans.
Qed.

Lemma framed_advance O s O' s' : framed O s → advance O s O' s' → framed O' s'.
Proof.
  intros Hf (A1 & A2 & A3 & A4 & A5). apply (framed_step O s); try done; [|rewrite A4; apply Hf].
  intros p k r Ep _. by apply A2.
Qed.

Lemma loading_advance O es ns dn pend l s O' s' : loading O es ns dn pend l s → advance O s O' s' →
  loading O' es ns dn pend l s'.
Proof.
  intros Hl (A1 & A2 & A3 & A4 & A5). apply (loading_step O s); try done; [|rewrite A4; apply Hl].
  intros p k r Ep _. by apply A2.
Qed.

(** Only the object at [p] and its [k] bytes change. *)
Definition touches (p k : Z) s s' : Prop :=
  fheap s' = with_mem (fheap s) (mem (fheap s')) ∧ mem_ok (mem (fheap s')) ∧
  (∀ a, a < p ∨ p + k ≤ a → ld (mem (fheap s')) a = ld (mem (fheap s)) a) ∧
  (∀ q, q ≠ p → vnodes s' !! q = vnodes s !! q ∧ ffiles s' !! q = ffiles s !! q ∧
     fdirs s' !! q = fdirs s !! q ∧ fvols s' !! q = fvols s !! q) ∧ same_globals s s'.

Lemma touches_trans p k s1 s2 s3 : touches p k s1 s2 → touches p k s2 s3 → touches p k s1 s3.
Proof.
  intros (A1 & A2 & A3 & A4 & A5) (C1 & C2 & C3 & C4 & C5). split; [|split; [done|split; [|split; [|by etrans]]]].
  - rewrite C1, A1. done.
  - intros a Ha. by rewrite C3, A3.
  - intros q Hq. destruct (A4 q Hq) as (? & ? & ? & ?), (C4 q Hq) as (? & ? & ? & ?). split_and!; congruence.
Qed.

Lemma touches_mem p k s m : mem_ok m → (∀ a, a < p ∨ p + k ≤ a → ld m a = ld (mem (fheap s)) a) → touches p k s (with_fmem m s).
Proof. intros Hm Ha. by split_and!. Qed.

Lemma touches_clear p k s : mem_ok (mem (fheap s)) → 0 ≤ k → touches p k s (with_fmem (memset p 0 k (mem (fheap s))) s).
Proof.
  intros Hm Hk. apply touches_mem; [by apply memset_loop_ok|]. intros a Ha. rewrite memset_spec by done. by rewrite decide_False by lia.
Qed.

Lemma touches_put p k s s' : fheap s' = fheap s → mem_ok (mem (fheap s)) →
  (∀ q, q ≠ p → vnodes s' !! q = vnodes s !! q ∧ ffiles s' !! q = ffiles s !! q ∧
     fdirs s' !! q = fdirs s !! q ∧ fvols s' !! q = fvols s !! q) → same_globals s s' → touches p k s s'.
Proof. intros Eh Hm Ho Hg. unfold touches. rewrite Eh. split; [by destruct (fheap s)|]. by split_and!. Qed.

(** A new block, whatever is stored in it. *)
Lemma new_block O s n : framed O s → 0 < n → n + 7 < 2 ^ 32 →
  or_oom (λ '(p, h), O !! p = None ∧ lo < p < hi ∧ mem h = mem (fheap s) ∧ mem_ok (mem h) ∧
    ∀ s', touches p n (with_fheap h s) s' → advance O s (<[p := (n, Fresh)]> O) s') (kmalloc n (fheap s)).
Proof.
  intros Hf Hn Hw. pose proof word_bits_bound.
  assert (n + 7 < 2 ^ word_bits) as Hw' by (assert (2 ^ 32 ≤ 2 ^ word_bits) by (apply Z.pow_le_mono_r; lia); lia).
  pose proof (fr_holds _ _ Hf) as Hh.
  destruct (kmalloc_ok_or_oom lo hi (fheap s) _ n Hh ltac:(lia) Hw') as [(p & h & E)| ->]; [|done]. rewrite E. cbn.
  destruct (holds_kmalloc lo hi (fheap s) _ n p h Hh Hn Hw' E) as (Ep & Hh' & Em).
  destruct (holds_bound lo hi h _ p n Hh' (lookup_insert_eq _ _ _)) as (_ & B1 & _ & B2 & _).
  rewrite lookup_fmap, fmap_None in Ep. split; [done|]. split; [lia|]. split; [done|]. split; [apply Hh'|].
  intros s' (T1 & T2 & T3 & T4 & T5). cbn in T1, T3.
  destruct (framed_d O s Hf) as [kd Ed], (framed_v O s Hf) as [kv Ev].
  split; [|split; [|split; [|split; [|done]]]].
  - rewrite fmap_insert, T1. by apply holds_with_mem.
  - intros q k r Eq _. assert (q ≠ p) as Hne by congruence. split; [by rewrite lookup_insert_ne|].
    destruct (T4 q Hne) as (? & ? & ? & ?). split; [|done]. intros a Ha. rewrite <- Em. apply T3.
    destruct (holds_disjoint lo hi h (<[p:=n]> (fst <$> O)) q k p n Hh') as [|]; [| |done|lia|lia].
    + rewrite lookup_insert_ne by done. by rewrite lookup_fmap, Eq.
    + apply lookup_insert_eq.
  - apply T4. congruence.
  - apply T4. congruence.
Qed.

Lemma loading_touches O es ns dn pend l s p k s' : loading O es ns dn pend l s → O !! p = Some (k, Fresh) →
  touches p k s s' → loading O es ns dn pend l s'.
Proof.
  intros Hl Ep (Eh & Hm & Hb & Ho & Hg). pose proof (lo_framed _ _ _ _ _ _ _ Hl) as Hf.
  destruct (framed_ne O s p _ _ Hf Ep) as [Hpd Hpv]; [done|].
  apply (loading_step O s); [done| | | |done|].
  - rewrite Eh. apply holds_with_mem; [done|apply Hf].
  - intros q j r Eq Hr. split; [done|]. assert (q ≠ p) as Hne by congruence. destruct (Ho q Hne) as (? & ? & ? & ?).
    split; [|done]. intros a Ha. apply Hb. destruct (framed_disjoint O s q j r p k Fresh Hf Eq Ep Hne); lia.
  - by apply Ho.
  - destruct (fr_vol _ _ Hf) as [b Eb]. exists b. rewrite <- Eb. by apply Ho.
Qed.

Lemma holds_role O h p k r r' : O !! p = Some (k, r) → holds lo hi h (fst <$> O) → holds lo hi h (fst <$> <[p := (k, r')]> O).
Proof. intros E Hh. rewrite fmap_insert. cbn. rewrite insert_id; [done|]. by rewrite lookup_fmap, E. Qed.

(** The block that was just allocated gets its role. *)
Lemma loading_role O es ns dn pend l s p k r : loading O es ns dn pend l s → O !! p = Some (k, Fresh) →
  loading (<[p := (k, r)]> O) es ns dn pend l s.
Proof.
  intros Hl Ep. pose proof (lo_framed _ _ _ _ _ _ _ Hl) as Hf. apply (loading_step O s); [done| | |done|done|apply Hf].
  - eapply holds_role; [done|apply Hf].
  - intros q j r' Eq Hr. split; [|done]. by rewrite lookup_insert_ne by congruence.
Qed.

Lemma loading_push_long O es ns dn pend l s p sl : loading O es ns dn pend l s → O !! p = Some (sizeof_lfn, Fresh) →
  slot_at (mem (fheap s)) p sl →
  loading (<[p := (sizeof_lfn, LongName)]> O) es ns dn (pend ++ [sl]) (LoadSt (lfns l ++ [p]) (lcap l)) s.
Proof.
  intros Hl Ep Hs. pose proof (loading_role _ _ _ _ _ _ _ _ _ LongName Hl Ep) as [A1 A2 A3 A4 A5 A6 A7 A8].
  split; try done; cbn [lfns].
  - apply Forall2_app; [done|]. repeat constructor; [by rewrite lookup_insert_eq|done].
  - apply list.NoDup_app. split; [done|]. split; [|apply list.NoDup_singleton]. intros q Hq Hq'%list_elem_of_singleton. subst q.
    destruct Hl as [_ _ _ _ _ _ Hlong _]. apply list_elem_of_lookup in Hq as [i Hi].
    destruct (Forall2_lookup_l _ _ _ _ _ Hlong Hi) as (sl' & _ & E & _). congruence.
Qed.

Lemma loading_forget O es ns dn pend l s : loading O es ns dn pend l s → loading O es ns dn [] (LoadSt [] (lcap l)) s.
Proof. intros [A1 A2 A3 A4 A5 A6 A7 A8]. split; try done; by constructor. Qed.

Lemma kfree_all_spec ls : ∀ O s, framed O s → NoDup ls → Forall (λ p, ∃ k, O !! p = Some (k, LongName)) ls →
  ∃ s', kfree_all ls s = Ok s' ∧ framed (foldr delete O ls) s' ∧ stays (λ r, r ≠ LongName) O s (foldr delete O ls) s' ∧
    fdirs s' = fdirs s ∧ fvols s' = fvols s ∧ mem (fheap s') = mem (fheap s).
Proof.
  assert (∀ (O : roles) p ls, delete p (foldr delete O ls) = foldr delete (delete p O) ls) as Hfold.
  { clear. induction ls as [|q ls IH]; [done|]. cbn [foldr]. by rewrite delete_delete, IH. }
  induction ls as [|p ls IH]; intros O s Hf Hnd Hls; cbn [kfree_all].
  { exists s. split; [done|]. split; [done|]. split; [|done]. intros q k r E _. by split. }
  apply list.NoDup_cons in Hnd as [Hp Hnd]. apply Forall_cons_1 in Hls as [[k Ep] Hls].
  destruct (holds_kfree lo hi (fheap s) (fst <$> O) p k (fr_holds _ _ Hf)) as (h & E & Hh & Hm); [by rewrite lookup_fmap, Ep|].
  rewrite E. cbn [mbind outcome_bind foldr]. rewrite Hfold.
  assert (stays (λ r, r ≠ LongName) O s (delete p O) (with_fheap h s)) as Hst.
  { intros q j r Eq Hr. split; [rewrite lookup_delete_ne by congruence; done|]. split; [|done]. intros a _. cbn. by rewrite Hm. }
  destruct (IH (delete p O) (with_fheap h s)) as (s' & E' & Hf' & Hst' & F1 & F2 & F5); [|done| |].
  - apply (framed_step O s); [done|by rewrite fmap_delete| |done|apply Hf]. intros q j r Eq <-. by apply Hst.
  - rewrite Forall_forall in Hls |- *. intros q Hq. destruct (Hls q Hq) as [j Ej]. exists j.
    rewrite lookup_delete_ne; [done|]. intros ->. by apply Hp, list_elem_of_In.
  - exists s'. split; [done|]. split; [done|]. split; [|split; [done|split; [done|by rewrite F5]]].
    intros q j r Eq Hr. destruct (Hst q j r Eq Hr) as [Eq' S1]. destruct (Hst' q j r Eq' Hr) as [Eq'' S2].
    split; [done|]. by eapply same_object_trans.
Qed.

(** The name is read and the long-name entries are freed; all else stays. *)
Lemma entry_name_spec O es ns dn pend l s b de : loading O es ns dn pend l s → 0 ≤ de →
  or_oom (λ '(nm, s'), nm = e_name (dirent_of pend (take 32 (drop (Z.to_nat de) b))) ∧ fvols s' !! v = fvols s !! v ∧
    ∃ O', loading O' es ns dn [] (LoadSt [] (lcap l)) s' ∧ ∀ p k, O !! p = Some (k, Fresh) → O' !! p = Some (k, Fresh))
    (entry_name de b l s).
Proof.
  intros Hl Hde. pose proof (loading_length _ _ _ _ _ _ _ Hl) as Hlen.
  pose proof (loading_forget _ _ _ _ _ _ _ Hl) as Hl'.
  destruct Hl as [A1 A2 A3 A4 A5 A6 A7 A8]. assert (length (lfns l) = length pend) as Hlen' by (by eapply Forall2_length).
  unfold entry_name. destruct (Z.ltb_spec 0 (Z.of_nat (length (lfns l)))) as [Hpos|Hz].
  - destruct (kfree_all_spec (lfns l) O s A1 A8) as (s' & E & Hf & Hst & F1 & F2 & _).
    { apply Forall_lookup. intros i p Hi. destruct (Forall2_lookup_l _ _ _ _ _ A7 Hi) as (sl & _ & Ep & _). eauto. }
    rewrite E. cbn. split.
    + rewrite (parse_lfn_text _ _ pend); [by destruct pend; [simpl in *; lia|]|].
      eapply Forall2_impl; [|exact A7]. intros p sl [_ Hs]. exact Hs.
    + split; [by rewrite F2|]. exists (foldr delete O (lfns l)). split; [|intros p k Ep; by apply (Hst p k Fresh)].
      assert (∀ r, r ≠ LongName → stays (eq r) O s (foldr delete O (lfns l)) s') as Hr by (intros r Hr p k r' Ep <-; by apply Hst).
      destruct (words_stay O s _ s' es (lcap l) ns (Hr Array ltac:(done)) A4 ltac:(lia) A5) as [A4' A5'].
      split; try done; try (by constructor); [by rewrite F1|]. apply (nodes_stay O s); [done|by apply Hr|done].
  - cbn. split; [|split; [done|by exists O]]. destruct pend; [|simpl in *; lia]. cbn. symmetry. by apply parse_83_slot.
Qed.

Lemma sizes : 0 < sizeof_node < 1024 ∧ 0 < sizeof_fdir < 1024 ∧ 0 < sizeof_ffile < 1024 ∧ 0 < sizeof_lfn < 1024 ∧ 0 < sizeof_vol < 1024.
Proof. unfold sizeof_node, sizeof_fdir, sizeof_ffile, sizeof_lfn, sizeof_vol. destruct the_arch; lia. Qed.

Lemma make_dir_node_spec O s u nm cl : framed O s →
  or_oom (λ '(m, s'), ∃ f O', framed O' s' ∧ advance O s O' s' ∧ O !! f = None ∧ O !! m = None ∧
    O' !! f = Some (sizeof_fdir, Fresh) ∧ O' !! m = Some (sizeof_node, Fresh) ∧
    fdirs s' !! f = Some (FDir u cl 0 0 false) ∧
    vnodes s' !! m = Some (Node (take 255 nm) VFS_DIR 0 f None None (Some fat32_readdir_fn) (Some fat32_finddir_fn) None None 0))
    (make_dir_node u nm cl s).
Proof.
  intros Hf. pose proof sizes as (Sn & Sd & _). unfold make_dir_node.
  eapply or_oom_bind; [apply (new_block O s sizeof_fdir Hf); lia|]. intros [f h] (Ef & _ & Em & Hm & Hadv).
  set (s1 := put_fdir f _ _).
  assert (advance O s (<[f:=(sizeof_fdir, Fresh)]> O) s1) as Ha1.
  { apply Hadv. eapply touches_trans; [apply touches_clear; [done|lia]|]. apply touches_put; [done|by apply memset_loop_ok| |done].
    intros q Hq. split_and!; try done. cbn. by rewrite lookup_insert_ne by done. }
  pose proof (framed_advance _ _ _ _ Hf Ha1) as Hf1.
  eapply or_oom_bind; [apply (new_block _ s1 sizeof_node Hf1); lia|]. intros [m h'] (Em' & _ & Emm & Hm' & Hadv').
  cbn [or_oom]. set (s2 := put_node m _ _).
  assert (m ≠ f) as Hne by (intros ->; by rewrite lookup_insert_eq in Em').
  rewrite lookup_insert_ne in Em' by done.
  assert (advance (<[f:=(sizeof_fdir, Fresh)]> O) s1 (<[m:=(sizeof_node, Fresh)]> (<[f:=(sizeof_fdir, Fresh)]> O)) s2) as Ha2.
  { apply Hadv'. eapply touches_trans; [apply touches_clear; [done|lia]|]. apply touches_put; [done|by apply memset_loop_ok| |done].
    intros q Hq. split_and!; try done. cbn. by rewrite lookup_insert_ne by done. }
  exists f, (<[m:=(sizeof_node, Fresh)]> (<[f:=(sizeof_fdir, Fresh)]> O)).
  split; [by eapply framed_advance|]. split; [by eapply advance_trans|].
  rewrite (lookup_insert_ne _ m f), !lookup_insert_eq by done. split_and!; try done; cbn; by rewrite lookup_insert_eq.
Qed.

(** A block that was just allocated, and is part of the tree now. *)
Lemma loading_keep O es ns dn pend l s f k : loading O es ns dn pend l s → O !! f = Some (k, Fresh) →
  loading (<[f := (k, Kept)]> O) es ns dn pend l s.
Proof. apply loading_role. Qed.

(** The node [n] is finished. *)
Lemma entry_object_spec O es ns dn pend' pend l s n de b : loading O es ns dn pend' l s → 0 ≤ de → O !! n = Some (sizeof_node, Fresh) →
  let e := dirent_of pend (take 32 (drop (Z.to_nat de) b)) in
  or_oom (λ s', ∃ O', fvols s' !! v = fvols s !! v ∧ loading O' es ns dn pend' l s' ∧ entry_node (own O') s' v n e) (entry_object v n de b (e_name e) s).
Proof.
  intros Hl Hde En e. pose proof sizes as (Sn & Sd & Sf & _).
  pose proof (lo_framed _ _ _ _ _ _ _ Hl) as Hf. unfold entry_object.
  assert (e_dir e = negb (Z.land (rd b (de + 11)) FAT_ATTR_DIR =? 0)) as <- by (unfold e; cbn [e_dir dirent_of]; by rewrite rd_slot by lia).
  assert (e_cluster e = Z.lor (u32 (Z.shiftl (rd_le 2 b (de + 20)) 16)) (rd_le 2 b (de + 26))) as <-
    by (unfold e; cbn [e_cluster dirent_of]; by rewrite !rd_le_slot by lia).
  assert (e_size e = rd_le 4 b (de + 28)) as <- by (unfold e; cbn [e_size dirent_of]; by rewrite !rd_le_slot by lia).
  clearbody e. unfold entry_node. destruct (e_dir e) eqn:Ed.
  - eapply or_oom_bind; [exact (make_dir_node_spec O s v (e_name e) (e_cluster e) Hf)|].
    intros [m s1] (f & O1 & Hf1 & Ha & Ef & Em & Ef1 & Em1 & Efd & Env). cbn [or_oom].
    destruct (proj1 (proj2 Ha) n _ _ En I) as [En1 _]. assert (n ≠ f) as Hne by congruence.
    pose proof (loading_advance _ _ _ _ _ _ _ _ _ Hl Ha) as Hl1.
    assert (node s1 m = Node (take 255 (e_name e)) VFS_DIR 0 f None None (Some fat32_readdir_fn) (Some fat32_finddir_fn) None None 0) as ->
      by (unfold node; by rewrite Env).
    set (s2 := put_node _ _ _).
    assert (loading O1 es ns dn pend' l s2) as Hl2.
    { apply (loading_touches _ _ _ _ _ _ s1 n sizeof_node); [done|done|]. apply touches_put; [done|apply Hf1| |done].
      intros q Hq. split_and!; try done. cbn. by rewrite lookup_insert_ne. }
    exists (<[n:=(sizeof_node, Kept)]> (<[f:=(sizeof_fdir, Kept)]> O1)). split; [apply Ha|]. split.
    { apply loading_keep; [by apply loading_keep|by rewrite lookup_insert_ne]. }
    split; [apply lookup_insert_eq|]. exists f. split; [cbn; by rewrite lookup_insert_eq|]. split; [|done].
    unfold own. by rewrite lookup_insert_ne, lookup_insert_eq.
  - eapply or_oom_bind; [apply (new_block O s sizeof_ffile Hf); lia|].
    intros [f h] (Ef & _ & Em & Hm & Hadv). cbn [or_oom]. set (s1 := put_ffile f _ _).
    assert (advance O s (<[f:=(sizeof_ffile, Fresh)]> O) s1) as Ha.
    { apply Hadv. apply touches_put; [done|done| |done]. intros q Hq. split_and!; try done. cbn. by rewrite lookup_insert_ne. }
    pose proof (loading_advance _ _ _ _ _ _ _ _ _ Hl Ha) as Hl1. assert (n ≠ f) as Hne by congruence.
    set (s2 := put_node _ _ _).
    assert (loading (<[f:=(sizeof_ffile, Fresh)]> O) es ns dn pend' l s2) as Hl2.
    { apply (loading_touches _ _ _ _ _ _ s1 n sizeof_node); [done|by rewrite lookup_insert_ne|]. apply touches_put; [done|apply Hm| |done].
      intros q Hq. split_and!; try done. cbn. by rewrite lookup_insert_ne. }
    exists (<[n:=(sizeof_node, Kept)]> (<[f:=(sizeof_ffile, Kept)]> (<[f:=(sizeof_ffile, Fresh)]> O))). split; [done|]. split.
    { apply loading_keep; [apply loading_keep; [done|by rewrite lookup_insert_eq]|by rewrite !lookup_insert_ne]. }
    split; [apply lookup_insert_eq|]. exists f. split; [cbn; by rewrite lookup_insert_eq|]. split.
    + unfold own. by rewrite lookup_insert_ne, lookup_insert_eq.
    + cbn. by rewrite lookup_insert_eq.
Qed.

Lemma fdir_at_lookup s y : fdirs s !! d = Some y → fdir_at s d = y.
Proof. intros E. unfold fdir_at. by rewrite E. Qed.

Lemma array_bound O s es cap : framed O s → (cap = 0 ∧ es = 0) ∨ (0 < cap ∧ O !! es = Some (cap * W, Array)) →
  0 ≤ cap ∧ cap * W < 2 ^ 30 ∧ (cap ≠ 0 → lo < es ∧ es + cap * W ≤ hi ∧ 4096 ≤ lo ∧ hi < 2 ^ 32).
Proof.
  intros Hf [[-> ->]|[Hc E]]; [lia|]. destruct (framed_bound O s es _ _ Hf E) as (? & ? & ? & ? & ?). lia.
Qed.

(** The array after [krealloc]: the words that were in it are there. *)
Lemma entry_room_grow O es ns dn pend l s : loading O es ns dn pend l s → lcap l ≤ Z.of_nat (length dn) →
  let c := if negb (lcap l =? 0) then u32 (lcap l * 2) else 8 in
  or_oom (λ '(q, h), loading (<[q := (c * W, Array)]> (delete es O)) q ns dn pend (LoadSt (lfns l) c)
      (put_fdir d (FDir v c0 q (Z.of_nat (length dn)) ld0) (with_fheap h s)) ∧ Z.of_nat (length dn) < c ∧
      advance (delete es O) s (<[q := (c * W, Array)]> (delete es O)) (with_fheap h s))
    (krealloc es (uptr (c * W)) (fheap s)).
Proof.
  intros Hl Hfull c. pose proof (loading_length _ _ _ _ _ _ _ Hl) as Hlen. destruct Hl as [A1 A2 A3 A4 A5 A6 A7 A8].
  destruct (array_bound O s es (lcap l) A1 A4) as (C1 & C2 & C3). pose proof W_bound.
  assert (lcap l < c ∧ lcap l * W ≤ c * W ∧ c * W < 2 ^ 31 ∧ 0 < c) as (K1 & K2 & K3 & K4).
  { unfold c. destruct (Z.eqb_spec (lcap l) 0) as [->|Hne]; cbn [negb]; [lia|]. rewrite wrap_small by nia. nia. }
  clearbody c. rewrite wrap_word_u32_small by lia. pose proof (fr_holds _ _ A1) as Hh.
  assert ((es = 0 ∧ lcap l * W = 0) ∨ (fst <$> O) !! es = Some (lcap l * W)) as Hp.
  { destruct A4 as [[-> ->]|[_ E]]; [by left|right]. by rewrite lookup_fmap, E. }
  assert (0 < c * W) as Hcw by nia. assert (c * W + 7 < 2 ^ word_bits) as Hw.
  { pose proof word_bits_bound. assert (2 ^ 32 ≤ 2 ^ word_bits) by (apply Z.pow_le_mono_r; lia). lia. }
  destruct (krealloc_ok_or_oom lo hi (fheap s) _ es (lcap l * W) (c * W) Hh Hp Hcw Hw) as [(q & h & E)| ->]; [|done].
  rewrite E. cbn [or_oom].
  destruct (holds_krealloc lo hi (fheap s) _ es (lcap l * W) (c * W) q h Hh Hp Hcw Hw E) as (Hh' & Hq & Hb & Hsame).
  rewrite lookup_delete_None, lookup_fmap, fmap_None in Hq.
  set (O' := <[q:=(c * W, Array)]> (delete es O)). set (s' := put_fdir d _ _).
  assert (∀ p k r, O !! p = Some (k, r) → p ≠ es → O' !! p = Some (k, r) ∧ same_object d v p k s (with_fheap h s)) as Hst.
  { intros p k r Ep Hne. split.
    - unfold O'. rewrite lookup_insert_ne, lookup_delete_ne; [done|congruence|]. destruct Hq as [->|Hq]; congruence.
    - split; [|done]. intros a Ha. apply (Hsame p k); [|done]. rewrite lookup_delete_ne by done. by rewrite lookup_fmap, Ep. }
  assert (∀ p k r, O !! p = Some (k, r) → r ≠ Array → p ≠ es) as Hnot.
  { intros p k r Ep Hr ->. destruct A4 as [[_ ->]|[_ Ee]]; [|congruence].
    destruct (framed_bound O s 0 k r A1 Ep) as (? & ? & _). lia. }
  assert (∀ r, r ≠ Array → stays (eq r) O s O' s') as Hstr.
  { intros r Hr p k r' Ep <-. destruct (Hst p k r Ep (Hnot p k r Ep Hr)) as (? & S1 & S2 & S3 & S4 & S5).
    split; [done|]. split; [done|]. split_and!; try done. intros Hd'. cbn. by rewrite lookup_insert_ne. }
  split; [|split; [lia|]].
  - split; try done.
    + apply (framed_step O s); [done| |by apply Hstr|done|apply A1]. unfold O', s'. by rewrite fmap_insert, fmap_delete.
    + cbn. by rewrite lookup_insert_eq.
    + cbn [lcap]. lia.
    + right. cbn [lcap]. split; [lia|]. apply lookup_insert_eq.
    + intros i n En. rewrite <- (A5 i n En). apply lookup_lt_Some in En.
      unfold s'. cbn [put_fdir with_fheap fheap].
      apply ld_word_move. intros j Hj. rewrite <- !Z.add_assoc. apply Hb. nia.
    + apply (nodes_stay O s); [done|by apply Hstr|done].
    + apply (long_stays O s); [by apply Hstr|done].
  - split; [unfold O'; by rewrite fmap_insert, fmap_delete|]. split; [|done].
    intros p k r Ep _. apply lookup_delete_Some in Ep as [Hne Ep]. by apply Hst.
Qed.

Lemma entry_node_advance O s O' s' n e : framed O s → advance O s O' s' → entry_node (own O) s v n e → entry_node (own O') s' v n e.
Proof. intros Hf Ha. apply entry_node_stays; [done|]. intros p k r E _. by apply Ha. Qed.

Lemma entry_room_spec O es ns dn pend l s n e : loading O es ns dn pend l s → entry_node (own O) s v n e →
  or_oom (λ '(cap, s'), fvols s' !! v = fvols s !! v ∧ ∃ O' es', loading O' es' ns dn pend (LoadSt (lfns l) cap) s' ∧
    Z.of_nat (length dn) < cap ∧ entry_node (own O') s' v n e) (entry_room d (lcap l) s).
Proof.
  intros Hl He. unfold entry_room. rewrite (fdir_at_lookup _ _ (lo_dir _ _ _ _ _ _ _ Hl)). cbn [d_count d_vol d_cluster d_entries loaded].
  destruct (Z.leb_spec (lcap l) (Z.of_nat (length dn))) as [Hfull|Hroom].
  - eapply or_oom_bind; [by apply (entry_room_grow O es ns dn pend l s)|]. intros [q h] (Hl' & Hc & Ha). cbn [or_oom].
    split; [done|]. eexists _, q. split; [exact Hl'|]. split; [done|]. pose proof (lo_framed _ _ _ _ _ _ _ Hl) as Hf.
    apply (entry_node_stays O s); [done| |done]. intros p k r Ep <-.
    assert (es ≠ p) as Hne.
    { intros <-. destruct (lo_array _ _ _ _ _ _ _ Hl) as [[_ ->]|[_ Ee]]; [|congruence].
      destruct (framed_bound O s 0 k Kept Hf Ep) as (? & ? & _). lia. }
    destruct Ha as (_ & Hst & _). destruct (Hst p k Kept) as [Ep' (S1 & S2 & S3 & S4 & S5)]; [by rewrite lookup_delete_ne|done|].
    split; [done|]. split; [done|]. split_and!; try done. intros Hpd. cbn. by rewrite lookup_insert_ne.
  - cbn [or_oom]. split; [done|]. exists O, es. by destruct l.
Qed.

(** The entry is appended. *)
Lemma entry_store_spec O es ns dn pend l s n e : loading O es ns dn pend l s → Z.of_nat (length dn) < lcap l →
  entry_node (own O) s v n e → loading O es (ns ++ [n]) (dn ++ [e]) pend l (entry_store d n s).
Proof.
  intros Hl Hroom He. pose proof (loading_length _ _ _ _ _ _ _ Hl) as Hlen. unfold entry_store.
  rewrite (fdir_at_lookup _ _ (lo_dir _ _ _ _ _ _ _ Hl)). cbn [d_count d_vol d_cluster d_entries loaded].
  destruct Hl as [A1 A2 A3 A4 A5 A6 A7 A8]. destruct (array_bound O s es (lcap l) A1 A4) as (C1 & C2 & C3). pose proof W_bound.
  destruct A4 as [[E0 _]|[_ Ea]]; [lia|]. destruct (C3 ltac:(lia)) as (C4 & C5 & C6 & C7). clear C3.
  rewrite wrap_small by nia.
  set (m := st_word _ _ _). set (s' := put_fdir _ _ _).
  assert (∀ a, a < es ∨ es + lcap l * W ≤ a → ld m a = ld (mem (fheap s)) a) as Hm.
  { intros a Ha. apply ld_st_le_ne. nia. }
  assert (∀ r, r ≠ Array → stays (eq r) O s O s') as Hst.
  { intros r Hr p k r' Ep <-. assert (p ≠ es) as Hne by congruence. split; [done|]. split; [|split_and!; try done].
    - intros a Ha. apply Hm. destruct (framed_disjoint O s p k r es _ Array A1 Ep Ea Hne); lia.
    - intros Hd'. cbn. by rewrite lookup_insert_ne. }
  assert (mem_ok m) as Hmo by (apply mem_ok_st_le, (fr_holds _ _ A1)).
  assert (entry_node (own O) s' v n e) as He' by (by apply (entry_node_stays O s); [|apply Hst|]).
  split; try done.
  - apply (framed_step O s); [done|by apply holds_with_mem, A1|by apply Hst|done|apply A1].
  - cbn. rewrite lookup_insert_eq, length_app. cbn. do 2 f_equal. lia.
  - rewrite length_app. cbn. lia.
  - right. split; [lia|done].
  - intros i k Ek. change (ld_word m (es + Z.of_nat i * W) = k). apply lookup_app_Some in Ek as [Ek|[Hge Ek]].
    + apply lookup_lt_Some in Ek as Hlt. rewrite <- (A5 i k Ek). unfold m. apply ld_st_word_ne. nia.
    + apply list_lookup_singleton_Some in Ek as [Hi <-]. replace (Z.of_nat i) with (Z.of_nat (length dn)) by lia.
      unfold m. apply ld_st_word_eq. destruct He as (En & _). destruct (framed_bound O s n _ _ A1 En) as (? & ? & ? & ? & ?).
      pose proof word_bits_bound. assert (2 ^ 32 ≤ 2 ^ word_bits) by (apply Z.pow_le_mono_r; lia). lia.
  - apply Forall2_app; [|constructor; [done|constructor]]. apply (nodes_stay O s); [done|by apply Hst|done].
  - apply (long_stays O s); [by apply Hst|done].
Qed.

(** *** The loops: the entries listed so far and those of the slots that are
    left make the whole directory *)

Context (total : list dirent).

Definition at_slots (rest : list (list Z)) l s : Prop :=
  ∃ O es ns dn pend, loading O es ns dn pend l s ∧ dn ++ entries_of pend rest = total.
Definition finished s : Prop := ∃ O es ns pend l, loading O es ns total pend l s.

Lemma new_long_spec O es ns dn pend l s b de : loading O es ns dn pend l s → 0 ≤ de ≤ 480 → length b = 512%nat →
  Forall (λ c, 0 ≤ c < 2 ^ 8) b →
  or_oom (λ '(p, h), ∃ O', loading O' es ns dn (pend ++ [take 32 (drop (Z.to_nat de) b)]) (LoadSt (lfns l ++ [p]) (lcap l))
      (with_fheap (with_mem h (st_bytes p (take 32 (drop (Z.to_nat de) b)) (mem h))) s)) (kmalloc sizeof_lfn (fheap s)).
Proof.
  intros Hl Hde Hlen Hb. set (sl := take 32 (drop (Z.to_nat de) b)).
  assert (length sl = 32%nat) as Hsl by (unfold sl; rewrite length_take, length_drop; lia).
  assert (Forall (λ c, 0 ≤ c < 2 ^ 8) sl) as Hbs by (by apply Forall_take, Forall_drop). clearbody sl.
  eapply or_oom_mono; [apply (new_block O s sizeof_lfn (lo_framed _ _ _ _ _ _ _ Hl)); unfold sizeof_lfn; lia|].
  intros [p h] (Ep & Hp & Em & Hm & Hadv). set (s' := with_fheap _ _).
  assert (∀ a, ld (st_bytes p sl (mem h)) a = if decide (p ≤ a < p + 32) then rd sl (a - p) else ld (mem h) a) as Hld
    by (intros a; rewrite st_bytes_spec, Hsl by done; done).
  assert (advance O s (<[p:=(sizeof_lfn, Fresh)]> O) s') as Ha.
  { apply Hadv. apply (touches_mem p sizeof_lfn (with_fheap h s) (st_bytes p sl (mem h))).
    - by apply mem_ok_st_bytes.
    - unfold sizeof_lfn. intros a Hout. cbn. rewrite Hld. by rewrite decide_False by lia. }
  exists (<[p:=(sizeof_lfn, LongName)]> (<[p:=(sizeof_lfn, Fresh)]> O)).
  apply loading_push_long; [by eapply loading_advance|by rewrite lookup_insert_eq|].
  intros k Hk. change (mem (fheap s')) with (st_bytes p sl (mem h)). rewrite Hld, decide_True by lia. f_equal. lia.
Qed.

Lemma load_entry_spec i rest l s b : at_slots (take 32 (drop (Z.to_nat (32 * i)) b) :: rest) l s →
  fvols s !! v = Some (set_buf x b) → 0 ≤ i < 16 → length b = 512%nat → Forall (λ c, 0 ≤ c < 2 ^ 8) b →
  or_oom (λ '(stop, l', s'), fvols s' !! v = Some (set_buf x b) ∧
      if (stop : bool) then finished s' else at_slots rest l' s' ∧ rd b (32 * i) ≠ 0) (load_entry d v i l s).
Proof.
  intros (O & es & ns & dn & pend & Hl & Htot) Hvb Hi Hlen Hb.
  assert (length (lfns l) = length pend) as Hpend by (destruct Hl as [_ _ _ _ _ _ A7 _]; by eapply Forall2_length).
  unfold load_entry. assert (sector_buf (vol_at s v) = b) as -> by (unfold vol_at; by rewrite Hvb).
  set (sl := take 32 _) in Htot. cbn [entries_of] in Htot.
  assert (rd b (32 * i) = rd sl 0) as -> by (unfold sl; rewrite rd_slot by lia; f_equal; lia).
  assert (rd b (32 * i + 11) = rd sl 11) as Eattr by (unfold sl; by rewrite rd_slot by lia).
  rewrite Eattr. rewrite Hpend.
  destruct (Z.eqb_spec (rd sl 0) 0) as [_|Hnz]. { rewrite app_nil_r in Htot. split; [done|]. exists O, es, ns, pend, l. by rewrite <- Htot. }
  assert (∀ t : list dirent, dn ++ t = total → t = entries_of [] rest →
    fvols s !! v = Some (set_buf x b) ∧ at_slots rest (LoadSt [] (lcap l)) s ∧ rd sl 0 ≠ 0) as Hskip.
  { intros t Ht ->. split; [done|]. split; [|done]. exists O, es, ns, dn, []. split; [by eapply loading_forget|done]. }
  destruct (rd sl 0 =? 229). { by apply (Hskip _ Htot). }
  destruct (rd sl 11 =? FAT_ATTR_LFN).
  { destruct (Z.of_nat (length pend) <? 20).
    - eapply or_oom_bind; [by apply (new_long_spec O es ns dn pend l s b (32 * i)); [|lia|..]|].
      intros [p h] [O' Hl']. split; [done|]. split; [|done]. exists O', es, ns, dn, (pend ++ [sl]). by split.
    - split; [done|]. split; [|done]. by exists O, es, ns, dn, pend. }
  destruct (negb (Z.land (rd sl 11) FAT_ATTR_VOLID =? 0)); cbn [orb] in Htot. { by apply (Hskip _ Htot). }
  destruct (rd sl 0 =? 46). { by apply (Hskip _ Htot). }
  pose proof sizes as (Sn & _).
  eapply or_oom_bind; [apply (new_block O s sizeof_node (lo_framed _ _ _ _ _ _ _ Hl)); lia|]. intros [n h] (En & _ & Em & Hm & Hadv).
  set (s1 := with_fheap _ _).
  assert (advance O s (<[n:=(sizeof_node, Fresh)]> O) s1) as Ha by (apply Hadv, touches_clear; [done|lia]).
  pose proof (loading_advance _ _ _ _ _ _ _ _ _ Hl Ha) as Hl1.
  eapply or_oom_bind; [apply (entry_name_spec _ _ _ _ _ _ _ b (32 * i) Hl1); lia|]. intros [nm s2] (-> & Ev2 & O2 & Hl2 & Hfr).
  pose proof (Hfr n sizeof_node (lookup_insert_eq _ _ _)) as En2.
  eapply or_oom_bind; [apply (entry_object_spec O2 _ _ _ _ pend _ _ n (32 * i) b Hl2 ltac:(lia) En2)|].
  intros s3 (O3 & Ev3 & Hl3 & He3).
  eapply or_oom_bind; [apply (entry_room_spec _ _ _ _ _ _ _ _ _ Hl3 He3)|]. intros [cap s4] (Ev4 & O4 & es4 & Hl4 & Hcap & He4).
  cbn [or_oom]. split.
  { change (fvols s4 !! v = Some (set_buf x b)). rewrite Ev4, Ev3, Ev2. exact Hvb. }
  split; [|done]. exists O4, es4, (ns ++ [n]), (dn ++ [dirent_of pend sl]), []. split; [by apply entry_store_spec|].
  by rewrite <- app_assoc.
Qed.

Lemma load_sector_spec b k : ∀ i rest l s, at_slots (sector_slots k i b ++ rest) l s → fvols s !! v = Some (set_buf x b) →
  0 ≤ i → i + Z.of_nat k ≤ 16 → length b = 512%nat → Forall (λ c, 0 ≤ c < 2 ^ 8) b →
  or_oom (λ '(stop, l', s'), if (stop : bool) then finished s' else at_slots rest l' s' ∧
      Forall (λ sl, rd sl 0 ≠ 0) (sector_slots k i b)) (load_sector k d v i l s).
Proof.
  induction k as [|k IH]; intros i rest l s Hs Hvb Hi Hk Hlen Hb; cbn [load_sector sector_slots]; [by split|].
  eapply or_oom_bind; [apply (load_entry_spec i (sector_slots k (i + 1) b ++ rest) l s b); [exact Hs|done|lia|done|done]|].
  intros [[[] l'] s'] [Hvb' Hs']; [exact Hs'|]. destruct Hs' as [Hs' Hnz].
  eapply or_oom_mono; [apply (IH (i + 1) rest l' s' Hs' Hvb'); [lia|lia|done|done]|].
  intros [[[] l2] s2]; [done|]. intros [Hs2 Hall]. split; [done|]. constructor; [|done]. rewrite rd_slot by lia. by rewrite Z.add_0_r.
Qed.

Lemma vol_read_spec lba rest l s : at_slots rest l s →
  at_slots rest l (vol_read v lba s) ∧ fvols (vol_read v lba s) !! v = Some (set_buf x (disk lba)).
Proof.
  intros (O & es & ns & dn & pend & Hl & Htot). destruct (fr_vol _ _ (lo_framed _ _ _ _ _ _ _ Hl)) as [b Eb].
  assert (fvols (vol_read v lba s) !! v = Some (set_buf x (disk lba))) as Ev.
  { unfold vol_read, vol_at. rewrite Eb. cbn. by rewrite lookup_insert_eq, (proj1 Hdisk). }
  split; [|done]. exists O, es, ns, dn, pend. split; [|done]. apply (loading_step O s); [done|apply Hl| |done|done|eauto].
  intros p k r Ep _. split; [done|]. split_and!; try done. intros Hpv. cbn. by rewrite lookup_insert_ne.
Qed.

Lemma load_cluster_spec lba k : ∀ sec rest l s, at_slots (cluster_slots disk k lba sec ++ rest) l s →
  or_oom (λ '(stop, l', s'), if (stop : bool) then finished s' else at_slots rest l' s' ∧
      Forall (λ sl, rd sl 0 ≠ 0) (cluster_slots disk k lba sec)) (load_cluster k d v lba sec l s).
Proof.
  induction k as [|k IH]; intros sec rest l s Hs; cbn [load_cluster]; [by split|].
  destruct (vol_read_spec (u32 (lba + sec)) _ _ _ Hs) as [Hs1 Hvb]. cbn [cluster_slots] in *. rewrite <- app_assoc in Hs1.
  destruct (proj2 Hdisk (u32 (lba + sec))) as [Hlen Hb].
  eapply or_oom_bind; [by apply (load_sector_spec _ 16 0 _ _ _ Hs1 Hvb)|]. intros [[[] l'] s'] Hs'; [exact Hs'|].
  destruct Hs' as [Hs' Hall]. eapply or_oom_mono; [apply (IH _ _ _ _ Hs')|]. intros [[[] l2] s2]; [done|]. intros [Hs2 Hall2].
  split; [done|]. by apply Forall_app.
Qed.

Lemma chain_1 c j : 0 ≤ j → chain disk x (fat_next disk x c) j = chain disk x c (j + 1).
Proof.
  intros Hj. unfold chain. replace (Z.to_nat (j + 1)) with (S (Z.to_nat j)) by lia. by rewrite Nat.iter_succ_r.
Qed.

(** A directory of [n] clusters: the chain ends after them, or a slot ends the
    directory. *)
Definition dir_ends (n : nat) (c : Z) : Prop :=
  (∀ j, 0 ≤ j < Z.of_nat n → chain disk x c j < FAT_EOC) ∧
  (FAT_EOC ≤ chain disk x c (Z.of_nat n) ∨ Exists (λ sl, rd sl 0 = 0) (chain_slots disk x n c)).

Lemma load_clusters_spec n : ∀ fuel c l s, dir_ends n c → (n ≤ fuel)%nat → at_slots (chain_slots disk x n c) l s →
  or_oom finished (load_clusters fuel d v c l s).
Proof.
  induction n as [|n IH]; intros fuel c l s [Hch Hend] Hf Hs.
  - destruct Hend as [Hend|Hend]; [|by inversion Hend]. assert ((FAT_EOC <=? c) = true) as E by (apply Z.leb_le, Hend).
    assert (load_clusters fuel d v c l s = Ok s) as -> by (destruct fuel; cbn [load_clusters]; by rewrite E).
    destruct Hs as (O & es & ns & dn & pend & Hl & Htot). exists O, es, ns, pend, l. rewrite app_nil_r in Htot. by rewrite <- Htot.
  - destruct fuel as [|fuel]; [lia|]. cbn [load_clusters chain_slots] in *.
    rewrite (proj2 (Z.leb_gt FAT_EOC c)) by (apply (Hch 0); lia).
    assert (∃ b, vol_at s v = set_buf x b) as [b ->].
    { destruct Hs as (O & es & ns & dn & pend & Hl & _). destruct (fr_vol _ _ (lo_framed _ _ _ _ _ _ _ Hl)) as [b Eb].
      exists b. unfold vol_at. by rewrite Eb. }
    change (cluster_to_lba (set_buf x b)) with (cluster_to_lba x).
    change (sectors_per_cluster (set_buf x b)) with (sectors_per_cluster x).
    eapply or_oom_bind; [apply (load_cluster_spec _ _ _ _ _ _ Hs)|]. intros [[[] l1] s1] Hs1; [exact Hs1|].
    destruct Hs1 as [Hs1 Hall].
    assert (∃ lba, next_cluster v c s1 = (fat_next disk x c, vol_read v lba s1)) as [lba ->].
    { destruct Hs1 as (O & es & ns & dn & pend & Hl & _). destruct (fr_vol _ _ (lo_framed _ _ _ _ _ _ _ Hl)) as [b1 Eb].
      eexists. unfold next_cluster. f_equal. unfold fat_next, vol_read, vol_at. rewrite Eb. cbn. rewrite lookup_insert_eq.
      cbn. by rewrite (proj1 Hdisk). }
    apply IH; [|lia|by apply vol_read_spec]. split.
    + intros j Hj. rewrite chain_1 by lia. apply Hch. lia.
    + rewrite chain_1 by lia. replace (Z.of_nat n + 1) with (Z.of_nat (S n)) by lia.
      destruct Hend as [Hend|Hend]; [by left|right]. apply Exists_app in Hend as [Hend|Hend]; [|done].
      apply Exists_exists in Hend as (sl & Hin & Hz). rewrite Forall_forall in Hall. by destruct (Hall sl Hin).
Qed.
End load.

(** ** Loading, searching and reading a directory *)

(** The directory object [d] is loaded with the entries [L]. *)
Definition dir_listed `{Arch} (B : gmap Z Z) (s : fsys) (d v c : Z) (L : list dirent) : Prop :=
  ∃ es ns, fdirs s !! d = Some (FDir v c es (Z.of_nat (length L)) true) ∧
    Forall2 (entry_node (λ p k, B !! p = Some k) s v) ns L ∧
    ∀ i n, ns !! i = Some n → ld_word (mem (fheap s)) (es + Z.of_nat i * W) = n.

(** From [s] to [s'] the blocks [B] keep their objects and bytes, but for the
    directory [d] and the buffer of the volume [v]. *)
Definition grown_from `{Arch} (lo hi : Z) (d v : Z) (x : fat32_vol_t) (B B' : gmap Z Z) (s s' : fsys) : Prop :=
  holds lo hi (fheap s') B' ∧ (∀ p k, B !! p = Some k → B' !! p = Some k ∧ same_object d v p k s s') ∧
  same_globals s s' ∧ ∃ b, fvols s' !! v = Some (set_buf x b).

(** What a lookup gives: the node of the entry, or null. *)
Definition found_entry `{Arch} (B : gmap Z Z) (s : fsys) (v n : Z) (e : option dirent) : Prop :=
  match e with Some e => n ≠ 0 ∧ entry_node (λ p k, B !! p = Some k) s v n e | None => n = 0 end.

Section listing.
Context `{Arch} `{BlockDev} (disk : Z → list Z) (Hdisk : disk_ok disk) (lo hi : Z) (Hsmall : hi - lo < 2 ^ 30).

Lemma all_frame (B : gmap Z Z) : fst <$> ((λ k, (k, Frame)) <$> B) = B.
Proof. rewrite <- map_fmap_compose. by rewrite map_fmap_id. Qed.

Lemma framed_start s B d v x b : holds lo hi (fheap s) B → fvols s !! v = Some (set_buf x b) →
  framed lo hi s B d v x ((λ k, (k, Frame)) <$> B) s.
Proof.
  intros Hh Ev. split; [by rewrite all_frame| |done|eauto]. intros p k E. split; [by rewrite lookup_fmap, E|done].
Qed.

Lemma set_buf_buf x : set_buf x (sector_buf x) = x.
Proof. by destruct x. Qed.

Lemma load_dir_spec s B d v x c es0 cnt0 ld n fuel :
  holds lo hi (fheap s) B → is_Some (B !! d) → is_Some (B !! v) →
  fdirs s !! d = Some (FDir v c es0 cnt0 ld) → fvols s !! v = Some x → 0 < bytes_per_cluster x < 2 ^ 24 →
  dir_ends disk x n c → (n ≤ fuel)%nat →
  or_oom (λ s', ∃ B', grown_from lo hi d v x B B' s s' ∧
    dir_listed B' s' d v c (entries_of [] (chain_slots disk x n c))) (load_dir fuel d s).
Proof.
  intros Hh Hd Hv Ed Ev Hbpc Hend Hf. unfold load_dir. rewrite (fdir_at_lookup d s _ Ed). cbn [d_vol d_cluster loaded].
  assert (vol_at s v = x) as -> by (unfold vol_at; by rewrite Ev).
  pose proof word_bits_bound. assert (2 ^ 32 ≤ 2 ^ word_bits) by (apply Z.pow_le_mono_r; lia).
  destruct (kmalloc_ok_or_oom lo hi (fheap s) B (bytes_per_cluster x) Hh ltac:(lia) ltac:(lia)) as [(buf & h & E)| ->]; [|done].
  rewrite E. cbn [mbind outcome_bind].
  destruct (holds_kmalloc lo hi (fheap s) B (bytes_per_cluster x) buf h Hh) as (Eb & Hh1 & Em); [lia|lia|done|].
  set (B1 := <[buf:=bytes_per_cluster x]> B) in *. set (s1 := put_fdir d _ _).
  assert (is_Some (B1 !! d) ∧ is_Some (B1 !! v)) as [Hd1 Hv1] by (unfold B1; rewrite !lookup_insert_is_Some'; auto).
  assert (framed lo hi s1 B1 d v x ((λ k, (k, Frame)) <$> B1) s1) as Hf1.
  { apply (framed_start s1 B1 d v x (sector_buf x)); [done|]. by rewrite set_buf_buf. }
  eapply or_oom_bind; [apply (load_clusters_spec disk Hdisk lo hi Hsmall s1 B1 d v x c ld Hd1 Hv1
    (entries_of [] (chain_slots disk x n c)) n fuel c (LoadSt [] 0) s1 Hend Hf)|].
  { exists ((λ k, (k, Frame)) <$> B1), 0, [], [], []. split; [|done]. split; try done; try (by constructor).
    cbn. by rewrite lookup_insert_eq. }
  intros s2 (O & es & ns & pend & l & [A1 A2 _ _ A5 A6 _ _]). destruct A1 as [C1 C2 C3 C4].
  destruct (C2 buf (bytes_per_cluster x) (lookup_insert_eq _ _ _)) as [Ob _].
  destruct (holds_kfree lo hi (fheap s2) (fst <$> O) buf (bytes_per_cluster x) C1) as (h2 & E2 & Hh2 & Em2);
    [by rewrite lookup_fmap, Ob|].
  rewrite E2. cbn [mbind outcome_bind or_oom]. rewrite (fdir_at_lookup d s2 _ A2). cbn [d_vol d_cluster d_entries d_count].
  set (s3 := put_fdir d _ _).
  assert (∀ p k r, O !! p = Some (k, r) → p ≠ buf → delete buf (fst <$> O) !! p = Some k) as Hown
    by (intros p k r Ep Hne; by rewrite lookup_delete_ne, lookup_fmap, Ep).
  assert (∀ p, p ≠ d → fdirs s3 !! p = fdirs s2 !! p) as Hfd by (intros p Hp; unfold s3; cbn; by rewrite lookup_insert_ne).
  exists (delete buf (fst <$> O)). split; [split; [done|split; [|split; [exact C3|exact C4]]]|].
  - intros p k Ep. assert (p ≠ buf) as Hne by congruence. destruct (C2 p k) as [Op (S1 & S2 & S3 & S4 & S5)].
    { unfold B1. by rewrite lookup_insert_ne. }
    split; [by eapply Hown|]. split; [intros a Ha; cbn; rewrite Em2, S1 by done; cbn; by rewrite Em|].
    split; [done|]. split; [done|]. split; [|done]. intros Hpd. rewrite Hfd, S4 by done. cbn. by rewrite lookup_insert_ne.
  - exists es, ns. split; [unfold s3; cbn; by rewrite lookup_insert_eq|]. split.
    + eapply Forall2_impl; [|exact A6]. intros m e (Hm & f & He). split.
      { eapply Hown; [exact Hm|]. intros ->. unfold own in Hm. congruence. }
      exists f. destruct (e_dir e); destruct He as (E3 & E4 & E5); unfold own in E4;
        (split; [done|split; [eapply Hown; [exact E4|congruence]|]]); [|done].
      rewrite Hfd; [done|]. intros ->. destruct Hd1 as [kd Ed1]. destruct (C2 d kd Ed1) as [Od _]. congruence.
    + intros i m Hi. cbn. rewrite Em2. by apply A5.
Qed.

Lemma find_fentry_list nm dir s : ∀ L ns i, 0 ≤ i → Forall2 (λ n e, name (node s n) = e_name e) ns L →
  (∀ j n, ns !! j = Some n → fentry s dir (i + Z.of_nat j) = n) →
  find_fentry (length L) i dir nm s =
    match list_find (λ e, e_name e = nm) L with Some (j, _) => default 0 (ns !! j) | None => 0 end.
Proof.
  induction L as [|e L IH]; intros ns i Hi Hns Hw; [done|]. inversion Hns as [|n ? ns' ? Hn Hns']; subst.
  cbn [length find_fentry list_find]. pose proof (Hw 0%nat n eq_refl) as Hz. rewrite Z.add_0_r in Hz. rewrite Hz, Hn.
  destruct (decide (e_name e = nm)) as [Heq|Hne]; [by rewrite bool_decide_true|]. rewrite bool_decide_false by done.
  rewrite (IH ns' (i + 1)); [|lia|done|].
  - by destruct (list_find _ L) as [[j e']|].
  - intros j m Hj. rewrite <- (Hw (S j) m Hj). f_equal. lia.
Qed.

Lemma entry_node_name (ow : Z → Z → Prop) s v n e : entry_node ow s v n e → name (node s n) = e_name e.
Proof. intros (_ & f & He). unfold node. destruct (e_dir e); destruct He as (-> & _); done. Qed.

(** Searching and reading a loaded directory. *)
Lemma listed_find s B d v c L n y nm fuel : holds lo hi (fheap s) B → dir_listed B s d v c L →
  vnodes s !! n = Some y → fs_data y = d →
  ∃ m, fat32_finddir fuel n nm s = Ok (m, s) ∧ found_entry B s v m (snd <$> list_find (λ e, e_name e = nm) L).
Proof.
  intros Hh (es & ns & Ed & Hns & Hw) En <-. unfold fat32_finddir.
  assert (node s n = y) as -> by (unfold node; by rewrite En). rewrite (fdir_at_lookup _ _ _ Ed). cbn [loaded negb mbind outcome_bind d_count].
  rewrite (fdir_at_lookup _ _ _ Ed). cbn [d_count]. eexists. split; [done|].
  rewrite Nat2Z.id, (find_fentry_list nm _ s L ns 0); [|lia| |].
  - destruct (list_find _ L) as [[j e]|] eqn:Ef; [|done]. apply list_find_Some in Ef as (Ej & _ & _).
    destruct (Forall2_lookup_r _ _ _ _ _ Hns Ej) as (m & Em & He). rewrite Em. cbn. split; [|done].
    destruct He as [Hm _]. destruct (holds_bound lo hi (fheap s) B m _ Hh Hm). lia.
  - eapply Forall2_impl; [|exact Hns]. intros m e. apply entry_node_name.
  - intros j m Ej. by apply Hw.
Qed.

Lemma listed_read s B d v c L n y idx fuel : holds lo hi (fheap s) B → dir_listed B s d v c L →
  vnodes s !! n = Some y → fs_data y = d → 0 ≤ idx →
  ∃ m, fat32_readdir fuel n idx s = Ok (m, s) ∧ found_entry B s v m (L !! Z.to_nat idx).
Proof.
  intros Hh (es & ns & Ed & Hns & Hw) En <- Hi. unfold fat32_readdir.
  assert (node s n = y) as -> by (unfold node; by rewrite En). rewrite (fdir_at_lookup _ _ _ Ed). cbn [loaded negb mbind outcome_bind].
  rewrite (fdir_at_lookup _ _ _ Ed). cbn [d_count]. eexists. split; [done|].
  destruct (Z.ltb_spec idx (Z.of_nat (length L))) as [Hlt|Hge].
  - destruct (lookup_lt_is_Some_2 L (Z.to_nat idx)) as [e Ee]; [lia|]. rewrite Ee.
    destruct (Forall2_lookup_r _ _ _ _ _ Hns Ee) as (m & Em & He). pose proof (Hw _ _ Em) as Hm. rewrite Z2Nat.id in Hm by lia.
    unfold fentry. cbn [d_entries]. rewrite Hm. cbn. split; [|done].
    destruct He as [Hm' _]. destruct (holds_bound lo hi (fheap s) B m _ Hh Hm'). lia.
  - rewrite lookup_ge_None_2 by lia. done.
Qed.
(** The first lookup. *)
Lemma finddir_load s B n d v x c es cnt y k fuel nm :
  holds lo hi (fheap s) B → is_Some (B !! n) → is_Some (B !! d) → is_Some (B !! v) →
  vnodes s !! n = Some y → fs_data y = d → fdirs s !! d = Some (FDir v c es cnt false) → fvols s !! v = Some x →
  0 < bytes_per_cluster x < 2 ^ 24 → dir_ends disk x k c → (k ≤ fuel)%nat →
  let L := entries_of [] (chain_slots disk x k c) in
  or_oom (λ '(m, s'), ∃ B', grown_from lo hi d v x B B' s s' ∧ dir_listed B' s' d v c L ∧ vnodes s' !! n = Some y ∧
      found_entry B' s' v m (snd <$> list_find (λ e, e_name e = nm) L)) (fat32_finddir fuel n nm s).
Proof.
  intros Hh [kn Hn] Hd Hv En Ey Ed Ev Hbpc Hend Hf L.
  unfold fat32_finddir. assert (node s n = y) as -> by (unfold node; by rewrite En). rewrite Ey, (fdir_at_lookup _ _ _ Ed).
  cbn [loaded negb]. eapply or_oom_bind; [by apply (load_dir_spec s B d v x c es cnt false k fuel)|].
  intros s' (B' & Hg & Hl). destruct (proj1 (proj2 Hg) n kn Hn) as [_ (_ & En' & _)]. rewrite En in En'.
  destruct (listed_find s' B' d v c L n y nm fuel (proj1 Hg) Hl En' Ey) as (m & Em & Hm). unfold fat32_finddir in Em.
  assert (node s' n = y) as Eny by (unfold node; by rewrite En'). rewrite Eny, Ey in Em.
  pose proof Hl as (es' & ns & Ed' & _). rewrite (fdir_at_lookup _ _ _ Ed') in Em |- *.
  cbn [loaded negb mbind outcome_bind] in Em. rewrite (fdir_at_lookup _ _ _ Ed') in Em. rewrite Em. cbn [or_oom].
  exists B'. by split_and!.
Qed.
End listing.

(** ** Mounting *)

(** The volume that the boot sector of the partition describes. *)
Definition mounted (disk : Z → list Z) (part : Z) : fat32_vol_t :=
  let bpb := disk part in
  let fat := u32 (part + rd_le 2 bpb 14) in
  FVol part fat (u32 (fat + rd bpb 16 * rd_le 4 bpb 36)) (rd_le 4 bpb 44) (rd bpb 13) (u32 (rd bpb 13 * 512)) bpb.

(** [r] is the root directory of a volume that has just been mounted at [v]. *)
Definition root_node `{Arch} (B : gmap Z Z) (s : fsys) (v r c : Z) : Prop :=
  B !! r = Some sizeof_node ∧ ∃ d, B !! d = Some sizeof_fdir ∧ fdirs s !! d = Some (FDir v c 0 0 false) ∧
  vnodes s !! r = Some (Node (bytes "fat32") VFS_DIR 0 d None None (Some fat32_readdir_fn) (Some fat32_finddir_fn) None None 0).

Section mount.
Context `{Arch} `{BlockDev} (disk : Z → list Z) (Hdisk : disk_ok disk) (lo hi : Z).

(** The new volume's block is cleared and the object put there. *)
Lemma new_volume s B v h x : holds lo hi (fheap s) B → kmalloc sizeof_vol (fheap s) = Ok (v, h) →
  let s' := put_vol v x (with_fheap (with_mem h (memset v 0 sizeof_vol (mem h))) s) in
  B !! v = None ∧ grown_from lo hi v v x B (<[v := sizeof_vol]> B) s s'.
Proof.
  intros Hh E s'. pose proof sizes as (_ & _ & _ & _ & Sv). pose proof word_bits_bound.
  assert (2 ^ 32 ≤ 2 ^ word_bits) by (apply Z.pow_le_mono_r; lia).
  destruct (holds_kmalloc lo hi (fheap s) B sizeof_vol v h Hh) as (Ev & Hh1 & Em); [lia|lia|done|].
  split; [done|]. split; [apply holds_with_mem; [apply memset_loop_ok, Hh1|done]|]. split.
  - intros p k Ep. assert (p ≠ v) as Hne by congruence. split; [by rewrite lookup_insert_ne|].
    split; [|split_and!; try done; intros _; cbn; by rewrite lookup_insert_ne].
    intros a Ha. cbn. rewrite memset_spec by lia. rewrite Em. rewrite decide_False; [done|].
    destruct (holds_disjoint lo hi h (<[v:=sizeof_vol]> B) p k v sizeof_vol Hh1); [|apply lookup_insert_eq|done|lia|lia].
    by rewrite lookup_insert_ne.
  - split; [done|]. exists (sector_buf x). cbn. by rewrite lookup_insert_eq, set_buf_buf.
Qed.

Lemma mount_state s v h part :
  let s1 := vol_read v part (put_vol v (FVol part 0 0 0 0 0 (replicate 512 0)) (with_fheap h s)) in
  sector_buf (vol_at s1 v) = disk part ∧ ∀ x, put_vol v x s1 = put_vol v x (with_fheap h s).
Proof.
  intros s1. unfold s1, vol_read, vol_at. cbn. rewrite !lookup_insert_eq. cbn. rewrite (proj1 Hdisk). split; [done|].
  intros x. unfold put_vol. cbn. by rewrite !insert_insert_eq.
Qed.

Lemma fat32_mount_spec s B part : holds lo hi (fheap s) B → rd_le 2 (disk part) 11 = 512 →
  or_oom (λ '(r, s'), ∃ v B', B !! v = None ∧ grown_from lo hi v v (mounted disk part) B B' s s' ∧ is_Some (B' !! v) ∧
    fvols s' !! v = Some (mounted disk part) ∧ root_node B' s' v r (root_cluster (mounted disk part))) (fat32_mount part s).
Proof.
  intros Hh Hbps. pose proof sizes as (_ & _ & _ & _ & Sv). unfold fat32_mount. pose proof word_bits_bound.
  assert (2 ^ 32 ≤ 2 ^ word_bits) by (apply Z.pow_le_mono_r; lia).
  destruct (kmalloc_ok_or_oom lo hi (fheap s) B sizeof_vol Hh) as [(v & h & E)| ->]; [lia|lia| |done].
  rewrite E. cbn [mbind outcome_bind].
  destruct (mount_state s v (with_mem h (memset v 0 sizeof_vol (mem h))) part) as [-> Hput]. rewrite Hbps, Hput.
  change (negb (512 =? 512)) with false. cbn match.
  destruct (new_volume s B v h (mounted disk part) Hh E) as (Ev & Hh1 & Hold & Hg & _).
  set (x := mounted disk part) in *. set (s1 := put_vol v x _) in *. set (B1 := <[v:=sizeof_vol]> B) in *.
  assert (is_Some (B1 !! v)) as Hv1 by (unfold B1; rewrite lookup_insert_eq; eauto).
  assert (fvols s1 !! v = Some x) as Ex by apply lookup_insert_eq.
  assert (framed lo hi s1 B1 v v x ((λ k, (k, Frame)) <$> B1) s1) as Hf.
  { apply (framed_start lo hi s1 B1 v v x (sector_buf x)); [done|]. by rewrite set_buf_buf. }
  eapply or_oom_mono; [apply (make_dir_node_spec lo hi s1 B1 v v x Hv1 Hv1 _ s1 v (bytes "fat32") (root_cluster x) Hf)|].
  intros [r s2] (f & O & [C1 C2 C3 C4] & (_ & _ & _ & Efv & _) & _ & _ & Of & Or & Efd & Enr).
  exists v, (fst <$> O). split; [done|]. split; [|split; [|split]].
  - split; [done|]. split; [|split; [by etrans|done]]. intros p k Ep. assert (p ≠ v) as Hne by congruence.
    destruct (Hold p k Ep) as [Ep1 Hs1]. destruct (C2 p k Ep1) as [Op Hs2].
    split; [by rewrite lookup_fmap, Op|]. by eapply same_object_trans.
  - destruct Hv1 as [k Ek]. destruct (C2 v k Ek) as [Ov _]. rewrite lookup_fmap, Ov. eauto.
  - by rewrite Efv.
  - split; [by rewrite lookup_fmap, Or|]. exists f. split; [by rewrite lookup_fmap, Of|]. by split.
Qed.

(** A sector size other than 512: null, and the volume's block is free again. *)
Lemma fat32_mount_reject s B part : holds lo hi (fheap s) B → rd_le 2 (disk part) 11 ≠ 512 →
  or_oom (λ '(r, s'), r = 0 ∧ holds lo hi (fheap s') B ∧ vnodes s' = vnodes s ∧ fdirs s' = fdirs s ∧ ffiles s' = ffiles s ∧
    same_globals s s' ∧ ∀ p k, B !! p = Some k → fvols s' !! p = fvols s !! p) (fat32_mount part s).
Proof.
  intros Hh Hbps. pose proof sizes as (_ & _ & _ & _ & Sv). unfold fat32_mount. pose proof word_bits_bound.
  assert (2 ^ 32 ≤ 2 ^ word_bits) by (apply Z.pow_le_mono_r; lia).
  destruct (kmalloc_ok_or_oom lo hi (fheap s) B sizeof_vol Hh) as [(v & h & E)| ->]; [lia|lia| |done].
  rewrite E. cbn [mbind outcome_bind].
  destruct (new_volume s B v h (mounted disk part) Hh E) as (Ev & Hh1 & _ & _ & _).
  destruct (mount_state s v (with_mem h (memset v 0 sizeof_vol (mem h))) part) as [-> _].
  rewrite (proj2 (Z.eqb_neq _ _)) by done. cbn [negb].
  set (s1 := vol_read _ _ _). change (fheap s1) with (with_mem h (memset v 0 sizeof_vol (mem h))).
  destruct (holds_kfree lo hi _ _ v sizeof_vol Hh1 (lookup_insert_eq _ _ _)) as (h2 & E2 & Hh2 & _).
  cbn [fheap put_vol with_fheap] in E2. rewrite E2. cbn [mbind outcome_bind or_oom].
  split; [done|]. split; [|split_and!; try done].
  - cbn. by rewrite delete_insert_id in Hh2.
  - intros p k Ep. assert (p ≠ v) as Hne by congruence. cbn. by rewrite !lookup_insert_ne.
Qed.
End mount.

(** *** Sizes in entries *)

Definition byte_list (l : list Z) : Prop := Forall (λ c, 0 ≤ c < 2 ^ 8) l.

Lemma rd_le_bytes n l : byte_list l → ∀ i, 0 ≤ rd_le n l i < 2 ^ (8 * Z.of_nat n).
Proof.
  intros Hl. induction n as [|n IH]; intros i; cbn [rd_le]; [done|].
  replace (8 * Z.of_nat (S n)) with (8 + 8 * Z.of_nat n) by lia. rewrite Z.pow_add_r by lia. specialize (IH (i + 1)).
  assert (0 ≤ rd l i < 2 ^ 8); [|nia]. unfold rd. destruct (l !! Z.to_nat i) as [b|] eqn:E; [|done].
  unfold byte_list in Hl. rewrite Forall_lookup in Hl. by apply (Hl _ _ E).
Qed.

Lemma entries_size sls : Forall byte_list sls → ∀ pend, Forall (λ e, 0 ≤ e_size e < 2 ^ 32) (entries_of pend sls).
Proof.
  induction 1 as [|sl sls Hsl Hsls IH]; intros pend; cbn [entries_of]; [done|]. repeat case_match; try done; try apply IH.
  constructor; [|apply IH]. cbn. by apply (rd_le_bytes 4).
Qed.

Lemma chain_slots_bytes `{BlockDev} disk x n : disk_ok disk → ∀ c, Forall byte_list (chain_slots disk x n c).
Proof.
  intros [_ Hd]. assert (∀ b, byte_list b → ∀ k i, Forall byte_list (sector_slots k i b)) as Hsec.
  { intros b Hb. induction k as [|k IH]; intros i; cbn [sector_slots]; constructor; [|apply IH]. by apply Forall_take, Forall_drop. }
  assert (∀ k lba sec, Forall byte_list (cluster_slots disk k lba sec)) as Hcl.
  { induction k as [|k IH]; intros lba sec; cbn [cluster_slots]; [done|]. apply Forall_app. split; [apply Hsec, Hd|apply IH]. }
  induction n as [|n IH]; intros c; cbn [chain_slots]; [done|]. by apply Forall_app.
Qed.

(** ** The properties *)

(** C21: the first lookup in a directory reads its clusters and finds the first
    entry of the name: the directory is what the slots of the chain on the disk
    stand for, long names included, however the entries lie across sectors and
    clusters and however often the array of nodes moves.  The node it returns has
    the entry's name, kind, first cluster and size; a name that is not there
    gives null.  From then on every lookup answers from the same listing without
    reading again, [readdir] gives the entries in the order of the disk, then
    null; and no other block of the heap changes, nor any object in one, apart
    from the sector buffer.  It ends when the chain does or a slot ends the
    directory; the one failure is an exhausted heap. *)
Theorem fat32_directory_listed `{Arch} `{BlockDev} (disk : Z → list Z) (lo hi : Z) (s : fsys) (B : gmap Z Z)
    (n d v c es cnt : Z) (y : vfs_node_t) (x : fat32_vol_t) (k fuel : nat) (nm : str) :
  disk_ok disk → hi - lo < 2 ^ 30 → holds lo hi (fheap s) B → is_Some (B !! n) → is_Some (B !! d) → is_Some (B !! v) →
  vnodes s !! n = Some y → fs_data y = d → fdirs s !! d = Some (FDir v c es cnt false) → fvols s !! v = Some x →
  0 < bytes_per_cluster x < 2 ^ 24 → dir_ends disk x k c → (k ≤ fuel)%nat →
  let L := entries_of [] (chain_slots disk x k c) in
  or_oom (λ '(m, s'), ∃ B', grown_from lo hi d v x B B' s s' ∧
      found_entry B' s' v m (snd <$> list_find (λ e, e_name e = nm) L) ∧
      (∀ fuel' nm', ∃ m', fat32_finddir fuel' n nm' s' = Ok (m', s') ∧
         found_entry B' s' v m' (snd <$> list_find (λ e, e_name e = nm') L)) ∧
      (∀ fuel' idx, 0 ≤ idx → ∃ m', fat32_readdir fuel' n idx s' = Ok (m', s') ∧
         found_entry B' s' v m' (L !! Z.to_nat idx)))
    (fat32_finddir fuel n nm s).
Proof.
  intros Hdisk Hsmall Hh Hn Hd Hv En Ey Ed Ev Hbpc Hend Hf L.
  eapply or_oom_mono; [by apply (finddir_load disk Hdisk lo hi Hsmall s B n d v x c es cnt y k fuel nm)|].
  intros [m s'] (B' & Hg & Hl & En' & Hm). pose proof (proj1 Hg) as Hh'. exists B'. split; [done|]. split; [done|]. split.
  - intros fuel' nm'. by apply (listed_find lo hi s' B' d v c L n y).
  - intros fuel' idx Hi. by apply (listed_read lo hi s' B' d v c L n y).
Qed.


(** A partition at sector 0: the boot sector, one table sector, the root
    directory in cluster 2 with the volume's label and a file with a long name,
    whose five bytes are in cluster 3. *)
Definition sector (l : list Z) : list Z := l ++ replicate (512 - length l) 0.
Definition demo_bpb : list Z := replicate 11 0 ++ [0; 2; 1; 1; 0; 1] ++ replicate 19 0 ++ [1; 0; 0; 0; 0; 0; 0; 0; 2; 0; 0; 0].
Definition demo_table : list Z := replicate 8 0 ++ [255; 255; 255; 15; 255; 255; 255; 15].
Definition demo_label : list Z := bytes "AEROGEL    " ++ [8] ++ replicate 20 0.
Definition demo_long : list Z :=
  [0x41; 110; 0; 111; 0; 116; 0; 101; 0; 115; 0; 15; 0; 0; 46; 0; 116; 0; 120; 0; 116; 0; 0; 0; 255; 255; 0; 0; 255; 255; 255; 255].
Definition demo_short : list Z := bytes "NOTES   TXT" ++ [0x20] ++ replicate 14 0 ++ [3; 0; 5; 0; 0; 0].
Definition demo_fat_disk (lba : Z) : list Z :=
  sector (if lba =? 0 then demo_bpb else if lba =? 1 then demo_table else
          if lba =? 2 then demo_label ++ demo_long ++ demo_short else if lba =? 3 then bytes "hello" else []).
Definition demo_fat_fs : fsys :=
  Fsys ∅ ∅ ∅ ∅ ∅ ∅ (heap_init (H := X86) 0x400000 0x10000 (Heap ∅ 0 0 ∅)) [] 0.
#[local] Instance demo_dev : BlockDev := λ lba _, demo_fat_disk lba.

Lemma demo_fat_disk_ok : disk_ok demo_fat_disk.
Proof.
  split; [done|]. intros lba. unfold demo_fat_disk.
  assert (∀ l, forallb (λ c, (0 <=? c) && (c <? 256)) l && (Z.of_nat (length l) <=? 512) = true →
    length (sector l) = 512%nat ∧ Forall (λ c, 0 ≤ c < 2 ^ 8) (sector l)) as Hs.
  { intros l [Hl Hn]%andb_true_iff. split; [unfold sector; rewrite length_app, length_replicate; lia|].
    apply Forall_app. split; [|by apply Forall_replicate]. apply List.Forall_forall. intros c Hc.
    rewrite forallb_forall in Hl. specialize (Hl c Hc). change (2 ^ 8) with 256. lia. }
  repeat case_match; apply Hs; vm_compute; reflexivity.
Qed.

Lemma demo_fat_holds : holds (H := X86) 0x400000 0x410000 (fheap demo_fat_fs) ∅.
Proof.
  split; [|split; [apply map_Forall_empty|apply map_Forall_empty]].
  eexists. apply (heap_init_inv (H := X86) 0x400000 0x10000); cbn; lia.
Qed.

Lemma demo_fat_ends : dir_ends demo_fat_disk (mounted demo_fat_disk 0) 1 2.
Proof.
  split; [|left; vm_compute; discriminate]. intros j Hj. assert (j = 0) as -> by lia. vm_compute. reflexivity.
Qed.

(** The result of a computation that is known to end. *)
Lemma or_oom_ok {A} (P : A → Prop) r : or_oom P r → match r with Ok _ => true | _ => false end = true → ∃ a, r = Ok a ∧ P a.
Proof. destruct r; [|done..]. eauto. Qed.

Definition demo_entry : dirent := Dirent (bytes "notes.txt") false 3 5.

Lemma demo_fat_listing : entries_of [] (chain_slots demo_fat_disk (mounted demo_fat_disk 0) 1 2) = [demo_entry].
Proof. vm_compute. reflexivity. Qed.

Definition demo_run : outcome (Z * fsys) :=
  '(r, s) ← fat32_mount (H := X86) 0 demo_fat_fs; '(m, s) ← fat32_finddir (H := X86) 1 r (bytes "notes.txt") s;
  fat32_read_file (H := X86) m 1 100 1000 s.


Definition demo_find : outcome (Z * fsys) :=
  '(r, s) ← fat32_mount (H := X86) 0 demo_fat_fs; fat32_finddir (H := X86) 1 r (bytes "NOTES.TXT") s.

(** The directory after the mount, and the file that is found in it. *)
Lemma fat32_directory_listed_witness :
  ∃ r s m s' m', fat32_mount (H := X86) 0 demo_fat_fs = Ok (r, s) ∧
    fat32_finddir (H := X86) 1 r (bytes "NOTES.TXT") s = Ok (m, s') ∧ m = 0 ∧
    fat32_readdir (H := X86) 0 r 0 s' = Ok (m', s') ∧ name (node s' m') = bytes "notes.txt" ∧ nsize (node s' m') = 5.
Proof.
  pose proof (fat32_mount_spec (H := X86) demo_fat_disk demo_fat_disk_ok 0x400000 0x410000 demo_fat_fs ∅ 0 demo_fat_holds) as Hm.
  assert (rd_le 2 (demo_fat_disk 0) 11 = 512) as Hbps by (vm_compute; reflexivity).
  assert (match demo_find with Ok _ => true | _ => false end = true) as Hok by (vm_compute; reflexivity). unfold demo_find in Hok.
  destruct (fat32_mount 0 demo_fat_fs) as [[r s]|?|] eqn:Er; [|discriminate Hok..].
  destruct (Hm Hbps) as (v & B & _ & (Hh & _) & Hv & Ev & Hr & d & Hd & Ed & En). clear Hm.
  assert (root_cluster (mounted demo_fat_disk 0) = 2) as Hroot by (vm_compute; reflexivity). rewrite Hroot in Ed.
  assert (0 < bytes_per_cluster (mounted demo_fat_disk 0) < 2 ^ 24) as Hbpc by (split; vm_compute; reflexivity).
  pose proof demo_fat_ends as Hends. pose proof demo_fat_listing as Hlist.
  set (x := mounted demo_fat_disk 0) in *. clearbody x.
  pose proof (fat32_directory_listed (H := X86) demo_fat_disk 0x400000 0x410000 s B r d v 2 0 0 _ _ 1 1 (bytes "NOTES.TXT")
    demo_fat_disk_ok ltac:(lia) Hh (mk_is_Some _ _ Hr) (mk_is_Some _ _ Hd) Hv En eq_refl Ed Ev Hbpc Hends
    ltac:(lia)) as Hf. cbv zeta in Hf. rewrite Hlist in Hf.
  destruct (or_oom_ok _ _ Hf Hok) as ([m s'] & Ef & B' & _ & Hm & _ & Hread).
  destruct (Hread 0%nat 0 ltac:(lia)) as (m' & Erd & _ & _ & f & Em' & _).
  exists r, s, m, s', m'. split; [reflexivity|]. split; [exact Ef|]. split; [exact Hm|]. split; [exact Erd|].
  unfold node. cbn in Em'. rewrite Em'. split; reflexivity.
Defined.
