(* ===== verification/Fs.v ===== *)
(** The file systems behind the interface of vfs.c: which function each code
    pointer is, and what a path resolves to over tmpfs directories. *)
From S2P Require Import Prelude CString Heap Vfs Tmpfs Fat32.

(** C's types keep a pointer out of the other slots of a node. *)
Definition wild_call {A} : outcome A := Panic "call of a function of another type".

(** [fuel] bounds the clusters of a FAT32 directory that is loaded. *)
#[export] Instance kernel_fs_code `{Arch} `{BlockDev} (fuel : nat) : FsCode := {
  call_read f n off sz buf s :=
    match f with
    | tmpfs_read_fn => tmpfs_read n off sz buf s
    | fat32_read_file_fn => fat32_read_file n off sz buf s
    | _ => wild_call
    end;
  call_write f n off sz buf s :=
    match f with tmpfs_write_fn => tmpfs_write n off sz buf s | _ => wild_call end;
  call_readdir f n idx s :=
    match f with
    | tmpfs_readdir_fn => Ok (tmpfs_readdir n idx s, s)
    | fat32_readdir_fn => fat32_readdir fuel n idx s
    | _ => wild_call
    end;
  call_finddir f n nm s :=
    match f with
    | tmpfs_finddir_fn => Ok (tmpfs_finddir n nm s, s)
    | fat32_finddir_fn => fat32_finddir fuel n nm s
    | _ => wild_call
    end;
  call_open _ _ _ _ := wild_call;
  call_close _ _ _ := wild_call
}.

(** Every directory is a tmpfs directory and no node has an [open] function. *)
Definition tmpfs_only (s : fsys) : Prop :=
  ∀ n y, vnodes s !! n = Some y → (finddir y = None ∨ finddir y = Some tmpfs_finddir_fn) ∧ open y = None.

(** The entry of a directory, 0 for what is not one. *)
Definition child `{Arch} (s : fsys) (n : Z) (nm : str) : Z :=
  match finddir (node s n) with Some _ => tmpfs_finddir n nm s | None => 0 end.

Section paths.
Context `{Arch} `{BlockDev} (fuel : nat).

Lemma tmpfs_finds s : tmpfs_only s → finds (H := kernel_fs_code fuel) s (child s).
Proof.
  intros Ht n c. unfold child. destruct (vnodes s !! n) as [y|] eqn:E.
  - assert (node s n = y) as -> by (unfold node; by rewrite E). destruct (Ht n y E) as [[-> | ->] _]; done.
  - assert (node s n = node_0) as -> by (unfold node; by rewrite E). done.
Qed.

Lemma tmpfs_no_open s n : tmpfs_only s → open (node s n) = None.
Proof.
  intros Ht. unfold node. destruct (vnodes s !! n) as [y|] eqn:E; [|done]. apply (Ht n y E).
Qed.

Lemma resolve_path s stack l :
  tmpfs_only s → vfs_root s ≠ 0 → Forall component l → Z.of_nat (length (join l)) < 255 →
  resolve (H := kernel_fs_code fuel) stack (Some (47 :: join l)) s = Ok (lookup_path (child s) l (vfs_root s), s).
Proof.
  intros Ht Hr Hl Hlen. cbn [resolve]. change (47 =? 47) with true. cbn [negb].
  rewrite (proj2 (Z.eqb_neq _ 0)) by done. destruct (join l) as [|c p] eqn:Ej.
  - destruct l as [|c l]; [done|]. apply Forall_cons_1 in Hl as [[Hc _] _]. by destruct c, l.
  - unfold strncpy_buf. rewrite (proj2 (Z.ltb_lt _ _)) by done. rewrite <- Ej.
    apply resolve_loop_path; [by apply tmpfs_finds|done|done].
Qed.

Lemma child_mounts s ms r n c : child (with_mounts ms r s) n c = child s n c.
Proof.
  unfold child, tmpfs_finddir. cbn. destruct (finddir _); [|done].
  assert (∀ k i d, find_entry k i d c (with_mounts ms r s) = find_entry k i d c s) as E; [|apply E].
  induction k as [|k IH]; intros i d; [done|]. cbn [find_entry]. by rewrite IH.
Qed.

Lemma lookup_path_ext f g l : (∀ n c, f n c = g n c) → ∀ n, lookup_path f l n = lookup_path g l n.
Proof. intros E. induction l as [|c l IH]; intros n; [done|]. simpl. by rewrite E, IH. Qed.
End paths.

(** C19: with a root mounted, opening ["/c1/.../cn"], of at most 254 characters
    after the slash, terminates and gives the node reached from the root by
    looking each component up in turn, null as soon as one is missing or is not a
    directory; the state does not change.  The mount table plays no part in it:
    a file system mounted elsewhere than at the root is never entered. *)
Theorem vfs_open_path `{Arch} `{BlockDev} (fuel : nat) (s : fsys) (stack : str) (l : list str) (fl : Z)
    (ms : list (str * Z)) :
  tmpfs_only s → vfs_root s ≠ 0 → Forall component l → Z.of_nat (length (join l)) < 255 →
  let n := lookup_path (child s) l (vfs_root s) in
  vfs_open (H := kernel_fs_code fuel) stack (Some (47 :: join l)) fl s = Ok (n, s) ∧
  vfs_open (H := kernel_fs_code fuel) stack (Some (47 :: join l)) fl (with_mounts ms (vfs_root s) s) =
    Ok (n, with_mounts ms (vfs_root s) s).
Proof.
  intros Ht Hr Hl Hlen n.
  assert (∀ s, tmpfs_only s → vfs_root s ≠ 0 →
    vfs_open (H := kernel_fs_code fuel) stack (Some (47 :: join l)) fl s = Ok (lookup_path (child s) l (vfs_root s), s)) as Ho.
  { clear s Ht Hr n. intros s Ht Hr. unfold vfs_open. rewrite (resolve_path fuel s stack l Ht Hr Hl Hlen).
    cbn [mbind outcome_bind]. destruct (Z.eqb_spec (lookup_path (child s) l (vfs_root s)) 0) as [->|]; [done|].
    by rewrite tmpfs_no_open. }
  split; [by apply Ho|]. rewrite (Ho (with_mounts ms (vfs_root s) s) Ht Hr).
  by rewrite (lookup_path_ext _ (child s) l (child_mounts s ms (vfs_root s))).
Qed.

(** A root with the file [a], and a file system mounted at [/data]. *)
Definition demo_mounted : fsys :=
  let s := (vfs_mount [47] demo_root demo_fs2).2 in (vfs_mount [47; 100; 97; 116; 97] 77 s).2.

Lemma demo_mounted_tmpfs : tmpfs_only demo_mounted.
Proof.
  intros n y E. assert (vnodes demo_mounted = {[ demo_root := node demo_fs2 demo_root; demo_file := node demo_fs2 demo_file ]}) as Ev
    by (vm_compute; reflexivity).
  rewrite Ev in E. apply lookup_insert_Some in E as [[_ <-]|[_ E]].
  - split; [right|]; vm_compute; reflexivity.
  - apply lookup_singleton_Some in E as [_ <-]. split; [left|]; vm_compute; reflexivity.
Qed.

Lemma vfs_open_path_witness :
  ∃ s', vfs_open (H := kernel_fs_code (H := X86) (H0 := λ _ b, b) 0) [] (Some [47; 97]) 0 demo_mounted = Ok (demo_file, s') ∧
    vfs_open (H := kernel_fs_code (H := X86) (H0 := λ _ b, b) 0) [] (Some [47; 100; 97; 116; 97]) 0 demo_mounted = Ok (0, s').
Proof.
  exists demo_mounted. assert (vfs_root demo_mounted ≠ 0) as Hr by (vm_compute; discriminate).
  destruct (vfs_open_path (H := X86) (H0 := λ _ b, b) 0 demo_mounted [] [[97]] 0 [] demo_mounted_tmpfs Hr) as [E _].
  { constructor; [|constructor]. split; [discriminate|]. intros Hin%list_elem_of_singleton. discriminate Hin. }
  { reflexivity. }
  destruct (vfs_open_path (H := X86) (H0 := λ _ b, b) 0 demo_mounted [] [[100; 97; 116; 97]] 0 [] demo_mounted_tmpfs Hr) as [E2 _].
  { constructor; [|constructor]. split; [discriminate|]. rewrite !elem_of_cons, elem_of_nil. intuition discriminate. }
  { reflexivity. }
  split.
  - etrans; [exact E|]. f_equal.
  - etrans; [exact E2|]. f_equal.
Defined.
