(* ===== verification/Tree.v ===== *)
(** The file tree that tmpfs.c implements: an abstract specification of the
    directories and files, and the proof that the code refines it. *)
From S2P Require Import Prelude CString Heap Vfs Tmpfs Fat32 Fs.

(** A directory's entries, or a file's bytes; the tree is the objects by the
    address of their node. *)
Inductive object := Directory (es : gmap str Z) | RegularFile (l : list Z).
Abbreviation tree := (gmap Z object).

(** An entry of a directory, 0 for none. *)
Definition tchild (t : tree) (n : Z) (nm : str) : Z :=
  match t !! n with Some (Directory es) => default 0 (es !! nm) | _ => 0 end.

(** The entry [nm] of [p] becomes the new object [n], unless the name is taken:
    then the object exists but has no name.  Names keep 255 characters. *)
Definition add_object (p : Z) (nm : str) (n : Z) (o : object) (t : tree) : tree :=
  let nm := take 255 nm in
  <[n := o]> (match t !! p with
              | Some (Directory es) =>
                  <[p := Directory (if decide (is_Some (es !! nm)) then es else <[nm := n]> es)]> t
              | _ => t
              end).

Section refinement.
Context `{Arch} (lo hi : Z).
Implicit Types s : fsys.

Definition represents_object s (t : tree) (n : Z) (o : object) : Prop :=
  match o with
  | Directory es => ∃ y, vnodes s !! n = Some y ∧ flags y = VFS_DIR ∧ finddir y = Some tmpfs_finddir_fn ∧
      is_Some (tdirs s !! fs_data y) ∧ (∀ nm, tmpfs_finddir n nm s = default 0 (es !! nm)) ∧
      ∀ nm e, es !! nm = Some e → is_Some (t !! e)
  | RegularFile l => ∃ y x, vnodes s !! n = Some y ∧ flags y = VFS_FILE ∧ finddir y = None ∧ close y = None ∧
      read y = Some tmpfs_read_fn ∧ tfiles s !! fs_data y = Some x ∧ content (mem (fheap s)) x = l
  end.

(** The state [s] implements the tree [t]: no two directories of it share their
    entries. *)
Definition represents s (t : tree) : Prop :=
  tmpfs_ok lo hi s ∧ tmpfs_only s ∧ (∀ n o, t !! n = Some o → represents_object s t n o) ∧
  ∀ n m es es', t !! n = Some (Directory es) → t !! m = Some (Directory es') →
    fs_data (node s n) = fs_data (node s m) → n = m.

Lemma represents_node s t n o : represents s t → t !! n = Some o → is_Some (vnodes s !! n) ∧ 0 < n.
Proof.
  intros (Hok & _ & Ho & _) E. assert (is_Some (vnodes s !! n)) as Hn.
  { specialize (Ho n o E). destruct o; [destruct Ho as (y & -> & _)|destruct Ho as (y & x & -> & _)]; eauto. }
  split; [done|]. pose proof (node_addr lo hi s n Hok Hn). lia.
Qed.

Lemma represents_child s t n nm : represents s t → is_Some (t !! n) → child s n nm = tchild t n nm.
Proof.
  intros (Hok & _ & Ho & _) [o E]. unfold child, tchild. rewrite E. specialize (Ho n o E). unfold node.
  destruct o as [es|l].
  - destruct Ho as (y & -> & _ & Ef & _ & Hf & _). cbn. by rewrite Ef.
  - destruct Ho as (y & x & -> & _ & Ef & _). cbn. by rewrite Ef.
Qed.

(** The walk along a path stays in the tree. *)
Lemma represents_path s t l : represents s t → ∀ n, is_Some (t !! n) →
  lookup_path (child s) l n = lookup_path (tchild t) l n.
Proof.
  intros Hr. induction l as [|c l IH]; intros n Hn; [done|]. cbn [lookup_path].
  rewrite (represents_child s t) by done. cbv zeta. destruct (Z.eqb_spec (tchild t n c) 0) as [|Hne]; [done|].
  apply IH. unfold tchild in *. destruct Hn as [o E]. rewrite E in *. destruct o as [es|]; [|done].
  destruct Hr as (_ & _ & Ho & _). destruct (Ho n _ E) as (_ & _ & _ & _ & _ & _ & Hd).
  destruct (es !! c) as [e|] eqn:Ee; [by apply (Hd c e)|done].
Qed.

Lemma add_object_lookup p nm n o t es m : t !! p = Some (Directory es) → n ≠ p →
  add_object p nm n o t !! m =
    if decide (m = n) then Some o else
    if decide (m = p) then Some (Directory (if decide (is_Some (es !! take 255 nm)) then es else <[take 255 nm := n]> es))
    else t !! m.
Proof.
  intros E Hne. unfold add_object. rewrite E. destruct (decide (m = n)) as [->|]; [apply lookup_insert_eq|].
  rewrite lookup_insert_ne by done. destruct (decide (m = p)) as [->|]; [apply lookup_insert_eq|by rewrite lookup_insert_ne].
Qed.

Lemma add_object_grows p nm n o t es m : t !! p = Some (Directory es) → n ≠ p → is_Some (t !! m) →
  is_Some (add_object p nm n o t !! m).
Proof. intros E Hne Hm. rewrite (add_object_lookup _ _ _ _ _ es) by done.
  destruct (decide (m = n)); [eauto|]. destruct (decide (m = p)); eauto. Qed.

Lemma represents_entry s t p es nm e : represents s t → t !! p = Some (Directory es) → es !! nm = Some e →
  0 < e ∧ is_Some (t !! e).
Proof.
  intros Hr Ep Ee. pose proof Hr as (_ & _ & Ho & _). destruct (Ho p _ Ep) as (_ & _ & _ & _ & _ & _ & Hd).
  destruct (Hd nm e Ee) as [o Eo]. destruct (represents_node s t e o Hr Eo) as [_ ?]. eauto.
Qed.

(** What the directory finds afterwards is what the new entries say. *)
Lemma added_entries (es : gmap str Z) k n nm : 0 < n → (∀ e, es !! nm = Some e → 0 < e) →
  (let e := default 0 (es !! nm) in if e =? 0 then if bool_decide (k = nm) then n else 0 else e) =
  default 0 ((if decide (is_Some (es !! k)) then es else <[k := n]> es) !! nm).
Proof.
  intros Hn He. destruct (es !! nm) as [e|] eqn:E; cbn [default from_option id].
  - specialize (He e eq_refl). rewrite (proj2 (Z.eqb_neq e 0)) by lia. case_decide as D; [by rewrite E|].
    rewrite lookup_insert_ne; [by rewrite E|]. intros ->. apply D. eauto.
  - case_bool_decide as Hk; subst.
    + rewrite decide_False by (rewrite E; by intros [? ?]). by rewrite lookup_insert_eq.
    + case_decide; [by rewrite E|]. by rewrite lookup_insert_ne, E.
Qed.

(** A state in which one directory got a fresh node. *)
Definition grown s s' p py nm n y : Prop :=
  vnodes s !! p = Some py ∧ tmpfs_ok lo hi s' ∧ kept (OEntries (fs_data py)) s s' ∧
  vnodes s !! n = None ∧ vnodes s' = <[n := y]> (vnodes s) ∧
  open y = None ∧ (finddir y = None ∨ finddir y = Some tmpfs_finddir_fn) ∧
  ∀ nm', tmpfs_finddir p nm' s' =
    let e := tmpfs_finddir p nm' s in if e =? 0 then if bool_decide (take 255 nm = nm') then n else 0 else e.

Section growth.
Context (s s' : fsys) (t : tree) (p : Z) (py : vfs_node_t) (es : gmap str Z) (nm : str) (n : Z) (y : vfs_node_t) (o : object).
Context (Hr : represents s t) (Ep : t !! p = Some (Directory es)) (Hg : grown s s' p py nm n y).

Lemma grown_new : n ≠ p ∧ 0 < n ∧ t !! n = None.
Proof.
  pose proof Hg as (Epy & Hok' & _ & Hfr & Ev & _). split; [congruence|]. split.
  - pose proof (node_addr lo hi s' n Hok' ltac:(rewrite Ev, lookup_insert_eq; eauto)). lia.
  - destruct (t !! n) as [on|] eqn:E; [|done]. destruct (represents_node s t n on Hr E) as [[z Ez] _]. congruence.
Qed.

(** The directory itself. *)
Lemma grown_parent : represents_object s' (add_object p nm n o t) p
  (Directory (if decide (is_Some (es !! take 255 nm)) then es else <[take 255 nm := n]> es)).
Proof.
  destruct grown_new as (Hnp & Hn & _). pose proof Hr as (_ & _ & Hobj & _).
  pose proof Hg as (Epy & (_ & _ & _ & _ & Hnodes) & _ & _ & Ev & _ & _ & Hfind).
  destruct (Hobj p _ Ep) as (py' & Epy' & Hpf & Hpfd & _ & Hpfind & _). assert (py' = py) as -> by congruence.
  assert (vnodes s' !! p = Some py) as Epy2 by (by rewrite Ev, lookup_insert_ne).
  exists py. do 3 (split; [done|]). split; [apply (Hnodes p py Epy2); by left|]. split.
  - intros nm'. rewrite Hfind, Hpfind. apply added_entries; [done|]. intros e Ee.
    by destruct (represents_entry s t p es nm' e Hr Ep Ee).
  - intros nm' e He. rewrite (add_object_lookup _ _ _ _ _ es) by done. destruct (decide (e = n)); [eauto|]. destruct (decide (e = p)); [eauto|].
    case_decide as D3; [by destruct (represents_entry s t p es nm' e Hr Ep He)|].
    apply lookup_insert_Some in He as [[_ <-]|[_ He]]; [done|by destruct (represents_entry s t p es nm' e Hr Ep He)].
Qed.

(** The other objects. *)
Lemma grown_other m om : m ≠ p → t !! m = Some om → represents_object s' (add_object p nm n o t) m om.
Proof.
  intros Hm Em. destruct grown_new as (Hnp & Hn & Hfrt). pose proof Hr as (Hok & _ & Hobj & Hinj).
  pose proof Hg as (Epy & Hok' & Hk & Hfr & Ev & _). assert (m ≠ n) as Hmn by congruence.
  assert (vnodes s' !! m = vnodes s !! m) as Hv by (by rewrite Ev, lookup_insert_ne).
  destruct om as [es'|l]; pose proof (Hobj m _ Em) as Ho.
  - destruct Ho as (my & Emy & Hf & Hfd & [x Ex] & Hfi & Hes).
    assert (OEntries (fs_data my) ≠ OEntries (fs_data py)) as Hne.
    { intros [= E]. apply Hm, (Hinj m p es' es Em Ep). unfold node. by rewrite Emy, Epy. }
    assert (∀ nm', tdirs s' !! fs_data my = Some x ∧ tmpfs_finddir m nm' s' = tmpfs_finddir m nm' s) as Hkeep.
    { intros nm'. by apply (finddir_kept lo hi (OEntries (fs_data py)) s s' m my x n y). }
    exists my. rewrite Hv. do 3 (split; [done|]). split; [exists x; apply (Hkeep [])|]. split.
    + intros nm'. destruct (Hkeep nm') as [_ ->]. apply Hfi.
    + intros nm' e He. apply (add_object_grows _ _ _ _ _ es); eauto.
  - destruct Ho as (my & x & Emy & Hf & Hfd & Hc & Hrd & Ex & El). exists my, x. rewrite Hv.
    destruct (proj2 Hk _ _ ltac:(done) Ex) as [Ex' Ec]. by rewrite <- Ec in El.
Qed.

Lemma represents_grown : represents_object s' (add_object p nm n o t) n o →
  (∀ es', o = Directory es' → tdirs s !! fs_data y = None) → represents s' (add_object p nm n o t).
Proof.
  intros Ho Hnew. destruct grown_new as (Hnp & Hn & Hfrt). pose proof Hr as (Hok & Hto & Hobj & Hinj).
  pose proof Hg as (Epy & Hok' & Hk & Hfr & Ev & Hopen & Hfd & _).
  assert (∀ m om, t !! m = Some om → node s' m = node s m) as Hnode.
  { intros m om Em. unfold node. rewrite Ev, lookup_insert_ne; [done|congruence]. }
  assert (node s' n = y) as Hny by (unfold node; by rewrite Ev, lookup_insert_eq).
  assert (∀ m es', t !! m = Some (Directory es') → is_Some (tdirs s !! fs_data (node s m))) as Hdirs.
  { intros m es' Em. destruct (Hobj m _ Em) as (my & Emy & _ & _ & Hdm & _). unfold node. by rewrite Emy. }
  split_and!; [done| | |].
  - intros m z Em. rewrite Ev in Em. apply lookup_insert_Some in Em as [[<- <-]|[_ Em]]; [done|by apply (Hto m)].
  - intros m om Em. rewrite (add_object_lookup _ _ _ _ _ es) in Em by done. destruct (decide (m = n)) as [->|]; [by injection Em as <-|].
    destruct (decide (m = p)) as [->|]; [injection Em as <-; apply grown_parent|by apply grown_other].
  - assert (∀ m es', add_object p nm n o t !! m = Some (Directory es') →
      (m = n ∧ o = Directory es') ∨ ∃ es2, t !! m = Some (Directory es2)) as Hdir.
    { intros m es' Em. rewrite (add_object_lookup _ _ _ _ _ es) in Em by done.
      destruct (decide (m = n)) as [->|]; [injection Em as <-; by left|].
      destruct (decide (m = p)) as [->|]; right; eauto. }
    intros a b ea eb Ea Eb E. destruct (Hdir a ea Ea) as [[-> Eo]|[e1 E1]], (Hdir b eb Eb) as [[-> Eo']|[e2 E2]]; [done| | |].
    + rewrite Hny, (Hnode b _ E2) in E. destruct (Hdirs b _ E2) as [z Ez]. rewrite <- E, (Hnew _ Eo) in Ez. done.
    + rewrite Hny, (Hnode a _ E1) in E. destruct (Hdirs a _ E1) as [z Ez]. rewrite E, (Hnew _ Eo') in Ez. done.
    + rewrite (Hnode a _ E1), (Hnode b _ E2) in E. by apply (Hinj a b e1 e2).
Qed.
End growth.

(** [tmpfs_mkdir] adds an empty directory. *)
Lemma mkdir_refines s t p es nm : represents s t → t !! p = Some (Directory es) →
  match tmpfs_mkdir p nm s with
  | Ok (n, s') => t !! n = None ∧ represents s' (add_object p nm n (Directory ∅) t) ∧
      vfs_root s' = vfs_root s ∧ outside lo hi (mem (fheap s)) (mem (fheap s'))
  | r => r = oom
  end.
Proof.
  intros Hr Ep. pose proof Hr as (Hok & _ & Ho & _). destruct (Ho p _ Ep) as (py & Epy & _ & _ & [x Ex] & _).
  pose proof (tmpfs_mkdir_cases lo hi s p py x nm Hok Epy Ex) as Hm.
  destruct (tmpfs_mkdir p nm s) as [[n s']|?|] eqn:E; [|done|done].
  destruct Hm as (Hok' & Hk & Hfr & (y & Ev & Hny & Hfl & Hfd & Hop & Hcl & Hnd & Hnd') & Hfind).
  assert (grown s s' p py nm n y) as Hg by (split_and!; try done; by right).
  destruct (grown_new s s' t p py nm n y Hr Hg) as (_ & _ & Hfrt). split; [done|].
  split; [|split; [by apply tmpfs_mkdir_mounts in E as [-> _]|by eapply tmpfs_mkdir_outside]].
  apply (represents_grown s s' t p py es nm n y _ Hr Ep Hg); [|done].
  assert (vnodes s' !! n = Some y) as En by (by rewrite Ev, lookup_insert_eq).
  exists y. split_and!; try done. intros nm'. by rewrite (tmpfs_finddir_kids lo hi s' n _ y nm' Hok' En Hnd').
Qed.

(** [tmpfs_mkfile] adds a file with a copy of the bytes at [src]. *)
Lemma mkfile_refines s t p es nm src sz : represents s t → t !! p = Some (Directory es) →
  0 ≤ sz → sz + 7 < 2 ^ 32 → src ≠ 0 → src + sz ≤ lo ∨ hi ≤ src →
  match tmpfs_mkfile p nm src sz s with
  | Ok (n, s') => t !! n = None ∧
      represents s' (add_object p nm n (RegularFile (load_bytes sz src (mem (fheap s)))) t) ∧
      vfs_root s' = vfs_root s ∧ outside lo hi (mem (fheap s)) (mem (fheap s'))
  | r => r = oom
  end.
Proof.
  intros Hr Ep H0 H7 Hs0 Hsrc. pose proof Hr as (Hok & _ & Ho & _). destruct (Ho p _ Ep) as (py & Epy & _ & _ & [x Ex] & _).
  pose proof (tmpfs_mkfile_cases lo hi s p py x nm src sz Hok Epy Ex H0 H7 Hsrc) as Hm.
  destruct (tmpfs_mkfile p nm src sz s) as [[n s']|?|] eqn:E; [|done|done].
  destruct Hm as (Hok' & Hk & Hfr & (y & z & Ev & Hny & Hsz & Hfl & Hfd & Hop & Hcl & Hrd & _ & Hfy & Ez & _ & Hc) & Hfind).
  assert (grown s s' p py nm n y) as Hg by (split_and!; try done; by left).
  destruct (grown_new s s' t p py nm n y Hr Hg) as (_ & _ & Hfrt). split; [done|].
  split; [|split; [by apply tmpfs_mkfile_mounts in E as [-> _]|by eapply tmpfs_mkfile_outside]].
  apply (represents_grown s s' t p py es nm n y _ Hr Ep Hg); [|done].
  exists y, z. split_and!; try done; [by rewrite Ev, lookup_insert_eq|]. by apply Hc.
Qed.

(** [tmpfs_create] makes a root. *)
Lemma create_refines s nm : tmpfs_ok lo hi s → tmpfs_only s →
  match tmpfs_create nm s with
  | Ok (n, s') => represents s' {[ n := Directory ∅ ]}
  | r => r = oom
  end.
Proof.
  intros Hok Hto. pose proof (tmpfs_create_cases lo hi s nm Hok) as Hm.
  destruct (tmpfs_create nm s) as [[n s']|?|]; [|done|done].
  destruct Hm as (Hok' & _ & _ & d & _ & Ed & _ & Ev). set (y := Node _ _ _ _ _ _ _ _ _ _ _) in *.
  assert (vnodes s' !! n = Some y) as En by (by rewrite Ev, lookup_insert_eq).
  assert (tdirs s' !! fs_data y = Some (TDir 0 0 0)) as Edy by (by rewrite Ed, lookup_insert_eq).
  split_and!; [done| | |].
  - intros m z Em. rewrite Ev in Em. apply lookup_insert_Some in Em as [[<- <-]|[_ Em]]; [|by apply (Hto m)].
    split; [by right|done].
  - intros m o [<- <-]%lookup_singleton_Some. exists y. split_and!; try done.
    intros nm'. by rewrite (tmpfs_finddir_kids lo hi s' n _ y nm' Hok' En Edy).
  - intros a b ea eb [<- _]%lookup_singleton_Some [<- _]%lookup_singleton_Some. done.
Qed.

(** The mount table and memory outside of the heap play no part. *)
Lemma represents_mounts s t ms r : represents s t → represents (with_mounts ms r s) t.
Proof.
  intros (Hok & Hto & Ho & Hinj). split_and!; [done|done| |done]. intros n o E. specialize (Ho n o E).
  destruct o as [es|l]; [|exact Ho]. destruct Ho as (y & A & B & C & D & F & G). exists y. split_and!; try done.
  intros nm. rewrite <- F. pose proof (child_mounts s ms r n nm) as Hc. unfold child in Hc.
  assert (node s n = y) as En by (unfold node; by rewrite A). assert (node (with_mounts ms r s) n = y) as En' by exact En.
  by rewrite En, En', C in Hc.
Qed.

Lemma represents_heap s t h : represents s t → sep lo hi h (owned s) → mem_kept (ONode 0) (owned s) (mem (fheap s)) (mem h) →
  represents (with_fheap h s) t.
Proof.
  intros (Hok & Hto & Ho & Hinj) Hsep Hm. destruct (tmpfs_ok_heap lo hi s h Hok Hsep Hm) as [Hok' Hk].
  split_and!; [done|done| |done]. intros n o E. specialize (Ho n o E). destruct o as [es|l].
  - destruct Ho as (y & A & B & C & [x D] & F & G). exists y. split_and!; try done. intros nm. rewrite <- F.
    destruct (proj1 Hk _ _ ltac:(done) D) as [D' Ek].
    rewrite (tmpfs_finddir_kids lo hi s n x y nm Hok A D).
    rewrite (tmpfs_finddir_kids lo hi _ n x y nm Hok' A D'), Ek. by apply first_named_ext, Forall_true.
  - destruct Ho as (y & x & A & B & C & D & F & G & I). exists y, x. split_and!; try done. rewrite <- I.
    by apply (proj2 Hk _ _ ltac:(done) G).
Qed.

Lemma represents_outside s t m : represents s t → mem_ok m → (∀ a, lo ≤ a < hi → ld m a = ld (mem (fheap s)) a) →
  represents (with_fheap (with_mem (fheap s) m) s) t.
Proof.
  intros Hr Hm Ha. pose proof Hr as ((_ & Hs & _) & _). apply represents_heap; [done|by apply sep_with_mem|].
  intros o p n a E _ Hin. apply Ha. pose proof (sep_bound lo hi (fheap s) (owned s) o p n Hs E ltac:(lia)). lia.
Qed.
End refinement.

(** ** Entries of the tree *)

Definition has_entry (t : tree) (d : Z) (nm : str) (e : Z) : Prop :=
  ∃ es, t !! d = Some (Directory es) ∧ es !! nm = Some e.

Lemma has_entry_child t d nm e : has_entry t d nm e → tchild t d nm = e.
Proof. intros (es & E & Ee). unfold tchild. by rewrite E, Ee. Qed.

(** Adding an object keeps the entries there are, and the other objects. *)
Lemma add_object_entry p nm n o t es d nm' e : t !! p = Some (Directory es) → t !! n = None →
  has_entry t d nm' e → has_entry (add_object p nm n o t) d nm' e.
Proof.
  intros Ep En (es' & Ed & Ee). assert (n ≠ p) as Hnp by congruence.
  unfold has_entry. rewrite (add_object_lookup _ _ _ _ _ es) by done. rewrite (decide_False (P := d = n)) by congruence.
  destruct (decide (d = p)) as [->|]; [|by exists es']. rewrite Ep in Ed. injection Ed as ->. eexists. split; [done|].
  case_decide as D; [done|]. rewrite lookup_insert_ne; [done|]. intros E. apply D. rewrite E. eauto.
Qed.

Lemma add_object_other p nm n o t es m om : t !! p = Some (Directory es) → t !! n = None → m ≠ p →
  t !! m = Some om → add_object p nm n o t !! m = Some om.
Proof.
  intros Ep En Hm Em. rewrite (add_object_lookup _ _ _ _ _ es) by congruence.
  rewrite decide_False by congruence. by rewrite decide_False by done.
Qed.

(** The new object is found under a name that was free. *)
Lemma add_object_new p nm n o t es : t !! p = Some (Directory es) → t !! n = None → (length nm ≤ 255)%nat → es !! nm = None →
  has_entry (add_object p nm n o t) p nm n ∧ add_object p nm n o t !! n = Some o ∧
  add_object p nm n o t !! p = Some (Directory (<[nm := n]> es)).
Proof.
  intros Ep En Hl Ee. assert (n ≠ p) as Hnp by congruence.
  assert (add_object p nm n o t !! p = Some (Directory (<[nm := n]> es))) as E.
  { rewrite (add_object_lookup _ _ _ _ _ es) by done. rewrite (take_ge nm) by done.
    rewrite (decide_False (P := p = n)), (decide_True (P := p = p)) by done.
    by rewrite decide_False by (rewrite Ee; by intros [? ?]). }
  split; [exists (<[nm := n]> es); split; [done|apply lookup_insert_eq]|]. split; [|done].
  rewrite (add_object_lookup _ _ _ _ _ es) by done. by rewrite decide_True by done.
Qed.

(** A directory stays one. *)
Lemma add_object_dir p nm n o t es d ed : t !! p = Some (Directory es) → t !! n = None → t !! d = Some (Directory ed) →
  ∃ ed', add_object p nm n o t !! d = Some (Directory ed') ∧
    ∀ nm', ed !! nm' = None → d ≠ p ∨ nm' ≠ take 255 nm → ed' !! nm' = None.
Proof.
  intros Ep En Ed. rewrite (add_object_lookup _ _ _ _ _ es) by congruence. rewrite decide_False by congruence.
  destruct (decide (d = p)) as [->|]; [|by exists ed]. rewrite Ep in Ed. injection Ed as ->. eexists. split; [done|].
  intros nm' Hn [?|?]; [done|]. case_decide; [done|]. by rewrite lookup_insert_ne.
Qed.

Section paths.
Context `{Arch} `{BlockDev} (fuel : nat) (lo hi : Z).

(** Opening a path of components is the walk in the tree. *)
Lemma represents_open s t stack l fl : represents lo hi s t → is_Some (t !! vfs_root s) → Forall component l →
  Z.of_nat (length (join l)) < 255 →
  vfs_open (H := kernel_fs_code fuel) stack (Some (47 :: join l)) fl s =
    Ok (lookup_path (tchild t) l (vfs_root s), s).
Proof.
  intros Hr Hroot Hl Hlen. pose proof Hr as (_ & Hto & _). destruct Hroot as [o Eo].
  destruct (represents_node lo hi s t (vfs_root s) o Hr Eo) as [_ Hpos]. unfold vfs_open.
  rewrite (resolve_path fuel s stack l Hto ltac:(lia) Hl Hlen). cbn [mbind outcome_bind].
  rewrite (represents_path lo hi s t l Hr (vfs_root s)) by eauto. 
  destruct (Z.eqb_spec (lookup_path (tchild t) l (vfs_root s)) 0) as [->|_]; [done|]. by rewrite tmpfs_no_open.
Qed.

Lemma represents_finddir s t n es nm : represents lo hi s t → t !! n = Some (Directory es) →
  vfs_finddir (H := kernel_fs_code fuel) n nm s = Ok (tchild t n nm, s).
Proof.
  intros Hr E. destruct (represents_node lo hi s t n _ Hr E) as [_ Hpos]. pose proof Hr as (_ & _ & Ho & _).
  destruct (Ho n _ E) as (y & Ey & Hf & Hfd & _ & Hfind & _). unfold vfs_finddir, node. rewrite Ey. cbn [default from_option id].
  rewrite Hf, Hfd, (proj2 (Z.eqb_neq n 0)) by lia. change (Z.land VFS_DIR VFS_DIR =? 0) with false. cbn [orb call_finddir kernel_fs_code].
  rewrite Hfind. unfold tchild. by rewrite E.
Qed.

Lemma represents_close s t n o : represents lo hi s t → t !! n = Some o → (∃ l, o = RegularFile l) →
  vfs_close (H := kernel_fs_code fuel) n s = Ok s.
Proof.
  intros Hr E [l ->]. pose proof Hr as (_ & _ & Ho & _). destruct (Ho n _ E) as (y & x & Ey & _ & _ & Hc & _).
  unfold vfs_close, node. rewrite Ey. cbn [default from_option id]. rewrite Hc. by destruct (n =? 0).
Qed.

(** Reading a file copies out the bytes of the tree. *)
Lemma represents_read s t n l off sz buf : represents lo hi s t → t !! n = Some (RegularFile l) →
  0 ≤ off → 0 ≤ sz → off + sz < 2 ^ 64 → buf + sz ≤ lo ∨ hi ≤ buf →
  let out := take (Z.to_nat sz) (drop (Z.to_nat off) l) in
  ∃ s', vfs_read (H := kernel_fs_code fuel) n off sz buf s = Ok (Z.of_nat (length out), s') ∧ represents lo hi s' t ∧
    load_bytes (Z.of_nat (length out)) buf (mem (fheap s')) = out.
Proof.
  intros Hr E Ho0 Hs0 Hos Hbuf out. destruct (represents_node lo hi s t n _ Hr E) as [_ Hpos].
  pose proof Hr as (Hok & _ & Ho & _). destruct (Ho n _ E) as (y & x & Ey & _ & _ & _ & Hrd & Ex & El).
  pose proof Hok as (_ & (_ & Hmem & _) & _ & Hf & _). destruct (Hf _ _ Ex) as [Hsz _].
  assert (Z.of_nat (length l) = fsize x) as Hl by (rewrite <- El; unfold content; rewrite length_fmap, length_seqZ; lia).
  destruct (tmpfs_read_cases lo hi s n y x off sz buf Hok Ey Ex Ho0 Hs0 Hos (outside_clear lo hi s buf sz Hok Hbuf)) as (s' & Er & _ & _ & _ & Hld).
  assert (Z.max 0 (Z.min sz (fsize x - off)) = Z.of_nat (length out)) as Ek.
  { unfold out. rewrite length_take, length_drop. lia. }
  rewrite Ek in *. destruct (tmpfs_read_mem n off sz buf s _ s' Hmem Er) as (m & -> & Hm).
  cbn [fheap with_fheap mem with_mem] in *. exists (with_fheap (with_mem (fheap s) m) s). split; [|split].
  - unfold vfs_read, node. rewrite Ey, (proj2 (Z.eqb_neq n 0)) by lia. cbn. rewrite Hrd. exact Er.
  - apply represents_outside; [done|done|]. intros a Ha. rewrite Hld. by rewrite decide_False by lia.
  - apply list_eq. intros k. unfold load_bytes. rewrite list_lookup_fmap.
    destruct (decide (k < length out)%nat) as [Hk|Hk].
    + rewrite lookup_seqZ_lt by lia. cbn. rewrite Hld, decide_True by lia.
      unfold out in *. rewrite length_take, length_drop in Hk. rewrite lookup_take_lt, lookup_drop by lia. rewrite <- El.
      unfold content. rewrite list_lookup_fmap, lookup_seqZ_lt by lia. cbn. do 2 f_equal. lia.
    + rewrite lookup_seqZ_ge, lookup_ge_None_2 by lia. done.
Qed.
End paths.

(** C11: tmpfs.c behind vfs.c implements the tree of its specification.  Unless
    memory runs out, [tmpfs_mkdir] adds an empty directory and [tmpfs_mkfile] a
    file with the bytes given, each under its first 255 characters when that name
    is free, and everything else in the tree stays, as do the mount root and all memory
    outside of the heap; opening an absolute path gives
    the node its components lead to in the tree, 0 when one is missing or a file;
    and reading a file gives its bytes at the offset, as many as there are. *)
Theorem tmpfs_refines_tree `{Arch} `{BlockDev} (fuel : nat) (lo hi : Z) (s : fsys) (t : tree) :
  represents lo hi s t →
  let C := kernel_fs_code fuel in
  (∀ p es nm, t !! p = Some (Directory es) →
     match tmpfs_mkdir p nm s with
     | Ok (n, s') => t !! n = None ∧ represents lo hi s' (add_object p nm n (Directory ∅) t) ∧
         vfs_root s' = vfs_root s ∧ outside lo hi (mem (fheap s)) (mem (fheap s'))
     | r => r = oom
     end) ∧
  (∀ p es nm src sz, t !! p = Some (Directory es) → 0 ≤ sz → sz + 7 < 2 ^ 32 → src ≠ 0 → src + sz ≤ lo ∨ hi ≤ src →
     match tmpfs_mkfile p nm src sz s with
     | Ok (n, s') => t !! n = None ∧
         represents lo hi s' (add_object p nm n (RegularFile (load_bytes sz src (mem (fheap s)))) t) ∧
         vfs_root s' = vfs_root s ∧ outside lo hi (mem (fheap s)) (mem (fheap s'))
     | r => r = oom
     end) ∧
  (∀ stack l fl, is_Some (t !! vfs_root s) → Forall component l → Z.of_nat (length (join l)) < 255 →
     vfs_open stack (Some (47 :: join l)) fl s = Ok (lookup_path (tchild t) l (vfs_root s), s)) ∧
  (∀ n l off sz buf, t !! n = Some (RegularFile l) → 0 ≤ off → 0 ≤ sz → off + sz < 2 ^ 64 → buf + sz ≤ lo ∨ hi ≤ buf →
     let out := take (Z.to_nat sz) (drop (Z.to_nat off) l) in
     ∃ s', vfs_read n off sz buf s = Ok (Z.of_nat (length out), s') ∧ represents lo hi s' t ∧
       load_bytes (Z.of_nat (length out)) buf (mem (fheap s')) = out).
Proof.
  intros Hr C. split; [|split; [|split]].
  - intros p es nm Ep. by apply mkdir_refines with es.
  - intros p es nm src sz Ep. by apply mkfile_refines with es.
  - intros stack l fl. by apply (represents_open fuel lo hi).
  - intros n l off sz buf. by apply (represents_read fuel lo hi).
Qed.

(** ** A root with one file *)

Lemma demo_tree : represents (H := X86) 0x400000 0x410000 demo_fs1 {[ demo_root := Directory ∅ ]}.
Proof.
  pose proof (create_refines (H := X86) 0x400000 0x410000 demo_fs0 [114] demo_fs0_ok) as Hc.
  rewrite demo_fs1_spec in Hc. apply Hc. intros n y E. done.
Qed.

Lemma tmpfs_refines_tree_witness :
  represents (H := X86) 0x400000 0x410000 demo_fs2
    (add_object demo_root [97] demo_file (RegularFile [72; 105]) {[ demo_root := Directory ∅ ]}).
Proof.
  destruct (tmpfs_refines_tree (H := X86) (H0 := λ _ b, b) 0 0x400000 0x410000 demo_fs1 {[ demo_root := Directory ∅ ]} demo_tree)
    as (_ & Hf & _).
  specialize (Hf demo_root ∅ [97] 100 2). rewrite demo_fs2_spec in Hf.
  destruct Hf as (_ & Hf & _); [apply lookup_singleton_eq|lia|lia|done|lia|].
  replace [72; 105] with (load_bytes 2 100 (mem (fheap demo_fs1))); [exact Hf|vm_compute; reflexivity].
Defined.
