(* ===== verification/Spinlock.v ===== *)
(** The spinlock: src/libs/libk/spinlock.c.

    The builtins act on the lock's first byte: [__atomic_test_and_set] sets it to
    1 and says whether it was set, [__atomic_clear] sets it to 0.  Processors
    interleave: each atomic operation is one step of the transition system. *)
From S2P Require Import Prelude.

Record spinlock_t := Spinlock { locked : Z }.
Definition SPINLOCK_INIT : spinlock_t := Spinlock 0.

Definition lock_byte (l : spinlock_t) : Z := locked l mod 256.

Definition atomic_test_and_set (l : spinlock_t) : bool * spinlock_t :=
  (negb (lock_byte l =? 0), Spinlock (locked l - lock_byte l + 1)).
Definition atomic_clear (l : spinlock_t) : spinlock_t := Spinlock (locked l - lock_byte l).

(** One evaluation of the loop's condition: [true] when the loop ends. *)
Definition spinlock_try_acquire (l : spinlock_t) : bool * spinlock_t :=
  let '(was, l) := atomic_test_and_set l in (negb was, l).

Definition spinlock_release (l : spinlock_t) : spinlock_t := atomic_clear l.

(** [spinlock_acquire] where [others] are what the other processors make of the
    lock between two attempts; [OutOfFuel] while it is still waiting. *)
Fixpoint spinlock_acquire (others : list (spinlock_t → spinlock_t)) (l : spinlock_t) : outcome spinlock_t :=
  let '(was, l) := atomic_test_and_set l in
  if was then
    match others with
    | [] => OutOfFuel
    | f :: others => spinlock_acquire others (f l)
    end
  else Ok l.

(** ** Processors *)

(** Where a processor is: outside, in the loop of [spinlock_acquire], or between
    it and [spinlock_release]. *)
Inductive place := Outside | Spinning | Inside.
#[global] Instance place_eq_dec : EqDecision place.
Proof. solve_decision. Defined.

Record smp := Smp { lock : spinlock_t; cpus : list place }.

Inductive smp_step : smp → smp → Prop :=
  | step_enter i s : cpus s !! i = Some Outside → smp_step s (Smp (lock s) (<[i := Spinning]> (cpus s)))
  | step_spin i s was l : cpus s !! i = Some Spinning → atomic_test_and_set (lock s) = (was, l) →
      smp_step s (Smp l (<[i := if was then Spinning else Inside]> (cpus s)))
  | step_try i s ok l : cpus s !! i = Some Outside → spinlock_try_acquire (lock s) = (ok, l) →
      smp_step s (Smp l (<[i := if (ok : bool) then Inside else Outside]> (cpus s)))
  | step_release i s : cpus s !! i = Some Inside → smp_step s (Smp (spinlock_release (lock s)) (<[i := Outside]> (cpus s))).

Inductive smp_reach (n : nat) : smp → Prop :=
  | reach_init : smp_reach n (Smp SPINLOCK_INIT (replicate n Outside))
  | reach_step s s' : smp_reach n s → smp_step s s' → smp_reach n s'.

(** At most one processor is inside, and one is exactly when the byte is set. *)
Definition smp_ok (s : smp) : Prop :=
  (lock_byte (lock s) = 0 ∨ lock_byte (lock s) = 1) ∧
  (lock_byte (lock s) = 1 ↔ ∃ i, cpus s !! i = Some Inside) ∧
  ∀ i j, cpus s !! i = Some Inside → cpus s !! j = Some Inside → i = j.

Lemma test_and_set_spec l was l' : atomic_test_and_set l = (was, l') →
  (was = false ↔ lock_byte l = 0) ∧ lock_byte l' = 1.
Proof.
  intros [= <- <-]. rewrite negb_false_iff, Z.eqb_eq. split; [done|]. unfold lock_byte. cbn [locked]. dlia.
Qed.

Lemma clear_byte l : lock_byte (spinlock_release l) = 0.
Proof. unfold spinlock_release, atomic_clear, lock_byte. cbn [locked]. dlia. Qed.

(** A processor moves without entering or leaving. *)
Lemma smp_ok_move s i p q : smp_ok s → cpus s !! i = Some p → p ≠ Inside → q ≠ Inside →
  ∀ l, lock_byte l = lock_byte (lock s) → smp_ok (Smp l (<[i := q]> (cpus s))).
Proof.
  intros (A & B & C) Ei Hp Hq l El.
  assert (∀ j, <[i := q]> (cpus s) !! j = Some Inside ↔ cpus s !! j = Some Inside) as E.
  { intros j. rewrite list_lookup_insert_Some. destruct (decide (i = j)) as [->|]; naive_solver. }
  unfold smp_ok. cbn [lock cpus]. rewrite El. split; [done|]. setoid_rewrite E. by split.
Qed.

(** A successful attempt. *)
Lemma smp_ok_enter s i p l : smp_ok s → cpus s !! i = Some p → lock_byte (lock s) = 0 → lock_byte l = 1 →
  smp_ok (Smp l (<[i := Inside]> (cpus s))).
Proof.
  intros (A & B & C) Ei H0' H1'. assert (∀ j, cpus s !! j ≠ Some Inside) as Hnone.
  { intros j Ej. assert (lock_byte (lock s) = 1) by (apply B; eauto). lia. }
  unfold smp_ok. cbn [lock cpus]. split; [by right|].
  assert (<[i := Inside]> (cpus s) !! i = Some Inside) as Ei' by (apply list_lookup_insert_eq; by eapply lookup_lt_Some).
  split; [split; eauto|]. intros j k [[-> _]|[_ Ej]]%list_lookup_insert_Some [[-> _]|[_ Ek]]%list_lookup_insert_Some; naive_solver.
Qed.

Lemma smp_step_ok s s' : smp_ok s → smp_step s s' → smp_ok s'.
Proof.
  intros Hok Hstep. pose proof Hok as (A & B & C). destruct Hstep as [i s Ei|i s was l Ei E|i s ok l Ei E|i s Ei].
  - by apply (smp_ok_move s i Outside).
  - destruct (test_and_set_spec _ _ _ E) as [Hw Hl]. destruct was.
    + apply (smp_ok_move s i Spinning); try done. rewrite Hl. destruct A as [A|]; [by apply Hw in A|done].
    + apply (smp_ok_enter s i Spinning); [done|done|by apply Hw|done].
  - unfold spinlock_try_acquire in E. destruct (atomic_test_and_set (lock s)) as [was l'] eqn:Et. injection E as <- <-.
    destruct (test_and_set_spec _ _ _ Et) as [Hw Hl]. destruct was; cbn [negb].
    + apply (smp_ok_move s i Outside); try done. rewrite Hl. destruct A as [A|]; [by apply Hw in A|done].
    + apply (smp_ok_enter s i Outside); [done|done|by apply Hw|done].
  - unfold smp_ok. cbn [lock cpus]. rewrite clear_byte.
    assert (∀ j, <[i := Outside]> (cpus s) !! j ≠ Some Inside) as Hnone.
    { intros j [[_ [E _]]|[Hne Ej]]%list_lookup_insert_Some; [done|]. by apply Hne, C. }
    split; [by left|]. split; [split; [lia|intros [j Hj]; by apply Hnone in Hj]|]. intros j k Hj. by apply Hnone in Hj.
Qed.

Lemma smp_reach_ok n s : smp_reach n s → smp_ok s ∧ length (cpus s) = n.
Proof.
  induction 1 as [|s s' _ [Hok Hl] Hstep].
  - split; [|apply length_replicate]. split; [by left|]. cbn [lock cpus].
    assert (∀ i, replicate n Outside !! i ≠ Some Inside) as Hnone by (intros i [E _]%lookup_replicate; done).
    split; [split; [done|intros [i Hi]; by apply Hnone in Hi]|]. intros i j Hi. by apply Hnone in Hi.
  - split; [by eapply smp_step_ok|]. destruct Hstep; cbn [cpus]; by rewrite length_insert.
Qed.

(** C32: whatever number of processors take and release the lock, by waiting or by
    trying, in whatever interleaving of their atomic operations: at most one is
    between the two, the lock's byte is set exactly while one is, a trial fails
    exactly then, and when none is, the next attempt of any waiting processor
    succeeds. *)
Theorem spinlock_mutual_exclusion (n : nat) (s : smp) :
  smp_reach n s →
  (∀ i j, cpus s !! i = Some Inside → cpus s !! j = Some Inside → i = j) ∧
  ((spinlock_try_acquire (lock s)).1 = true ↔ ∀ i, cpus s !! i ≠ Some Inside) ∧
  (∀ i others, cpus s !! i = Some Spinning → (∀ j, cpus s !! j ≠ Some Inside) →
    ∃ l, spinlock_acquire others (lock s) = Ok l ∧ smp_reach n (Smp l (<[i := Inside]> (cpus s)))).
Proof.
  intros Hr. destruct (smp_reach_ok n s Hr) as [(A & B & C) _]. split; [done|].
  assert ((∀ i, cpus s !! i ≠ Some Inside) → lock_byte (lock s) = 0) as Hfree.
  { intros Hnone. destruct A as [|A]; [done|]. apply B in A as [i Hi]. by apply Hnone in Hi. }
  split.
  - unfold spinlock_try_acquire, atomic_test_and_set. cbn [fst]. rewrite negb_involutive, Z.eqb_eq. split; [|done].
    intros E i Hi. assert (lock_byte (lock s) = 1) by (apply B; eauto). lia.
  - intros i others Ei Hnone. apply Hfree in Hnone as E0.
    destruct (atomic_test_and_set (lock s)) as [was l] eqn:E. destruct (test_and_set_spec _ _ _ E) as [Hw _].
    apply Hw in E0. subst was. exists l. split; [destruct others; cbn [spinlock_acquire]; by rewrite E|].
    eapply reach_step; [exact Hr|]. by apply (step_spin i s false).
Qed.

(** Two processors: the first is inside, the second waits. *)
Lemma spinlock_mutual_exclusion_witness :
  ∃ s, smp_reach 2 s ∧ cpus s = [Inside; Spinning] ∧ (spinlock_try_acquire (lock s)).1 = false.
Proof.
  assert (smp_reach 2 (Smp (Spinlock 1) [Inside; Spinning])) as Hr.
  { eapply (reach_step 2 (Smp (Spinlock 0) [Spinning; Spinning])).
    - eapply (reach_step 2 (Smp (Spinlock 0) [Spinning; Outside])); [|by apply (step_enter 1 (Smp (Spinlock 0) [Spinning; Outside]))].
      eapply reach_step; [apply reach_init|]. by apply (step_enter 0 (Smp SPINLOCK_INIT [Outside; Outside])).
    - by apply (step_spin 0 (Smp (Spinlock 0) [Spinning; Spinning]) false (Spinlock 1)). }
  exists (Smp (Spinlock 1) [Inside; Spinning]). split; [exact Hr|]. split; [reflexivity|].
  destruct (spinlock_mutual_exclusion 2 _ Hr) as (_ & Ht & _). apply not_true_is_false. rewrite Ht.
  intros Hn. by apply (Hn 0%nat).
Defined.
