(* ===== verification/Thread.v ===== *)
(** Threads and context switches: src/kernel/sched/thread.c and the two
    switch.asm files (src/arch/x86/cpu, src/arch/x86_64/cpu).

    A thread control block is a record found by its address; its name and the
    stacks are bytes of the heap's memory.  The assembly routines are modelled
    on the stack they push to and pop from. *)
From S2P Require Import Prelude CString Heap.

Definition THREAD_STACK_SIZE : Z := 16 * 1024.
Definition THREAD_NAME_LEN : Z := 32.
Definition SCHED_QUANTUM_TICKS : Z := 10.

Inductive thread_state_t :=
  THREAD_READY | THREAD_RUNNING | THREAD_BLOCKED | THREAD_SLEEPING | THREAD_ZOMBIE.

#[global] Instance thread_state_eq_dec : EqDecision thread_state_t.
Proof. solve_decision. Defined.

(** [name] and [stack]'s contents are in memory, at [t + 4] and at [stack]. *)
Record thread_t := Thread {
  tid : Z; tstate : thread_state_t; esp : Z; stack : Z; wake_tick : Z;
  quantum_remaining : Z; t_next : Z; t_prev : Z
}.

(** A block of zeros: [THREAD_READY] is [0]. *)
Definition thread_0 : thread_t := Thread 0 THREAD_READY 0 0 0 0 0 0.

(** [sizeof(thread_t)]: a [u64] is 4-aligned on i386. *)
Definition sizeof_thread `{Arch} : Z := match the_arch with X86 => 68 | X86_64 => 88 end.

(** The registers the switch saves, in push order, the stack pointer and the
    program counter. *)
Record cpu_t := Cpu { callee_saved : list Z; sp : Z; pc : Z }.

(** The statics of thread.c and sched.c, the heap and the processor. *)
Record kthreads := Kthreads {
  threads : gmap Z thread_t;
  current_thread : Z; next_id : Z; nthreads : Z;
  run_queue_head : Z; need_resched : bool;
  kheap : heap; cpu : cpu_t
}.

Definition tcb (s : kthreads) (t : Z) : thread_t := default thread_0 (threads s !! t).
Definition put_tcb (t : Z) (x : thread_t) (s : kthreads) : kthreads :=
  Kthreads (<[t := x]> (threads s)) (current_thread s) (next_id s) (nthreads s)
    (run_queue_head s) (need_resched s) (kheap s) (cpu s).
Definition upd_tcb (t : Z) (f : thread_t → thread_t) (s : kthreads) : kthreads :=
  put_tcb t (f (tcb s t)) s.
Definition set_state (t : Z) (v : thread_state_t) (s : kthreads) : kthreads :=
  upd_tcb t (λ x, Thread (tid x) v (esp x) (stack x) (wake_tick x) (quantum_remaining x) (t_next x) (t_prev x)) s.
Definition set_esp (t v : Z) (s : kthreads) : kthreads :=
  upd_tcb t (λ x, Thread (tid x) (tstate x) v (stack x) (wake_tick x) (quantum_remaining x) (t_next x) (t_prev x)) s.
Definition set_wake (t v : Z) (s : kthreads) : kthreads :=
  upd_tcb t (λ x, Thread (tid x) (tstate x) (esp x) (stack x) v (quantum_remaining x) (t_next x) (t_prev x)) s.
Definition set_quantum (t v : Z) (s : kthreads) : kthreads :=
  upd_tcb t (λ x, Thread (tid x) (tstate x) (esp x) (stack x) (wake_tick x) v (t_next x) (t_prev x)) s.
Definition set_tnext (t v : Z) (s : kthreads) : kthreads :=
  upd_tcb t (λ x, Thread (tid x) (tstate x) (esp x) (stack x) (wake_tick x) (quantum_remaining x) v (t_prev x)) s.
Definition set_tprev (t v : Z) (s : kthreads) : kthreads :=
  upd_tcb t (λ x, Thread (tid x) (tstate x) (esp x) (stack x) (wake_tick x) (quantum_remaining x) (t_next x) v) s.
Definition with_head (v : Z) (s : kthreads) : kthreads :=
  Kthreads (threads s) (current_thread s) (next_id s) (nthreads s) v (need_resched s) (kheap s) (cpu s).
Definition with_resched (v : bool) (s : kthreads) : kthreads :=
  Kthreads (threads s) (current_thread s) (next_id s) (nthreads s) (run_queue_head s) v (kheap s) (cpu s).
Definition with_ids (id n : Z) (s : kthreads) : kthreads :=
  Kthreads (threads s) (current_thread s) id n (run_queue_head s) (need_resched s) (kheap s) (cpu s).
Definition with_kheap (h : heap) (s : kthreads) : kthreads :=
  Kthreads (threads s) (current_thread s) (next_id s) (nthreads s) (run_queue_head s)
    (need_resched s) h (cpu s).
Definition with_cpu (c : cpu_t) (s : kthreads) : kthreads :=
  Kthreads (threads s) (current_thread s) (next_id s) (nthreads s) (run_queue_head s)
    (need_resched s) (kheap s) c.
Definition thread_set_current (t : Z) (s : kthreads) : kthreads :=
  Kthreads (threads s) t (next_id s) (nthreads s) (run_queue_head s) (need_resched s)
    (kheap s) (cpu s).

(** [*--sp = v] for each [v] of the list, in order: the final [sp] and memory. *)
Fixpoint push_all `{Arch} (vs : list Z) (sp : Z) (m : memory) : Z * memory :=
  match vs with
  | [] => (sp, m)
  | v :: vs' => let sp := uptr (sp - W) in push_all vs' sp (st_word sp v m)
  end.

(** [n] pops: the values in pop order and the final [sp]. *)
Fixpoint pop_n `{Arch} (n : nat) (sp : Z) (m : memory) : list Z * Z :=
  match n with
  | O => ([], sp)
  | S k => let '(vs, sp') := pop_n k (uptr (sp + W)) m in (ld_word m sp :: vs, sp')
  end.

(** ebp ebx esi edi, and on x86_64 rbp rbx r12 r13 r14 r15. *)
Definition n_saved `{Arch} : nat := match the_arch with X86 => 4 | X86_64 => 6 end.

(** switch.asm: [sp] points at the return address the call pushed; the old
    stack pointer goes to [*old]. *)
Definition switch_context `{Arch} (old_esp new_esp : Z) (s : kthreads) : kthreads :=
  let '(sp1, m) := push_all (callee_saved (cpu s)) (sp (cpu s)) (mem (kheap s)) in
  let s := set_esp old_esp sp1 (with_kheap (with_mem (kheap s) m) s) in
  let '(regs, sp2) := pop_n n_saved new_esp m in
  with_cpu (Cpu (rev regs) (uptr (sp2 + W)) (ld_word m sp2)) s.

(** The values [thread_create] pushes. *)
Definition initial_frame `{Arch} (thread_trampoline fn arg : Z) : list Z :=
  [arg; fn; thread_trampoline] ++ replicate n_saved 0.

Definition thread_create `{Arch} (thread_trampoline name fn arg : Z) (s : kthreads)
    : outcome (Z * kthreads) :=
  '(t, h) ← kmalloc sizeof_thread (kheap s);
  let h := with_mem h (memset t 0 sizeof_thread (mem h)) in
  '(stk, h) ← kmalloc THREAD_STACK_SIZE h;
  if stk =? 0 then Panic "thread_create: out of memory" else
  let h := with_mem h (strncpy (t + 4) name (THREAD_NAME_LEN - 1) (mem h)) in
  let '(sp, m) := push_all (initial_frame thread_trampoline fn arg)
                    (uptr (stk + THREAD_STACK_SIZE)) (mem h) in
  let s := with_kheap (with_mem h m) s in
  let s := put_tcb t (Thread (next_id s) THREAD_READY sp stk 0 SCHED_QUANTUM_TICKS 0 0) s in
  Ok (t, with_ids (u32 (next_id s + 1)) (u32 (nthreads s + 1)) s).

(** [thread_init_idle]; the idle thread runs on the boot stack, so nothing is
    pushed.  [idle_tcb], [idle_stack] and ["idle"] are link-time addresses. *)
Definition thread_init_idle `{Arch} (idle_tcb idle_stack name : Z) (s : kthreads) : kthreads :=
  let m := memset idle_tcb 0 sizeof_thread (mem (kheap s)) in
  let m := strncpy (idle_tcb + 4) name (THREAD_NAME_LEN - 1) m in
  let s := with_kheap (with_mem (kheap s) m) s in
  let s := put_tcb idle_tcb
    (Thread (next_id s) THREAD_RUNNING 0 idle_stack 0 SCHED_QUANTUM_TICKS 0 0) s in
  let s := thread_set_current idle_tcb s in
  with_ids (u32 (next_id s + 1)) (u32 (nthreads s + 1)) s.

Definition thread_current (s : kthreads) : Z := current_thread s.
Definition thread_count (s : kthreads) : Z := nthreads s.
Definition thread_get_by_id (id : Z) : Z := 0.

(** ** Stack lemmas *)

Lemma rev_replicate {A} n (x : A) : rev (replicate n x) = replicate n x.
Proof. induction n as [|n IH]; simpl; [done|]. rewrite IH. symmetry. apply replicate_cons_app. Qed.

Section stack.
Context `{Arch}.

Lemma length_pop_n n sp m : length (pop_n n sp m).1 = n.
Proof.
  revert sp. induction n as [|n IH]; intros sp; simpl; [done|].
  specialize (IH (uptr (sp + W))). destruct (pop_n n (uptr (sp + W)) m). simpl in *. lia.
Qed.

Lemma push_all_sp vs a m :
  W * Z.of_nat (length vs) ≤ a < 2 ^ word_bits →
  (push_all vs a m).1 = a - W * Z.of_nat (length vs).
Proof.
  pose proof W_bound. revert a m. induction vs as [|v vs IH]; intros a m Ha; simpl in *; [lia|].
  rewrite (wrap_small word_bits (a - W)) by nia. rewrite IH by nia. lia.
Qed.

Lemma push_all_mem vs a m b :
  W * Z.of_nat (length vs) ≤ a < 2 ^ word_bits →
  b < a - W * Z.of_nat (length vs) ∨ a ≤ b →
  ld (push_all vs a m).2 b = ld m b.
Proof.
  pose proof W_bound. revert a m. induction vs as [|v vs IH]; intros a m Ha Hb; simpl in *; [done|].
  rewrite (wrap_small word_bits (a - W)) by nia. rewrite IH by nia.
  unfold st_word. apply ld_st_le_ne. nia.
Qed.

Lemma mem_ok_push_all vs : ∀ a m, mem_ok m → mem_ok (push_all vs a m).2.
Proof. induction vs as [|v vs IH]; intros a m Hm; simpl; [done|]. apply IH, mem_ok_st_le, Hm. Qed.

Lemma pop_n_app n k sp m :
  pop_n (n + k) sp m =
  let '(vs, sp1) := pop_n n sp m in let '(ws, sp2) := pop_n k sp1 m in (vs ++ ws, sp2).
Proof.
  revert sp. induction n as [|n IH]; intros sp; simpl.
  { by destruct (pop_n k sp m). }
  rewrite IH. destruct (pop_n n (uptr (sp + W)) m) as [vs sp1].
  by destruct (pop_n k sp1 m).
Qed.

Lemma pop_n_sp n a m :
  0 ≤ a → a + W * Z.of_nat n < 2 ^ word_bits → (pop_n n a m).2 = a + W * Z.of_nat n.
Proof.
  pose proof W_bound. revert a. induction n as [|n IH]; intros a Ha Hb; simpl; [lia|].
  specialize (IH (uptr (a + W))). rewrite (wrap_small word_bits (a + W)) in * by nia.
  destruct (pop_n n (a + W) m). simpl in *. rewrite IH by nia. lia.
Qed.

Lemma pop_n_ext n a m m' :
  0 ≤ a → a + W * Z.of_nat n < 2 ^ word_bits →
  (∀ b, a ≤ b < a + W * Z.of_nat n → ld m' b = ld m b) → pop_n n a m' = pop_n n a m.
Proof.
  pose proof W_bound. revert a. induction n as [|n IH]; intros a Ha Hb Hm; simpl; [done|].
  rewrite (wrap_small word_bits (a + W)) by nia. rewrite (IH (a + W)); [|nia|nia|].
  - rewrite (ld_word_ext a m m'); [done|]. intros b Hb'. apply Hm. nia.
  - intros b Hb'. apply Hm. nia.
Qed.

(** Popping what was pushed gives it back, last in first out. *)
Lemma pop_push vs a m :
  Forall (λ v, 0 ≤ v < 2 ^ word_bits) vs →
  W * Z.of_nat (length vs) ≤ a < 2 ^ word_bits →
  pop_n (length vs) (push_all vs a m).1 (push_all vs a m).2 = (rev vs, a).
Proof.
  pose proof W_bound. intros Hv. revert a m.
  induction Hv as [|v vs Hv Hvs IH]; intros a m Ha; simpl length in *; [done|].
  cbn [push_all]. rewrite (wrap_small word_bits (a - W)) by nia.
  set (m1 := st_word (a - W) v m). replace (S (length vs)) with (length vs + 1)%nat by lia.
  rewrite pop_n_app, IH by nia. cbn [pop_n].
  rewrite (wrap_small word_bits (a - W + W)) by nia. cbn [rev]. f_equal; [|lia].
  do 2 f_equal. rewrite (ld_word_ext (a - W) m1).
  - unfold m1. by apply ld_st_word_eq.
  - intros b Hb. apply push_all_mem; [nia|]. nia.
Qed.
End stack.

(** ** Context switches *)

(** The size of a saved frame. *)
Definition frame_bytes `{Arch} : Z := W * Z.of_nat n_saved.

Section switching.
Context `{Arch}.
Implicit Types k : kthreads.


(** The registers and stack pointer of a thread about to call [switch_context],
    with room for the frame. *)
Definition cpu_ok (c : cpu_t) : Prop :=
  length (callee_saved c) = n_saved ∧ Forall (λ v, 0 ≤ v < 2 ^ word_bits) (callee_saved c) ∧
  frame_bytes ≤ sp c ∧ sp c + W < 2 ^ word_bits.

Lemma frame_bound : 16 ≤ frame_bytes ≤ 48.
Proof. unfold frame_bytes, n_saved, W, word_bits. destruct the_arch; cbv; split; intros K; discriminate K. Qed.

Lemma tcb_put t x k a : tcb (put_tcb t x k) a = if decide (a = t) then x else tcb k a.
Proof.
  unfold tcb, put_tcb. simpl. case_decide; subst; [by rewrite lookup_insert_eq|].
  by rewrite lookup_insert_ne.
Qed.

(** What a switch does, without the intermediate stack. *)
Lemma switch_context_eq old new k :
  cpu_ok (cpu k) → 0 ≤ new → new + frame_bytes + W < 2 ^ word_bits →
  let m := (push_all (callee_saved (cpu k)) (sp (cpu k)) (mem (kheap k))).2 in
  let k' := switch_context old new k in
  esp (tcb k' old) = sp (cpu k) - frame_bytes ∧ mem (kheap k') = m ∧
  cpu k' = Cpu (rev (pop_n n_saved new m).1) (new + frame_bytes + W) (ld_word m (new + frame_bytes)).
Proof.
  intros (A & B & C & D) Hn Hnew m k'. pose proof W_bound. pose proof frame_bound.
  pose proof (push_all_sp (callee_saved (cpu k)) (sp (cpu k)) (mem (kheap k)) ltac:(rewrite A; fold frame_bytes; lia)) as E1.
  assert (new + W * Z.of_nat n_saved < 2 ^ word_bits) as Hx by (fold frame_bytes; lia).
  pose proof (pop_n_sp n_saved new m Hn Hx) as E2.
  unfold k', switch_context. unfold m in *. rewrite A in E1. fold frame_bytes in E1, E2.
  destruct (push_all _ _ _) as [sp1 m1]. cbn [fst snd] in *.
  destruct (pop_n n_saved new m1) as [regs sp2]. cbn [fst snd] in *. subst.
  cbn [with_cpu cpu kheap]. rewrite wrap_small by lia. split_and!.
  - unfold set_esp, upd_tcb. unfold tcb, with_cpu, put_tcb. simpl. by rewrite lookup_insert_eq.
  - done.
  - done.
Qed.

(** The memory [switch_context] pushes to. *)
Lemma switch_mem old new k b :
  cpu_ok (cpu k) → 0 ≤ new → new + frame_bytes + W < 2 ^ word_bits →
  b < sp (cpu k) - frame_bytes ∨ sp (cpu k) ≤ b →
  ld (mem (kheap (switch_context old new k))) b = ld (mem (kheap k)) b.
Proof.
  intros Hc Hn Hnew Hb. destruct (switch_context_eq old new k Hc Hn Hnew) as (_ & -> & _).
  destruct Hc as (A & B & C & D). pose proof W_bound. apply push_all_mem; rewrite A; fold frame_bytes; lia.
Qed.
End switching.

(** C10: a thread that switches away and is switched back to later continues with
    its callee-saved registers, just after its call: whatever ran in between,
    if the saved frame and the return address are intact. *)
Theorem switch_round_trip `{Arch} (k1 k2 : kthreads) (a b new : Z) :
  cpu_ok (cpu k1) → cpu_ok (cpu k2) → 0 ≤ new → new + frame_bytes + W < 2 ^ word_bits →
  let c := cpu k1 in
  let k1' := switch_context a new k1 in
  esp (tcb k2 a) = esp (tcb k1' a) →
  (∀ x, sp c - frame_bytes ≤ x < sp c + W → ld (mem (kheap k2)) x = ld (mem (kheap k1')) x) →
  sp (cpu k2) ≤ sp c - frame_bytes ∨ sp c + W ≤ sp (cpu k2) - frame_bytes →
  cpu (switch_context b (esp (tcb k2 a)) k2) =
    Cpu (callee_saved c) (sp c + W) (ld_word (mem (kheap k1)) (sp c)).
Proof.
  intros Hc1 Hc2 Hn Hnew c k1' Hesp Hmem Hd. pose proof W_bound. pose proof frame_bound.
  destruct (switch_context_eq a new k1 Hc1 Hn Hnew) as (E1 & E2 & _). fold k1' in E1, E2.
  pose proof Hc1 as (A & B & C & D). fold c in A, B, C, D. rewrite Hesp, E1. fold c.
  assert (0 ≤ sp c - frame_bytes) as G1 by lia.
  assert (sp c - frame_bytes + frame_bytes + W < 2 ^ word_bits) as G2 by lia.
  destruct (switch_context_eq b (sp c - frame_bytes) k2 Hc2 G1 G2) as (_ & E3 & ->).
 set (m := (push_all (callee_saved (cpu k2)) (sp (cpu k2)) (mem (kheap k2))).2) in *.
  assert (∀ x, sp c - frame_bytes ≤ x < sp c + W → ld m x = ld (mem (kheap k1')) x) as Hm.
  { intros x Hx. rewrite <- Hmem by done. unfold m. destruct Hc2 as (A2 & _ & C2 & D2).
    apply push_all_mem; rewrite A2; fold frame_bytes; lia. }
  replace (sp c - frame_bytes + frame_bytes) with (sp c) by lia. f_equal.
  - rewrite (pop_n_ext n_saved (sp c - frame_bytes) (mem (kheap k1')) m);
      [|lia|fold frame_bytes; lia|fold frame_bytes; intros; apply Hm; lia].
    rewrite E2. fold c. rewrite <- A.
    assert (W * Z.of_nat (length (callee_saved c)) ≤ sp c < 2 ^ word_bits) as G
      by (rewrite A; fold frame_bytes; lia).
    pose proof (pop_push (callee_saved c) (sp c) (mem (kheap k1)) B G) as P.
    rewrite (push_all_sp _ _ _ G) in P. rewrite A in P |- *. fold frame_bytes in P.
    rewrite P. cbn [fst]. apply rev_involutive.
  - rewrite (ld_word_ext (sp c) (mem (kheap k1')) m) by (intros; apply Hm; lia).
    rewrite E2. fold c. apply ld_word_ext. intros x Hx.
    apply push_all_mem; rewrite A; fold frame_bytes; lia.
Qed.

(** The frame [thread_create] pushes, popped: first the saved registers, then
    the three words the trampoline needs. *)
Lemma initial_frame_pop `{Arch} tramp fn arg top m :
  0 ≤ tramp < 2 ^ word_bits → 0 ≤ fn < 2 ^ word_bits → 0 ≤ arg < 2 ^ word_bits →
  frame_bytes + 3 * W ≤ top < 2 ^ word_bits →
  let '(sp1, m1) := push_all (initial_frame tramp fn arg) top m in
  sp1 = top - frame_bytes - 3 * W ∧
  pop_n n_saved sp1 m1 = (replicate n_saved 0, top - 3 * W) ∧
  ld_word m1 (top - 3 * W) = tramp ∧ ld_word m1 (top - 2 * W) = fn ∧ ld_word m1 (top - W) = arg.
Proof.
  intros Ht Hf Ha Htop. pose proof W_bound. pose proof frame_bound.
  set (fr := initial_frame tramp fn arg).
  assert (length fr = (n_saved + 3)%nat) as Hl by (unfold fr, initial_frame; rewrite length_app, length_replicate; simpl; lia).
  assert (W * Z.of_nat (length fr) = frame_bytes + 3 * W) as Hb by (rewrite Hl; unfold frame_bytes; lia).
  assert (Forall (λ v, 0 ≤ v < 2 ^ word_bits) fr) as Hv.
  { unfold fr, initial_frame. repeat (constructor; [done|]). apply Forall_replicate. lia. }
  pose proof (push_all_sp fr top m ltac:(rewrite Hb; lia)) as E1.
  pose proof (pop_push fr top m Hv ltac:(rewrite Hb; lia)) as E2.
  destruct (push_all fr top m) as [sp1 m1]. cbn [fst snd] in *. rewrite Hb in E1.
  replace (top - (frame_bytes + 3 * W)) with (top - frame_bytes - 3 * W) in E1 by lia. split; [done|].
  rewrite Hl, pop_n_app in E2.
  pose proof (length_pop_n n_saved sp1 m1) as L1.
  assert (sp1 + frame_bytes < 2 ^ word_bits) as G by lia.
  pose proof (pop_n_sp n_saved sp1 m1 ltac:(lia) G) as S1. fold frame_bytes in S1.
  destruct (pop_n n_saved sp1 m1) as [vs sp2]. cbn [fst snd pop_n] in *.
  replace sp2 with (top - 3 * W) in * by lia.
  rewrite (wrap_small word_bits (top - 3 * W + W)) in E2 by lia.
  rewrite (wrap_small word_bits (top - 3 * W + W + W)) in E2 by lia.
  replace (top - 3 * W + W) with (top - 2 * W) in E2 by lia.
  replace (top - 2 * W + W) with (top - W) in E2 by lia.
  apply (f_equal fst) in E2. cbn [fst] in E2. unfold fr, initial_frame in E2. rewrite rev_app_distr in E2.
  rewrite rev_replicate in E2. apply app_inj_1 in E2 as [-> E2]; [|by rewrite length_replicate].
  cbn in E2. injection E2 as -> -> ->. done.
Qed.

(** The first switch to a stack on which [initial_frame] was pushed, away from
    the stack of the thread that runs. *)
Lemma first_switch `{Arch} tramp fn arg top cur m (k : kthreads) :
  0 ≤ tramp < 2 ^ word_bits → 0 ≤ fn < 2 ^ word_bits → 0 ≤ arg < 2 ^ word_bits →
  frame_bytes + 3 * W ≤ top → top < 2 ^ word_bits → cpu_ok (cpu k) →
  sp (cpu k) ≤ top - frame_bytes - 3 * W ∨ top ≤ sp (cpu k) - frame_bytes →
  let '(sp1, m1) := push_all (initial_frame tramp fn arg) top m in
  mem (kheap k) = m1 →
  let k2 := switch_context cur sp1 k in
  callee_saved (cpu k2) = replicate n_saved 0 ∧ pc (cpu k2) = tramp ∧
  ld_word (mem (kheap k2)) (sp (cpu k2)) = fn ∧ ld_word (mem (kheap k2)) (sp (cpu k2) + W) = arg.
Proof.
  intros Ht Hf Ha Hlo Hhi Hc Hd. pose proof W_bound. pose proof frame_bound.
  pose proof (initial_frame_pop tramp fn arg top m Ht Hf Ha (conj Hlo Hhi)) as Hfr.
  destruct (push_all (initial_frame tramp fn arg) top m) as [sp1 m1]. intros Em k2.
  destruct Hfr as (F1 & F2 & F3 & F4 & F5).
  assert (0 ≤ sp1) as G3 by lia. assert (sp1 + frame_bytes + W < 2 ^ word_bits) as G4 by lia.
  pose proof (switch_context_eq cur sp1 k Hc G3 G4) as (_ & Hm2 & Hcpu2). fold k2 in Hm2, Hcpu2.
  rewrite Hm2, Hcpu2. cbn [callee_saved pc sp]. rewrite Em. destruct Hc as (A & B & C & D).
  set (m2 := (push_all (callee_saved (cpu k)) (sp (cpu k)) m1).2).
  assert (∀ b, sp1 ≤ b < top → ld m2 b = ld m1 b) as Hk.
  { intros b Hb. apply push_all_mem; rewrite A; fold frame_bytes; lia. }
  rewrite (pop_n_ext n_saved sp1 m1) by (fold frame_bytes; lia || (intros; apply Hk; lia)).
  rewrite F2. cbn [fst]. rewrite rev_replicate.
  replace (sp1 + frame_bytes) with (top - 3 * W) by lia.
  replace (top - 3 * W + W) with (top - 2 * W) by lia. replace (top - 2 * W + W) with (top - W) by lia.
  rewrite (ld_word_ext (top - 3 * W) m1 m2), (ld_word_ext (top - 2 * W) m1 m2), (ld_word_ext (top - W) m1 m2)
    by (intros; apply Hk; lia). done.
Qed.

(** A thread [thread_create] returns is ready, its control block and its
    stack are fresh heap regions, and the first switch to it pops zeroed
    registers and lands in [thread_trampoline] with the thread's function and
    its argument on top of the stack, as the trampoline pops them. *)
Theorem thread_create_enters `{Arch} (tramp name fn arg t cur s e : Z) (k k' : kthreads) :
  heap_inv s e (kheap k) → cpu_ok (cpu k) →
  0 ≤ tramp < 2 ^ word_bits → 0 ≤ fn < 2 ^ word_bits → 0 ≤ arg < 2 ^ word_bits →
  thread_create tramp name fn arg k = Ok (t, k') →
  let stk := stack (tcb k' t) in
  (sp (cpu k) ≤ stk ∨ stk + THREAD_STACK_SIZE ≤ sp (cpu k) - frame_bytes) →
  heap_inv s e (kheap k') ∧ tstate (tcb k' t) = THREAD_READY ∧
  (∃ i j, regions (kheap k') ≡ₚ (stk, j) :: (t, i) :: regions (kheap k) ∧
     sizeof_thread ≤ i ∧ THREAD_STACK_SIZE ≤ j) ∧
  let k2 := switch_context cur (esp (tcb k' t)) k' in
  callee_saved (cpu k2) = replicate n_saved 0 ∧ pc (cpu k2) = tramp ∧
  ld_word (mem (kheap k2)) (sp (cpu k2)) = fn ∧ ld_word (mem (kheap k2)) (sp (cpu k2) + W) = arg.
Proof.
  intros Hi Hc Ht Hf Ha E stk Hd. unfold thread_create in E.
  pose proof word_bits_bound. pose proof W_bound. pose proof frame_bound. pose proof HDR_bound.
  assert (2 ^ 32 ≤ 2 ^ word_bits) by (apply Z.pow_le_mono_r; lia).
  assert (0 < sizeof_thread ≤ 88) as [G0 G0'] by (unfold sizeof_thread; destruct the_arch; lia).
  destruct (kmalloc sizeof_thread (kheap k)) as [[t1 h1]|msg|] eqn:E1; cbn [mbind outcome_bind] in E; try done.
  assert (sizeof_thread + 7 < 2 ^ word_bits) as G1 by lia.
  destruct (kmalloc_fresh _ s e _ _ _ Hi G0 G1 E1) as (Hi1 & _ & i & P1 & Q1 & _).
  set (h1' := with_mem h1 _) in E.
  assert (heap_inv s e h1') as Hi1' by (by apply heap_inv_with_mem).
  destruct (kmalloc THREAD_STACK_SIZE h1') as [[stk1 h2]|msg|] eqn:E2; cbn [mbind outcome_bind] in E; try done.
  unfold THREAD_STACK_SIZE in *. assert (16 * 1024 + 7 < 2 ^ word_bits) as G2 by lia.
  assert (0 < 16 * 1024) as G2' by lia.
  destruct (kmalloc_fresh _ s e _ _ _ Hi1' G2' G2 E2) as (Hi2 & _ & j & P2 & Q2 & R1 & R2 & _).
  assert (4096 ≤ s ∧ e < 2 ^ 32) as [B1 B2] by (destruct Hi2 as [l (? & ? & ? & _)]; done).
  rewrite (proj2 (Z.eqb_neq stk1 0)) in E by lia. cbv zeta in E.
  rewrite (wrap_small word_bits (stk1 + 16 * 1024)) in E by lia.
  set (h3 := with_mem h2 (strncpy _ _ _ _)) in E.
  assert (frame_bytes + 3 * W ≤ stk1 + 16 * 1024 < 2 ^ word_bits) as G5 by lia.
  destruct G5 as [G5 G6].
  pose proof (λ k1, first_switch tramp fn arg (stk1 + 16 * 1024) cur (mem h3) k1 Ht Hf Ha G5 G6) as Hsw.
  destruct (push_all (initial_frame tramp fn arg) _ (mem h3)) as [sp1 m1]. injection E as <- <-.
  assert (stk = stk1) as Es by (unfold stk, tcb, with_ids, put_tcb; simpl; by rewrite lookup_insert_eq).
  rewrite Es in *. clear stk Es. split; [|split; [|split]].
  - change (heap_inv s e (with_mem h3 m1)). by do 2 apply heap_inv_with_mem.
  - unfold tcb, with_ids, put_tcb. simpl. by rewrite lookup_insert_eq.
  - exists i, j. unfold h3. cbn [with_ids put_tcb with_kheap kheap]. rewrite !regions_with_mem.
    split; [|done]. rewrite P2. unfold h1'. by rewrite regions_with_mem, P1.
  - set (k' := with_ids _ _ _).
    assert (esp (tcb k' t1) = sp1) as Ee by (unfold k', tcb, with_ids, put_tcb; simpl; by rewrite lookup_insert_eq).
    rewrite Ee. apply (Hsw k'); [exact Hc|cbn; lia|done].
Qed.

(** A 32-bit kernel with a 64 KiB heap at 64 KiB, running on a stack below it. *)
Definition demo_kernel : kthreads :=
  Kthreads ∅ 0 1 1 0 false (heap_init (H := X86) 65536 65536 (Heap ∅ 0 0 ∅)) (Cpu [1; 2; 3; 4] 2048 0).

Lemma switch_round_trip_witness :
  let _ : Arch := X86 in
  let k1' := switch_context 8 3000 demo_kernel in
  cpu (switch_context 9 (esp (tcb k1' 8)) (with_cpu (Cpu [5; 6; 7; 8] 1024 0) k1')) =
    Cpu [1; 2; 3; 4] 2052 0.
Proof.
  intros HA k1'.
  refine (switch_round_trip (H := X86) demo_kernel (with_cpu (Cpu [5; 6; 7; 8] 1024 0) k1') 8 9 3000
    _ _ _ _ _ _ _).
  - repeat (split || constructor); cbv; discriminate.
  - repeat (split || constructor); cbv; discriminate.
  - lia.
  - cbv. reflexivity.
  - reflexivity.
  - intros x _. reflexivity.
  - left. cbv. discriminate.
Defined.

(** Where the demonstration thread's stack is; [0] if the creation failed. *)
Definition demo_stack (r : outcome (Z * kthreads)) : Z :=
  match r with Ok (t, k) => stack (tcb k t) | _ => 0 end.

Lemma thread_create_enters_witness :
  let _ : Arch := X86 in
  match thread_create 7000 100 8000 9000 demo_kernel with
  | Ok (t, k') => pc (cpu (switch_context 8 (esp (tcb k' t)) k')) = 7000
  | _ => False
  end.
Proof.
  intros HA. unfold HA. assert (demo_stack (thread_create (H := X86) 7000 100 8000 9000 demo_kernel) = 65648) as Hs
    by (vm_compute; reflexivity).
  destruct (thread_create 7000 100 8000 9000 demo_kernel) as [[t k']|msg|] eqn:E;
    cbn [demo_stack] in Hs; [|discriminate Hs|discriminate Hs].
  refine (proj1 (proj2 (proj2 (proj2 (proj2 (thread_create_enters (H := X86) 7000 100 8000 9000 t 8
    65536 131072 demo_kernel k' _ _ _ _ _ E _)))))).
  - eexists. apply (heap_init_inv (H := X86) 65536 65536 (Heap ∅ 0 0 ∅)); cbv; done.
  - repeat (split || constructor); cbv; discriminate.
  - cbv. split; [discriminate|reflexivity].
  - cbv. split; [discriminate|reflexivity].
  - cbv. split; [discriminate|reflexivity].
  - left. rewrite Hs. cbv. discriminate.
Defined.
