(* ===== verification/Layout.v ===== *)
(** The layout of the program's structures: the offset of every member on the
    two targets, as the System V ABI prescribes it.

    The models of the other files keep structures as records and give [kmalloc]
    the sizes as numbers, and the FAT32 reader takes fields from a buffer by
    their offsets.  Here the declarations of the headers are data, and the sizes
    and offsets are computed from them.  The structures of efi.h are compared
    with the tables of the UEFI specification. *)
From S2P Require Import Prelude Heap Pmm Vfs Tmpfs Fat32 FatDir Thread.

(** ** C types and structures *)

(** An integer of [n] bytes, a pointer, an array. *)
Inductive ctype := Int (n : Z) | Pointer | Array (n : Z) (t : ctype).

Record cstruct := CStruct { packed : bool; members : list (string * ctype) }.

Section layout.
Context `{Arch}.

Fixpoint size_of (t : ctype) : Z :=
  match t with Int n => n | Pointer => W | Array n t => n * size_of t end.

(** A 64-bit integer is aligned to 4 bytes on i386. *)
Fixpoint align_of (t : ctype) : Z :=
  match t with
  | Int n => match the_arch with X86 => Z.min n 4 | X86_64 => n end
  | Pointer => W
  | Array _ t => align_of t
  end.

Definition round_up (x a : Z) : Z := (x + a - 1) / a * a.

(** The members with their offsets, and the offset after the last. *)
Fixpoint place_members (pk : bool) (at_ : Z) (ms : list (string * ctype)) : list (string * Z * ctype) :=
  match ms with
  | [] => []
  | (nm, t) :: ms =>
      let at_ := if pk then at_ else round_up at_ (align_of t) in
      (nm, at_, t) :: place_members pk (at_ + size_of t) ms
  end.
Fixpoint end_of (at_ : Z) (l : list (string * Z * ctype)) : Z :=
  match l with [] => at_ | (_, o, t) :: l => end_of (o + size_of t) l end.
Definition struct_align (s : cstruct) : Z :=
  if packed s then 1 else foldr (λ '(_, t) a, Z.max (align_of t) a) 1 (members s).
Definition layout (s : cstruct) : list (string * Z * ctype) := place_members (packed s) 0 (members s).
Definition sizeof (s : cstruct) : Z := round_up (end_of 0 (layout s)) (struct_align s).
Definition offset_of (s : cstruct) (nm : string) : option Z :=
  (λ '(_, (_, o, _)), o) <$> list_find (λ m, m.1.1 = nm) (layout s).

(** Types of positive size with alignments that are powers of two. *)
Fixpoint ctype_ok (t : ctype) : Prop :=
  match t with Int n => n = 1 ∨ n = 2 ∨ n = 4 ∨ n = 8 | Pointer => True | Array n t => 0 < n ∧ ctype_ok t end.
Definition struct_ok (s : cstruct) : Prop := Forall (λ m, ctype_ok m.2) (members s).

Lemma W_cases : W = 4 ∨ W = 8.
Proof. unfold W, word_bits. destruct the_arch; [by left|by right]. Qed.

Lemma ctype_ok_bound t : ctype_ok t → 0 < size_of t ∧ (align_of t = 1 ∨ align_of t = 2 ∨ align_of t = 4 ∨ align_of t = 8).
Proof.
  pose proof W_cases. induction t as [n| |n t IH]; cbn; [|lia|intros [Hn Ht]; specialize (IH Ht); split; [nia|tauto]].
  intros Hn. split; [lia|]. destruct the_arch; lia.
Qed.

Lemma round_up_spec x a : 0 < a → x ≤ round_up x a < x + a ∧ round_up x a mod a = 0.
Proof.
  intros Ha. unfold round_up. split; [|apply Z.mod_mul; lia].
  pose proof (Z.div_mod (x + a - 1) a ltac:(lia)). pose proof (Z.mod_pos_bound (x + a - 1) a Ha). nia.
Qed.

(** Every member placed from [at_] on is at its alignment, they follow each
    other in order, and none begins before [at_]. *)
Lemma place_members_spec pk ms : ∀ at_, 0 ≤ at_ → Forall (λ m, ctype_ok m.2) ms →
  let l := place_members pk at_ ms in
  l.*1.*1 = ms.*1 ∧ l.*2 = ms.*2 ∧ at_ ≤ end_of at_ l ∧
  (∀ nm o t, (nm, o, t) ∈ l → at_ ≤ o ∧ o + size_of t ≤ end_of at_ l ∧ (pk = false → o mod align_of t = 0)) ∧
  (∀ i j mi oi ti mj oj tj, (i < j)%nat → l !! i = Some (mi, oi, ti) → l !! j = Some (mj, oj, tj) → oi + size_of ti ≤ oj).
Proof.
  induction ms as [|[nm t] ms IH]; intros at_ Hat Hms; cbn [place_members].
  { split; [done|]. split; [done|]. split; [done|]. split; [intros ??? Hin; by apply elem_of_nil in Hin|by intros]. }
  apply Forall_cons_1 in Hms as [Ht Hms]. cbn in Ht. destruct (ctype_ok_bound t Ht) as [Hs Ha].
  set (o := if pk then at_ else round_up at_ (align_of t)).
  assert (at_ ≤ o ∧ (pk = false → o mod align_of t = 0)) as [Ho Hal].
  { unfold o. destruct pk; [by split|]. destruct (round_up_spec at_ (align_of t) ltac:(lia)). split; [lia|done]. }
  clearbody o. destruct (IH (o + size_of t) ltac:(lia) Hms) as (E1 & E2 & Hend & Hin & Hord).
  set (l := place_members pk (o + size_of t) ms) in *.
  cbn [end_of].
  split; [cbn; by rewrite E1|]. split; [cbn; by rewrite E2|]. split; [lia|]. split.
  - intros nm' o' t' [[= -> -> ->]|Hin']%elem_of_cons; [by split_and!; [|lia|]|]. destruct (Hin _ _ _ Hin') as (? & ? & ?).
    split_and!; [lia|done|done].
  - intros [|i] [|j] mi oi ti mj oj tj Hij Ei Ej; try lia.
    + injection Ei as <- <- <-. cbn in Ej. apply list_elem_of_lookup_2 in Ej. by apply (Hin _ _ _ Ej).
    + cbn in Ei, Ej. apply (Hord i j mi oi ti mj oj tj); [lia|done|done].
Qed.
End layout.

(** ** The declarations *)

Local Open Scope string_scope.

Definition u8_t : ctype := Int 1.
Definition u16_t : ctype := Int 2.
Definition u32_t : ctype := Int 4.
Definition u64_t : ctype := Int 8.

(** heap.c, pmm.h, vfs.h, tmpfs.c, thread.h *)
Definition block_hdr_s : cstruct := CStruct false
  [("magic", u32_t); ("size", u32_t); ("used", u8_t); ("_pad", Array 3 u8_t); ("next", Pointer); ("prev", Pointer)].
Definition e820_entry_s : cstruct := CStruct true [("base", u64_t); ("length", u64_t); ("type", u32_t); ("acpi", u32_t)].
Definition vfs_node_s : cstruct := CStruct false
  [("name", Array 256 u8_t); ("flags", u32_t); ("size", u64_t); ("fs_data", Pointer); ("read", Pointer); ("write", Pointer);
   ("readdir", Pointer); ("finddir", Pointer); ("open", Pointer); ("close", Pointer); ("mount", Pointer)].
Definition tmpfs_dir_s : cstruct := CStruct false [("entries", Pointer); ("count", u32_t); ("cap", u32_t)].
Definition tmpfs_file_s : cstruct := CStruct false [("data", Pointer); ("size", u32_t)].
Definition thread_s : cstruct := CStruct false
  [("id", u32_t); ("name", Array THREAD_NAME_LEN u8_t); ("state", u32_t); ("esp", Pointer); ("stack", Pointer);
   ("wake_tick", u64_t); ("quantum_remaining", u32_t); ("next", Pointer); ("prev", Pointer)].

(** fat32.c *)
Definition fat32_vol_s : cstruct := CStruct false
  [("part_lba", u32_t); ("fat_lba", u32_t); ("data_lba", u32_t); ("root_cluster", u32_t); ("sectors_per_cluster", u32_t);
   ("bytes_per_cluster", u32_t); ("read_sector", Pointer); ("ctx", Pointer); ("sector_buf", Array 512 u8_t)].
Definition fat32_file_s : cstruct := CStruct false [("vol", Pointer); ("start_cluster", u32_t); ("size", u64_t)].
Definition fat32_dir_s : cstruct := CStruct false
  [("vol", Pointer); ("cluster", u32_t); ("entries", Pointer); ("count", u32_t); ("loaded", u8_t)].

(** fat32.h *)
Definition fat32_bpb_s : cstruct := CStruct true
  [("jmp", Array 3 u8_t); ("oem", Array 8 u8_t); ("bytes_per_sector", u16_t); ("sectors_per_cluster", u8_t);
   ("reserved_sectors", u16_t); ("num_fats", u8_t); ("root_entry_count", u16_t); ("total_sectors_16", u16_t); ("media", u8_t);
   ("fat_size_16", u16_t); ("sectors_per_track", u16_t); ("num_heads", u16_t); ("hidden_sectors", u32_t);
   ("total_sectors_32", u32_t); ("fat_size_32", u32_t); ("ext_flags", u16_t); ("fs_version", u16_t); ("root_cluster", u32_t);
   ("fs_info", u16_t); ("backup_boot", u16_t); ("reserved", Array 12 u8_t); ("drive_num", u8_t); ("reserved2", u8_t);
   ("boot_sig", u8_t); ("volume_id", u32_t); ("volume_label", Array 11 u8_t); ("fs_type", Array 8 u8_t)].
Definition fat32_dirent_s : cstruct := CStruct true
  [("name", Array 8 u8_t); ("ext", Array 3 u8_t); ("attr", u8_t); ("reserved", u8_t); ("ctime_tenths", u8_t); ("ctime", u16_t);
   ("cdate", u16_t); ("adate", u16_t); ("cluster_hi", u16_t); ("mtime", u16_t); ("mdate", u16_t); ("cluster_lo", u16_t);
   ("size", u32_t)].
Definition fat32_lfn_s : cstruct := CStruct true
  [("order", u8_t); ("name1", Array 5 u16_t); ("attr", u8_t); ("type", u8_t); ("checksum", u8_t); ("name2", Array 6 u16_t);
   ("first_cluster", u16_t); ("name3", Array 2 u16_t)].

(** efi.h *)
Definition EFI_GUID_s : cstruct := CStruct false [("a", u32_t); ("b", u16_t); ("c", u16_t); ("d", Array 8 u8_t)].
Definition EFI_MEMORY_DESCRIPTOR_s : cstruct := CStruct false
  [("Type", u32_t); ("Pad", u32_t); ("PhysicalStart", u64_t); ("VirtualStart", u64_t); ("NumberOfPages", u64_t); ("Attribute", u64_t)].
Definition EFI_SIMPLE_TEXT_OUTPUT_PROTOCOL_s : cstruct := CStruct false
  [("Reset", Pointer); ("OutputString", Pointer); ("QueryMode", Pointer); ("SetMode", Pointer); ("SetAttribute", Pointer);
   ("ClearScreen", Pointer); ("SetCursorPosition", Pointer); ("EnableCursor", Pointer); ("Mode", Pointer)].
Definition EFI_FILE_PROTOCOL_s : cstruct := CStruct false
  [("Revision", u64_t); ("Open", Pointer); ("Close", Pointer); ("Delete", Pointer); ("Read", Pointer); ("Write", Pointer);
   ("GetPosition", Pointer); ("SetPosition", Pointer); ("GetInfo", Pointer); ("SetInfo", Pointer); ("Flush", Pointer)].
Definition EFI_SIMPLE_FILE_SYSTEM_PROTOCOL_s : cstruct := CStruct false [("Revision", u64_t); ("OpenVolume", Pointer)].
Definition EFI_LOADED_IMAGE_PROTOCOL_s : cstruct := CStruct false
  [("Revision", u32_t); ("ParentHandle", Pointer); ("SystemTable", Pointer); ("DeviceHandle", Pointer); ("FilePath", Pointer);
   ("Reserved", Pointer); ("LoadOptionsSize", u32_t); ("LoadOptions", Pointer); ("ImageBase", Pointer); ("ImageSize", u64_t);
   ("ImageCodeType", u32_t); ("ImageDataType", u32_t); ("Unload", Pointer)].
Definition EFI_GOP_MODE_INFO_s : cstruct := CStruct false
  [("HorizontalResolution", u32_t); ("VerticalResolution", u32_t); ("PixelFormat", u32_t); ("RedMask", u32_t); ("GreenMask", u32_t);
   ("BlueMask", u32_t); ("ReservedMask", u32_t); ("PixelsPerScanLine", u32_t)].
(** The structure that [Mode] of [EFI_GRAPHICS_OUTPUT_PROTOCOL] points to. *)
Definition EFI_GOP_MODE_s : cstruct := CStruct false
  [("MaxMode", u32_t); ("Mode", u32_t); ("Info", Pointer); ("SizeOfInfo", Pointer); ("FrameBufferBase", u64_t); ("FrameBufferSize", Pointer)].
Definition EFI_GRAPHICS_OUTPUT_PROTOCOL_s : cstruct := CStruct false
  [("QueryMode", Pointer); ("SetMode", Pointer); ("Blt", Pointer); ("Mode", Pointer)].
Definition EFI_RUNTIME_SERVICES_s : cstruct := CStruct false [("pad", Array 3 Pointer); ("GetTime", Pointer); ("pad2", Array 7 Pointer)].
Definition EFI_BOOT_SERVICES_s : cstruct := CStruct false
  [("pad", Array 24 u8_t); ("RaiseTPL", Pointer); ("RestoreTPL", Pointer); ("AllocatePages", Pointer); ("FreePages", Pointer);
   ("GetMemoryMap", Pointer); ("AllocatePool", Pointer); ("FreePool", Pointer); ("pad3", Array 9 Pointer);
   ("HandleProtocol", Pointer); ("pad4", Array 3 Pointer); ("LocateProtocol", Pointer); ("pad5", Array 5 Pointer);
   ("ExitBootServices", Pointer)].
Definition EFI_SYSTEM_TABLE_s : cstruct := CStruct false
  [("pad", Array 44 u8_t); ("ConsoleInHandle", Pointer); ("ConIn", Pointer); ("ConsoleOutHandle", Pointer); ("ConOut", Pointer);
   ("ConsoleErrorHandle", Pointer); ("ConErr", Pointer); ("RuntimeServices", Pointer); ("BootServices", Pointer);
   ("NumberOfTableEntries", Pointer); ("ConfigurationTable", Pointer)].

(** The tables of the UEFI specification, up to the members the loader uses: a
    header of 24 bytes is three 64-bit numbers. *)
Definition uefi_system_table : cstruct := CStruct false
  [("Hdr", Array 3 u64_t); ("FirmwareVendor", Pointer); ("FirmwareRevision", u32_t); ("ConsoleInHandle", Pointer); ("ConIn", Pointer);
   ("ConsoleOutHandle", Pointer); ("ConOut", Pointer); ("StandardErrorHandle", Pointer); ("StdErr", Pointer);
   ("RuntimeServices", Pointer); ("BootServices", Pointer)].
Definition uefi_boot_services : cstruct := CStruct false
  (("Hdr", Array 3 u64_t) :: ((λ nm, (nm, Pointer)) <$>
   ["RaiseTPL"; "RestoreTPL"; "AllocatePages"; "FreePages"; "GetMemoryMap"; "AllocatePool"; "FreePool"; "CreateEvent"; "SetTimer";
    "WaitForEvent"; "SignalEvent"; "CloseEvent"; "CheckEvent"; "InstallProtocolInterface"; "ReinstallProtocolInterface";
    "UninstallProtocolInterface"; "HandleProtocol"; "Reserved"; "RegisterProtocolNotify"; "LocateHandle"; "LocateDevicePath";
    "InstallConfigurationTable"; "LoadImage"; "StartImage"; "Exit"; "UnloadImage"; "ExitBootServices"; "GetNextMonotonicCount";
    "Stall"; "SetWatchdogTimer"; "ConnectController"; "DisconnectController"; "OpenProtocol"; "CloseProtocol";
    "OpenProtocolInformation"; "ProtocolsPerHandle"; "LocateHandleBuffer"; "LocateProtocol"])).

Local Open Scope Z_scope.

(** All of them. *)
Definition kernel_structs : list cstruct :=
  [block_hdr_s; e820_entry_s; vfs_node_s; tmpfs_dir_s; tmpfs_file_s; thread_s; fat32_vol_s; fat32_file_s; fat32_dir_s; fat32_bpb_s;
   fat32_dirent_s; fat32_lfn_s; EFI_GUID_s; EFI_MEMORY_DESCRIPTOR_s; EFI_SIMPLE_TEXT_OUTPUT_PROTOCOL_s; EFI_FILE_PROTOCOL_s;
   EFI_SIMPLE_FILE_SYSTEM_PROTOCOL_s; EFI_LOADED_IMAGE_PROTOCOL_s; EFI_GOP_MODE_INFO_s; EFI_GOP_MODE_s;
   EFI_GRAPHICS_OUTPUT_PROTOCOL_s; EFI_RUNTIME_SERVICES_s; EFI_BOOT_SERVICES_s; EFI_SYSTEM_TABLE_s].

Lemma kernel_structs_ok : Forall struct_ok kernel_structs.
Proof.
  unfold struct_ok. repeat apply Forall_cons_2; try apply Forall_nil_2; cbn [members block_hdr_s]; repeat apply Forall_cons_2;
    try apply Forall_nil_2; cbn; unfold THREAD_NAME_LEN; lia.
Qed.

(** The little-endian member [nm] of the structure in a buffer. *)
Definition field_le `{Arch} (s : cstruct) (nm : string) (b : list Z) (at_ : Z) : Z :=
  match list_find (λ m, m.1.1 = nm) (layout s) with
  | Some (_, (_, o, t)) => rd_le (Z.to_nat (size_of t)) b (at_ + o)
  | None => 0
  end.

(** The structures of the kernel are laid out without overlap: in each of
    them, on both targets, the members are at multiples of their alignment (a
    packed structure apart), follow one another, and end within the size of the
    structure.  The sizes the components give [kmalloc] are those sizes, so that
    no object reaches past its block, and the heap keeps its headers in the space
    it reserves for them. *)
Theorem object_layouts `{Arch} :
  Forall (λ s, let l := layout s in
    (∀ nm o t, (nm, o, t) ∈ l → 0 ≤ o ∧ o + size_of t ≤ sizeof s ∧ (packed s = false → o mod align_of t = 0)) ∧
    (∀ i j mi oi ti mj oj tj, (i < j)%nat → l !! i = Some (mi, oi, ti) → l !! j = Some (mj, oj, tj) → oi + size_of ti ≤ oj))
    kernel_structs ∧
  sizeof block_hdr_s = HDR ∧ sizeof vfs_node_s = sizeof_node ∧ sizeof tmpfs_dir_s = sizeof_tmpfs_dir ∧
  sizeof tmpfs_file_s = sizeof_tmpfs_file ∧ sizeof thread_s = sizeof_thread ∧ sizeof fat32_vol_s = sizeof_vol ∧
  sizeof fat32_file_s = sizeof_ffile ∧ sizeof fat32_dir_s = sizeof_fdir ∧ sizeof fat32_lfn_s = sizeof_lfn ∧
  sizeof fat32_dirent_s = 32 ∧ sizeof e820_entry_s = 24.
Proof.
  split.
  - eapply Forall_impl; [|exact kernel_structs_ok]. intros s Hs l.
    destruct (place_members_spec (packed s) (members s) 0 ltac:(lia) Hs) as (_ & _ & _ & Hin & Hord).
    split; [|exact Hord]. intros nm o t Hin'. destruct (Hin nm o t Hin') as (H1 & H2 & H3).
    split; [done|]. split; [|done]. unfold sizeof. fold l.
    assert (0 < struct_align s) as Ha.
    { unfold struct_align. destruct (packed s); [lia|]. clear. induction (members s) as [|[m u] ms IH]; cbn; lia. }
    pose proof (round_up_spec (end_of 0 l) (struct_align s) Ha). unfold layout in l. fold l in H2. lia.
  - unfold sizeof_node, sizeof_vol, sizeof_ffile, sizeof_fdir, sizeof_lfn, sizeof_thread, sizeof_tmpfs_dir, sizeof_tmpfs_file, HDR, W, word_bits.
    destruct the_arch eqn:E; unfold sizeof, layout; cbn -[Z.div Z.mul]; unfold W, word_bits; rewrite ?E; vm_compute; done.
Qed.

(** *** FAT32 structures in a sector *)

(** The volume that [fat32_mount] describes is made of the members of
    [fat32_bpb_t], an entry that [load_dir] lists of those of [fat32_dirent_t],
    and the name fields it reads of a long-name slot are those of [fat32_lfn_t]. *)
Theorem fat32_fields `{Arch} (disk : Z → list Z) (part : Z) (pend : list (list Z)) (sl : list Z) :
  let f nm := field_le fat32_bpb_s nm (disk part) 0 in
  let g nm := field_le fat32_dirent_s nm sl 0 in
  f "bytes_per_sector"%string = rd_le 2 (disk part) 11 ∧
  mounted disk part =
    (let fat := u32 (part + f "reserved_sectors"%string) in
     FVol part fat (u32 (fat + f "num_fats"%string * f "fat_size_32"%string)) (f "root_cluster"%string)
       (f "sectors_per_cluster"%string) (u32 (f "sectors_per_cluster"%string * 512)) (disk part)) ∧
  e_dir (dirent_of pend sl) = negb (Z.land (g "attr"%string) FAT_ATTR_DIR =? 0) ∧
  e_cluster (dirent_of pend sl) = Z.lor (u32 (Z.shiftl (g "cluster_hi"%string) 16)) (g "cluster_lo"%string) ∧
  e_size (dirent_of pend sl) = g "size"%string ∧
  offset_of fat32_dirent_s "name" = Some 0 ∧ offset_of fat32_dirent_s "ext" = Some 8 ∧
  offset_of fat32_lfn_s "name1" = Some 1 ∧ offset_of fat32_lfn_s "attr" = offset_of fat32_dirent_s "attr" ∧
  offset_of fat32_lfn_s "name2" = Some 14 ∧ offset_of fat32_lfn_s "name3" = Some 28.
Proof.
  assert (∀ b i, rd_le 1 b i = rd b i) as H1 by (intros b i; cbn [rd_le]; lia).
  split; [done|]. split; [|split_and!; try done].
  - unfold mounted. rewrite <- !(H1 (disk part)). done.
  - cbn [dirent_of e_dir]. by rewrite <- (H1 sl).
Qed.

(** *** The tables of the firmware *)

(** The services the loader calls through [EFI_BOOT_SERVICES] are where the
    UEFI specification has them, but the two members it finds that table and the
    console with are not: 44 bytes of padding put [ConsoleInHandle] of
    [EFI_SYSTEM_TABLE] at 48 and not at 40, so that [ConOut] is read from the
    place of [StandardErrorHandle] and [BootServices] from that of the number of
    configuration tables.  [LocateProtocol], which is not called, is at the place
    of [LocateDevicePath]. *)
Theorem efi_layouts :
  let code := offset_of (H := X86_64) in
  Forall (λ nm, is_Some (code uefi_boot_services nm) ∧ code EFI_BOOT_SERVICES_s nm = code uefi_boot_services nm)
    ["RaiseTPL"; "RestoreTPL"; "AllocatePages"; "FreePages"; "GetMemoryMap"; "AllocatePool"; "FreePool"; "HandleProtocol";
     "ExitBootServices"]%string ∧
  code EFI_BOOT_SERVICES_s "LocateProtocol"%string = code uefi_boot_services "LocateDevicePath"%string ∧
  code uefi_system_table "ConsoleInHandle"%string = Some 40 ∧ code EFI_SYSTEM_TABLE_s "ConsoleInHandle"%string = Some 48 ∧
  code EFI_SYSTEM_TABLE_s "ConOut"%string = code uefi_system_table "StandardErrorHandle"%string ∧
  code EFI_SYSTEM_TABLE_s "BootServices"%string = Some (sizeof (H := X86_64) uefi_system_table) ∧
  code uefi_system_table "BootServices"%string = Some 96.
Proof. split; [repeat (constructor; [split; [vm_compute; eauto|vm_compute; reflexivity]|]); constructor|]. vm_compute. done. Qed.

(** ** The limits of stdint.h *)

Definition UINT8_MAX : Z := 0xFF.
Definition UINT16_MAX : Z := 0xFFFF.
Definition UINT32_MAX : Z := 0xFFFFFFFF.
Definition UINT64_MAX : Z := 0xFFFFFFFFFFFFFFFF.
Definition INT8_MAX : Z := 0x7F.
Definition INT16_MAX : Z := 0x7FFF.
Definition INT32_MAX : Z := 0x7FFFFFFF.
Definition INT64_MAX : Z := 0x7FFFFFFFFFFFFFFF.
Definition INT8_MIN : Z := -0x80.
Definition INT16_MIN : Z := -0x8000.
Definition INT32_MIN : Z := -0x80000000.
Definition INT64_MIN : Z := -0x8000000000000000.
Definition SIZE_MAX `{Arch} : Z := uptr (Z.lnot 0).

(** They bound the integers of the width, and are reached. *)
Lemma stdint_limits `{Arch} :
  Forall (λ '(w, u, lo, hi), (∀ x, 0 ≤ wrap w x ≤ u ∧ lo ≤ swrap w x ≤ hi) ∧ wrap w u = u ∧ swrap w lo = lo ∧ swrap w hi = hi)
    [(8, UINT8_MAX, INT8_MIN, INT8_MAX); (16, UINT16_MAX, INT16_MIN, INT16_MAX); (32, UINT32_MAX, INT32_MIN, INT32_MAX);
     (64, UINT64_MAX, INT64_MIN, INT64_MAX)] ∧
  (∀ x, uptr x ≤ SIZE_MAX).
Proof.
  assert (∀ w u lo hi, 0 < w → u = 2 ^ w - 1 → lo = - 2 ^ (w - 1) → hi = 2 ^ (w - 1) - 1 →
    (∀ x, 0 ≤ wrap w x ≤ u ∧ lo ≤ swrap w x ≤ hi) ∧ wrap w u = u ∧ swrap w lo = lo ∧ swrap w hi = hi) as Hw.
  { intros w u lo hi Hw -> -> ->. pose proof (Z.pow_pos_nonneg 2 (w - 1) ltac:(lia) ltac:(lia)).
    split; [|split_and!; [apply wrap_small|apply swrap_small..]; lia].
    intros x. pose proof (wrap_bound w x ltac:(lia)). pose proof (swrap_bound w x Hw). lia. }
  split; [repeat (apply Forall_cons_2; [by apply Hw|]); apply Forall_nil_2|]. intros x. unfold SIZE_MAX. pose proof word_bits_bound.
  assert (0 < 2 ^ word_bits) as Hpos by (apply Z.pow_pos_nonneg; lia).
  assert (uptr (Z.lnot 0) = 2 ^ word_bits - 1) as ->.
  { change (Z.lnot 0) with (-1). unfold wrap. replace (-1) with (2 ^ word_bits - 1 + (-1) * 2 ^ word_bits) by lia.
    rewrite Z.mod_add by lia. apply Z.mod_small. lia. }
  assert (0 ≤ uptr x < 2 ^ word_bits) by (apply wrap_bound; lia). lia.
Qed.
