(* ===== verification/Sched.v ===== *)
(** The scheduler: src/kernel/sched/sched.c.

    The run queue is a circular doubly linked list of control blocks.  The
    value of [pit_ticks()] is the argument [now]. *)
From S2P Require Import Prelude Heap Thread.

Definition enqueue (t : Z) (s : kthreads) : kthreads :=
  let s := set_state t THREAD_READY s in
  if run_queue_head s =? 0 then
    let s := with_head t s in
    let s := set_tprev t t s in
    set_tnext t t s
  else
    let s := set_tprev t (t_prev (tcb s (run_queue_head s))) s in
    let s := set_tnext t (run_queue_head s) s in
    let s := set_tnext (t_prev (tcb s (run_queue_head s))) t s in
    set_tprev (run_queue_head s) t s.

(** Take [t] out of the list of its neighbours. *)
Definition unlink (t : Z) (s : kthreads) : kthreads :=
  let s := set_tnext (t_prev (tcb s t)) (t_next (tcb s t)) s in
  set_tprev (t_next (tcb s t)) (t_prev (tcb s t)) s.

Definition dequeue_next (s : kthreads) : Z * kthreads :=
  if run_queue_head s =? 0 then (0, s) else
  let t := run_queue_head s in
  let s := if t_next (tcb s t) =? t then with_head 0 s
           else unlink t (with_head (t_next (tcb s t)) s) in
  (t, set_tnext t 0 (set_tprev t 0 s)).

Definition sched_init `{Arch} (idle_tcb idle_stack name : Z) (s : kthreads) : kthreads :=
  thread_init_idle idle_tcb idle_stack name (with_head 0 s).

Definition sched_add (t : Z) (s : kthreads) : kthreads := enqueue t s.

Definition sched_remove (t : Z) (s : kthreads) : kthreads :=
  if t_next (tcb s t) =? 0 then s else
  let s := if t_next (tcb s t) =? t then with_head 0 s
           else unlink t (if run_queue_head s =? t then with_head (t_next (tcb s t)) s else s) in
  set_tnext t 0 (set_tprev t 0 s).

(** The [do ... while (t && t != start)] loop of [sched_tick]. *)
Fixpoint wake_loop (fuel : nat) (now t start : Z) (s : kthreads) : outcome kthreads :=
  match fuel with
  | O => OutOfFuel
  | S k =>
      let s := if bool_decide (tstate (tcb s t) = THREAD_SLEEPING) && (wake_tick (tcb s t) <=? now)
               then set_state t THREAD_READY s else s in
      let t := t_next (tcb s t) in
      if (t =? 0) || (t =? start) then Ok s else wake_loop k now t start s
  end.

Definition sched_tick (now : Z) (s : kthreads) : outcome kthreads :=
  let cur := thread_current s in
  if cur =? 0 then Ok s else
  let s := if 0 <? quantum_remaining (tcb s cur)
           then set_quantum cur (quantum_remaining (tcb s cur) - 1) s else s in
  let s := if quantum_remaining (tcb s cur) =? 0 then with_resched true s else s in
  let t := run_queue_head s in
  if t =? 0 then Ok s else wake_loop (base.size (threads s)) now t t s.

(** Everything [sched_yield] does before [switch_context], and the thread to
    switch to; [0] when the queue is empty and it returns. *)
Definition sched_pick (s : kthreads) : Z * kthreads :=
  let cur := thread_current s in
  let '(next, s) := dequeue_next s in
  if next =? 0 then (0, with_resched false s) else
  let s := if bool_decide (tstate (tcb s cur) = THREAD_RUNNING)
           then enqueue cur (set_state cur THREAD_READY s) else s in
  let s := set_quantum cur SCHED_QUANTUM_TICKS s in
  let s := set_state next THREAD_RUNNING s in
  let s := set_quantum next SCHED_QUANTUM_TICKS s in
  let s := with_resched false s in
  (next, thread_set_current next s).

Definition sched_yield `{Arch} (s : kthreads) : kthreads :=
  let cur := thread_current s in
  let '(next, s) := sched_pick s in
  if next =? 0 then s else switch_context cur (esp (tcb s next)) s.

Definition sched_sleep `{Arch} (now ms : Z) (s : kthreads) : kthreads :=
  let cur := thread_current s in
  let s := set_state cur THREAD_SLEEPING s in
  let s := set_wake cur (u64 (now + ms / 10)) s in
  sched_yield (sched_remove cur s).

Definition sched_wake (t : Z) (s : kthreads) : kthreads :=
  if bool_decide (tstate (tcb s t) = THREAD_SLEEPING) || bool_decide (tstate (tcb s t) = THREAD_BLOCKED)
  then enqueue t (set_state t THREAD_READY s) else s.

(** [thread_exit] of thread.c: the caller never runs again. *)
Definition thread_exit `{Arch} (s : kthreads) : kthreads :=
  let t := current_thread s in
  let s := set_state t THREAD_ZOMBIE s in
  sched_yield (with_ids (next_id s) (u32 (nthreads s - 1)) s).

(** ** Reading fields through updates *)

Lemma keep_upd {A} (p : thread_t → A) t f s a :
  (∀ x, p (f x) = p x) → p (tcb (upd_tcb t f s) a) = p (tcb s a).
Proof. intros Hp. unfold upd_tcb. rewrite tcb_put. case_decide; subst; auto. Qed.

Lemma set_upd {A} (p : thread_t → A) t f v s a :
  (∀ x, p (f x) = v) → p (tcb (upd_tcb t f s) a) = if decide (a = t) then v else p (tcb s a).
Proof. intros Hp. unfold upd_tcb. rewrite tcb_put. case_decide; subst; auto. Qed.

Lemma tcb_upd_ne t f s a : a ≠ t → tcb (upd_tcb t f s) a = tcb s a.
Proof. intros. unfold upd_tcb. by rewrite tcb_put, decide_False. Qed.

Lemma head_upd t f s : run_queue_head (upd_tcb t f s) = run_queue_head s.
Proof. done. Qed.
Lemma head_with v s : run_queue_head (with_head v s) = v.
Proof. done. Qed.
Lemma tcb_with_head v s a : tcb (with_head v s) a = tcb s a.
Proof. done. Qed.
Lemma tcb_with_resched v s a : tcb (with_resched v s) a = tcb s a.
Proof. done. Qed.
Lemma tcb_set_current v s a : tcb (thread_set_current v s) a = tcb s a.
Proof. done. Qed.

Create Rewrite HintDb tcb.
#[export] Hint Rewrite head_upd head_with tcb_with_head tcb_with_resched tcb_set_current : tcb.

Ltac upd_field p :=
  match goal with
  | |- context [p (tcb (upd_tcb ?t ?f ?s) ?a)] =>
      first [ rewrite (keep_upd p t f s a) by (intros ?; reflexivity)
            | erewrite (set_upd p t f _ s a) by (intros ?; cbn; reflexivity) ]
  end.

(** Evaluate the fields of control blocks after a sequence of writes. *)
Ltac tcb_simpl :=
  unfold set_state, set_esp, set_wake, set_quantum, set_tnext, set_tprev;
  repeat (progress autorewrite with tcb || upd_field t_next || upd_field t_prev ||
          upd_field tstate || upd_field wake_tick || upd_field quantum_remaining || upd_field esp).

Ltac tcb_solve := tcb_simpl; repeat case_decide; simplify_eq; try done; try congruence.

(** ** The run queue as a list *)

(** The blocks [q] are chained: the first has predecessor [pr], the last
    successor [nx]. *)
Fixpoint dseg (g : Z → thread_t) (pr : Z) (q : list Z) (nx : Z) : Prop :=
  match q with
  | [] => True
  | t :: q' => t_prev (g t) = pr ∧ t_next (g t) = List.hd nx q' ∧ dseg g t q' nx
  end.

(** The queue of [s] is the list [q] of distinct control blocks, closed in both
    directions. *)
Definition ring (s : kthreads) (q : list Z) : Prop :=
  NoDup q ∧ (0 ∉ q) ∧ run_queue_head s = List.hd 0 q ∧
  dseg (tcb s) (List.last q 0) q (List.hd 0 q).

(** Nothing but queue links differs. *)
Definition same_thread (x y : thread_t) : Prop :=
  tid x = tid y ∧ tstate x = tstate y ∧ esp x = esp y ∧ stack x = stack y ∧
  wake_tick x = wake_tick y ∧ quantum_remaining x = quantum_remaining y.

Lemma last_cons_ne {A} (x d : A) q : q ≠ [] → List.last (x :: q) d = List.last q d.
Proof. by destruct q. Qed.

Lemma last_in (q : list Z) d : q ≠ [] → List.last q d ∈ q.
Proof.
  induction q as [|x q IH]; [done|]. intros _. destruct q as [|y q]; [left|].
  rewrite last_cons_ne by done. right. by apply IH.
Qed.

Lemma last_snoc_val (q : list Z) x d : List.last (q ++ [x]) d = x.
Proof. apply last_last. Qed.

Lemma last_default (q : list Z) d d' : q ≠ [] → List.last q d = List.last q d'.
Proof.
  destruct q as [|u q]; [done|]. intros _. revert u.
  induction q as [|v q IH]; intros u; simpl; [done|]. apply IH.
Qed.

Lemma dseg_app g pr q1 q2 nx :
  dseg g pr (q1 ++ q2) nx ↔ dseg g pr q1 (List.hd nx q2) ∧ dseg g (List.last q1 pr) q2 nx.
Proof.
  revert pr. induction q1 as [|t q1 IH]; intros pr; simpl; [tauto|].
  rewrite IH. destruct q1 as [|u q1]; simpl; [tauto|].
  assert (∀ d d', List.last (u :: q1) d = List.last (u :: q1) d') as El by (intros; by apply last_default).
  simpl in El. rewrite (El t pr). tauto.
Qed.

(** Changing the two ends of a chain. *)
Lemma dseg_relink g g' pr pr' q nx nx' :
  NoDup q →
  (∀ a, a ∈ q → t_prev (g' a) = (if decide (a = List.hd 0 q) then pr' else t_prev (g a)) ∧
                t_next (g' a) = (if decide (a = List.last q 0) then nx' else t_next (g a))) →
  dseg g pr q nx → dseg g' pr' q nx'.
Proof.
  revert pr pr'. induction q as [|t q IH]; intros pr pr' Hnd Hg; [done|]. intros (A & B & C).
  apply list.NoDup_cons in Hnd as [Hni Hnd]. destruct (Hg t ltac:(left)) as [G1 G2]. simpl List.hd in G1.
  rewrite decide_True in G1 by done. split; [done|].
  destruct q as [|u q].
  { split; [|done]. simpl in *. by rewrite decide_True in G2 by done. }
  assert (t ≠ List.last (u :: q) 0) as Hne.
  { intros ->. apply Hni. by apply last_in. }
  rewrite last_cons_ne in G2 by done. rewrite decide_False in G2 by done.
  split; [by rewrite G2, B|]. apply (IH t t); [done| |done].
  intros a Ha. destruct (Hg a ltac:(by right)) as [K1 K2].
  rewrite last_cons_ne in K2 by done. split; [|done]. rewrite K1. simpl List.hd.
  rewrite (decide_False (P := a = t)) by (intros ->; contradiction).
  destruct C as (C1 & _). destruct (decide (a = u)) as [Ed|Ed]; [|reflexivity]. rewrite Ed. exact C1.
Qed.

Lemma dseg_ext g g' pr q nx :
  (∀ a, a ∈ q → t_prev (g' a) = t_prev (g a) ∧ t_next (g' a) = t_next (g a)) →
  dseg g pr q nx → dseg g' pr q nx.
Proof.
  revert pr. induction q as [|t q IH]; intros pr Hg; [done|]. intros (A & B & C).
  destruct (Hg t ltac:(left)) as [E1 E2]. cbn [dseg]. rewrite E1, E2. split; [done|]. split; [done|].
  apply IH; [|done]. intros a Ha. apply Hg. by right.
Qed.

Lemma ring_next_in s q t : ring s q → t ∈ q → t_next (tcb s t) ∈ q ∧ t_prev (tcb s t) ∈ q.
Proof.
  intros (Hnd & H0 & Hh & Hd) Ht. apply list_elem_of_split in Ht as (q1 & q2 & ->).
  apply dseg_app in Hd as [D1 (D2 & D3 & D4)]. rewrite D2, D3. split.
  - destruct q2 as [|v q2]; simpl.
    + destruct q1 as [|u q1]; simpl; set_solver.
    + set_solver.
  - destruct q1 as [|u q1].
    + simpl. apply (last_in (t :: q2) 0). done.
    + apply elem_of_app. left.
      rewrite (last_default (u :: q1) _ 0) by done.
      by apply last_in.
Qed.

(** The writes of [enqueue] on a queue with the head [h] and the tail [l]. *)
Definition enqueued (l h t : Z) (s : kthreads) : kthreads :=
  set_tprev h t (set_tnext l t (set_tnext t h (set_tprev t l (set_state t THREAD_READY s)))).

Lemma enqueue_cons s h q t :
  ring s (h :: q) → t ∉ h :: q → enqueue t s = enqueued (List.last (h :: q) 0) h t s.
Proof.
  intros (_ & H0 & Hh & Hd) Ht. cbn [List.hd] in Hh. set (l := List.last (h :: q) 0) in *.
  assert (h ≠ 0) by set_solver. assert (t ≠ h) by set_solver.
  assert (t_prev (tcb s h) = l) as Hp by (by destruct Hd).
  unfold enqueue. change (run_queue_head (set_state t THREAD_READY s)) with (run_queue_head s).
  rewrite Hh, (proj2 (Z.eqb_neq h 0)) by done.
  assert (t_prev (tcb (set_state t THREAD_READY s) h) = l) as -> by (by tcb_simpl).
  set (s1 := set_tprev t l (set_state t THREAD_READY s)).
  change (run_queue_head s1) with (run_queue_head s). rewrite Hh. set (s2 := set_tnext t h s1).
  assert (t_prev (tcb s2 h) = l) as Hp2 by (unfold s2, s1; tcb_solve).
  change (run_queue_head s2) with (run_queue_head s). rewrite Hh, Hp2.
  change (run_queue_head (set_tnext l t s2)) with (run_queue_head s). by rewrite Hh.
Qed.

(** [enqueue] appends. *)
Lemma enqueue_spec s q t :
  ring s q → t ≠ 0 → t ∉ q →
  let s' := enqueue t s in
  ring s' (q ++ [t]) ∧ tstate (tcb s' t) = THREAD_READY ∧
  (∀ a, a ≠ t → tstate (tcb s' a) = tstate (tcb s a)) ∧
  (∀ a, a ∉ t :: q → tcb s' a = tcb s a) ∧
  (∀ a, wake_tick (tcb s' a) = wake_tick (tcb s a) ∧ esp (tcb s' a) = esp (tcb s a)) ∧
  current_thread s' = current_thread s ∧ kheap s' = kheap s ∧ cpu s' = cpu s.
Proof.
  intros Hr Ht Hni s'. pose proof Hr as (Hnd & H0 & Hh & Hd).
  assert (NoDup (q ++ [t])) as Hnd'.
  { apply list.NoDup_app. split; [done|]. split; [|apply list.NoDup_singleton]. set_solver. }
  assert (0 ∉ q ++ [t]) as H0' by set_solver.
  destruct q as [|h q].
  - assert (s' = set_tnext t t (set_tprev t t (with_head t (set_state t THREAD_READY s)))) as ->.
    { unfold s', enqueue. change (run_queue_head (set_state t THREAD_READY s)) with (run_queue_head s).
      by rewrite Hh. }
    split_and!; try done.
    + split; [done|]. split; [done|]. split; [done|]. cbn [app List.last List.hd dseg].
      tcb_simpl. by rewrite !decide_True by done.
    + tcb_solve.
    + intros a Ha. tcb_solve.
    + intros a Ha. assert (a ≠ t) by set_solver. unfold set_state, set_tnext, set_tprev.
      by rewrite !tcb_upd_ne, tcb_with_head, tcb_upd_ne by done.
    + intros a. tcb_simpl. done.
  - assert (s' = enqueued (List.last (h :: q) 0) h t s) as -> by (by apply enqueue_cons). cbn [List.hd] in Hh.
    assert (h ≠ 0) as Hh0 by set_solver. assert (h ∈ h :: q) as Hhq by left.
    assert (List.last (h :: q) 0 ∈ h :: q) as Hl by (by apply last_in).
    assert (t_prev (tcb s h) = List.last (h :: q) 0) as Hp by (by destruct Hd).
    set (l := List.last (h :: q) 0) in *. assert (t ≠ h) by set_solver. assert (t ≠ l) by set_solver.
    unfold enqueued. split_and!; try done.
    + split; [done|]. split; [done|]. split; [exact Hh|]. rewrite last_snoc_val. cbn [app List.hd].
      change (h :: q ++ [t]) with ((h :: q) ++ [t]). apply dseg_app. split.
      * eapply dseg_relink; [done| |exact Hd]. cbn [List.hd]. fold l. intros a Ha.
        assert (a ≠ t) by set_solver. tcb_simpl.
        split; repeat case_decide; try done; congruence.
      * rewrite (last_default (h :: q) t 0) by done. fold l.
        simpl. tcb_simpl. split_and!; try done; repeat case_decide; try done; congruence.
    + tcb_solve.
    + intros a Ha. tcb_solve.
    + intros a Ha. assert (a ≠ t ∧ a ≠ h ∧ a ≠ l) as (? & ? & ?) by set_solver.
      unfold set_state, set_tnext, set_tprev. by rewrite !tcb_upd_ne by done.
    + intros a. tcb_simpl. done.
Qed.

(** ** Removal *)

Lemma dseg_hd g pr q nx : q ≠ [] → dseg g pr q nx → t_prev (g (List.hd 0 q)) = pr.
Proof. destruct q; [done|]. intros _ (A & _). done. Qed.

Lemma hd_default (q : list Z) d d' : q ≠ [] → List.hd d q = List.hd d' q.
Proof. by destruct q. Qed.

Lemma last_app_ne (q1 q2 : list Z) d : q2 ≠ [] → List.last (q1 ++ q2) d = List.last q2 d.
Proof.
  intros Hne. induction q1 as [|u q1 IH]; [done|]. simpl app.
  rewrite last_cons_ne; [exact IH|]. by destruct q1.
Qed.

Lemma hd_app_ne (q1 q2 : list Z) d : q1 ≠ [] → List.hd d (q1 ++ q2) = List.hd d q1.
Proof. by destruct q1. Qed.

(** A closed chain may be read from any of its blocks. *)
Definition closed_chain (g : Z → thread_t) (q : list Z) : Prop :=
  dseg g (List.last q 0) q (List.hd 0 q).

Lemma closed_rotate g q1 q2 : closed_chain g (q1 ++ q2) → closed_chain g (q2 ++ q1).
Proof.
  unfold closed_chain.
  destruct q1 as [|u q1]; [by rewrite app_nil_r|]. destruct q2 as [|v q2]; [by rewrite app_nil_r|].
  set (a := u :: q1). set (b := v :: q2). assert (a ≠ [] ∧ b ≠ []) as [Ha Hb] by done.
  rewrite !dseg_app, !last_app_ne, !hd_app_ne by done.
  rewrite (last_default a (List.last b 0) 0), (last_default b (List.last a 0) 0) by done.
  rewrite (hd_default a (List.hd 0 b) 0), (hd_default b (List.hd 0 a) 0) by done. tauto.
Qed.

Lemma closed_remove_head g g' t r :
  NoDup (t :: r) → closed_chain g (t :: r) →
  (∀ a, a ∈ r → t_prev (g' a) = (if decide (a = List.hd 0 r) then List.last r 0 else t_prev (g a)) ∧
                t_next (g' a) = (if decide (a = List.last r 0) then List.hd 0 r else t_next (g a))) →
  closed_chain g' r.
Proof.
  intros Hnd Hc Hg. destruct r as [|v r]; [done|]. apply list.NoDup_cons in Hnd as [_ Hnd].
  destruct Hc as (_ & _ & D). eapply dseg_relink; [done| |exact D]. exact Hg.
Qed.

(** The neighbours of a queued block. *)
Lemma ring_neighbours s q1 t q2 :
  ring s (q1 ++ t :: q2) →
  let r := q2 ++ q1 in
  t_next (tcb s t) = List.hd t r ∧ t_prev (tcb s t) = List.last r t.
Proof.
  intros (_ & _ & _ & Hc) r. apply (closed_rotate _ q1 (t :: q2)) in Hc.
  change ((t :: q2) ++ q1) with (t :: r) in Hc. destruct Hc as (A & B & _). cbn [List.hd] in B.
  split; [exact B|]. rewrite A. destruct r as [|v r]; [done|].
  rewrite last_cons_ne by done. by apply last_default.
Qed.

(** [t] has left the queue [q1 ++ t :: q2]. *)
Definition removed s s' q1 t q2 : Prop :=
  ring s' (q1 ++ q2) ∧ t_next (tcb s' t) = 0 ∧
  (∀ a, a ∉ q1 ++ t :: q2 → tcb s' a = tcb s a) ∧
  (∀ a, tstate (tcb s' a) = tstate (tcb s a) ∧ wake_tick (tcb s' a) = wake_tick (tcb s a) ∧
        esp (tcb s' a) = esp (tcb s a)) ∧
  current_thread s' = current_thread s ∧ kheap s' = kheap s ∧ cpu s' = cpu s.

(** From a queue of its own. *)
Lemma sched_remove_only s t : ring s [t] → removed s (sched_remove t s) [] t [].
Proof.
  intros Hr. pose proof (ring_neighbours s [] t [] Hr) as [Hn Hp]. simpl in Hn, Hp.
  pose proof Hr as (Hnd & H0 & Hh & Hc). assert (t ≠ 0) as Ht by set_solver.
  assert (sched_remove t s = set_tnext t 0 (set_tprev t 0 (with_head 0 s))) as ->.
  { unfold sched_remove. rewrite Hn. by rewrite (proj2 (Z.eqb_neq t 0)), Z.eqb_refl. }
  split_and!; try done.
  - split_and!; try done; [apply base.NoDup_nil_2|set_solver].
  - tcb_solve.
  - intros a Ha. assert (a ≠ t) by set_solver. unfold set_tnext, set_tprev. by rewrite !tcb_upd_ne by done.
  - intros a. by tcb_simpl.
Qed.

(** What the code does when others, from [n] to [p], stay. *)
Lemma sched_remove_unlinks s t n p : t_next (tcb s t) = n → t_prev (tcb s t) = p → n ≠ 0 → n ≠ t → p ≠ t →
  sched_remove t s = set_tnext t 0 (set_tprev t 0
    (set_tprev n p (set_tnext p n (if run_queue_head s =? t then with_head n s else s)))).
Proof.
  intros Hn Hp Hn0 Hnt Hpt. set (s0 := if run_queue_head s =? t then with_head n s else s).
  assert (∀ a, tcb s0 a = tcb s a) as E0 by (intros a; unfold s0; by case_match).
  unfold sched_remove. rewrite Hn. fold s0. rewrite !(proj2 (Z.eqb_neq _ _)) by done.
  unfold unlink. rewrite !E0, Hn, Hp.
  assert (t_next (tcb (set_tnext p n s0) t) = n) as -> by (tcb_simpl; rewrite E0; case_decide; congruence).
  assert (t_prev (tcb (set_tnext p n s0) t) = p) as -> by (tcb_simpl; by rewrite E0). done.
Qed.

Lemma sched_remove_spec s q1 t q2 : ring s (q1 ++ t :: q2) → removed s (sched_remove t s) q1 t q2.
Proof.
  intros Hr. pose proof (ring_neighbours _ _ _ _ Hr) as [Hn Hp]. pose proof Hr as (Hnd & H0 & Hh & Hc). set (r := q2 ++ q1) in *.
  assert (NoDup (t :: r)) as Hndr.
  { revert Hnd. rewrite <- (Permutation_middle q1 q2 t). unfold r. by rewrite (Permutation_app_comm q1 q2). }
  pose proof Hndr as [Htr Hr']%list.NoDup_cons.
  assert (NoDup (q1 ++ q2)) as Hnd' by (revert Hr'; unfold r; by rewrite (Permutation_app_comm q2 q1)).
  assert (0 ∉ q1 ++ q2) as H0' by set_solver.
  pose proof (closed_rotate _ q1 (t :: q2) Hc) as Hcr. change ((t :: q2) ++ q1) with (t :: r) in Hcr.
  destruct (decide (r = [])) as [Er|Er].
  { unfold r in Er. apply app_eq_nil in Er as [-> ->]. by apply sched_remove_only. }
  set (n := List.hd t r) in *. set (p := List.last r t) in *.
  assert (n ∈ r) as Hnr by (unfold n; destruct r; [done|left]). assert (p ∈ r) as Hpr by (by apply last_in).
  assert (n ≠ t ∧ p ≠ t) as [Hnt Hpt] by (split; intros E; rewrite E in *; done).
  assert (n ≠ 0) as Hn0 by (intros E; rewrite E in *; set_solver).
  rewrite (sched_remove_unlinks s t n p) by done. set (s0 := if run_queue_head s =? t then with_head n s else s).
  assert (∀ a, tcb s0 a = tcb s a) as E0 by (intros a; unfold s0; by case_match).
  set (s1 := set_tprev n p (set_tnext p n s0)).
  assert (run_queue_head s0 = List.hd 0 (q1 ++ q2)) as Eh.
  { unfold s0. destruct q1 as [|u q1]; simpl in Hh; rewrite Hh.
    - rewrite Z.eqb_refl. cbn [run_queue_head with_head app]. unfold n, r in *. rewrite app_nil_r in *. by apply hd_default.
    - rewrite (proj2 (Z.eqb_neq u t)); [done|]. intros ->. apply Htr. unfold r. set_solver. }
  split_and!; try done; try (unfold s1, s0; by case_match).
  - split; [done|]. split; [done|]. split; [exact Eh|]. apply (closed_rotate _ q2 q1). fold r.
    eapply closed_remove_head; [exact Hndr|exact Hcr|]. intros a Ha. assert (a ≠ t) by (intros ->; done).
    rewrite (hd_default r 0 t), (last_default r 0 t) by done. fold n p.
    unfold s1. tcb_simpl. rewrite !E0. split; repeat case_decide; try done; congruence.
  - unfold s1. tcb_solve.
  - intros a Ha. assert (a ≠ t ∧ a ≠ n ∧ a ≠ p) as (? & ? & ?).
    { split_and!; intros ->; apply Ha; unfold r in *; set_solver. }
    unfold s1, set_tnext, set_tprev. rewrite !tcb_upd_ne by done. apply E0.
  - intros a. unfold s1. tcb_simpl. by rewrite E0.
Qed.

Lemma dequeue_is_remove s t q : ring s (t :: q) → dequeue_next s = (t, sched_remove t s).
Proof.
  intros Hr. pose proof (ring_neighbours s [] t q Hr) as [Hn _]. rewrite app_nil_r in Hn.
  destruct Hr as (Hnd & H0 & Hh & _). simpl in Hh. unfold dequeue_next, sched_remove. rewrite Hh.
  assert (t ≠ 0) by set_solver. rewrite (proj2 (Z.eqb_neq t 0)) by done. f_equal.
  assert (t_next (tcb s t) ≠ 0) as Hn0.
  { rewrite Hn. destruct q; simpl; set_solver. }
  rewrite (proj2 (Z.eqb_neq _ _) Hn0). by rewrite Z.eqb_refl.
Qed.

(** ** The scheduler's invariant *)

(** The queue holds ready threads only, the current thread is not in it, and a
    thread outside it has no queue links. *)
Definition sched_ok (s : kthreads) (q : list Z) : Prop :=
  ring s q ∧ (∀ t, t ∈ q → tstate (tcb s t) = THREAD_READY) ∧
  current_thread s ≠ 0 ∧ (current_thread s ∉ q) ∧ (∀ t, t ∉ q → t_next (tcb s t) = 0).

(** [s'] differs from [s] neither in queue links nor in thread states. *)
Definition same_queue (s s' : kthreads) : Prop :=
  run_queue_head s' = run_queue_head s ∧ current_thread s' = current_thread s ∧
  ∀ a, t_next (tcb s' a) = t_next (tcb s a) ∧ t_prev (tcb s' a) = t_prev (tcb s a) ∧
       tstate (tcb s' a) = tstate (tcb s a).

Lemma ring_ext s s' q :
  run_queue_head s' = run_queue_head s →
  (∀ a, t_next (tcb s' a) = t_next (tcb s a) ∧ t_prev (tcb s' a) = t_prev (tcb s a)) →
  ring s q → ring s' q.
Proof.
  intros Hh Hl (A & B & C & D). split; [done|]. split; [done|]. split; [congruence|].
  eapply dseg_ext; [|exact D]. intros a _. destruct (Hl a). done.
Qed.

Lemma same_queue_ok s s' q : same_queue s s' → sched_ok s q → sched_ok s' q.
Proof.
  intros (Hh & Hc & Hl) (A & B & C & D & E). split.
  { eapply ring_ext; [exact Hh| |exact A]. intros a. destruct (Hl a) as (? & ? & ?). done. }
  rewrite Hc. split_and!; try done.
  - intros t Ht. destruct (Hl t) as (_ & _ & ->). by apply B.
  - intros t Ht. destruct (Hl t) as (-> & _ & _). by apply E.
Qed.

Lemma same_queue_switch `{Arch} old new s : same_queue s (switch_context old new s).
Proof.
  unfold switch_context. destruct (push_all _ _ _) as [sp1 m]. destruct (pop_n _ _ m) as [regs sp2].
  split; [done|]. split; [done|]. intros a.
  change (tcb (with_cpu _ _) a) with (tcb (set_esp old sp1 (with_kheap (with_mem (kheap s) m) s)) a).
  by tcb_simpl.
Qed.

Lemma enqueue_ok s q t :
  ring s q → (∀ t, t ∈ q → tstate (tcb s t) = THREAD_READY) → current_thread s ≠ 0 →
  current_thread s ∉ q ++ [t] → (∀ t, t ∉ q → t_next (tcb s t) = 0) → t ≠ 0 → t ∉ q →
  sched_ok (enqueue t s) (q ++ [t]).
Proof.
  intros A B C D E Ht Hni. destruct (enqueue_spec s q t A Ht Hni) as (F & G & I & J & _ & K & _).
  split; [done|]. rewrite K. split_and!; try done.
  - intros a Ha. destruct (decide (a = t)) as [->|]; [done|]. rewrite I by done. apply B. set_solver.
  - intros a Ha. rewrite J by set_solver. apply E. set_solver.
Qed.

(** Choosing the next thread: the head of the queue becomes the current one and
    a caller that is still running goes to the back. *)
(** A running thread goes to the end of the queue, a thread that is not stays out. *)
Lemma requeue_spec s s1 n q :
  sched_ok s (n :: q) → s1 = sched_remove n s →
  let cur := current_thread s in
  let again := bool_decide (tstate (tcb s cur) = THREAD_RUNNING) in
  let s2 := if again then enqueue cur (set_state cur THREAD_READY s1) else s1 in
  let q2 := if again then q ++ [cur] else q in
  ring s2 q2 ∧ (∀ t, t ∈ q2 → tstate (tcb s2 t) = THREAD_READY) ∧
  (∀ t, t ∉ q2 → t_next (tcb s2 t) = 0) ∧ (n ∉ q2) ∧
  (∀ a, a ≠ cur → tstate (tcb s2 a) = tstate (tcb s a)) ∧
  (again = false → tstate (tcb s2 cur) = tstate (tcb s cur)) ∧
  (∀ a, esp (tcb s2 a) = esp (tcb s a)) ∧ kheap s2 = kheap s ∧ cpu s2 = cpu s.
Proof.
  intros (A & B & C & D & E) -> cur again s2 q2. fold cur in C, D.
  assert (cur ≠ n ∧ (cur ∉ q)) as [Hcn Hcq] by set_solver.
  assert (n ∉ q) as Hnq by (destruct A as [A1 _]; by apply list.NoDup_cons in A1 as [? _]).
  destruct (sched_remove_spec s [] n q A) as (F & G & I & J & K & L & M). cbn [app] in F, I.
  set (s1 := sched_remove n s) in *. unfold s2, q2. destruct again.
  - set (s1' := set_state cur THREAD_READY s1).
    assert (ring s1' q) as F'.
    { apply (ring_ext s1 s1'); [done| |exact F]. intros a. unfold s1'. by tcb_simpl. }
    destruct (enqueue_spec s1' q cur F' C Hcq) as (P1 & P2 & P3 & P4 & P5 & P6 & P7 & P8).
    assert (∀ a, a ≠ cur → tcb s1' a = tcb s1 a) as Hs1.
    { intros a Ha. unfold s1', set_state. by rewrite tcb_upd_ne. }
    split_and!; try done; [| |set_solver| | |rewrite P7; exact L|rewrite P8; exact M].
    + intros t Ht. destruct (decide (t = cur)) as [->|]; [done|]. rewrite P3, Hs1 by done.
      destruct (J t) as [-> _]. apply B. set_solver.
    + intros t Ht. rewrite P4, Hs1 by set_solver.
      destruct (decide (t = n)) as [->|]; [done|]. rewrite I by set_solver. apply E. set_solver.
    + intros a Ha. rewrite P3, Hs1 by done. by destruct (J a).
    + intros a. destruct (P5 a) as [_ ->]. unfold s1'. tcb_simpl. by destruct (J a) as (_ & _ & ->).
  - split_and!; try done; try (intros; by apply J).
    + intros t Ht. destruct (J t) as [-> _]. apply B. set_solver.
    + intros t Ht. destruct (decide (t = n)) as [->|]; [done|]. rewrite I by set_solver. apply E. set_solver.
Qed.

Lemma sched_pick_spec s n q :
  sched_ok s (n :: q) →
  let cur := current_thread s in
  let again := bool_decide (tstate (tcb s cur) = THREAD_RUNNING) in
  ∃ s', sched_pick s = (n, s') ∧ sched_ok s' (if again then q ++ [cur] else q) ∧
    current_thread s' = n ∧ tstate (tcb s' n) = THREAD_RUNNING ∧
    (∀ a, a ≠ n → a ≠ cur → tstate (tcb s' a) = tstate (tcb s a)) ∧
    (again = false → tstate (tcb s' cur) = tstate (tcb s cur)) ∧
    (∀ a, esp (tcb s' a) = esp (tcb s a)) ∧ kheap s' = kheap s ∧ cpu s' = cpu s.
Proof.
  intros Hok cur again. pose proof Hok as (A & B & C & D & E). fold cur in C, D.
  assert ((n ∉ q) ∧ n ≠ 0) as [Hnq Hn0].
  { destruct A as (A1 & A2 & _). apply list.NoDup_cons in A1 as [? _]. set_solver. }
  destruct (sched_remove_spec s [] n q A) as (F & G & I & J & K & L & M). cbn [app] in F, I.
  unfold sched_pick, thread_current. fold cur. rewrite (dequeue_is_remove s n q A). set (s1 := sched_remove n s) in *.
  cbv beta iota. rewrite (proj2 (Z.eqb_neq n 0)) by done. destruct (J cur) as [Ec _]. rewrite Ec. fold again.
  set (s2 := if again then enqueue cur (set_state cur THREAD_READY s1) else s1).
  set (q2 := if again then q ++ [cur] else q).
  destruct (requeue_spec s s1 n q Hok eq_refl) as (R1 & R2 & R3 & R4 & R5 & R6 & R7 & R8 & R9).
  fold cur again s2 q2 in R1, R2, R3, R4, R5, R6, R7, R8, R9.
  eexists. split; [reflexivity|]. split; [split|].
  - apply (ring_ext s2); [done| |exact R1]. intros a. by tcb_simpl.
  - split_and!; [|exact Hn0|exact R4|].
    + intros t Ht. tcb_simpl. rewrite decide_False by (intros ->; done). by apply R2.
    + intros t Ht. tcb_simpl. by apply R3.
  - split_and!.
    + done.
    + tcb_simpl. by rewrite decide_True.
    + intros a Ha Hac. tcb_simpl. by rewrite decide_False, R5 by done.
    + intros Hag. tcb_simpl. rewrite decide_False, R6 by (set_solver || done). done.
    + intros a. tcb_simpl. by rewrite R7.
    + change (kheap s2 = kheap s). congruence.
    + change (cpu s2 = cpu s). congruence.
Qed.

Lemma sched_pick_empty s : sched_ok s [] → sched_pick s = (0, with_resched false s).
Proof. intros ((_ & _ & Hh & _) & _). unfold sched_pick, dequeue_next. simpl in Hh. by rewrite Hh. Qed.

(** A thread keeps its stack. *)
Definition same_stacks (s s' : kthreads) : Prop := ∀ a, stack (tcb s' a) = stack (tcb s a).

#[export] Instance same_stacks_preorder : PreOrder same_stacks.
Proof. split; [by intros s a|]. intros s1 s2 s3 A B a. by rewrite B. Qed.

Lemma same_stacks_upd t f s : (∀ x, stack (f x) = stack x) → same_stacks s (upd_tcb t f s).
Proof. intros Hf a. by apply keep_upd. Qed.

Lemma same_stacks_enqueue t s : same_stacks s (enqueue t s).
Proof. intros a. unfold enqueue. case_test; unfold set_state, set_tnext, set_tprev; by rewrite ?keep_upd, ?tcb_with_head, ?keep_upd by done. Qed.

Lemma same_stacks_dequeue s : same_stacks s (dequeue_next s).2.
Proof.
  unfold dequeue_next. case_test; [done|]. cbn [snd]. unfold set_tnext at 1, set_tprev at 1.
  etrans; [|apply same_stacks_upd; done]. etrans; [|apply same_stacks_upd; done]. case_test; [done|].
  unfold unlink. etrans; [|apply same_stacks_upd; done]. etrans; [|apply same_stacks_upd; done]. done.
Qed.

Lemma same_stacks_pick s : same_stacks s (sched_pick s).2.
Proof.
  unfold sched_pick. pose proof (same_stacks_dequeue s) as Hd. destruct (dequeue_next s) as [n s1]. cbn [snd] in Hd.
  case_test; [done|]. cbn [snd]. etrans; [exact Hd|].
  set (s2 := if bool_decide _ then _ else _). assert (same_stacks s1 s2) as H2.
  { unfold s2. destruct (bool_decide _); [|done]. etrans; [|apply same_stacks_enqueue]. by apply same_stacks_upd. }
  etrans; [exact H2|]. intros a. unfold set_quantum, set_state. change (tcb (thread_set_current n (with_resched false ?x)) a) with (tcb x a).
  by rewrite !keep_upd by done.
Qed.

Lemma same_stacks_switch `{Arch} old new s : same_stacks s (switch_context old new s).
Proof.
  intros a. unfold switch_context. destruct (push_all _ _ _) as [sp1 m]. destruct (pop_n _ _ _) as [r sp2].
  unfold set_esp. change (tcb (with_cpu ?c ?x) a) with (tcb x a). by rewrite keep_upd.
Qed.

Lemma same_stacks_yield `{Arch} s : same_stacks s (sched_yield s).
Proof.
  unfold sched_yield. pose proof (same_stacks_pick s) as Hp. destruct (sched_pick s) as [n s1]. cbn [snd] in Hp.
  case_test; [done|]. etrans; [exact Hp|apply same_stacks_switch].
Qed.

Lemma sched_yield_spec `{Arch} s n q :
  sched_ok s (n :: q) →
  let cur := current_thread s in
  let again := bool_decide (tstate (tcb s cur) = THREAD_RUNNING) in
  let s' := sched_yield s in
  sched_ok s' (if again then q ++ [cur] else q) ∧ current_thread s' = n ∧
  tstate (tcb s' n) = THREAD_RUNNING ∧
  (∀ a, a ≠ n → a ≠ cur → tstate (tcb s' a) = tstate (tcb s a)) ∧
  (again = false → tstate (tcb s' cur) = tstate (tcb s cur)).
Proof.
  intros Hok cur again s'. destruct (sched_pick_spec s n q Hok) as (s1 & E & A & B & C & D & F & _).
  fold cur again in A, D, F.
  assert (n ≠ 0) as Hn0 by (destruct Hok as ((_ & H0 & _) & _); set_solver).
  assert (s' = switch_context cur (esp (tcb s1 n)) s1) as ->.
  { unfold s', sched_yield, thread_current. fold cur. rewrite E. by rewrite (proj2 (Z.eqb_neq n 0)). }
  pose proof (same_queue_switch cur (esp (tcb s1 n)) s1) as Hq.
  split; [by eapply same_queue_ok|]. destruct Hq as (_ & Hc & Hl). split; [by rewrite Hc|].
  split; [by destruct (Hl n) as (_ & _ & ->)|]. split.
  - intros a Ha Hac. destruct (Hl a) as (_ & _ & ->). auto.
  - intros Hag. destruct (Hl cur) as (_ & _ & ->). auto.
Qed.

Lemma yields_rotate `{Arch} a : ∀ b t s q,
  sched_ok s q → tstate (tcb s (current_thread s)) = THREAD_RUNNING →
  current_thread s :: q = a ++ t :: b →
  let s' := Nat.iter (length a) sched_yield s in
  current_thread s' = t ∧ tstate (tcb s' t) = THREAD_RUNNING ∧ sched_ok s' (b ++ a).
Proof.
  induction a as [|x a IH] using rev_ind; intros b t s q Hok Hrun Heq s'.
  - unfold s'. simpl in *. injection Heq as <- <-. rewrite app_nil_r. done.
  - rewrite <- app_assoc in Heq. simpl in Heq.
    destruct (IH (t :: b) x s q Hok Hrun Heq) as (E1 & E2 & E3).
    unfold s'. rewrite length_app, Nat.add_comm. simpl. set (s1 := Nat.iter (length a) sched_yield s) in *.
    destruct (sched_yield_spec s1 t (b ++ a) E3) as (F1 & F2 & F3 & _).
    rewrite E1, E2 in F1. rewrite bool_decide_true in F1 by done. by rewrite <- app_assoc in F1.
Qed.

(** C8: the scheduler is round robin.  With every thread runnable, reading the
    current thread and the queue as one cycle [a ++ t :: b], after [length a]
    yields [t] runs and the queue is the rest of the cycle in the same order: so
    every ready thread runs after at most as many yields as the queue is long.
    One yield more than the queue is long brings back the caller and the queue. *)
Theorem sched_yield_round_robin `{Arch} (s : kthreads) (q : list Z) :
  sched_ok s q → tstate (tcb s (current_thread s)) = THREAD_RUNNING →
  (∀ a t b, current_thread s :: q = a ++ t :: b →
    let s' := Nat.iter (length a) sched_yield s in
    current_thread s' = t ∧ tstate (tcb s' t) = THREAD_RUNNING ∧ sched_ok s' (b ++ a)) ∧
  let s'' := Nat.iter (S (length q)) sched_yield s in
  current_thread s'' = current_thread s ∧ sched_ok s'' q.
Proof.
  intros Hok Hrun. split; [intros a t b Heq; by eapply yields_rotate|].
  destruct q as [|y q _] using rev_ind.
  - simpl. unfold sched_yield. rewrite (sched_pick_empty _ Hok). split; [done|].
    by apply (same_queue_ok s).
  - destruct (yields_rotate (current_thread s :: q) [] y s (q ++ [y]) Hok Hrun eq_refl) as (A & B & C).
    rewrite length_app, Nat.add_comm. cbn [length Nat.add app] in *.
    set (s1 := Nat.iter (S (length q)) sched_yield s) in *.
    destruct (sched_yield_spec s1 (current_thread s) q C) as (D & E & _).
    rewrite A, B, bool_decide_true in D by done. split; [exact E|exact D].
Qed.

(** ** The timer tick *)

Lemma ring_blocks s q : ring s q → (length q ≤ base.size (threads s))%nat.
Proof.
  intros Hr. pose proof Hr as (Hnd & H0 & _).
  rewrite <- size_dom, <- (size_list_to_set (C := gset Z)) by done.
  apply subseteq_size. intros a Ha%elem_of_list_to_set. apply elem_of_dom.
  destruct (ring_next_in s q a Hr Ha) as [Hn _]. unfold tcb in Hn.
  destruct (threads s !! a); [done|]. simpl in Hn. done.
Qed.

(** Every queued thread is ready, so the loop finds nothing to wake. *)
Lemma wake_loop_spec s now q start :
  ring s q → (∀ t, t ∈ q → tstate (tcb s t) = THREAD_READY) → start = List.hd 0 q →
  ∀ q2 q1 t fuel, q = q1 ++ t :: q2 → (length (t :: q2) ≤ fuel)%nat →
  wake_loop fuel now t start s = Ok s.
Proof.
  intros Hr Hready ->. induction q2 as [|v q2 IH]; intros q1 t fuel -> Hf;
    (destruct fuel as [|fuel]; [simpl in Hf; lia|]); simpl wake_loop;
    rewrite (Hready t) by set_solver; simpl;
    pose proof (ring_neighbours _ _ _ _ Hr) as [-> _].
  - destruct q1 as [|u q1]; simpl.
    + rewrite Z.eqb_refl. by destruct (t =? 0).
    + rewrite Z.eqb_refl. by destruct (u =? 0).
  - simpl. assert (v ≠ 0) by (destruct Hr as (_ & H0 & _); set_solver).
    assert (v ≠ List.hd 0 (q1 ++ t :: v :: q2)).
    { destruct Hr as (Hnd & _). revert Hnd. destruct q1 as [|u q1]; simpl.
      - intros Hnd ->. apply list.NoDup_cons in Hnd as [? _]. set_solver.
      - intros Hnd ->. apply list.NoDup_cons in Hnd as [? _]. set_solver. }
    rewrite !(proj2 (Z.eqb_neq _ _)) by done. simpl.
    apply (IH (q1 ++ [t])); [by rewrite <- app_assoc|]. simpl in *. lia.
Qed.

(** [sched_tick] charges the current thread's quantum and raises
    [need_resched] when it is used up; it wakes nobody and moves nobody. *)
Lemma sched_tick_spec s q now :
  sched_ok s q → ∃ s', sched_tick now s = Ok s' ∧ same_queue s s' ∧
  quantum_remaining (tcb s' (current_thread s)) =
    (if 0 <? quantum_remaining (tcb s (current_thread s))
     then quantum_remaining (tcb s (current_thread s)) - 1
     else quantum_remaining (tcb s (current_thread s))) ∧
  need_resched s' = (quantum_remaining (tcb s' (current_thread s)) =? 0) || need_resched s.
Proof.
  intros Hok. pose proof Hok as (A & B & C & D & E). unfold sched_tick, thread_current.
  set (cur := current_thread s) in *. rewrite (proj2 (Z.eqb_neq cur 0)) by done.
  set (s1 := if 0 <? quantum_remaining (tcb s cur) then _ else s).
  assert (same_queue s s1) as Hq1.
  { unfold s1. case_match; [|done]. split; [done|]. split; [done|]. intros a. by tcb_simpl. }
  set (s2 := if quantum_remaining (tcb s1 cur) =? 0 then with_resched true s1 else s1).
  assert (same_queue s s2) as Hq2 by (unfold s2; by case_match).
  assert (quantum_remaining (tcb s2 cur) = quantum_remaining (tcb s1 cur)) as Eq by (unfold s2; by case_match).
  pose proof (same_queue_ok _ _ _ Hq2 Hok) as (A2 & B2 & _).
  assert ((if run_queue_head s2 =? 0 then Ok s2
    else wake_loop (base.size (threads s2)) now (run_queue_head s2) (run_queue_head s2) s2) = Ok s2) as ->.
  { case_match; [done|]. pose proof (ring_blocks _ _ A2). pose proof A2 as (_ & _ & Hh & _).
    destruct q as [|t q]; [rewrite Hh in *; done|].
    apply (wake_loop_spec s2 now (t :: q) _ A2 B2 Hh q [] (run_queue_head s2)); [|done].
    rewrite Hh. done. }
  exists s2. split; [done|]. split; [done|]. rewrite Eq. split.
  - unfold s1. case_match; [|done]. tcb_simpl. by rewrite decide_True.
  - unfold s2. case_match; [done|]. simpl. unfold s1. by case_match.
Qed.

(** ** All histories of the scheduler *)

(** The calls of the kernel: a thread is added once, and a wake-up names
    another thread, which labels the step. *)
Inductive sched_step `{Arch} : option Z → kthreads → kthreads → Prop :=
  | step_tick s now s' : sched_tick now s = Ok s' → sched_step None s s'
  | step_yield s : sched_step None s (sched_yield s)
  | step_sleep s now ms : sched_step None s (sched_sleep now ms s)
  | step_exit s : sched_step None s (thread_exit s)
  | step_add s t : t ≠ 0 → t ≠ current_thread s → t_next (tcb s t) = 0 →
      tstate (tcb s t) = THREAD_READY → sched_step None s (sched_add t s)
  | step_wake s t : t ≠ 0 → t ≠ current_thread s → sched_step (Some t) s (sched_wake t s).

Lemma unqueued s q t : sched_ok s q → t_next (tcb s t) = 0 → t ∉ q.
Proof.
  intros (Hr & _) Hn Ht. destruct (ring_next_in s q t Hr Ht) as [Hin _].
  rewrite Hn in Hin. by destruct Hr as (_ & H0 & _).
Qed.

Lemma sched_remove_unqueued s t : t_next (tcb s t) = 0 → sched_remove t s = s.
Proof. intros Hn. unfold sched_remove. by rewrite Hn. Qed.

Lemma sched_yield_ok `{Arch} s q : sched_ok s q → ∃ q', sched_ok (sched_yield s) q'.
Proof.
  intros Hok. destruct q as [|n q].
  - exists []. unfold sched_yield. rewrite (sched_pick_empty _ Hok). by apply (same_queue_ok s).
  - destruct (sched_yield_spec s n q Hok) as (A & _). eauto.
Qed.

Lemma set_unqueued_ok s q t v :
  sched_ok s q → t ∉ q → sched_ok (set_state t v s) q.
Proof.
  intros (A & B & C & D & E) Ht. split.
  { apply (ring_ext s); [done| |exact A]. intros a. by tcb_simpl. }
  split_and!; try done.
  - intros a Ha. tcb_simpl. rewrite decide_False by (intros ->; done). auto.
  - intros a Ha. tcb_simpl. auto.
Qed.

(** [sched_sleep] is: mark the caller, then yield; the caller is not queued, so
    [sched_remove] does nothing. *)
Lemma sched_sleep_eq `{Arch} s q now ms :
  sched_ok s q →
  let s1 := set_wake (current_thread s) (u64 (now + ms / 10))
              (set_state (current_thread s) THREAD_SLEEPING s) in
  sched_sleep now ms s = sched_yield s1 ∧ sched_ok s1 q.
Proof.
  intros Hok s1. pose proof Hok as (A & B & C & D & E). set (cur := current_thread s) in *.
  assert (sched_ok s1 q) as Hok1.
  { apply (same_queue_ok (set_state cur THREAD_SLEEPING s)); [|by apply set_unqueued_ok].
    split; [done|]. split; [done|]. intros a. unfold s1. by tcb_simpl. }
  split; [|done]. unfold sched_sleep, thread_current. fold cur s1. rewrite sched_remove_unqueued; [done|].
  by apply Hok1.
Qed.

Lemma sched_wake_ok s q t :
  sched_ok s q → t ≠ 0 → t ≠ current_thread s →
  tstate (tcb s t) = THREAD_SLEEPING ∨ tstate (tcb s t) = THREAD_BLOCKED →
  sched_wake t s = enqueue t (set_state t THREAD_READY s) ∧ sched_ok (sched_wake t s) (q ++ [t]).
Proof.
  intros Hok H0 Hc Hst. pose proof Hok as (A & B & C & D & E).
  assert (t ∉ q) as Hni by (intros Ht; rewrite (B _ Ht) in Hst; naive_solver).
  assert (sched_wake t s = enqueue t (set_state t THREAD_READY s)) as ->.
  { unfold sched_wake. by destruct Hst as [-> | ->]. }
  split; [done|]. destruct (set_unqueued_ok s q t THREAD_READY Hok Hni) as (A' & B' & C' & D' & E').
  apply enqueue_ok; try done. set_solver.
Qed.

Lemma sched_step_ok `{Arch} w s s' q : sched_ok s q → sched_step w s s' → ∃ q', sched_ok s' q'.
Proof.
  intros Hok Hstep. destruct Hstep as [s now s' E|s|s now ms|s|s t H0 Hc Hn Hr|s t H0 Hc].
  - destruct (sched_tick_spec s q now Hok) as (s1 & E1 & Hq & _). assert (s' = s1) as -> by congruence.
    exists q. by eapply same_queue_ok.
  - by eapply sched_yield_ok.
  - destruct (sched_sleep_eq s q now ms Hok) as [-> Hok1]. by eapply sched_yield_ok.
  - unfold thread_exit. eapply sched_yield_ok. apply (same_queue_ok (set_state (current_thread s) THREAD_ZOMBIE s)).
    + done.
    + apply set_unqueued_ok; [exact Hok|]. by destruct Hok as (_ & _ & _ & ? & _).
  - pose proof (unqueued s q t Hok Hn) as Hni. destruct Hok as (A & B & C & D & E).
    exists (q ++ [t]). apply enqueue_ok; try done. set_solver.
  - destruct (tstate (tcb s t)) eqn:Et.
    3: { exists (q ++ [t]). apply sched_wake_ok; auto. }
    3: { exists (q ++ [t]). apply sched_wake_ok; auto. }
    all: exists q; unfold sched_wake; by rewrite Et.
Qed.

Lemma sched_init_ok `{Arch} idle_tcb idle_stack name s0 :
  threads s0 = ∅ → idle_tcb ≠ 0 → sched_ok (sched_init idle_tcb idle_stack name s0) [].
Proof.
  intros Hs0 Hidle. unfold sched_init, thread_init_idle. set (x := Thread _ _ _ _ _ _ _ _).
  split; [split_and!; [constructor|set_solver|done|done]|]. split_and!; [set_solver|done|set_solver|].
  intros t _. unfold tcb. simpl. rewrite Hs0. destruct (decide (t = idle_tcb)) as [->|].
  - by rewrite lookup_insert_eq.
  - by rewrite lookup_insert_ne.
Qed.

(** C9: from [sched_init] on, whatever the kernel calls, the run queue is a
    circular list without duplicates, linked consistently in both directions,
    of ready threads other than the current one; and a timer tick terminates. *)
Theorem sched_reachable_ok `{Arch} (idle_tcb idle_stack name : Z) (s0 s : kthreads) :
  threads s0 = ∅ → idle_tcb ≠ 0 →
  rtc (λ a b, ∃ w, sched_step w a b) (sched_init idle_tcb idle_stack name s0) s →
  ∃ q, sched_ok s q ∧ ∀ now, ∃ s', sched_tick now s = Ok s'.
Proof.
  intros Hs0 Hidle Hsteps.
  assert (∃ q, sched_ok s q) as [q Hok].
  { assert (∃ q, sched_ok (sched_init idle_tcb idle_stack name s0) q) as Hinit
      by (eexists; by apply sched_init_ok).
    induction Hsteps as [|a b c [w Hab] Hbc IH]; [done|]. apply IH.
    destruct Hinit as [q Hq]. by eapply sched_step_ok. }
  exists q. split; [done|]. intros now. destruct (sched_tick_spec s q now Hok) as (s' & E & _). eauto.
Qed.

(** ** Sleeping threads *)

(** [t] is asleep, off the processor and off the queue. *)
Definition asleep (t : Z) (s : kthreads) : Prop :=
  (∃ q, sched_ok s q) ∧ tstate (tcb s t) = THREAD_SLEEPING ∧ t ≠ current_thread s.

Lemma sched_yield_asleep `{Arch} s q t :
  sched_ok s q → tstate (tcb s t) = THREAD_SLEEPING → t ≠ current_thread s →
  asleep t (sched_yield s).
Proof.
  intros Hok Ht Hc. pose proof (sched_yield_ok s q Hok) as Hex. split; [exact Hex|].
  destruct q as [|n q].
  - unfold sched_yield. rewrite (sched_pick_empty _ Hok). done.
  - destruct (sched_yield_spec s n q Hok) as (A & B & C & D & E).
    assert (t ≠ n) as Hn.
    { intros ->. destruct Hok as (_ & Hr & _). rewrite (Hr n) in Ht by left. done. }
    rewrite B, D by done. done.
Qed.

Lemma enqueue_asleep s q t t' :
  asleep t s → ring s q → t' ≠ 0 → t' ∉ q → t' ≠ t → (∃ q', sched_ok (enqueue t' s) q') →
  asleep t (enqueue t' s).
Proof.
  intros (_ & Ht & Hc) Hr H0 Hni Hne Hex. split; [done|].
  destruct (enqueue_spec s q t' Hr H0 Hni) as (_ & _ & P & _ & _ & Q & _).
  rewrite P, Q by done. done.
Qed.

(** C38: [sched_tick] looks for expired sleepers in the run queue, but a sleeping
    thread is not in it: once a thread sleeps while another is ready, no number
    of ticks, yields, additions or other threads' sleeps and exits ever makes it
    run again, whatever its wake time; only an explicit [sched_wake] would. *)
Theorem sleeping_thread_never_runs `{Arch} (s s' : kthreads) (n now ms : Z) (q : list Z) :
  sched_ok s (n :: q) →
  let t := current_thread s in
  rtc (λ a b, ∃ w, sched_step w a b ∧ w ≠ Some t) (sched_sleep now ms s) s' →
  tstate (tcb s' t) = THREAD_SLEEPING ∧ current_thread s' ≠ t.
Proof.
  intros Hok t Hsteps.
  assert (asleep t (sched_sleep now ms s)) as Hstart.
  { destruct (sched_sleep_eq s (n :: q) now ms Hok) as [-> Hok1]. fold t in Hok1 |- *.
    set (s1 := set_wake _ _ _) in *. assert (tstate (tcb s1 t) = THREAD_SLEEPING) as Ht.
    { unfold s1. tcb_simpl. by rewrite decide_True. }
    destruct (sched_yield_spec s1 n q Hok1) as (A & B & C & D & E).
    change (current_thread s1) with t in *. rewrite Ht in A, E. simpl in A, E.
    split; [eauto|]. rewrite E, B by done. split; [done|].
    destruct Hok as (_ & _ & _ & Hni & _). fold t in Hni. set_solver. }
  assert (asleep t s') as (_ & ? & ?); [|done].
  clear Hok. induction Hsteps as [|a b c (w & Hab & Hw) Hbc IH]; [done|]. apply IH. clear IH Hbc c.
  pose proof Hstart as ([q1 Hok] & Ht & Hc). pose proof (sched_step_ok w a b q1 Hok Hab) as Hex.
  destruct Hab as [a now' b E|a|a now' ms'|a|a u H0 Huc Hn Hr|a u H0 Huc].
  - destruct (sched_tick_spec a q1 now' Hok) as (s1 & E1 & (_ & Hcur & Hq) & _).
    assert (b = s1) as -> by congruence. split; [done|]. destruct (Hq t) as (_ & _ & ->). by rewrite Hcur.
  - by eapply sched_yield_asleep.
  - destruct (sched_sleep_eq a q1 now' ms' Hok) as [-> Hok1]. eapply sched_yield_asleep; [exact Hok1| |done].
    tcb_simpl. by rewrite decide_False.
  - unfold thread_exit. eapply (sched_yield_asleep _ q1); [| |done].
    + apply (same_queue_ok (set_state (current_thread a) THREAD_ZOMBIE a)); [done|].
      apply set_unqueued_ok; [exact Hok|]. by destruct Hok as (_ & _ & _ & ? & _).
    + change (tstate (tcb (set_state (current_thread a) THREAD_ZOMBIE a) t) = THREAD_SLEEPING).
      tcb_simpl. by rewrite decide_False.
  - assert (u ≠ t) by (intros ->; rewrite Ht in Hr; done).
    eapply enqueue_asleep; try done; [by destruct Hok|by eapply unqueued].
  - assert (u ≠ t) as Hne by congruence.
    assert (asleep t (set_state u THREAD_READY a) ∨ sched_wake u a = a) as [Has | ->]; [| |done].
    + destruct (tstate (tcb a u)) eqn:Eu;
        [right|right|left|left|right]; try (unfold sched_wake; by rewrite Eu).
      all: assert (u ∉ q1) by (intros Hin; destruct Hok as (_ & B & _); rewrite (B _ Hin) in Eu; done).
      all: split; [exists q1; by apply set_unqueued_ok|]; tcb_simpl; by rewrite decide_False by done.
    + unfold sched_wake in *. case_match eqn:Eb; [|done].
      assert (u ∉ q1) as Hni.
      { intros Hin. destruct Hok as (_ & B & _). rewrite (B _ Hin) in Eb. done. }
      destruct (set_unqueued_ok a q1 u THREAD_READY Hok Hni) as (Hr & _).
      by eapply enqueue_asleep.
Qed.

(** A kernel with the idle thread at 5000 and two ready threads. *)
Definition demo_threads : kthreads :=
  sched_add 7000 (sched_add 6000 (sched_init (H := X86) 5000 9000 100 demo_kernel)).

Lemma demo_threads_ok : sched_ok demo_threads [6000; 7000].
Proof.
  pose proof (sched_init_ok (H := X86) 5000 9000 100 demo_kernel eq_refl ltac:(lia)) as (A & B & C & D & E).
  assert (sched_ok (sched_add 6000 (sched_init (H := X86) 5000 9000 100 demo_kernel)) [6000])
    as (A1 & B1 & C1 & D1 & E1).
  { apply (enqueue_ok _ [] 6000 A B C); [|exact E|lia|set_solver].
    intros [K|K]%elem_of_cons; [vm_compute in K; discriminate K|by apply not_elem_of_nil in K]. }
  apply (enqueue_ok _ [6000] 7000 A1 B1 C1); [|exact E1|lia|].
  - cbn [app]. intros [K|[K|K]%elem_of_cons]%elem_of_cons;
      [vm_compute in K; discriminate K|vm_compute in K; discriminate K|by apply not_elem_of_nil in K].
  - intros [K|K]%elem_of_cons; [discriminate K|by apply not_elem_of_nil in K].
Qed.

Lemma sched_yield_round_robin_witness :
  let _ : Arch := X86 in
  current_thread (Nat.iter 2 sched_yield demo_threads) = 7000 ∧
  current_thread (Nat.iter 3 sched_yield demo_threads) = 5000.
Proof.
  intros HA. destruct (sched_yield_round_robin (H := X86) demo_threads [6000; 7000] demo_threads_ok)
    as [Hrot [Hcyc _]].
  - vm_compute. reflexivity.
  - assert (current_thread demo_threads = 5000) as Hc by (vm_compute; reflexivity).
    rewrite Hc in Hrot, Hcyc. destruct (Hrot [5000; 6000] 7000 [] eq_refl) as [K _].
    cbn [length] in K, Hcyc. split; [exact K|exact Hcyc].
Defined.

Lemma sched_reachable_ok_witness :
  let _ : Arch := X86 in ∃ q, sched_ok (sched_yield (sched_init 5000 9000 100 demo_kernel)) q.
Proof.
  intros HA. destruct (sched_reachable_ok (H := X86) 5000 9000 100 demo_kernel
    (sched_yield (H := X86) (sched_init (H := X86) 5000 9000 100 demo_kernel))) as (q & Hq & _).
  - reflexivity.
  - lia.
  - apply rtc_once. exists None. apply (step_yield (H := X86)).
  - exists q. exact Hq.
Defined.

Lemma sleeping_thread_never_runs_witness :
  let _ : Arch := X86 in
  current_thread (sched_yield (sched_yield (sched_sleep 0 50 demo_threads))) ≠ 5000.
Proof.
  intros HA. apply (sleeping_thread_never_runs (H := X86) demo_threads _ 6000 0 50 [7000] demo_threads_ok).
  eapply rtc_l; [exists None; split; [apply (step_yield (H := X86))|discriminate]|].
  eapply rtc_l; [exists None; split; [apply (step_yield (H := X86))|discriminate]|]. apply rtc_refl.
Defined.
