(* ===== verification/Printf.v ===== *)
(** Formatted output and number parsing: src/libs/libc/src/printf.c and
    stdlib.c, src/libs/libk/kprintf.c.

    The arguments of a call are the machine words [va_arg] reads, in order;
    strings, the format included, are pointers into memory. *)
From S2P Require Import Prelude CString.

(** The output position and the memory. *)
Abbreviation out_t := (Z * memory)%type.

Definition emit (end_ c : Z) (s : out_t) : out_t :=
  (s.1 + 1, if s.1 <? end_ then st s.1 c s.2 else s.2).

Fixpoint emit_str (fuel : nat) (end_ p : Z) (s : out_t) : outcome out_t :=
  match fuel with
  | O => OutOfFuel
  | S k => let c := ld s.2 p in
           if c =? 0 then Ok s else emit_str k end_ (p + 1) (emit end_ c s)
  end.

(** The digit characters, '0'-'9' then 'A'-'F' or 'a'-'f'. *)
Definition digit (upper : bool) (d : Z) : Z :=
  if d <? 10 then 48 + d else if upper then 55 + d else 87 + d.

(** [while (val) tmp[len++] = digits[val % base], val /= base;] the low digit
    first.  A word has at most [word_bits] digits. *)
Fixpoint uint_digits (fuel : nat) (val base : Z) (upper : bool) : list Z :=
  match fuel with
  | O => []
  | S k => if val =? 0 then [] else digit upper (val mod base) :: uint_digits k (val / base) base upper
  end.

Definition emit_all (end_ : Z) (l : list Z) (s : out_t) : out_t :=
  foldl (λ s c, emit end_ c s) s l.

Definition emit_uint `{Arch} (end_ val base : Z) (upper : bool) (s : out_t) : out_t :=
  if val =? 0 then emit end_ 48 s
  else emit_all end_ (rev (uint_digits (Z.to_nat word_bits) val base upper)) s.

(** The next argument; reading past the last one gives an unspecified word. *)
Definition va_arg (ap : list Z) : Z * list Z := (List.hd 0 ap, List.tl ap).

(** One conversion: the character after the percent sign is [c]. *)
Definition convert `{Arch} (fuel : nat) (end_ c : Z) (ap : list Z) (s : out_t)
    : outcome (list Z * out_t) :=
  if c =? 99 then let '(v, ap) := va_arg ap in Ok (ap, emit end_ (u8 v) s)
  else if c =? 115 then
    let '(v, ap) := va_arg ap in s ← emit_str fuel end_ (uptr v) s; Ok (ap, s)
  else if c =? 100 then
    let '(v, ap) := va_arg ap in
    let v := swrap word_bits v in
    let '(v, s) := if v <? 0 then (swrap word_bits (- v), emit end_ 45 s) else (v, s) in
    Ok (ap, emit_uint end_ (uptr v) 10 false s)
  else if c =? 117 then let '(v, ap) := va_arg ap in Ok (ap, emit_uint end_ (uptr v) 10 false s)
  else if c =? 120 then let '(v, ap) := va_arg ap in Ok (ap, emit_uint end_ (uptr v) 16 false s)
  else if c =? 88 then let '(v, ap) := va_arg ap in Ok (ap, emit_uint end_ (uptr v) 16 true s)
  else if c =? 112 then
    let '(v, ap) := va_arg ap in
    Ok (ap, emit_uint end_ (uptr v) 16 false (emit end_ 120 (emit end_ 48 s)))
  else if c =? 37 then Ok (ap, emit end_ 37 s)
  else Ok (ap, emit end_ 63 s).

(** The loop over the format. *)
Fixpoint format_loop `{Arch} (fuel : nat) (end_ fmt : Z) (ap : list Z) (s : out_t) : outcome out_t :=
  match fuel with
  | O => OutOfFuel
  | S k =>
      let c := ld s.2 fmt in
      if c =? 0 then Ok s
      else if negb (c =? 37) then format_loop k end_ (fmt + 1) ap (emit end_ c s)
      else '(ap, s) ← convert k end_ (ld s.2 (fmt + 1)) ap s;
           format_loop k end_ (fmt + 2) ap s
  end.

(** The return value and the memory. *)
Definition vsnprintf `{Arch} (fuel : nat) (buf size fmt : Z) (ap : list Z) (m : memory)
    : outcome (Z * memory) :=
  '(cur, m) ← format_loop fuel (buf + size - 1) fmt ap (buf, m);
  Ok (i32 (cur - buf), if 0 <? size then st cur 0 m else m).

Definition snprintf `{Arch} (fuel : nat) (buf size fmt : Z) (ap : list Z) (m : memory) : outcome (Z * memory) :=
  vsnprintf fuel buf size fmt ap m.

(** [kprintf] and [kvprintf]: format into a buffer on the stack, then hand it to
    the backend if one is set. *)
Definition kprintf `{Arch} (fuel : nat) (backend : option (Z → memory → memory)) (buf fmt : Z)
    (ap : list Z) (m : memory) : outcome memory :=
  '(_, m) ← vsnprintf fuel buf 1024 fmt ap m;
  Ok (match backend with Some f => f buf m | None => m end).

(** ** atol *)

Fixpoint skip_blanks (fuel : nat) (s : Z) (m : memory) : outcome Z :=
  match fuel with
  | O => OutOfFuel
  | S k => if (ld m s =? 32) || (ld m s =? 9) then skip_blanks k (s + 1) m else Ok s
  end.

Fixpoint atol_digits `{Arch} (fuel : nat) (s result : Z) (m : memory) : outcome Z :=
  match fuel with
  | O => OutOfFuel
  | S k =>
      let c := ld m s in
      if (48 <=? c) && (c <=? 57)
      then atol_digits k (s + 1) (swrap word_bits (result * 10 + (c - 48))) m
      else Ok result
  end.

Definition atol `{Arch} (fuel : nat) (s : Z) (m : memory) : outcome Z :=
  s ← skip_blanks fuel s m;
  let '(sign, s) := if ld m s =? 45 then (-1, s + 1)
                    else if ld m s =? 43 then (1, s + 1) else (1, s) in
  result ← atol_digits fuel s 0 m;
  Ok (swrap word_bits (sign * result)).

Definition atoi `{Arch} (fuel : nat) (s : Z) (m : memory) : outcome Z :=
  v ← atol fuel s m; Ok (i32 v).

(** ** Where output goes *)

(** From [s] to [s'] the position moves forward and only bytes between the two
    positions and below the limit are written. *)
Definition out_ext (end_ : Z) (s s' : out_t) : Prop :=
  s.1 ≤ s'.1 ∧ ∀ a, a < s.1 ∨ end_ ≤ a ∨ s'.1 ≤ a → ld s'.2 a = ld s.2 a.

#[export] Instance out_ext_preorder end_ : PreOrder (out_ext end_).
Proof.
  split.
  - intros s. split; [lia|done].
  - intros s1 s2 s3 [A1 B1] [A2 B2]. split; [lia|]. intros a Ha. rewrite B2, B1; [done|lia|lia].
Qed.

Lemma emit_ext end_ c s : out_ext end_ s (emit end_ c s).
Proof.
  split; simpl; [lia|]. intros a Ha. case_test; [|done]. apply ld_st_ne. lia.
Qed.

Lemma emit_all_ext end_ l s : out_ext end_ s (emit_all end_ l s).
Proof.
  revert s. induction l as [|c l IH]; intros s; simpl; [done|].
  etrans; [apply emit_ext|apply IH].
Qed.

Lemma emit_str_ext end_ fuel : ∀ p s s', emit_str fuel end_ p s = Ok s' → out_ext end_ s s'.
Proof.
  induction fuel as [|k IH]; intros p s s'; simpl; [done|]. case_test; [by intros [= ->]|].
  intros E. etrans; [apply emit_ext|by eapply IH].
Qed.

Lemma emit_uint_ext `{Arch} end_ v b u s : out_ext end_ s (emit_uint end_ v b u s).
Proof. unfold emit_uint. case_test; [apply emit_ext|apply emit_all_ext]. Qed.

Create HintDb printf.
#[export] Hint Resolve emit_ext emit_all_ext emit_str_ext emit_uint_ext : printf.

Lemma convert_ext `{Arch} fuel end_ c ap s ap' s' :
  convert fuel end_ c ap s = Ok (ap', s') → out_ext end_ s s'.
Proof.
  unfold convert, va_arg.
  case_test; [intros [= <- <-]; auto with printf|].
  case_test.
  { destruct (emit_str _ _ _ _) eqn:E; simpl; try done. intros [= <- <-]. by eapply emit_str_ext. }
  case_test.
  { case_test; intros [= <- <-]; [etrans; [apply emit_ext|]|]; auto with printf. }
  do 3 (case_test; [intros [= <- <-]; auto with printf|]).
  case_test.
  { intros [= <- <-]. etrans; [apply emit_ext|]. etrans; [apply emit_ext|]. auto with printf. }
  case_test; intros [= <- <-]; auto with printf.
Qed.

Lemma format_loop_ext `{Arch} end_ fuel : ∀ fmt ap s s',
  format_loop fuel end_ fmt ap s = Ok s' → out_ext end_ s s'.
Proof.
  induction fuel as [|k IH]; intros fmt ap s s'; cbn [format_loop]; [done|].
  case_test; [by intros [= ->]|]. destruct (negb _).
  - intros E. etrans; [apply emit_ext|by eapply IH].
  - destruct (convert _ _ _ _ _) as [[ap1 s1]|msg|] eqn:E; simpl; try done.
    intros E'. etrans; [by eapply convert_ext|by eapply IH].
Qed.

(** [vsnprintf] writes characters only inside the buffer, leaving room for
    the terminator, and returns the full length of the output; but it stores the
    terminator at the full length.  So an output that is truncated is not
    terminated in the buffer, and the byte [n - size] positions past its end is
    overwritten with zero. *)
Theorem vsnprintf_writes `{Arch} (fuel : nat) (buf size fmt r : Z) (ap : list Z) (m m' : memory) :
  0 < size → vsnprintf fuel buf size fmt ap m = Ok (r, m') →
  ∃ n, 0 ≤ n ∧ r = i32 n ∧ ld m' (buf + n) = 0 ∧
    ∀ a, a ≠ buf + n → a < buf ∨ buf + size - 1 ≤ a → ld m' a = ld m a.
Proof.
  intros Hs E. unfold vsnprintf in E.
  destruct (format_loop _ _ _ _ _) as [[cur m1]|msg|] eqn:Ef; simpl in E; try done.
  apply format_loop_ext in Ef as [Hcur Hm]. simpl in *. rewrite (proj2 (Z.ltb_lt 0 size) Hs) in E.
  injection E as <- <-. exists (cur - buf). replace (buf + (cur - buf)) with cur by lia.
  split; [lia|]. split; [done|]. split; [by rewrite ld_st_eq|].
  intros a Ha Hb. rewrite ld_st_ne by done. apply Hm. lia.
Qed.

(** ** Printing and parsing numbers *)

Definition dec_value (r : Z) (l : list Z) : Z := foldl (λ r c, r * 10 + (c - 48)) r l.

Definition is_digit (c : Z) : Prop := 48 ≤ c ≤ 57.

Lemma dec_value_mono l : ∀ r, 0 ≤ r → Forall is_digit l → r ≤ dec_value r l.
Proof.
  induction l as [|c l IH]; intros r Hr Hl; simpl; [lia|].
  inversion_clear Hl as [|? ? Hc Hl']. unfold is_digit in Hc.
  specialize (IH (r * 10 + (c - 48)) ltac:(lia) Hl'). lia.
Qed.

Lemma uint_digits_spec n : ∀ fuel v, 0 ≤ v < 10 ^ Z.of_nat n → (n ≤ fuel)%nat →
  let l := uint_digits fuel v 10 false in
  Forall is_digit l ∧ dec_value 0 (rev l) = v ∧ (length l ≤ n)%nat ∧ (v ≠ 0 → l ≠ []).
Proof.
  induction n as [|n IH]; intros fuel v Hv Hf.
  { simpl in Hv. assert (v = 0) as -> by lia. destruct fuel; simpl; split_and!; (done || constructor). }
  destruct fuel as [|fuel]; [lia|]. cbn [uint_digits]. case_test.
  { subst. split_and!; [constructor|done|simpl; lia|done]. }
  assert (0 ≤ v / 10 < 10 ^ Z.of_nat n) as Hq.
  { split; [apply Z.div_pos; lia|]. apply Z.div_lt_upper_bound; [lia|].
    rewrite Nat2Z.inj_succ, Z.pow_succ_r in Hv by lia. lia. }
  destruct (IH fuel (v / 10) Hq ltac:(lia)) as (A & B & C & _).
  assert (0 ≤ v mod 10 < 10) by (apply Z.mod_pos_bound; lia).
  assert (digit false (v mod 10) = 48 + v mod 10) as E.
  { unfold digit. by rewrite (proj2 (Z.ltb_lt _ _)) by lia. }
  split_and!.
  - constructor; [rewrite E; unfold is_digit; lia|done].
  - cbn [rev]. unfold dec_value in *. rewrite foldl_app, B. cbn [foldl]. rewrite E.
    pose proof (Z.div_mod v 10). lia.
  - simpl. lia.
  - done.
Qed.

Lemma emit_all_bytes end_ l : ∀ p m,
  Forall (λ c, 0 ≤ c < 2 ^ 8) l → p + Z.of_nat (length l) ≤ end_ →
  let s' := emit_all end_ l (p, m) in
  s'.1 = p + Z.of_nat (length l) ∧ bytes_at s'.2 p l.
Proof.
  induction l as [|c l IH]; intros p m Hl He; cbn [emit_all foldl length] in *; [split; [simpl; lia|done]|].
  inversion_clear Hl as [|? ? Hc Hl'].
  assert (emit end_ c (p, m) = (p + 1, st p c m)) as ->.
  { unfold emit. cbn [fst snd]. by rewrite (proj2 (Z.ltb_lt p end_)) by lia. }
  destruct (IH (p + 1) (st p c m) Hl' ltac:(lia)) as [A B]. fold (emit_all end_ l (p + 1, st p c m)).
  split; [rewrite A; lia|]. cbn [bytes_at]. split; [|exact B].
  destruct (emit_all_ext end_ l (p + 1, st p c m)) as [_ Hk]. rewrite Hk by (simpl; lia).
  cbn [snd]. rewrite ld_st_eq. by apply wrap_small.
Qed.

Lemma atol_digits_spec `{Arch} m l : ∀ fuel p r,
  bytes_at m p (l ++ [0]) → Forall is_digit l → 0 ≤ r →
  dec_value r l < 2 ^ (word_bits - 1) → (length l < fuel)%nat →
  atol_digits fuel p r m = Ok (dec_value r l).
Proof.
  pose proof word_bits_bound. induction l as [|c l IH]; intros fuel p r Hm Hl Hr Hv Hf;
    (destruct fuel as [|fuel]; [simpl in Hf; lia|]); simpl in Hm, Hf; destruct Hm as [Hc Hm];
    cbn [atol_digits]; rewrite Hc.
  - done.
  - inversion_clear Hl as [|? ? Hd Hl']. unfold is_digit in Hd. simpl in Hv.
    rewrite (proj2 (Z.leb_le 48 c)), (proj2 (Z.leb_le c 57)) by lia. cbn [andb].
    pose proof (dec_value_mono l (r * 10 + (c - 48)) ltac:(lia) Hl').
    assert (2 ^ (word_bits - 1) > 0) by lia.
    rewrite swrap_small by (unfold dec_value in *; lia). apply IH; try done; lia.
Qed.

(** The digits of [u] as [emit_uint] prints them, those in base 10, and the
    characters [%d] prints for [v]. *)
Definition uint_str `{Arch} (u base : Z) (upper : bool) : list Z :=
  if u =? 0 then [48] else rev (uint_digits (Z.to_nat word_bits) u base upper).
Definition udec `{Arch} (u : Z) : list Z := uint_str u 10 false.
Definition decimal `{Arch} (v : Z) : list Z := if v <? 0 then 45 :: udec (- v) else udec v.

Section decimal.
Context `{Arch}.

Lemma emit_uint_str end_ u b up s : emit_uint end_ u b up s = emit_all end_ (uint_str u b up) s.
Proof. unfold emit_uint, uint_str. by case_test. Qed.

Lemma udec_spec u : 0 ≤ u < 2 ^ (word_bits - 1) →
  Forall is_digit (udec u) ∧ dec_value 0 (udec u) = u ∧ (0 < length (udec u) ≤ 19)%nat.
Proof.
  intros Hu. pose proof word_bits_bound. unfold udec, uint_str. case_test.
  { subst. split; [apply Forall_singleton; unfold is_digit; lia|]. split; [done|simpl; lia]. }
  assert (2 ^ (word_bits - 1) ≤ 2 ^ 63) by (apply Z.pow_le_mono_r; lia).
  destruct (uint_digits_spec 19 (Z.to_nat word_bits) u) as (A & B & C & D); [lia|lia|].
  split; [by apply Forall_rev|]. split; [done|]. rewrite length_rev. split; [|done].
  specialize (D n). destruct (uint_digits _ _ _ _); [done|simpl; lia].
Qed.

Lemma swrap_wrap v : - 2 ^ (word_bits - 1) ≤ v < 2 ^ (word_bits - 1) → swrap word_bits (uptr v) = v.
Proof.
  intros Hv. pose proof word_bits_bound. unfold swrap, wrap. rewrite Zplus_mod_idemp_l.
  assert (2 ^ word_bits = 2 * 2 ^ (word_bits - 1)).
  { rewrite <- Z.pow_succ_r by lia. f_equal. lia. }
  rewrite Z.mod_small by lia. lia.
Qed.

Lemma decimal_bytes v : - 2 ^ (word_bits - 1) < v < 2 ^ (word_bits - 1) →
  Forall (λ c, 0 ≤ c < 2 ^ 8) (decimal v) ∧ (0 < length (decimal v) ≤ 20)%nat.
Proof.
  intros Hv. unfold decimal. case_test.
  - destruct (udec_spec (- v) ltac:(lia)) as (A & _ & C). split; [|simpl; lia].
    constructor; [lia|]. eapply Forall_impl; [|exact A]. unfold is_digit. intros; lia.
  - destruct (udec_spec v ltac:(lia)) as (A & _ & C). split; [|lia].
    eapply Forall_impl; [|exact A]. unfold is_digit. intros; lia.
Qed.

(** The [%d] conversion emits [decimal v]. *)
Lemma convert_d fuel end_ v ap s : - 2 ^ (word_bits - 1) < v < 2 ^ (word_bits - 1) →
  convert fuel end_ 100 (uptr v :: ap) s = Ok (ap, emit_all end_ (decimal v) s).
Proof.
  intros Hv. pose proof word_bits_bound.
  assert (2 ^ (word_bits - 1) < 2 ^ word_bits) by (apply Z.pow_lt_mono_r; lia).
  unfold convert, va_arg, decimal. cbn [List.hd List.tl Z.eqb Pos.eqb].
  rewrite swrap_wrap by lia. case_test.
  - rewrite swrap_small, wrap_small by lia. by rewrite emit_uint_str.
  - rewrite wrap_small by lia. by rewrite emit_uint_str.
Qed.

(** [atol] reads a decimal number back. *)
Lemma atol_decimal fuel m p v :
  - 2 ^ (word_bits - 1) < v < 2 ^ (word_bits - 1) → (22 ≤ fuel)%nat →
  bytes_at m p (decimal v ++ [0]) → atol fuel p m = Ok v.
Proof.
  intros Hv Hf Hm. pose proof word_bits_bound.
  assert (∀ u q, 0 ≤ u < 2 ^ (word_bits - 1) → bytes_at m q (udec u ++ [0]) →
    atol_digits fuel q 0 m = Ok u ∧ 48 ≤ ld m q ≤ 57) as Hd.
  { intros u q Hu Hq. destruct (udec_spec u Hu) as (A & B & C). split.
    - rewrite (atol_digits_spec m (udec u)); [by rewrite B|done|done|lia|rewrite B; lia|lia].
    - destruct (udec u) as [|c l]; [simpl in C; lia|]. inversion_clear A as [|? ? Hc _].
      destruct Hq as [-> _]. exact Hc. }
  destruct fuel as [|fuel]; [lia|]. unfold atol. unfold decimal in Hm.
  destruct (Z.ltb_spec v 0) as [Hneg|Hpos].
  - destruct Hm as [Hc Hm]. destruct (Hd (- v) (p + 1) ltac:(lia) Hm) as [E _].
    cbn [skip_blanks]. rewrite Hc. cbn [Z.eqb Pos.eqb orb mbind outcome_bind]. rewrite Hc.
    cbn [Z.eqb Pos.eqb]. rewrite E. cbn [mbind outcome_bind].
    replace (-1 * - v) with v by lia. rewrite swrap_small by lia. done.
  - destruct (Hd v p ltac:(lia) Hm) as [E Hc]. cbn [skip_blanks].
    rewrite !(proj2 (Z.eqb_neq (ld m p) _)) by lia. cbn [orb mbind outcome_bind].
    rewrite !(proj2 (Z.eqb_neq (ld m p) _)) by lia. rewrite E. cbn [mbind outcome_bind].
    rewrite Z.mul_1_l, swrap_small by lia. done.
Qed.
End decimal.

(** Printing a number with [%d] and reading it back with [atol] gives the
    number, for every [long] but the most negative one. *)
Theorem print_parse_roundtrip `{Arch} (fuel : nat) (buf size fmt v : Z) (m : memory) :
  - 2 ^ (word_bits - 1) < v < 2 ^ (word_bits - 1) → (22 ≤ fuel)%nat → 22 ≤ size < 2 ^ 31 →
  bytes_at m fmt [37; 100; 0] → fmt + 3 ≤ buf ∨ buf + size ≤ fmt →
  ∃ n m', vsnprintf fuel buf size fmt [uptr v] m = Ok (n, m') ∧ 1 ≤ n ≤ 20 ∧ atol fuel buf m' = Ok v.
Proof.
  intros Hv Hf Hs (F1 & F2 & F3 & _) Hd. destruct (decimal_bytes v Hv) as [Hb Hl].
  set (end_ := buf + size - 1).
  destruct (emit_all_bytes end_ (decimal v) buf m Hb ltac:(lia)) as [Hcur Hbytes].
  pose proof (emit_all_ext end_ (decimal v) (buf, m)) as [_ Hkeep].
  set (s' := emit_all end_ (decimal v) (buf, m)) in *. cbn [fst snd] in *.
  assert (format_loop fuel end_ fmt [uptr v] (buf, m) = Ok s') as Ef.
  { destruct fuel as [|[|fuel]]; [lia|lia|]. cbn [format_loop snd]. rewrite F1. cbn [Z.eqb Pos.eqb negb].
    rewrite F2, convert_d by done. cbn [mbind outcome_bind]. fold s'.
    assert (ld s'.2 (fmt + 2) = 0) as ->; [|done].
    rewrite Hkeep by lia. by replace (fmt + 2) with (fmt + 1 + 1) by lia. }
  unfold vsnprintf. fold end_. rewrite Ef. destruct s' as [cur m1]. cbn [fst snd] in *.
  cbn [mbind outcome_bind]. rewrite (proj2 (Z.ltb_lt 0 size)) by lia.
  eexists _, _. split; [reflexivity|]. split.
  { rewrite swrap_small by lia. lia. }
  apply atol_decimal; [done|done|]. apply bytes_at_app. split.
  - eapply bytes_at_ext; [|exact Hbytes]. intros a Ha. apply ld_st_ne. lia.
  - rewrite <- Hcur. split; [by rewrite ld_st_eq|done].
Qed.

(** A memory with the format "%d" at 100 and "%x" at 104. *)
Definition fmt_memory : memory := list_to_map [(100, 37); (101, 100); (104, 37); (105, 120)].

Lemma print_parse_roundtrip_witness :
  let _ : Arch := X86 in
  ∃ n m', vsnprintf 30 200 22 100 [uptr (-305)] fmt_memory = Ok (n, m') ∧ atol 30 200 m' = Ok (-305).
Proof.
  intros HA. destruct (print_parse_roundtrip (H := X86) 30 200 22 100 (-305) fmt_memory)
    as (n & m' & E & _ & A).
  - cbv. split; reflexivity.
  - lia.
  - lia.
  - vm_compute. done.
  - left. lia.
  - exists n, m'. split; [exact E|exact A].
Defined.

(** "12345678" into a buffer of four bytes: the terminator lands at offset 8. *)
Lemma vsnprintf_writes_witness :
  let _ : Arch := X86 in
  match vsnprintf 30 200 4 104 [0x12345678] fmt_memory with
  | Ok (r, m') => ∃ n, r = i32 n ∧ ld m' (200 + n) = 0
  | _ => False
  end.
Proof.
  intros HA. unfold HA. destruct (vsnprintf 30 200 4 104 [0x12345678] fmt_memory) as [[r m']|msg|] eqn:E.
  - destruct (vsnprintf_writes (H := X86) 30 200 4 104 r [0x12345678] fmt_memory m' ltac:(lia) E)
      as (n & _ & Hr & Hz & _). exists n. split; [exact Hr|exact Hz].
  - vm_compute in E. discriminate E.
  - vm_compute in E. discriminate E.
Defined.

(** ** What a format prints

    The arguments of a call as the callers write them, and the bytes it prints. *)
Inductive karg := Num (v : Z) | Str (s : list Z).

Definition long_str `{Arch} (v : Z) : list Z :=
  if v <? 0 then 45 :: udec (uptr (swrap word_bits (- v))) else udec (uptr v).

(** The conversions that take a number; [None] for the others. *)
Definition num_conv `{Arch} (c v : Z) : option (list Z) :=
  if c =? 99 then Some [u8 v]
  else if c =? 100 then Some (long_str (swrap word_bits v))
  else if c =? 117 then Some (uint_str (uptr v) 10 false)
  else if c =? 120 then Some (uint_str (uptr v) 16 false)
  else if c =? 88 then Some (uint_str (uptr v) 16 true)
  else if c =? 112 then Some (48 :: 120 :: uint_str (uptr v) 16 false)
  else None.

(** A number for [%s] or a string for a number's conversion has no meaning;
    [typed] excludes them. *)
Fixpoint format `{Arch} (fs : list Z) (ap : list karg) : list Z :=
  match fs with
  | [] => []
  | c :: fs' =>
      if negb (c =? 37) then c :: format fs' ap else
      match fs' with
      | [] => [63]
      | c :: fs'' =>
          if c =? 37 then 37 :: format fs'' ap
          else match ap with
               | Str s :: ap' => if c =? 115 then s ++ format fs'' ap' else 63 :: format fs'' ap
               | Num v :: ap' =>
                   match num_conv c v with
                   | Some out => out ++ format fs'' ap'
                   | None => 63 :: format fs'' ap
                   end
               | [] => 63 :: format fs'' ap
               end
      end
  end.

Definition is_num (c : Z) : bool := bool_decide (c ∈ [99; 100; 117; 120; 88; 112]).

Fixpoint typed (fs : list Z) (ap : list karg) : bool :=
  match fs with
  | [] => true
  | c :: fs' =>
      if negb (c =? 37) then typed fs' ap else
      match fs' with
      | [] => false
      | c :: fs'' =>
          if c =? 115 then match ap with Str _ :: ap' => typed fs'' ap' | _ => false end
          else if is_num c then match ap with Num _ :: ap' => typed fs'' ap' | _ => false end
          else typed fs'' ap
      end
  end.

Section format.
Context `{Arch}.
Implicit Types (s : out_t) (l fs : list Z) (ap : list karg).

(** A string the output cannot overwrite. *)
Definition readable (end_ : Z) s (p : Z) l : Prop :=
  cstr s.2 p l ∧ (p + Z.of_nat (length l) < s.1 ∨ end_ ≤ p).

Definition arg_ok (end_ : Z) s (fuel : nat) (w : Z) (k : karg) : Prop :=
  match k with
  | Num v => w = v
  | Str l => readable end_ s (uptr w) l ∧ (length l < fuel)%nat
  end.

Lemma cstr_ext m m' l : ∀ p,
  (∀ a, p ≤ a ≤ p + Z.of_nat (length l) → ld m' a = ld m a) → cstr m p l → cstr m' p l.
Proof.
  induction l as [|c l IH]; intros p Hm; cbn [cstr length] in *; [by rewrite Hm by lia|].
  intros (A & B & C). rewrite Hm by lia. split_and!; [done|done|]. apply IH; [|done]. intros; apply Hm; lia.
Qed.

Lemma readable_ext end_ s s' p l : out_ext end_ s s' → readable end_ s p l → readable end_ s' p l.
Proof.
  intros [H1 H2] [A B]. split; [|lia]. eapply cstr_ext; [|exact A]. intros a Ha. apply H2. lia.
Qed.

Lemma readable_tail end_ s p c l : readable end_ s p (c :: l) → readable end_ s (p + 1) l.
Proof. intros [(_ & _ & A) B]. cbn [length] in B. split; [done|lia]. Qed.

Lemma args_ok_ext end_ s s' fuel fuel' ws ap : out_ext end_ s s' → (fuel ≤ fuel')%nat →
  Forall2 (arg_ok end_ s fuel) ws ap → Forall2 (arg_ok end_ s' fuel') ws ap.
Proof.
  intros He Hf. apply Forall2_impl. intros w [v|l]; [done|]. intros [A B].
  split; [by eapply readable_ext|lia].
Qed.

Lemma emit_all_app end_ l k s : emit_all end_ (l ++ k) s = emit_all end_ k (emit_all end_ l s).
Proof. apply foldl_app. Qed.

Lemma emit_str_all end_ l : ∀ fuel p s, readable end_ s p l → (length l < fuel)%nat →
  emit_str fuel end_ p s = Ok (emit_all end_ l s).
Proof.
  induction l as [|c l IH]; intros [|fuel] p s Hr Hf; cbn [length] in Hf; try lia; cbn [emit_str].
  - destruct Hr as [-> _]. done.
  - pose proof Hr as [(-> & Hc & _) _]. rewrite (proj2 (Z.eqb_neq c 0)) by done.
    apply IH; [|lia]. eapply readable_ext; [apply emit_ext|]. by eapply readable_tail.
Qed.

Lemma convert_num fuel end_ c v ws s out : num_conv c v = Some out →
  convert fuel end_ c (v :: ws) s = Ok (ws, emit_all end_ out s).
Proof.
  unfold num_conv, convert, va_arg. cbn [List.hd List.tl].
  destruct (Z.eqb_spec c 99) as [->|]; [by intros [= <-]|].
  destruct (Z.eqb_spec c 100) as [->|].
  { intros [= <-]. cbn [Z.eqb Pos.eqb]. unfold long_str. case_test; by rewrite emit_uint_str. }
  destruct (Z.eqb_spec c 117) as [->|]; [intros [= <-]; cbn [Z.eqb Pos.eqb]; by rewrite emit_uint_str|].
  destruct (Z.eqb_spec c 120) as [->|]; [intros [= <-]; cbn [Z.eqb Pos.eqb]; by rewrite emit_uint_str|].
  destruct (Z.eqb_spec c 88) as [->|]; [intros [= <-]; cbn [Z.eqb Pos.eqb]; by rewrite emit_uint_str|].
  destruct (Z.eqb_spec c 112) as [->|]; [|done].
  intros [= <-]. cbn [Z.eqb Pos.eqb]. by rewrite emit_uint_str.
Qed.

Lemma num_conv_some c v : is_num c = true → is_Some (num_conv c v).
Proof.
  unfold is_num. rewrite bool_decide_eq_true. rewrite !elem_of_cons, elem_of_nil.
  intros [-> |[-> |[-> |[-> |[-> |[-> |[]]]]]]]; eexists; reflexivity.
Qed.

Lemma num_conv_none c v : is_num c = false → num_conv c v = None.
Proof.
  unfold is_num. rewrite bool_decide_eq_false. rewrite !elem_of_cons, elem_of_nil. intros Hc.
  unfold num_conv. rewrite !(proj2 (Z.eqb_neq c _)) by tauto. done.
Qed.

(** Neither a number, a string nor a percent sign: a question mark. *)
Lemma convert_other fuel end_ c ws s : is_num c = false → c ≠ 115 →
  convert fuel end_ c ws s = Ok (ws, emit end_ (if c =? 37 then 37 else 63) s).
Proof.
  unfold is_num. rewrite bool_decide_eq_false. rewrite !elem_of_cons, elem_of_nil. intros Hc Hs.
  unfold convert. rewrite !(proj2 (Z.eqb_neq c _)) by tauto. by case_test.
Qed.

Lemma format_other c fs ap : is_num c = false → c ≠ 115 →
  format (37 :: c :: fs) ap = (if c =? 37 then 37 else 63) :: format fs ap.
Proof.
  intros Hn Hs. cbn [format Z.eqb Pos.eqb negb]. case_test; [done|].
  destruct ap as [|[v|l] ap]; [done| |by rewrite (proj2 (Z.eqb_neq c 115))].
  by rewrite num_conv_none.
Qed.

Lemma format_loop_all end_ : ∀ n fs fmt fuel ws ap s, (length fs ≤ n)%nat →
  readable end_ s fmt fs → (n < fuel)%nat → Forall2 (arg_ok end_ s (fuel - n)) ws ap → typed fs ap = true →
  format_loop fuel end_ fmt ws s = Ok (emit_all end_ (format fs ap) s).
Proof.
  induction n as [n IH] using lt_wf_ind. intros fs fmt fuel ws ap s Hn Hr Hf Ha Ht.
  destruct fuel as [|fuel]; [lia|]. cbn [format_loop].
  destruct fs as [|c fs]; [destruct Hr as [-> _]; done|].
  pose proof Hr as [(-> & Hc & _) _]. rewrite (proj2 (Z.eqb_neq c 0)) by done.
  cbn [length] in Hn. destruct n as [|n]; [lia|]. pose proof (readable_tail _ _ _ _ _ Hr) as Hr1.
  destruct (Z.eqb_spec c 37) as [->|Hp]; cbn [negb].
  2:{ cbn [format typed] in Ht |- *. rewrite (proj2 (Z.eqb_neq c 37)) in Ht |- * by done. cbn [negb] in Ht |- *.
      apply (IH n); [lia|lia| |lia| |done].
      - eapply readable_ext; [apply emit_ext|done].
      - eapply args_ok_ext; [apply emit_ext| |exact Ha]. lia. }
  destruct fs as [|c fs]; [done|]. cbn [length] in Hn. destruct n as [|n]; [lia|].
  pose proof Hr1 as [(-> & Hc1 & _) _]. pose proof (readable_tail _ _ _ _ _ Hr1) as Hr2.
  replace (fmt + 1 + 1) with (fmt + 2) in Hr2 by lia.
  assert (∀ out ws' ap', Forall2 (arg_ok end_ s (S fuel - S (S n))) ws' ap' → typed fs ap' = true →
    format_loop fuel end_ (fmt + 2) ws' (emit_all end_ out s) = Ok (emit_all end_ (out ++ format fs ap') s)) as Hgo.
  { intros out ws' ap' Ha' Ht'. rewrite emit_all_app. apply (IH n); [lia|lia| |lia| |done].
    - eapply readable_ext; [apply emit_all_ext|done].
    - eapply args_ok_ext; [apply emit_all_ext| |exact Ha']. lia. }
  destruct (Z.eqb_spec c 115) as [->|Hs].
  { cbn [typed Z.eqb Pos.eqb negb] in Ht. destruct ap as [|[v|l] ap]; try done.
    apply Forall2_cons_inv_r in Ha as (w & ws' & [Hl Hlen] & Ha' & ->). unfold convert, va_arg. cbn [Z.eqb Pos.eqb List.hd List.tl].
    rewrite (emit_str_all end_ l) by (done || lia). cbn [mbind outcome_bind]. rewrite (Hgo l ws' ap) by done.
    done. }
  destruct (is_num c) eqn:Hnum.
  - cbn [typed Z.eqb Pos.eqb negb] in Ht. rewrite (proj2 (Z.eqb_neq c 115)), Hnum in Ht by done.
    destruct ap as [|[v|l] ap]; try done. apply Forall2_cons_inv_r in Ha as (w & ws' & Hw & Ha' & ->). cbn [arg_ok] in Hw. subst w.
    destruct (num_conv_some c v Hnum) as [out Eo]. rewrite (convert_num _ _ _ _ _ _ _ Eo).
    cbn [mbind outcome_bind]. rewrite (Hgo out ws' ap) by done.
    cbn [format Z.eqb Pos.eqb negb]. rewrite Eo. destruct (Z.eqb_spec c 37) as [->|]; done.
  - rewrite convert_other by done. cbn [mbind outcome_bind]. rewrite format_other by done.
    apply (Hgo [if c =? 37 then 37 else 63] ws ap Ha).
    cbn [typed Z.eqb Pos.eqb negb] in Ht. by rewrite (proj2 (Z.eqb_neq c 115)), Hnum in Ht by done.
Qed.

Lemma emit_all_spec end_ l : ∀ p m,
  (emit_all end_ l (p, m)).1 = p + Z.of_nat (length l) ∧
  ∀ i, 0 ≤ i < Z.of_nat (length l) → p + i < end_ → ld (emit_all end_ l (p, m)).2 (p + i) = u8 (rd l i).
Proof.
  induction l as [|c l IH]; intros p m; cbn [length].
  { split; [simpl; lia|intros; lia]. }
  change (emit_all end_ (c :: l) (p, m)) with (emit_all end_ l (p + 1, if p <? end_ then st p c m else m)).
  destruct (IH (p + 1) (if p <? end_ then st p c m else m)) as [A B]. split; [rewrite A; lia|].
  intros i Hi He. destruct (decide (i = 0)) as [->|].
  - destruct (emit_all_ext end_ l (p + 1, if p <? end_ then st p c m else m)) as [_ Hk]. cbn [fst snd] in Hk.
    rewrite Hk, Z.add_0_r, (proj2 (Z.ltb_lt p end_)), ld_st_eq by lia. done.
  - replace (p + i) with (p + 1 + (i - 1)) by lia. rewrite B by lia. unfold rd.
    replace (Z.to_nat i) with (S (Z.to_nat (i - 1))) by lia. done.
Qed.
End format.

(** C29: on a format whose conversions fit the arguments, [vsnprintf] returns and
    prints exactly [format]: the numbers in base 10 or 16, the strings whole and
    a question mark for every unknown conversion.  The buffer receives the bytes
    that fit, the result is the untruncated length, and the strings may lie
    anywhere outside the buffer. *)
Theorem vsnprintf_format `{Arch} (fuel : nat) (buf size fmt : Z) (fs ws : list Z) (ap : list karg) (m : memory) :
  0 < size → readable (buf + size - 1) (buf, m) fmt fs → typed fs ap = true → (length fs < fuel)%nat →
  Forall2 (arg_ok (buf + size - 1) (buf, m) (fuel - length fs)) ws ap →
  let out := format fs ap in
  let n := Z.of_nat (length out) in
  ∃ m', vsnprintf fuel buf size fmt ws m = Ok (i32 n, m') ∧
    (∀ i, 0 ≤ i < n → i < size - 1 → ld m' (buf + i) = u8 (rd out i)) ∧ ld m' (buf + n) = 0 ∧
    (∀ a, a < buf ∨ buf + size - 1 ≤ a → a ≠ buf + n → ld m' a = ld m a).
Proof.
  intros Hs Hr Ht Hf Ha out n. unfold vsnprintf.
  rewrite (format_loop_all (buf + size - 1) (length fs) fs fmt fuel ws ap (buf, m)) by (done || lia).
  fold out. destruct (emit_all_spec (buf + size - 1) out buf m) as [A B].
  destruct (emit_all_ext (buf + size - 1) out (buf, m)) as [_ C].
  destruct (emit_all (buf + size - 1) out (buf, m)) as [cur m1]. cbn [fst snd mbind outcome_bind] in *.
  rewrite (proj2 (Z.ltb_lt 0 size)) by done. subst cur. fold n in C |- *.
  replace (buf + n - buf) with n by lia. eexists. split; [reflexivity|]. split_and!.
  - intros i Hi Hi'. rewrite ld_st_ne by lia. apply B; lia.
  - by rewrite ld_st_eq.
  - intros a Ha' Hne. rewrite ld_st_ne by done. apply C. lia.
Qed.

(** The message of a [kprintf] call, as the drivers make it: [kprint] is the
    current backend, which receives the formatted bytes. *)
Class Kprint (D : Type) := kprint : list Z → D → D.

Definition klog `{Arch} `{Kprint D} (fmt : string) (ap : list karg) (d : D) : D :=
  kprint (format (bytes fmt) ap) d.

(** "%s=%d" at 100, "ab" at 110; minus five; the buffer at 200. *)
Lemma vsnprintf_format_witness :
  let _ : Arch := X86 in
  let m := list_to_map (zip (seqZ 100 13) (bytes "%s=%d" ++ [0; 0; 0; 0; 0] ++ bytes "ab" ++ [0])) in
  ∃ m', vsnprintf 30 200 22 100 [110; -5] m = Ok (5, m') ∧ ld m' 202 = 61 ∧ ld m' 203 = 45.
Proof.
  intros HA m.
  destruct (vsnprintf_format (H := HA) 30 200 22 100 (bytes "%s=%d") [110; -5] [Str (bytes "ab"); Num (-5)] m)
    as (m' & E & B & _).
  - lia.
  - split; [vm_compute; done|left; vm_compute; done].
  - vm_compute. reflexivity.
  - vm_compute. lia.
  - constructor; [split; [split; [vm_compute; done|left; vm_compute; done]|vm_compute; lia]|].
    constructor; [reflexivity|constructor].
  - exists m'. split; [exact E|]. split.
    + change 202 with (200 + 2). rewrite (B 2) by (vm_compute; done). vm_compute. reflexivity.
    + change 203 with (200 + 3). rewrite (B 3) by (vm_compute; done). vm_compute. reflexivity.
Defined.
