(* ===== verification/Ports.v ===== *)
(** Port input and output: src/kernel/include/io.h.

    The devices behind the ports are not code of the repository: they are a
    state type with one transition per instruction, a parameter of every driver.
    [trace] is the concrete instance the witnesses use. *)
From S2P Require Import Prelude.

Class Ports (D : Type) := {
  inb : Z → D → Z * D;
  outb : Z → Z → D → D;
  inw : Z → D → Z * D;
  outw : Z → Z → D → D;
  inl : Z → D → Z * D;
  outl : Z → Z → D → D
}.

Definition io_wait `{Ports D} (d : D) : D := outb 0x80 0 d.

(** Several writes in a row: port and byte. *)
Definition outbs `{Ports D} (l : list (Z * Z)) (d : D) : D :=
  foldl (λ d '(p, v), outb p v d) d l.

(** ** A device that records what is written and answers from a script *)

Inductive io_event := OutB (port v : Z) | OutW (port v : Z) | OutL (port v : Z).

Record trace := Trace { written : list io_event; script : list Z }.

Definition trace_in (w : Z) (d : trace) : Z * trace :=
  match script d with
  | [] => (0, d)
  | x :: s => (wrap w x, Trace (written d) s)
  end.
Definition trace_out (e : io_event) (d : trace) : trace := Trace (written d ++ [e]) (script d).

#[export] Instance trace_ports : Ports trace := {
  inb p d := trace_in 8 d; outb p v d := trace_out (OutB p (u8 v)) d;
  inw p d := trace_in 16 d; outw p v d := trace_out (OutW p (u16 v)) d;
  inl p d := trace_in 32 d; outl p v d := trace_out (OutL p (u32 v)) d
}.

(** ** The documented behaviour of the interrupt controllers

    Of each 8259 the mask register and the number of initialisation words it
    still expects matter.  A command byte [0x11] starts an initialisation of
    three more words on the data port and clears the mask; one with bit 4 clear
    leaves both alone.  Outside an initialisation the data port is the mask. *)
Definition pic_cmd (v : Z) (s : Z * nat) : Z * nat := if v =? 0x11 then (0, 3%nat) else s.
Definition pic_data (v : Z) (s : Z * nat) : Z * nat :=
  match s.2 with O => (v, O) | S k => (s.1, k) end.

Class Pic8259 (D : Type) `{Ports D} := {
  pic1 : D → Z * nat;
  pic2 : D → Z * nat;
  pic_bound : ∀ d, 0 ≤ (pic1 d).1 < 2 ^ 8 ∧ 0 ≤ (pic2 d).1 < 2 ^ 8;
  pic_inb1 : ∀ d, (inb 0x21 d).1 = (pic1 d).1;
  pic_inb2 : ∀ d, (inb 0xA1 d).1 = (pic2 d).1;
  pic_inb : ∀ p d, pic1 (inb p d).2 = pic1 d ∧ pic2 (inb p d).2 = pic2 d;
  pic_cmd1 : ∀ v d, v = 0x11 ∨ Z.testbit v 4 = false →
    pic1 (outb 0x20 v d) = pic_cmd v (pic1 d) ∧ pic2 (outb 0x20 v d) = pic2 d;
  pic_cmd2 : ∀ v d, v = 0x11 ∨ Z.testbit v 4 = false →
    pic2 (outb 0xA0 v d) = pic_cmd v (pic2 d) ∧ pic1 (outb 0xA0 v d) = pic1 d;
  pic_data1 : ∀ v d, 0 ≤ v < 2 ^ 8 →
    pic1 (outb 0x21 v d) = pic_data v (pic1 d) ∧ pic2 (outb 0x21 v d) = pic2 d;
  pic_data2 : ∀ v d, 0 ≤ v < 2 ^ 8 →
    pic2 (outb 0xA1 v d) = pic_data v (pic2 d) ∧ pic1 (outb 0xA1 v d) = pic1 d;
  pic_outb : ∀ p v d, p ≠ 0x20 → p ≠ 0x21 → p ≠ 0xA0 → p ≠ 0xA1 →
    pic1 (outb p v d) = pic1 d ∧ pic2 (outb p v d) = pic2 d
}.

(** The two controllers and nothing else. *)
Record pics := Pics { chip1 : Z * nat; chip2 : Z * nat }.

#[export] Instance pics_ports : Ports pics := {
  inb p d := (if p =? 0x21 then u8 (chip1 d).1 else if p =? 0xA1 then u8 (chip2 d).1 else 0, d);
  outb p v d :=
    if p =? 0x20 then Pics (pic_cmd v (chip1 d)) (chip2 d)
    else if p =? 0x21 then Pics (pic_data v (chip1 d)) (chip2 d)
    else if p =? 0xA0 then Pics (chip1 d) (pic_cmd v (chip2 d))
    else if p =? 0xA1 then Pics (chip1 d) (pic_data v (chip2 d)) else d;
  inw p d := (0, d); outw p v d := d; inl p d := (0, d); outl p v d := d
}.

Definition mask8 (s : Z * nat) : Z * nat := (u8 s.1, s.2).

Lemma mask8_cmd v s : mask8 (pic_cmd v s) = pic_cmd v (mask8 s).
Proof. unfold pic_cmd. by case_match. Qed.

Lemma mask8_data v s : 0 ≤ v < 2 ^ 8 → mask8 (pic_data v s) = pic_data v (mask8 s).
Proof.
  intros Hv. unfold pic_data, mask8. simpl. destruct s as [m [|k]]; simpl; [|done].
  by rewrite wrap_small.
Qed.

#[export] Program Instance pics_8259 : Pic8259 pics := {
  pic1 d := mask8 (chip1 d); pic2 d := mask8 (chip2 d)
}.
Next Obligation. intros d. split; by apply wrap_bound. Qed.
Next Obligation. done. Qed.
Next Obligation. done. Qed.
Next Obligation. done. Qed.
Next Obligation. intros v d _. split; [apply mask8_cmd|done]. Qed.
Next Obligation. intros v d _. split; [apply mask8_cmd|done]. Qed.
Next Obligation. intros v d Hv. split; [by apply mask8_data|done]. Qed.
Next Obligation. intros v d Hv. split; [by apply mask8_data|done]. Qed.
Next Obligation.
  intros p v d H1 H2 H3 H4. simpl.
  by rewrite !(proj2 (Z.eqb_neq _ _)) by done.
Qed.
