(* ===== verification/Interrupts.v ===== *)
(** Interrupts: src/arch/{x86,x86_64}/cpu/{isr,idt,gdt}.c and
    src/drivers/timer/pit.c. *)
From S2P Require Import Prelude Ports.

Definition PIC1_CMD : Z := 0x20.
Definition PIC1_DATA : Z := 0x21.
Definition PIC2_CMD : Z := 0xA0.
Definition PIC2_DATA : Z := 0xA1.
Definition PIC_EOI : Z := 0x20.

(** The processor's view of a frame; the saved registers are not inspected. *)
Record isr_frame_t := IsrFrame { int_no : Z; err_code : Z; eip : Z; cs : Z }.

Definition pic_remap `{Ports D} (d : D) : D :=
  let d := io_wait (outb PIC1_CMD 0x11 d) in
  let d := io_wait (outb PIC2_CMD 0x11 d) in
  let d := io_wait (outb PIC1_DATA 0x20 d) in
  let d := io_wait (outb PIC2_DATA 0x28 d) in
  let d := io_wait (outb PIC1_DATA 0x04 d) in
  let d := io_wait (outb PIC2_DATA 0x02 d) in
  let d := io_wait (outb PIC1_DATA 0x01 d) in
  let d := io_wait (outb PIC2_DATA 0x01 d) in
  let d := outb PIC1_DATA 0xFF d in
  outb PIC2_DATA 0xFF d.

Definition pic_send_eoi `{Ports D} (irq : Z) (d : D) : D :=
  let d := if 8 <=? irq then outb PIC2_CMD PIC_EOI d else d in
  outb PIC1_CMD PIC_EOI d.

Definition pic_mask_irq `{Ports D} (irq : Z) (d : D) : D :=
  let port := if irq <? 8 then PIC1_DATA else PIC2_DATA in
  let bit := if irq <? 8 then irq else u8 (irq - 8) in
  let '(v, d) := inb port d in
  outb port (Z.lor v (u8 (Z.shiftl 1 bit))) d.

Definition pic_unmask_irq `{Ports D} (irq : Z) (d : D) : D :=
  let port := if irq <? 8 then PIC1_DATA else PIC2_DATA in
  let bit := if irq <? 8 then irq else u8 (irq - 8) in
  let '(v, d) := inb port d in
  outb port (Z.land v (u8 (Z.lnot (Z.shiftl 1 bit)))) d.

(** ** Handlers *)

Section handlers.
Context {S : Type}.

(** A handler is a transition of the kernel's state [S]; the table maps a
    vector to it, [NULL] being absent. *)
Abbreviation isr_handler_t := (isr_frame_t → S → outcome S).
Abbreviation handlers_t := (gmap Z isr_handler_t).

Definition isr_register (num : Z) (handler : isr_handler_t) (handlers : handlers_t) : handlers_t :=
  <[u8 num := handler]> handlers.
End handlers.

(** The copies of these functions in the 64-bit target's isr.c. *)
Module Isr64.
Definition pic_remap `{Ports D} (d : D) : D :=
  let d := io_wait (outb 0x20 0x11 d) in
  let d := io_wait (outb 0xA0 0x11 d) in
  let d := io_wait (outb 0x21 0x20 d) in
  let d := io_wait (outb 0xA1 0x28 d) in
  let d := io_wait (outb 0x21 0x04 d) in
  let d := io_wait (outb 0xA1 0x02 d) in
  let d := io_wait (outb 0x21 0x01 d) in
  let d := io_wait (outb 0xA1 0x01 d) in
  let d := outb 0x21 0xFF d in
  outb 0xA1 0xFF d.

Definition pic_send_eoi `{Ports D} (irq : Z) (d : D) : D :=
  let d := if 8 <=? irq then outb 0xA0 0x20 d else d in
  outb 0x20 0x20 d.

Definition pic_mask_irq `{Ports D} (irq : Z) (d : D) : D :=
  let port := if irq <? 8 then 0x21 else 0xA1 in
  let bit := if irq <? 8 then irq else u8 (irq - 8) in
  let '(v, d) := inb port d in
  outb port (Z.lor v (u8 (Z.shiftl 1 bit))) d.

Definition pic_unmask_irq `{Ports D} (irq : Z) (d : D) : D :=
  let port := if irq <? 8 then 0x21 else 0xA1 in
  let bit := if irq <? 8 then irq else u8 (irq - 8) in
  let '(v, d) := inb port d in
  outb port (Z.land v (u8 (Z.lnot (Z.shiftl 1 bit)))) d.

Definition isr_register {S} (num : Z) (handler : isr_frame_t → S → outcome S) (handlers : gmap Z (isr_frame_t → S → outcome S)) :
    gmap Z (isr_frame_t → S → outcome S) := <[u8 num := handler]> handlers.
End Isr64.

(** What is proved of the 32-bit functions holds for them. *)
Lemma isr64_same `{Ports D} {S} :
  Isr64.pic_remap (D := D) = pic_remap ∧ Isr64.pic_send_eoi (D := D) = pic_send_eoi ∧
  Isr64.pic_mask_irq (D := D) = pic_mask_irq ∧ Isr64.pic_unmask_irq (D := D) = pic_unmask_irq ∧
  Isr64.isr_register (S := S) = isr_register.
Proof. by split_and!. Qed.

Definition exception_names : list string := [
  "Divide Error"; "Debug"; "NMI"; "Breakpoint"; "Overflow"; "BOUND Range Exceeded";
  "Invalid Opcode"; "Device Not Available"; "Double Fault"; "Coprocessor Segment Overrun";
  "Invalid TSS"; "Segment Not Present"; "Stack-Segment Fault"; "General Protection Fault";
  "Page Fault"; "Reserved"; "x87 FP Exception"; "Alignment Check"; "Machine Check";
  "SIMD FP Exception"; "Virtualization"; "Control Protection"; "Reserved"; "Reserved";
  "Reserved"; "Reserved"; "Reserved"; "Reserved"; "Reserved"; "Reserved";
  "Security Exception"; "Reserved"]%string.

Definition isr_dispatch {S} `{Ports S} (handlers : gmap Z (isr_frame_t → S → outcome S))
    (frame : isr_frame_t) (s : S) : outcome S :=
  let num := int_no frame in
  s ← match handlers !! num with
      | Some h => h frame s
      | None =>
          if num <? 32 then
            Panic ("Exception #%u: " +:+ default "Unknown" (exception_names !! Z.to_nat num)
                   +:+ "  err=%x  eip=%x  cs=%x")%string
          else Ok s
      end;
  Ok (if (32 <=? num) && (num <? 48) then pic_send_eoi (num - 32) s else s).

(** The 64-bit target's own copy: other names, and the instruction pointer
    under its name there. *)
Definition exc_names : list string := [
  "Divide Error"; "Debug"; "NMI"; "Breakpoint"; "Overflow"; "BOUND"; "Invalid Opcode"; "Device Not Available";
  "Double Fault"; "Coprocessor Segment Overrun"; "Invalid TSS"; "Segment Not Present"; "Stack Fault";
  "General Protection"; "Page Fault"; "Reserved"; "x87 FP"; "Alignment Check"; "Machine Check"; "SIMD FP";
  "Virtualization"; "Control Protection"; "Rsv"; "Rsv"; "Rsv"; "Rsv"; "Rsv"; "Rsv"; "Rsv"; "Rsv";
  "Security"; "Reserved"]%string.

Definition isr_dispatch64 {S} `{Ports S} (handlers : gmap Z (isr_frame_t → S → outcome S))
    (frame : isr_frame_t) (s : S) : outcome S :=
  let num := int_no frame in
  s ← match handlers !! num with
      | Some h => h frame s
      | None =>
          if num <? 32 then
            Panic ("Exception #%u: " +:+ default "" (exc_names !! Z.to_nat num)
                   +:+ "  err=%x  rip=%x")%string
          else Ok s
      end;
  Ok (if (32 <=? num) && (num <? 48) then Isr64.pic_send_eoi (u8 (num - 32)) s else s).

(** ** Descriptor tables *)

Record idt_entry32_t := Gate32 {
  g32_offset_low : Z; g32_selector : Z; g32_zero : Z; g32_flags : Z; g32_offset_high : Z
}.
Record idt_entry64_t := Gate64 {
  g64_offset_low : Z; g64_selector : Z; g64_ist : Z; g64_flags : Z; g64_offset_mid : Z;
  g64_offset_high : Z; g64_zero : Z
}.

Definition idt_set_gate32 (num base sel flags : Z) (idt : gmap Z idt_entry32_t) : gmap Z idt_entry32_t :=
  <[num := Gate32 (Z.land base 0xFFFF) sel 0 flags (Z.land (Z.shiftr base 16) 0xFFFF)]> idt.

Definition idt_set_gate64 (num base sel flags : Z) (idt : gmap Z idt_entry64_t) : gmap Z idt_entry64_t :=
  <[num := Gate64 (u16 (Z.land base 0xFFFF)) sel 0 flags (u16 (Z.land (Z.shiftr base 16) 0xFFFF))
             (u32 (Z.land (Z.shiftr base 32) 0xFFFFFFFF)) 0]> idt.

(** [idt_init]: [stubs i] is the address of [isr_i]. *)
Definition idt_init32 (stubs : Z → Z) (idt : gmap Z idt_entry32_t) : gmap Z idt_entry32_t :=
  for_up (λ i, idt_set_gate32 (u8 i) (u32 (stubs i)) 0x08 0x8E) (span 0 48) 0 idt.
Definition idt_init64 (stubs : Z → Z) (idt : gmap Z idt_entry64_t) : gmap Z idt_entry64_t :=
  for_up (λ i, idt_set_gate64 (u8 i) (u64 (stubs i)) 0x08 0x8E) (span 0 48) 0 idt.

(** [isr_init], on either target. *)
Definition isr_init32 {S} `{Ports D} (stubs : Z → Z)
    (s : gmap Z (isr_frame_t → S → outcome S) * D * gmap Z idt_entry32_t) :=
  let '(handlers, d, idt) := s in
  (∅ : gmap Z (isr_frame_t → S → outcome S), pic_remap d, idt_init32 stubs idt).
Definition isr_init64 {S} `{Ports D} (stubs : Z → Z)
    (s : gmap Z (isr_frame_t → S → outcome S) * D * gmap Z idt_entry64_t) :=
  let '(handlers, d, idt) := s in
  (∅ : gmap Z (isr_frame_t → S → outcome S), Isr64.pic_remap d, idt_init64 stubs idt).

Record gdt_entry_t := GdtEntry {
  limit_low : Z; base_low : Z; base_mid : Z; access : Z; granularity : Z; base_high : Z
}.

Definition gdt_set (i base limit access gran : Z) (gdt : gmap Z gdt_entry_t) : gmap Z gdt_entry_t :=
  <[i := GdtEntry (Z.land limit 0xFFFF) (Z.land base 0xFFFF) (Z.land (Z.shiftr base 16) 0xFF)
           access (Z.lor (Z.land (Z.shiftr limit 16) 0x0F) (Z.land gran 0xF0))
           (Z.land (Z.shiftr base 24) 0xFF)]> gdt.

Definition gdt_init32 (gdt : gmap Z gdt_entry_t) : gmap Z gdt_entry_t :=
  let gdt := gdt_set 0 0 0 0x00 0x00 gdt in
  let gdt := gdt_set 1 0 0xFFFFFFFF 0x9A 0xCF gdt in
  gdt_set 2 0 0xFFFFFFFF 0x92 0xCF gdt.
Definition gdt_init64 (gdt : gmap Z gdt_entry_t) : gmap Z gdt_entry_t :=
  let gdt := gdt_set 0 0 0 0x00 0x00 gdt in
  let gdt := gdt_set 1 0 0xFFFFFFFF 0x9A 0xAF gdt in
  gdt_set 2 0 0xFFFFFFFF 0x92 0xCF gdt.

(** ** The interval timer *)

Definition PIT_BASE_HZ : Z := 1193182.
Definition PIT_CMD : Z := 0x43.
Definition PIT_CH0 : Z := 0x40.

Record pit := Pit { tick_count : Z; ticks_per_ms : Z }.

Definition pit_handler (p : pit) : pit := Pit (u64 (tick_count p + 1)) (ticks_per_ms p).

(** The registers written by [pit_init] and the new rate; registering the
    handler on vector 32 is [isr_register] in the caller's table. *)
Definition pit_init `{Ports D} (hz : Z) (p : pit) (d : D) : pit * D :=
  let divisor := u32 (PIT_BASE_HZ / hz) in
  let t := hz / 1000 in
  let t := if t =? 0 then 1 else t in
  let d := pic_unmask_irq 0 d in
  (Pit (tick_count p) t,
   outbs [(PIT_CMD, 0x36); (PIT_CH0, u8 (Z.land divisor 0xFF)); (PIT_CH0, u8 (Z.shiftr divisor 8))] d).

Definition pit_ticks (p : pit) : Z := tick_count p.

(** [while (tick_count < target) hlt;] where each element of [irqs] is an
    interrupt that ends a [hlt]: [true] for the timer's.  [OutOfFuel] when the
    interrupts run out. *)
Fixpoint pit_sleep_loop (irqs : list bool) (target : Z) (p : pit) : outcome pit :=
  if tick_count p <? target then
    match irqs with
    | [] => OutOfFuel
    | timer :: irqs => pit_sleep_loop irqs target (if timer then pit_handler p else p)
    end
  else Ok p.
Definition pit_sleep_ms (irqs : list bool) (ms : Z) (p : pit) : outcome pit :=
  pit_sleep_loop irqs (u64 (tick_count p + u64 (ms * ticks_per_ms p))) p.

(** The two targets differ only in the text of a panic. *)
Lemma isr_dispatch_targets {S} `{Ports S} handlers frame (s : S) : 0 ≤ int_no frame < 256 →
  match isr_dispatch handlers frame s with
  | Panic _ => ∃ msg, isr_dispatch64 handlers frame s = Panic msg
  | r => isr_dispatch64 handlers frame s = r
  end.
Proof.
  intros Hn. unfold isr_dispatch, isr_dispatch64. set (num := int_no frame) in *.
  assert ((if (32 <=? num) && (num <? 48) then u8 (num - 32) else 0) = (if (32 <=? num) && (num <? 48) then num - 32 else 0)) as E.
  { destruct ((32 <=? num) && (num <? 48)) eqn:B; [|done]. apply andb_true_iff in B as [B1%Z.leb_le B2%Z.ltb_lt].
    apply wrap_small. lia. }
  destruct (handlers !! num) as [h|].
  - destruct (h frame s) as [s'|msg|]; cbn [mbind outcome_bind]; [|by exists msg|done].
    destruct ((32 <=? num) && (num <? 48)); [by rewrite E|done].
  - destruct (num <? 32); cbn [mbind outcome_bind]; [by eexists|].
    destruct ((32 <=? num) && (num <? 48)); [by rewrite E|done].
Qed.

(** ** The interrupt lines *)

(** Evaluate the controllers' state after the writes the code makes. *)
Ltac pic_simpl :=
  unfold io_wait, PIC1_CMD, PIC1_DATA, PIC2_CMD, PIC2_DATA;
  repeat match goal with
  | |- context [pic1 (outb 0x20 ?v ?d)] => rewrite (proj1 (pic_cmd1 v d (or_introl eq_refl)))
  | |- context [pic2 (outb 0x20 ?v ?d)] => rewrite (proj2 (pic_cmd1 v d (or_introl eq_refl)))
  | |- context [pic1 (outb 0xA0 ?v ?d)] => rewrite (proj2 (pic_cmd2 v d (or_introl eq_refl)))
  | |- context [pic2 (outb 0xA0 ?v ?d)] => rewrite (proj1 (pic_cmd2 v d (or_introl eq_refl)))
  | |- context [pic1 (outb 0x21 ?v ?d)] => rewrite (proj1 (pic_data1 v d ltac:(lia)))
  | |- context [pic2 (outb 0x21 ?v ?d)] => rewrite (proj2 (pic_data1 v d ltac:(lia)))
  | |- context [pic1 (outb 0xA1 ?v ?d)] => rewrite (proj2 (pic_data2 v d ltac:(lia)))
  | |- context [pic2 (outb 0xA1 ?v ?d)] => rewrite (proj1 (pic_data2 v d ltac:(lia)))
  | |- context [pic1 (outb 0x80 ?v ?d)] => rewrite (proj1 (pic_outb 0x80 v d ltac:(lia) ltac:(lia) ltac:(lia) ltac:(lia)))
  | |- context [pic2 (outb 0x80 ?v ?d)] => rewrite (proj2 (pic_outb 0x80 v d ltac:(lia) ltac:(lia) ltac:(lia) ltac:(lia)))
  end.

Section pic.
Context `{Pic8259 D}.
Implicit Types d : D.

Lemma pic_remap_spec d : pic1 (pic_remap d) = (0xFF, 0%nat) ∧ pic2 (pic_remap d) = (0xFF, 0%nat).
Proof.
  unfold pic_remap. pic_simpl. unfold pic_cmd, pic_data. cbn [fst snd].
  rewrite Z.eqb_refl. done.
Qed.

(** Line [i] is open when its chip does not mask it and, for the second chip,
    the first one lets the cascade line 2 through. *)
Definition line_open (d : D) (i : Z) : bool :=
  if i <? 8 then negb (Z.testbit (pic1 d).1 i)
  else negb (Z.testbit (pic2 d).1 (i - 8)) && negb (Z.testbit (pic1 d).1 2).

(** The mask bit of line [i]. *)
Definition masked (d : D) (i : Z) : bool :=
  if i <? 8 then Z.testbit (pic1 d).1 i else Z.testbit (pic2 d).1 (i - 8).

Definition operational (d : D) : Prop := (pic1 d).2 = 0%nat ∧ (pic2 d).2 = 0%nat.

Lemma clear_bit_byte v b : 0 ≤ v < 2 ^ 8 → 0 ≤ b < 8 →
  let w := Z.land v (u8 (Z.lnot (Z.shiftl 1 b))) in
  0 ≤ w < 2 ^ 8 ∧ ∀ n, 0 ≤ n < 8 → Z.testbit w n = negb (n =? b) && Z.testbit v n.
Proof.
  intros Hv Hb w. pose proof (wrap_bound 8 (Z.lnot (Z.shiftl 1 b)) ltac:(lia)) as Hm.
  assert (∀ n, 0 ≤ n < 8 → Z.testbit w n = negb (n =? b) && Z.testbit v n) as Hbit.
  { intros n Hn. unfold w. rewrite Z.land_spec, wrap_testbit, bool_decide_true, Z.lnot_spec by lia.
    rewrite Z.shiftl_spec by lia. destruct (Z.eqb_spec n b) as [->|Hne].
    - rewrite Z.sub_diag. simpl. by rewrite andb_false_r.
    - replace (Z.testbit 1 (n - b)) with false; [by rewrite andb_true_r|].
      symmetry. destruct (decide (n - b < 0)); [by apply Z.testbit_neg_r|].
      apply (Z.bits_above_log2 1); simpl; lia. }
  split; [|done]. split.
  - apply Z.land_nonneg. lia.
  - destruct (decide (w = 0)) as [->|]; [lia|]. apply Z.log2_lt_pow2.
    { assert (0 ≤ w) by (apply Z.land_nonneg; lia). lia. }
    eapply Z.le_lt_trans; [apply Z.log2_land; lia|].
    eapply Z.le_lt_trans; [apply Z.le_min_l|].
    destruct (decide (v = 0)) as [->|]; [done|]. apply Z.log2_lt_pow2; lia.
Qed.

(** Unmasking opens one line's mask bit and leaves the others. *)
Lemma pic_unmask_spec d irq :
  0 ≤ irq < 16 → operational d →
  let d' := pic_unmask_irq irq d in
  operational d' ∧ ∀ i, 0 ≤ i < 16 → masked d' i = negb (i =? irq) && masked d i.
Proof.
  intros Hirq [O1 O2] d'. unfold d', pic_unmask_irq.
  destruct (Z.ltb_spec irq 8) as [Hl|Hl].
  - pose proof (pic_inb1 d) as Hv. destruct (pic_inb 0x21 d) as [K1 K2].
    unfold PIC1_DATA. destruct (inb 0x21 d) as [v d1]. cbn [fst snd] in *. subst v.
    destruct (pic_bound d) as [Hb _]. destruct (clear_bit_byte (pic1 d).1 irq Hb ltac:(lia)) as [Hw Hbit].
    set (w := Z.land _ _) in *. destruct (pic_data1 w d1 Hw) as [E1 E2].
    unfold operational, masked. rewrite E1, E2, K1, K2. unfold pic_data. rewrite O1. cbn [fst snd].
    split; [done|]. intros i Hi. case_test; [apply Hbit; lia|].
    by rewrite (proj2 (Z.eqb_neq i irq)) by lia.
  - pose proof (pic_inb2 d) as Hv. destruct (pic_inb 0xA1 d) as [K1 K2].
    unfold PIC2_DATA. destruct (inb 0xA1 d) as [v d1]. cbn [fst snd] in *. subst v.
    rewrite (wrap_small 8 (irq - 8)) by lia.
    destruct (pic_bound d) as [_ Hb]. destruct (clear_bit_byte (pic2 d).1 (irq - 8) Hb ltac:(lia)) as [Hw Hbit].
    set (w := Z.land _ _) in *. destruct (pic_data2 w d1 Hw) as [E1 E2].
    unfold operational, masked. rewrite E1, E2, K1, K2. unfold pic_data. rewrite O2. cbn [fst snd].
    split; [done|]. intros i Hi. case_test; [by rewrite (proj2 (Z.eqb_neq i irq)) by lia|].
    rewrite Hbit by lia. f_equal. f_equal. apply eq_bool_prop_intro. rewrite !Is_true_true, !Z.eqb_eq. lia.
Qed.

Lemma unmask_all_spec irqs : ∀ d,
  Forall (λ i, 0 ≤ i < 16) irqs → operational d →
  operational (foldl (λ d i, pic_unmask_irq i d) d irqs) ∧
  ∀ i, 0 ≤ i < 16 →
    masked (foldl (λ d i, pic_unmask_irq i d) d irqs) i = negb (bool_decide (i ∈ irqs)) && masked d i.
Proof.
  induction irqs as [|j irqs IH]; intros d Hall Hop; cbn [foldl].
  { split; [done|]. intros i _. by rewrite bool_decide_false by apply not_elem_of_nil. }
  inversion_clear Hall as [|? ? Hj Hall']. destruct (pic_unmask_spec d j Hj Hop) as [Hop' Hm].
  destruct (IH _ Hall' Hop') as [A B]. split; [done|]. intros i Hi. rewrite B, Hm by done.
  destruct (Z.eqb_spec i j) as [->|Hne].
  - rewrite (bool_decide_true (j ∈ j :: irqs)) by left. simpl. by rewrite andb_false_r.
  - f_equal. f_equal. apply bool_decide_ext. set_solver.
Qed.
End pic.

(** C34: after [isr_init] an interrupt line reaches the processor exactly when the
    kernel unmasked it and, for lines 8 to 15, also unmasked the cascade line 2. *)
Theorem pic_lines_open `{Pic8259 D} (d : D) (irqs : list Z) (i : Z) :
  Forall (λ j, 0 ≤ j < 16) irqs → 0 ≤ i < 16 →
  line_open (foldl (λ d j, pic_unmask_irq j d) (pic_remap d) irqs) i = true ↔
  i ∈ irqs ∧ (8 ≤ i → 2 ∈ irqs).
Proof.
  intros Hall Hi. destruct (pic_remap_spec d) as [E1 E2].
  assert (operational (pic_remap d)) as Hop by (unfold operational; by rewrite E1, E2).
  destruct (unmask_all_spec irqs (pic_remap d) Hall Hop) as [_ Hm].
  assert (∀ j, 0 ≤ j < 16 → masked (pic_remap d) j = true) as Hff.
  { intros j Hj. unfold masked. rewrite E1, E2. cbn [fst]. change 0xFF with (Z.ones 8).
    case_test; by rewrite Z.ones_spec_low by lia. }
  set (d' := foldl _ _ _) in *.
  assert (∀ j, 0 ≤ j < 16 → negb (masked d' j) = bool_decide (j ∈ irqs)) as Hopen.
  { intros j Hj. rewrite Hm, Hff, andb_true_r by done. apply negb_involutive. }
  pose proof (Hopen 2 ltac:(lia)) as H2. pose proof (Hopen i Hi) as Hi'.
  change (masked d' 2) with (Z.testbit (pic1 d').1 2) in H2.
  unfold masked in Hi'. unfold line_open. case_test.
  - rewrite Hi', bool_decide_eq_true. split; [intros; split; [done|lia]|tauto].
  - rewrite Hi', H2, andb_true_iff, !bool_decide_eq_true. tauto.
Qed.

(** The kernel unmasks the timer (0), keyboard (1), mouse (12) and network
    (11) lines but never line 2: the mouse's interrupts are not delivered. *)
Lemma pic_lines_open_witness :
  let d := foldl (λ d j, pic_unmask_irq j d) (pic_remap (Pics (0, 0%nat) (0, 0%nat))) [0; 1; 12; 11] in
  line_open d 1 = true ∧ line_open d 12 = false.
Proof.
  intros d. assert (Forall (λ j, 0 ≤ j < 16) [0; 1; 12; 11]) as Hall by (repeat constructor; lia).
  split.
  - apply (pic_lines_open (Pics (0, 0%nat) (0, 0%nat)) [0; 1; 12; 11] 1 Hall); [lia|].
    split; [right; left|lia].
  - apply not_true_is_false. intros Ho.
    apply (pic_lines_open (Pics (0, 0%nat) (0, 0%nat)) [0; 1; 12; 11] 12 Hall) in Ho; [|lia].
    destruct Ho as [_ Ho]. specialize (Ho ltac:(lia)). set_solver.
Defined.

(** ** Gates and descriptors as the processor reads them *)

Definition gate32_offset (g : idt_entry32_t) : Z := g32_offset_low g + 2 ^ 16 * g32_offset_high g.
Definition gate64_offset (g : idt_entry64_t) : Z :=
  g64_offset_low g + 2 ^ 16 * g64_offset_mid g + 2 ^ 32 * g64_offset_high g.

Lemma land_low w x : 0 ≤ w → Z.land x (Z.ones w) = x mod 2 ^ w.
Proof. intros. by rewrite Z.land_ones. Qed.

Lemma field16 x : Z.land x 0xFFFF = x mod 2 ^ 16.
Proof. apply (land_low 16). lia. Qed.
Lemma field32 x : Z.land x 0xFFFFFFFF = x mod 2 ^ 32.
Proof. apply (land_low 32). lia. Qed.

(** Bits moved out by a shift and a modulo put a number back together. *)
Lemma split_field a b x :
  0 ≤ a → 0 ≤ b → x mod 2 ^ a + 2 ^ a * (Z.shiftr x a mod 2 ^ b) = x mod 2 ^ (a + b).
Proof.
  intros Ha Hb. rewrite Z.shiftr_div_pow2, Z.pow_add_r, Z.rem_mul_r by lia. lia.
Qed.

Lemma gate32_offset_set num base sel flags idt :
  ∃ g, idt_set_gate32 num base sel flags idt !! num = Some g ∧ gate32_offset g = u32 base ∧
    g32_selector g = sel ∧ g32_flags g = flags.
Proof.
  eexists. unfold idt_set_gate32. rewrite lookup_insert_eq. split; [reflexivity|].
  unfold gate32_offset. cbn [g32_offset_low g32_offset_high g32_selector g32_flags].
  rewrite !field16. split; [|done]. apply (split_field 16 16); lia.
Qed.

Lemma gate64_offset_set num base sel flags idt :
  ∃ g, idt_set_gate64 num base sel flags idt !! num = Some g ∧ gate64_offset g = u64 base ∧
    g64_selector g = sel ∧ g64_flags g = flags.
Proof.
  eexists. unfold idt_set_gate64. rewrite lookup_insert_eq. split; [reflexivity|].
  unfold gate64_offset.
  cbn [g64_offset_low g64_offset_mid g64_offset_high g64_selector g64_flags].
  rewrite !field16, field32. unfold wrap. rewrite !Zmod_mod. split; [|done].
  rewrite (split_field 16 16), (split_field 32 32) by lia. done.
Qed.

(** After [idt_init] every vector from 0 to 47 has a gate whose fields, put
    together the way the processor reads them, give exactly the address of its
    stub, in the code segment, as a present ring-0 interrupt gate; the other
    vectors are untouched.  On both targets. *)
Theorem idt_init_gates (stubs : Z → Z) (idt32 : gmap Z idt_entry32_t) (idt64 : gmap Z idt_entry64_t) (i : Z) :
  (0 ≤ i < 48 →
    (∃ g, idt_init32 stubs idt32 !! i = Some g ∧ gate32_offset g = u32 (stubs i) ∧
          g32_selector g = 8 ∧ g32_flags g = 0x8E) ∧
    (∃ g, idt_init64 stubs idt64 !! i = Some g ∧ gate64_offset g = u64 (stubs i) ∧
          g64_selector g = 8 ∧ g64_flags g = 0x8E)) ∧
  (48 ≤ i → idt_init32 stubs idt32 !! i = idt32 !! i ∧ idt_init64 stubs idt64 !! i = idt64 !! i).
Proof.
  set (P32 := λ n (t : gmap Z idt_entry32_t),
    (0 ≤ i < n → ∃ g, t !! i = Some g ∧ gate32_offset g = u32 (stubs i) ∧ g32_selector g = 8 ∧ g32_flags g = 0x8E) ∧
    (n ≤ i → t !! i = idt32 !! i)).
  set (P64 := λ n (t : gmap Z idt_entry64_t),
    (0 ≤ i < n → ∃ g, t !! i = Some g ∧ gate64_offset g = u64 (stubs i) ∧ g64_selector g = 8 ∧ g64_flags g = 0x8E) ∧
    (n ≤ i → t !! i = idt64 !! i)).
  assert (P32 48 (idt_init32 stubs idt32)) as [A32 B32].
  { apply (for_span_inv P32); [lia|split; [lia|done]|]. intros j t Hj [IH1 IH2].
    rewrite (wrap_small 8 j) by lia. destruct (decide (i = j)) as [->|Hne]; split; intros Hi; try lia.
    - destruct (gate32_offset_set j (u32 (stubs j)) 8 0x8E t) as (g & E1 & E2 & E3).
      exists g. rewrite E2, wrap_wrap. done.
    - unfold idt_set_gate32. rewrite lookup_insert_ne by done. apply IH1. lia.
    - unfold idt_set_gate32. rewrite lookup_insert_ne by done. apply IH2. lia. }
  assert (P64 48 (idt_init64 stubs idt64)) as [A64 B64].
  { apply (for_span_inv P64); [lia|split; [lia|done]|]. intros j t Hj [IH1 IH2].
    rewrite (wrap_small 8 j) by lia. destruct (decide (i = j)) as [->|Hne]; split; intros Hi; try lia.
    - destruct (gate64_offset_set j (u64 (stubs j)) 8 0x8E t) as (g & E1 & E2 & E3).
      exists g. rewrite E2, wrap_wrap. done.
    - unfold idt_set_gate64. rewrite lookup_insert_ne by done. apply IH1. lia.
    - unfold idt_set_gate64. rewrite lookup_insert_ne by done. apply IH2. lia. }
  split; [intros Hi; split; auto|intros Hi; split; auto].
Qed.

Lemma idt_init_gates_witness :
  ∃ g, idt_init64 (λ i, 0xFFFFFFFF80000000 + 16 * i) ∅ !! 33 = Some g ∧
    gate64_offset g = 0xFFFFFFFF80000210.
Proof.
  destruct (idt_init_gates (λ i, 0xFFFFFFFF80000000 + 16 * i) ∅ ∅ 33) as [H _].
  destruct (H ltac:(lia)) as [_ (g & E & O & _)]. exists g. split; [exact E|]. rewrite O. reflexivity.
Defined.

(** The base and limit the processor decodes from a descriptor. *)
Definition gdt_base (g : gdt_entry_t) : Z :=
  base_low g + 2 ^ 16 * base_mid g + 2 ^ 24 * base_high g.
Definition gdt_limit (g : gdt_entry_t) : Z :=
  let l := limit_low g + 2 ^ 16 * Z.land (granularity g) 0x0F in
  if Z.testbit (granularity g) 7 then l * 4096 + 4095 else l.

(** Both targets get flat code and data segments: base 0, limit 4 GiB. *)
Lemma gdt_init_flat i :
  i = 1 ∨ i = 2 →
  (∃ g, gdt_init32 ∅ !! i = Some g ∧ gdt_base g = 0 ∧ gdt_limit g = 2 ^ 32 - 1) ∧
  (∃ g, gdt_init64 ∅ !! i = Some g ∧ gdt_base g = 0 ∧ gdt_limit g = 2 ^ 32 - 1).
Proof. intros [-> | ->]; split; eexists; (split; [reflexivity|split; reflexivity]). Qed.

(** ** Timer *)

(** The three writes of [pit_init] program the divisor when it fits 16 bits. *)
Lemma pit_divisor_bytes hz :
  19 ≤ hz → let n := u32 (PIT_BASE_HZ / hz) in
  u8 (Z.land n 0xFF) + 2 ^ 8 * u8 (Z.shiftr n 8) = PIT_BASE_HZ / hz.
Proof.
  intros Hhz n. assert (0 ≤ PIT_BASE_HZ / hz < 2 ^ 16) as Hd.
  { split; [apply Z.div_pos; unfold PIT_BASE_HZ; lia|]. apply Z.div_lt_upper_bound; unfold PIT_BASE_HZ; lia. }
  unfold n. rewrite (wrap_small 32) by lia. set (q := PIT_BASE_HZ / hz) in *.
  change 0xFF with (Z.ones 8). rewrite land_low by lia. unfold wrap. rewrite Zmod_mod.
  rewrite (split_field 8 8) by lia. apply Z.mod_small. lia.
Qed.

Lemma pit_sleep_loop_spec irqs : ∀ target p,
  0 ≤ tick_count p ≤ target → target < 2 ^ 64 →
  Z.of_nat (length (filter (λ b, b = true) irqs)) = target - tick_count p →
  ∃ p', pit_sleep_loop irqs target p = Ok p' ∧ tick_count p' = target ∧ ticks_per_ms p' = ticks_per_ms p.
Proof.
  induction irqs as [|b irqs IH]; intros target p Hp Ht Hn; simpl.
  - simpl in Hn. rewrite (proj2 (Z.ltb_ge _ _)) by lia. exists p. split; [done|]. split; [lia|done].
  - destruct (Z.ltb_spec (tick_count p) target).
    + destruct b.
      * rewrite filter_cons_True in Hn by done. cbn [length] in Hn.
        assert (tick_count (pit_handler p) = tick_count p + 1) as E by (apply wrap_small; lia).
        destruct (IH target (pit_handler p)) as (p' & A & B & C); [rewrite E; lia|lia|rewrite E; lia|].
        exists p'. done.
      * rewrite filter_cons_False in Hn by done. by apply IH.
    + exists p. split; [done|]. split; [lia|done].
Qed.

(** [pit_sleep_ms] returns once the timer has fired [ms * ticks_per_ms]
    times, whatever other interrupts end its [hlt]s.  [pit_init] rounds the ticks
    per millisecond up to 1, so at the kernel's 100 Hz, where a tick lasts 10 ms, a
    sleep of [ms] milliseconds takes [ms] ticks: ten times too long. *)
Theorem pit_sleep_ticks `{Ports D} (hz ms : Z) (irqs : list bool) (p0 : pit) (d : D) :
  0 < hz < 2 ^ 32 → 0 ≤ ms < 2 ^ 32 → 0 ≤ tick_count p0 < 2 ^ 63 - 2 ^ 62 →
  let p := (pit_init hz p0 d).1 in
  let per_ms := Z.max 1 (hz / 1000) in
  Z.of_nat (length (filter (λ b, b = true) irqs)) = ms * per_ms →
  ∃ p', pit_sleep_ms irqs ms p = Ok p' ∧ tick_count p' = tick_count p0 + ms * per_ms.
Proof.
  intros Hhz Hms Htc p per_ms Hn.
  assert (0 ≤ hz / 1000 ≤ 2 ^ 23) as Hq by (split; [apply Z.div_pos; lia|dlia]).
  assert (ticks_per_ms p = per_ms) as Ep.
  { unfold p, pit_init. simpl. unfold per_ms. case_test; lia. }
  assert (tick_count p = tick_count p0) as Et by done.
  assert (0 ≤ ms * per_ms < 2 ^ 56) by (unfold per_ms in *; nia).
  unfold pit_sleep_ms. rewrite Ep, Et, (wrap_small 64 (ms * per_ms)) by lia.
  rewrite (wrap_small 64) by lia.
  destruct (pit_sleep_loop_spec irqs (tick_count p0 + ms * per_ms) p) as (p' & E1 & E2 & _);
    [rewrite Et; lia|lia|rewrite Et; lia|].
  exists p'. split; [exact E1|exact E2].
Qed.

Lemma pit_sleep_ticks_witness :
  ∃ p', pit_sleep_ms [true; false; true; true] 3 (pit_init 100 (Pit 7 0) (Trace [] [])).1 = Ok p' ∧
    tick_count p' = 10.
Proof.
  destruct (pit_sleep_ticks 100 3 [true; false; true; true] (Pit 7 0) (Trace [] [])) as (p' & E & T);
    [lia|lia|simpl; lia|reflexivity|].
  exists p'. split; [exact E|rewrite T; reflexivity].
Defined.
