(* ===== verification/Input.v ===== *)
(** Keyboard and mouse: src/drivers/input/ps2_keyboard.c, ps2_mouse.c. *)
From S2P Require Import Prelude Ports Interrupts.

Definition PS2_DATA : Z := 0x60.
Definition PS2_STATUS : Z := 0x64.
Definition PS2_CMD : Z := 0x64.

(** [while (inb(PS2_STATUS) & mask);] and [while (!(inb(PS2_STATUS) & mask));]:
    as many polls as the controller needs, [fuel] at most. *)
Fixpoint ps2_wait_clear `{Ports D} (fuel : nat) (mask : Z) (d : D) : outcome D :=
  match fuel with
  | O => OutOfFuel
  | S k => let '(v, d) := inb PS2_STATUS d in
           if Z.land v mask =? 0 then Ok d else ps2_wait_clear k mask d
  end.
Fixpoint ps2_wait_set `{Ports D} (fuel : nat) (mask : Z) (d : D) : outcome D :=
  match fuel with
  | O => OutOfFuel
  | S k => let '(v, d) := inb PS2_STATUS d in
           if Z.land v mask =? 0 then ps2_wait_set k mask d else Ok d
  end.

Definition ps2_send_cmd `{Ports D} (fuel : nat) (cmd : Z) (d : D) : outcome D :=
  d ← ps2_wait_clear fuel 0x02 d; Ok (outb PS2_CMD cmd d).
Definition ps2_send_data `{Ports D} (fuel : nat) (data : Z) (d : D) : outcome D :=
  d ← ps2_wait_clear fuel 0x02 d; Ok (outb PS2_DATA data d).
(** Wait for a byte and read it. *)
Definition ps2_read `{Ports D} (fuel : nat) (d : D) : outcome (Z * D) :=
  d ← ps2_wait_set fuel 0x01 d; Ok (inb PS2_DATA d).

(** ** Keyboard *)

Definition KEY_BUF_SIZE : Z := 128.
Definition KEY_MOD_SHIFT : Z := 0x01.
Definition KEY_MOD_CTRL : Z := 0x02.
Definition KEY_MOD_ALT : Z := 0x04.
Definition KEY_MOD_CAPS : Z := 0x08.

Definition sc_ascii : list Z := [
  0; 27; 49; 50; 51; 52; 53; 54;  55; 56; 57; 48; 45; 61; 8; 9;
  113; 119; 101; 114; 116; 121; 117; 105;  111; 112; 91; 93; 10; 0; 97; 115;
  100; 102; 103; 104; 106; 107; 108; 59;  39; 96; 0; 92; 122; 120; 99; 118;
  98; 110; 109; 44; 46; 47; 0; 42;  0; 32; 0; 0; 0; 0; 0; 0;
  0; 0; 0; 0; 0; 0; 0; 0;  0; 55; 56; 57; 45; 52; 53; 54;
  43; 49; 50; 51; 48; 46; 0; 0;  0; 0; 0; 0; 0; 0; 0; 0;
  0; 0; 0; 0; 0; 0; 0; 0;  0; 0; 0; 0; 0; 0; 0; 0;
  0; 0; 0; 0; 0; 0; 0; 0;  0; 0; 0; 0; 0; 0; 0; 0].

Definition sc_shift : list Z := [
  0; 27; 33; 64; 35; 36; 37; 94;  38; 42; 40; 41; 95; 43; 8; 9;
  81; 87; 69; 82; 84; 89; 85; 73;  79; 80; 123; 125; 10; 0; 65; 83;
  68; 70; 71; 72; 74; 75; 76; 58;  34; 126; 0; 124; 90; 88; 67; 86;
  66; 78; 77; 60; 62; 63; 0; 42;  0; 32; 0; 0; 0; 0; 0; 0;
  0; 0; 0; 0; 0; 0; 0; 0;  0; 55; 56; 57; 45; 52; 53; 54;
  43; 49; 50; 51; 48; 46; 0; 0;  0; 0; 0; 0; 0; 0; 0; 0;
  0; 0; 0; 0; 0; 0; 0; 0;  0; 0; 0; 0; 0; 0; 0; 0;
  0; 0; 0; 0; 0; 0; 0; 0;  0; 0; 0; 0; 0; 0; 0; 0].

Record key_event_t := KeyEvent { scancode : Z; ascii : Z; kmodifiers : Z; pressed : bool }.

Record keyboard := Keyboard {
  kbuf : list key_event_t; khead : Z; ktail : Z; modifiers : Z; extended : bool
}.

Definition key_0 : key_event_t := KeyEvent 0 0 0 false.
Definition keyboard_0 : keyboard :=
  Keyboard (replicate (Z.to_nat KEY_BUF_SIZE) key_0) 0 0 0 false.

Definition kbuf_push (e : key_event_t) (k : keyboard) : bool * keyboard :=
  let next := u32 (khead k + 1) mod KEY_BUF_SIZE in
  if next =? ktail k then (false, k) else
  (true, Keyboard (<[Z.to_nat (khead k) := e]> (kbuf k)) next (ktail k) (modifiers k) (extended k)).

Definition keyboard_poll (k : keyboard) : option key_event_t * keyboard :=
  if khead k =? ktail k then (None, k) else
  (Some (default key_0 (kbuf k !! Z.to_nat (ktail k))),
   Keyboard (kbuf k) (khead k) (u32 (ktail k + 1) mod KEY_BUF_SIZE) (modifiers k) (extended k)).

Definition keyboard_modifiers (k : keyboard) : Z := modifiers k.

Definition set_extended (v : bool) (k : keyboard) : keyboard :=
  Keyboard (kbuf k) (khead k) (ktail k) (modifiers k) v.
Definition set_modifiers (v : Z) (k : keyboard) : keyboard :=
  Keyboard (kbuf k) (khead k) (ktail k) v (extended k).

(** The modifier byte after pressing or releasing the key with flag [m]. *)
Definition hold (m : Z) (pressed : bool) (k : keyboard) : keyboard :=
  set_modifiers (if pressed then Z.lor (modifiers k) m
                 else Z.land (modifiers k) (u8 (Z.lnot m))) k.

(** The character of a key press. *)
Definition key_char (code mods : Z) : Z :=
  if code <? 128 then
    let shift := negb (Z.land mods KEY_MOD_SHIFT =? 0) in
    let caps := negb (Z.land mods KEY_MOD_CAPS =? 0) in
    let c := if shift then rd sc_shift code else rd sc_ascii code in
    let c := if caps && (97 <=? c) && (c <=? 122) then c - 32 else c in
    if caps && (65 <=? c) && (c <=? 90) then c + 32 else c
  else 0.

(** [kb_handler] on the byte [sc] read from the data port. *)
Definition kb_byte (sc : Z) (k : keyboard) : keyboard :=
  if sc =? 0xE0 then set_extended true k else
  let pressed := Z.land sc 0x80 =? 0 in
  let code := Z.land sc 0x7F in
  let k := set_extended false k in
  if (code =? 0x2A) || (code =? 0x36) then hold KEY_MOD_SHIFT pressed k
  else if code =? 0x1D then hold KEY_MOD_CTRL pressed k
  else if code =? 0x38 then hold KEY_MOD_ALT pressed k
  else if code =? 0x3A then
    if pressed then set_modifiers (Z.lxor (modifiers k) KEY_MOD_CAPS) k else k
  else if negb pressed then k
  else (kbuf_push (KeyEvent code (key_char code (modifiers k)) (modifiers k) true) k).2.

Definition kb_handler `{Ports D} (s : keyboard * D) : keyboard * D :=
  let '(k, d) := s in
  let '(sc, d) := inb PS2_DATA d in (kb_byte sc k, d).

Fixpoint ps2_flush `{Ports D} (fuel : nat) (d : D) : outcome D :=
  match fuel with
  | O => OutOfFuel
  | S k => let '(v, d) := inb PS2_STATUS d in
           if Z.land v 0x01 =? 0 then Ok d else ps2_flush k (inb PS2_DATA d).2
  end.

(** Up to the registration of the handler on vector 33. *)
Definition keyboard_init `{Ports D} (fuel : nat) (d : D) : outcome D :=
  d ← ps2_send_cmd fuel 0xAD d;
  d ← ps2_send_cmd fuel 0xA7 d;
  d ← ps2_flush fuel d;
  d ← ps2_send_cmd fuel 0x20 d;
  '(cfg, d) ← ps2_read fuel d;
  let cfg := Z.land (Z.lor cfg 0x01) (u8 (Z.lnot 0x10)) in
  d ← ps2_send_cmd fuel 0x60 d;
  d ← ps2_send_data fuel cfg d;
  d ← ps2_send_cmd fuel 0xAA d;
  '(_, d) ← ps2_read fuel d;
  d ← ps2_send_cmd fuel 0xAB d;
  '(_, d) ← ps2_read fuel d;
  d ← ps2_send_cmd fuel 0xAE d;
  d ← ps2_send_data fuel 0xFF d;
  '(_, d) ← ps2_read fuel d;
  d ← ps2_send_data fuel 0xF0 d;
  d ← ps2_send_data fuel 0x01 d;
  '(_, d) ← ps2_read fuel d;
  d ← ps2_flush fuel d;
  Ok (pic_unmask_irq 1 d).

(** [keyboard_getc]: each element of [irqs] is what the interrupts that end one
    [hlt] do to the keyboard's state. *)
Fixpoint keyboard_getc (irqs : list (keyboard → keyboard)) (k : keyboard) : outcome (Z * keyboard) :=
  let '(e, k) := keyboard_poll k in
  let wait k := match irqs with [] => OutOfFuel | f :: irqs => keyboard_getc irqs (f k) end in
  match e with
  | Some e => if negb (ascii e =? 0) then Ok (ascii e, k) else wait k
  | None => wait k
  end.

(** ** Mouse *)

Record mouse_state_t := MouseState { mx : Z; my : Z; left : bool; right : bool; middle : bool }.
Record mouse := Mouse { mstate : mouse_state_t; pkt : list Z; pkt_idx : Z }.
Definition mouse_0 : mouse := Mouse (MouseState 0 0 false false false) [0; 0; 0] 0.

Definition mouse_write `{Ports D} (fuel : nat) (data : Z) (d : D) : outcome D :=
  d ← ps2_wait_clear fuel 0x02 d;
  let d := outb PS2_CMD 0xD4 d in
  d ← ps2_wait_clear fuel 0x02 d;
  Ok (outb PS2_DATA data d).
Definition mouse_read `{Ports D} (fuel : nat) (d : D) : outcome (Z * D) := ps2_read fuel d.

(** [mouse_handler] on the byte read from the data port. *)
Definition mouse_byte (byte : Z) (m : mouse) : mouse :=
  if (pkt_idx m =? 0) && (Z.land byte 0x08 =? 0) then m else
  let p := wr (pkt m) (pkt_idx m) byte in
  let idx := pkt_idx m + 1 in
  if idx <? 3 then Mouse (mstate m) p idx else
  let b0 := rd p 0 in
  let dx := rd p 1 - (if Z.land b0 0x10 =? 0 then 0 else 256) in
  let dy := rd p 2 - (if Z.land b0 0x20 =? 0 then 0 else 256) in
  Mouse (MouseState (i32 (mx (mstate m) + dx)) (i32 (my (mstate m) - dy))
           (negb (Z.land b0 0x01 =? 0)) (negb (Z.land b0 0x02 =? 0)) (negb (Z.land b0 0x04 =? 0))) p 0.

Definition mouse_handler `{Ports D} (s : mouse * D) : mouse * D :=
  let '(m, d) := s in
  let '(byte, d) := inb PS2_DATA d in (mouse_byte byte m, d).

(** Up to the registration of the handler on vector 44. *)
Definition mouse_init `{Ports D} (fuel : nat) (d : D) : outcome D :=
  d ← ps2_send_cmd fuel 0xA8 d;
  d ← ps2_send_cmd fuel 0x20 d;
  '(cfg, d) ← ps2_read fuel d;
  let cfg := Z.lor cfg 0x02 in
  d ← ps2_send_cmd fuel 0x60 d;
  d ← ps2_send_data fuel cfg d;
  d ← mouse_write fuel 0xFF d; '(_, d) ← mouse_read fuel d;
  d ← mouse_write fuel 0xF6 d; '(_, d) ← mouse_read fuel d;
  d ← mouse_write fuel 0xF4 d; '(_, d) ← mouse_read fuel d;
  Ok (pic_unmask_irq 12 d).

Definition mouse_get (m : mouse) : mouse_state_t := mstate m.

(** ** The keyboard buffer is a bounded queue *)

Definition kb_ok (k : keyboard) : Prop :=
  length (kbuf k) = Z.to_nat KEY_BUF_SIZE ∧ 0 ≤ khead k < KEY_BUF_SIZE ∧ 0 ≤ ktail k < KEY_BUF_SIZE.

(** How many events are waiting, and the [i]-th of them. *)
Definition kb_count (k : keyboard) : Z := (khead k - ktail k) mod KEY_BUF_SIZE.
Definition kb_nth (k : keyboard) (i : Z) : key_event_t :=
  default key_0 (kbuf k !! Z.to_nat ((ktail k + i) mod KEY_BUF_SIZE)).

(** The waiting events, oldest first. *)
Definition kb_queue (k : keyboard) : list key_event_t :=
  kb_nth k <$> seqZ 0 (kb_count k).

Lemma kb_count_spec k : kb_ok k →
  0 ≤ kb_count k < KEY_BUF_SIZE ∧ (ktail k + kb_count k) mod KEY_BUF_SIZE = khead k.
Proof.
  intros (_ & Hh & Ht). unfold kb_count. split; [apply Z.mod_pos_bound; done|].
  rewrite Zplus_mod_idemp_r. replace (ktail k + (khead k - ktail k)) with (khead k) by lia.
  by apply Z.mod_small.
Qed.

Lemma seqZ_1 m : seqZ m 1 = [m].
Proof. rewrite seqZ_cons by lia. done. Qed.

Lemma kbuf_push_spec k e : kb_ok k →
  let '(b, k') := kbuf_push e k in
  kb_ok k' ∧ modifiers k' = modifiers k ∧ extended k' = extended k ∧
  (b = true ↔ Z.of_nat (length (kb_queue k)) < 127) ∧
  kb_queue k' = if b then kb_queue k ++ [e] else kb_queue k.
Proof.
  intros Hok. pose proof (kb_count_spec k Hok) as [Hc Hct]. pose proof Hok as (Hl & Hh & Ht).
  assert (Z.of_nat (length (kb_queue k)) = kb_count k) as Hlen.
  { unfold kb_queue. rewrite length_fmap, length_seqZ. lia. }
  unfold kbuf_push. unfold KEY_BUF_SIZE in *. rewrite (wrap_small 32 (khead k + 1)) by lia.
  assert ((khead k + 1) mod 128 = ktail k ↔ kb_count k = 127) as Hfull.
  { unfold kb_count, KEY_BUF_SIZE. split; intros E; dlia. }
  destruct (Z.eqb_spec ((khead k + 1) mod 128) (ktail k)) as [E|E].
  { split; [done|]. split; [done|]. split; [done|]. split; [|done]. rewrite Hlen. split; [done|].
    apply Hfull in E. lia. }
  assert (kb_count k ≠ 127) by tauto.
  set (k' := Keyboard _ _ _ _ _).
  assert (kb_count k' = kb_count k + 1) as Hc'.
  { unfold kb_count, k', KEY_BUF_SIZE in *. simpl. dlia. }
  split.
  { split; [by unfold k'; simpl; rewrite length_insert|]. split; [|done]. simpl. unfold KEY_BUF_SIZE. dlia. }
  split; [done|]. split; [done|]. split; [split; [lia|done]|].
  unfold kb_queue. rewrite Hc', seqZ_app, fmap_app by lia. f_equal.
  - apply list_fmap_ext. intros i x Hx. apply lookup_seqZ in Hx as [-> Hi].
    unfold kb_nth, k'. simpl. unfold KEY_BUF_SIZE. rewrite list_lookup_insert_ne; [done|].
    intros E'. assert (khead k = (ktail k + (0 + Z.of_nat i)) mod 128) as E2 by dlia.
    unfold kb_count, KEY_BUF_SIZE in *. dlia.
  - rewrite seqZ_1. cbn [fmap list_fmap]. f_equal. unfold kb_nth, k'. cbn [kbuf ktail]. unfold KEY_BUF_SIZE. rewrite Z.add_0_l, Hct.
    by rewrite list_lookup_insert_eq by (rewrite Hl; lia).
Qed.

Lemma keyboard_poll_spec k : kb_ok k →
  let '(e, k') := keyboard_poll k in
  kb_ok k' ∧ modifiers k' = modifiers k ∧ extended k' = extended k ∧
  match kb_queue k with
  | [] => e = None ∧ k' = k
  | x :: l => e = Some x ∧ kb_queue k' = l
  end.
Proof.
  intros Hok. pose proof (kb_count_spec k Hok) as [Hc Hct]. pose proof Hok as (Hl & Hh & Ht).
  unfold keyboard_poll. destruct (Z.eqb_spec (khead k) (ktail k)) as [E|E].
  { unfold kb_queue. replace (kb_count k) with 0; [done|]. unfold kb_count. by rewrite E, Z.sub_diag. }
  unfold KEY_BUF_SIZE in *. rewrite (wrap_small 32 (ktail k + 1)) by lia. set (k' := Keyboard _ _ _ _ _).
  assert (kb_ok k') as Hok' by (split_and!; simpl; unfold KEY_BUF_SIZE; (done || dlia)).
  split; [done|]. split; [done|]. split; [done|].
  assert (0 < kb_count k) as Hpos by (unfold kb_count, KEY_BUF_SIZE in *; dlia).
  assert (kb_count k' = kb_count k - 1) as Hc'.
  { unfold kb_count, k', KEY_BUF_SIZE in *. simpl. dlia. }
  unfold kb_queue. rewrite Hc', (seqZ_cons 0 (kb_count k)) by done. cbn [fmap list_fmap].
  split.
  - unfold kb_nth, KEY_BUF_SIZE. rewrite Z.add_0_r, Z.mod_small by done. done.
  - replace (Z.pred (kb_count k)) with (kb_count k - 1) by lia.
    assert (seqZ (Z.succ 0) (kb_count k - 1) = Z.add 1 <$> seqZ 0 (kb_count k - 1)) as ->
      by (by rewrite fmap_add_seqZ).
    rewrite <- list_fmap_compose.
    apply list_fmap_ext. intros i x Hx. apply lookup_seqZ in Hx as [-> Hi].
    unfold kb_nth, k', compose. simpl. unfold KEY_BUF_SIZE. do 3 f_equal. dlia.
Qed.

(** The abstract keyboard: a queue of at most 127 events. *)
Definition queue_push (e : key_event_t) (l : list key_event_t) : list key_event_t :=
  if decide (length l < 127)%nat then l ++ [e] else l.

Inductive kb_op := Byte (sc : Z) | Poll.

(** One operation of the driver, with the event a poll returned. *)
Definition kb_run1 (o : kb_op) (k : keyboard) : option key_event_t * keyboard :=
  match o with Byte sc => (None, kb_byte sc k) | Poll => keyboard_poll k end.

(** The event, if any, that the byte [sc] produces, and the new modifiers. *)
Definition kb_decode (sc mods : Z) : option key_event_t * Z :=
  let k := kb_byte sc (Keyboard (replicate 128 key_0) 0 0 mods false) in
  (if khead k =? 1 then Some (kb_nth k 0) else None, modifiers k).

(** The same on the abstract keyboard. *)
Definition spec_run1 (o : kb_op) (s : list key_event_t * Z) : option key_event_t * (list key_event_t * Z) :=
  match o with
  | Byte sc => let '(e, mods) := kb_decode sc s.2 in
               (None, (match e with Some e => queue_push e s.1 | None => s.1 end, mods))
  | Poll => match s.1 with [] => (None, s) | e :: l => (Some e, (l, s.2)) end
  end.

Lemma kb_byte_cases sc k :
  (∃ m x, kb_byte sc k = set_modifiers m (set_extended x k) ∧ kb_decode sc (modifiers k) = (None, m)) ∨
  (∃ e, kb_byte sc k = (kbuf_push e (set_extended false k)).2 ∧
        kb_decode sc (modifiers k) = (Some e, modifiers k)).
Proof.
  unfold kb_decode, kb_byte. destruct (sc =? 0xE0).
  { left. exists (modifiers k), true. split; [by destruct k|done]. }
  destruct (_ || _). { left. eexists _, false. split; [reflexivity|done]. }
  destruct (_ =? 0x1D). { left. eexists _, false. split; [reflexivity|done]. }
  destruct (_ =? 0x38). { left. eexists _, false. split; [reflexivity|done]. }
  destruct (_ =? 0x3A).
  { left. destruct (_ =? 0); eexists _, false; (split; [reflexivity|done]). }
  destruct (_ =? 0); simpl.
  - right. eexists. split; [reflexivity|]. done.
  - left. exists (modifiers k), false. split; [by destruct k|done].
Qed.

(** A byte, and a poll no interrupt cuts, on the abstract queue. *)
Lemma kb_byte_queue sc k : kb_ok k → kb_ok (kb_byte sc k) ∧
  spec_run1 (Byte sc) (kb_queue k, modifiers k) = (None, (kb_queue (kb_byte sc k), modifiers (kb_byte sc k))).
Proof.
  intros Hok. cbn [spec_run1 snd fst]. destruct (kb_byte_cases sc k) as [(m & x & -> & ->)|(e & -> & ->)]; [done|].
  pose proof (kbuf_push_spec (set_extended false k) e Hok) as Hp.
  destruct (kbuf_push e (set_extended false k)) as [b k']. destruct Hp as (A & B & _ & C & D).
  change (kb_queue (set_extended false k)) with (kb_queue k) in *. cbn [snd]. split; [done|]. rewrite B. do 2 f_equal.
  rewrite D. unfold queue_push. destruct b; case_decide; try done; naive_solver lia.
Qed.

Lemma keyboard_poll_queue k : kb_ok k → kb_ok (keyboard_poll k).2 ∧
  spec_run1 Poll (kb_queue k, modifiers k) =
    ((keyboard_poll k).1, (kb_queue (keyboard_poll k).2, modifiers (keyboard_poll k).2)).
Proof.
  intros Hok. pose proof (keyboard_poll_spec k Hok) as Hp. destruct (keyboard_poll k) as [e k'].
  destruct Hp as (A & B & _ & C). cbn [fst snd spec_run1]. rewrite B. split; [done|].
  destruct (kb_queue k) as [|x l] eqn:Eq; [destruct C as [-> ->]; by rewrite Eq|by destruct C as [-> ->]].
Qed.

(** The driver's ring buffer is a first-in first-out queue of at most 127
    events, when each operation runs to its end. *)
Theorem keyboard_refines_queue (ops : list kb_op) (k : keyboard) :
  kb_ok k →
  let run := fold_left (λ '(out, k) o, let '(e, k) := kb_run1 o k in (out ++ [e], k)) in
  let spec := fold_left (λ '(out, s) o, let '(e, s) := spec_run1 o s in (out ++ [e], s)) in
  (run ops ([], k)).1 = (spec ops ([], (kb_queue k, modifiers k))).1 ∧
  kb_ok (run ops ([], k)).2 ∧
  kb_queue (run ops ([], k)).2 = (spec ops ([], (kb_queue k, modifiers k))).2.1.
Proof.
  intros Hok run spec. generalize (@nil (option key_event_t)) as out. revert k Hok.
  induction ops as [|o ops IH]; intros k Hok out; [done|]. cbn [run spec fold_left].
  destruct o as [sc|]; cbn [kb_run1].
  - destruct (kb_byte_queue sc k Hok) as [Hok' ->]. by apply IH.
  - destruct (keyboard_poll_queue k Hok) as [Hok' ->]. destruct (keyboard_poll k) as [e k']. by apply IH.
Qed.

(** *** The keyboard's interrupt between the statements of [keyboard_poll]

    Where the poll is: outside, past the test, or with the event copied to
    [*evt] and [ktail] still to be advanced. *)
Inductive poll_at := PollIdle | PollNotEmpty | PollCopied (e : key_event_t).

(** What is seen from outside: a byte the handler read, the return of a poll. *)
Inductive kb_event := Scan (sc : Z) | Polled (r : option key_event_t).

#[global] Instance key_event_eq_dec : EqDecision key_event_t.
Proof. solve_decision. Defined.

Inductive poll_step : poll_at * keyboard → option kb_event → poll_at * keyboard → Prop :=
  | step_interrupt pc sc k : poll_step (pc, k) (Some (Scan sc)) (pc, kb_byte sc k)
  | step_empty k : khead k = ktail k → poll_step (PollIdle, k) (Some (Polled None)) (PollIdle, k)
  | step_test k : khead k ≠ ktail k → poll_step (PollIdle, k) None (PollNotEmpty, k)
  | step_copy k : poll_step (PollNotEmpty, k) None (PollCopied (default key_0 (kbuf k !! Z.to_nat (ktail k))), k)
  | step_advance e k : poll_step (PollCopied e, k) (Some (Polled (Some e)))
      (PollIdle, Keyboard (kbuf k) (khead k) (u32 (ktail k + 1) mod KEY_BUF_SIZE) (modifiers k) (extended k)).

Inductive poll_run : poll_at * keyboard → list kb_event → poll_at * keyboard → Prop :=
  | run_nil c : poll_run c [] c
  | run_tau c c' tr c'' : poll_step c None c' → poll_run c' tr c'' → poll_run c tr c''
  | run_event c o c' tr c'' : poll_step c (Some o) c' → poll_run c' tr c'' → poll_run c (o :: tr) c''.

(** The queue takes the same events: [None] when a poll returned something else. *)
Fixpoint queue_accepts (tr : list kb_event) (s : list key_event_t * Z) : option (list key_event_t * Z) :=
  match tr with
  | [] => Some s
  | Scan sc :: tr => queue_accepts tr (spec_run1 (Byte sc) s).2
  | Polled r :: tr => let '(r', s) := spec_run1 Poll s in if decide (r = r') then queue_accepts tr s else None
  end.

(** What the poll knows of the queue while the handler runs. *)
Definition poll_inv (c : poll_at * keyboard) : Prop :=
  kb_ok c.2 ∧ match c.1 with
              | PollIdle => True
              | PollNotEmpty => kb_queue c.2 ≠ []
              | PollCopied e => head (kb_queue c.2) = Some e
              end.

Lemma kb_queue_empty k : kb_ok k → kb_queue k = [] ↔ khead k = ktail k.
Proof.
  intros Hok. pose proof (keyboard_poll_spec k Hok) as Hp. unfold keyboard_poll in Hp.
  destruct (Z.eqb_spec (khead k) (ktail k)) as [E|E]; destruct Hp as (_ & _ & _ & Hp); destruct (kb_queue k); naive_solver.
Qed.

Lemma spec_byte_head sc l m e : head l = Some e → head (spec_run1 (Byte sc) (l, m)).2.1 = Some e.
Proof.
  destruct l as [|x l]; [done|]. intros [= ->]. cbn [spec_run1 fst snd]. destruct (kb_decode sc m) as [[e'|] m']; [|done].
  cbn [fst snd]. unfold queue_push. by case_decide.
Qed.

(** Each step keeps what the poll knows, and is a step of the queue. *)
Lemma poll_step_queue c o c' : poll_step c o c' → poll_inv c →
  poll_inv c' ∧ queue_accepts (match o with Some e => [e] | None => [] end) (kb_queue c.2, modifiers c.2) = Some (kb_queue c'.2, modifiers c'.2).
Proof.
  intros Hs [Hok Hpc]. destruct Hs as [pc sc k|k E|k E|k|e k]; cbn [fst snd] in *.
  - destruct (kb_byte_queue sc k Hok) as [Hok' Eq]. cbn [queue_accepts]. rewrite Eq. split; [|done]. split; [done|].
    pose proof (λ e, spec_byte_head sc (kb_queue k) (modifiers k) e) as Hh. rewrite Eq in Hh. cbn [fst snd] in Hh |- *.
    destruct pc as [| |e]; [done| |by apply Hh]. destruct (kb_queue k) as [|e l]; [done|]. specialize (Hh e eq_refl).
    intros E. by rewrite E in Hh.
  - split; [by split|]. cbn. by rewrite (proj2 (kb_queue_empty k Hok) E).
  - split; [|done]. split; [done|]. cbn. by rewrite kb_queue_empty.
  - split; [|done]. split; [done|]. pose proof (keyboard_poll_spec k Hok) as Hp. unfold keyboard_poll in Hp. cbn [fst snd].
    rewrite kb_queue_empty in Hpc by done. rewrite (proj2 (Z.eqb_neq _ _)) in Hp by done. destruct Hp as (_ & _ & _ & Hp).
    destruct (kb_queue k) as [|x l]; [by destruct Hp|]. by destruct Hp as [[= ->] _].
  - pose proof (keyboard_poll_queue k Hok) as Hp. unfold keyboard_poll in Hp.
    assert (khead k ≠ ktail k) as Hne by (rewrite <- kb_queue_empty by done; by intros E; rewrite E in Hpc).
    rewrite (proj2 (Z.eqb_neq _ _)) in Hp by done. cbn [fst snd] in Hp. destruct Hp as [Hok' Hp].
    split; [by split|]. cbn [queue_accepts]. rewrite Hp. cbn [spec_run1 fst] in Hp.
    destruct (kb_queue k) as [|x l]; [done|]. cbn in Hpc. injection Hpc as ->. injection Hp as <- _. by rewrite decide_True.
Qed.

Lemma queue_accepts_app tr1 tr2 s : queue_accepts (tr1 ++ tr2) s = queue_accepts tr1 s ≫= queue_accepts tr2.
Proof.
  revert s. induction tr1 as [|[sc|r] tr1 IH]; intros s; [done|apply IH|]. cbn [app queue_accepts].
  destruct (spec_run1 Poll s) as [r' s']. by case_decide.
Qed.

(** C27: the driver's ring buffer is a first-in first-out queue of at most 127
    events, although the interrupt handler may run between any two statements of
    [keyboard_poll]: whatever bytes arrive, before, during or after a poll, the
    polls return the decoded key presses in order, without duplication, loss or
    damage: the event a poll has copied is still the oldest when it advances
    [ktail], and the handler never writes to its place.  An event is dropped only
    when 127 are waiting, the one being taken included. *)
Theorem keyboard_interrupted (k k' : keyboard) (pc : poll_at) (tr : list kb_event) :
  kb_ok k → poll_run (PollIdle, k) tr (pc, k') →
  kb_ok k' ∧ queue_accepts tr (kb_queue k, modifiers k) = Some (kb_queue k', modifiers k') ∧
  match pc with PollCopied e => head (kb_queue k') = Some e | _ => True end.
Proof.
  intros Hok Hr.
  assert (∀ c tr c', poll_run c tr c' → poll_inv c →
    poll_inv c' ∧ queue_accepts tr (kb_queue c.2, modifiers c.2) = Some (kb_queue c'.2, modifiers c'.2)) as Hrun.
  { clear. induction 1 as [c|c c' tr c'' Hs _ IH|c o c' tr c'' Hs _ IH]; intros Hi; [done| |].
    - destruct (poll_step_queue _ _ _ Hs Hi) as [Hi' E]. injection E as E1 E2. destruct (IH Hi') as [Hi'' E].
      split; [done|]. by rewrite E1, E2.
    - destruct (poll_step_queue _ _ _ Hs Hi) as [Hi' E]. destruct (IH Hi') as [Hi'' E''].
      split; [done|]. change (o :: tr) with ([o] ++ tr). by rewrite queue_accepts_app, E. }
  destruct (Hrun _ _ _ Hr) as [[Hok' Hpc] E]; [by split|]. split; [done|]. split; [done|]. by destruct pc.
Qed.

Lemma keyboard_0_ok : kb_ok keyboard_0.
Proof. split; [apply length_replicate|]. simpl. unfold KEY_BUF_SIZE. lia. Qed.

Lemma keyboard_refines_queue_witness :
  let run := fold_left (λ '(out, k) o, let '(e, k) := kb_run1 o k in (out ++ [e], k)) in
  (λ e : option key_event_t, ascii <$> e) <$> (run [Byte 0x2A; Byte 0x1E; Byte 0xAA; Byte 0x30; Poll; Poll; Poll] ([], keyboard_0)).1 =
    [None; None; None; None; Some 65; Some 98; None].
Proof.
  intros run. destruct (keyboard_refines_queue
    [Byte 0x2A; Byte 0x1E; Byte 0xAA; Byte 0x30; Poll; Poll; Poll] keyboard_0 keyboard_0_ok) as [E _].
  unfold run. rewrite E. vm_compute. reflexivity.
Defined.

(** [b] is pressed while the event of [a] is being taken. *)
Lemma keyboard_interrupted_witness :
  let k := kb_byte 0x30 (kb_byte 0x1E keyboard_0) in
  queue_accepts [Scan 0x1E; Scan 0x30; Polled (Some (KeyEvent 0x1E 97 0 true))] ([], 0) = Some ([KeyEvent 0x30 98 0 true], 0) ∧
  kb_queue (keyboard_poll k).2 = [KeyEvent 0x30 98 0 true].
Proof.
  intros k. set (k1 := kb_byte 0x1E keyboard_0). set (k2 := kb_byte 0x30 k1).
  assert (poll_run (PollIdle, keyboard_0) [Scan 0x1E; Scan 0x30; Polled (Some (KeyEvent 0x1E 97 0 true))]
    (PollIdle, (keyboard_poll k2).2)) as Hr.
  { eapply run_event; [apply step_interrupt|]. fold k1. eapply run_tau; [apply step_test; vm_compute; discriminate|].
    eapply run_tau; [apply step_copy|]. eapply run_event; [apply step_interrupt|]. fold k2.
    change (default key_0 (kbuf k1 !! Z.to_nat (ktail k1))) with (KeyEvent 0x1E 97 0 true).
    eapply run_event; [apply step_advance|]. apply run_nil. }
  destruct (keyboard_interrupted _ _ _ _ keyboard_0_ok Hr) as (_ & E & _).
  change (kb_queue keyboard_0, modifiers keyboard_0) with (@nil key_event_t, 0) in E.
  change (keyboard_poll k).2 with (keyboard_poll k2).2. rewrite E. split; [|vm_compute; reflexivity]. vm_compute. reflexivity.
Defined.

(** ** Caps Lock *)

(** Caps Lock never turns a letter into upper case.  For every key whose
    unshifted character is a letter, without Shift the character is that
    lower-case letter with or without Caps Lock (the code converts it up and then
    back down); with Shift, Caps Lock turns it into lower case.  Other keys are
    not affected. *)
Theorem caps_lock_effect (code mods : Z) :
  0 ≤ code < 128 → Z.land mods KEY_MOD_CAPS ≠ 0 →
  let plain := rd sc_ascii code in
  let letter := (97 <=? plain) && (plain <=? 122) in
  key_char code mods =
    (if letter then plain
     else if Z.land mods KEY_MOD_SHIFT =? 0 then plain else rd sc_shift code).
Proof.
  intros Hc Hm. cbv zeta. unfold key_char. rewrite (proj2 (Z.ltb_lt code 128)) by lia.
  rewrite (proj2 (Z.eqb_neq _ _) Hm). cbn [negb andb].
  assert (∀ sh, Forall (λ n : nat,
    let c := if sh : bool then rd sc_shift (Z.of_nat n) else rd sc_ascii (Z.of_nat n) in
    let p := rd sc_ascii (Z.of_nat n) in
    (let c := if (97 <=? c) && (c <=? 122) then c - 32 else c in
     if (65 <=? c) && (c <=? 90) then c + 32 else c) =
    (if (97 <=? p) && (p <=? 122) then p else if sh then rd sc_shift (Z.of_nat n) else p)) (seq 0 128)) as Hall.
  { intros sh. apply (bool_decide_unpack _). destruct sh; vm_compute; done. }
  assert (∃ n : nat, code = Z.of_nat n ∧ n ∈ seq 0 128) as (n & -> & Hn).
  { exists (Z.to_nat code). rewrite elem_of_seq. lia. }
  destruct (Z.land mods KEY_MOD_SHIFT =? 0); cbn [negb].
  - exact (proj1 (Forall_forall _ _) (Hall false) n (proj1 (list_elem_of_In _ _) Hn)).
  - exact (proj1 (Forall_forall _ _) (Hall true) n (proj1 (list_elem_of_In _ _) Hn)).
Qed.

Lemma caps_lock_effect_witness : key_char 0x1E KEY_MOD_CAPS = 97 ∧ key_char 0x1E 9 = 97.
Proof.
  split.
  - rewrite (caps_lock_effect 0x1E KEY_MOD_CAPS); [reflexivity|lia|discriminate].
  - rewrite (caps_lock_effect 0x1E 9); [reflexivity|lia|discriminate].
Defined.

(** ** Mouse packets *)

(** The movement the protocol encodes: a nine-bit two's complement number. *)
Definition movement (sign_bit flags low : Z) : Z :=
  swrap 9 (low + 2 ^ 8 * Z.b2z (Z.testbit flags sign_bit)).

Lemma movement_sub n b0 b1 : 0 ≤ b1 < 2 ^ 8 →
  movement n b0 b1 = b1 - (if negb (Z.testbit b0 n) then 0 else 256).
Proof.
  intros H1. unfold movement, swrap. change (2 ^ (9 - 1)) with 256. change (2 ^ 9) with 512.
  destruct (Z.testbit b0 n); simpl; dlia.
Qed.

Lemma mouse_byte_first b0 st p : Z.testbit b0 3 = true →
  mouse_byte b0 (Mouse st p 0) = Mouse st (wr p 0 b0) 1.
Proof.
  intros Hb. unfold mouse_byte. change 0x08 with (2 ^ 3). by rewrite land_bit, Hb by lia.
Qed.

(** From any position between packets the handler skips bytes without the
    always-one bit, then takes three bytes as one packet: the position moves by the
    two nine-bit signed movements (up is negative) and the buttons are the low
    three bits of the first byte. *)
Theorem mouse_packet (m : mouse) (junk : list Z) (b0 b1 b2 : Z) :
  length (pkt m) = 3%nat → pkt_idx m = 0 →
  Forall (λ b, Z.testbit b 3 = false) junk →
  0 ≤ b0 < 2 ^ 8 → 0 ≤ b1 < 2 ^ 8 → 0 ≤ b2 < 2 ^ 8 → Z.testbit b0 3 = true →
  let m' := fold_left (λ m b, mouse_byte b m) (junk ++ [b0; b1; b2]) m in
  mstate m' = MouseState (i32 (mx (mstate m) + movement 4 b0 b1)) (i32 (my (mstate m) - movement 5 b0 b2))
                (Z.testbit b0 0) (Z.testbit b0 1) (Z.testbit b0 2) ∧
  pkt_idx m' = 0 ∧ length (pkt m') = 3%nat.
Proof.
  intros Hl Hi Hj H0 H1 H2 Hb m'. unfold m'. rewrite fold_left_app.
  assert (fold_left (λ m b, mouse_byte b m) junk m = m) as ->.
  { clear -Hj Hi. induction Hj as [|b junk Hb _ IH]; [done|]. cbn [fold_left].
    unfold mouse_byte at 2. change 0x08 with (2 ^ 3). rewrite Hi, land_bit, Hb by lia. exact IH. }
  destruct m as [st [|x0 [|x1 [|x2 [|]]]] idx]; try discriminate Hl. cbn [pkt_idx] in Hi. subst idx.
  cbn [fold_left]. rewrite (mouse_byte_first b0) by done. unfold mouse_byte.
  cbn [mstate pkt pkt_idx]. change (1 =? 0) with false. change (1 + 1 <? 3) with true.
  cbn [andb mstate pkt pkt_idx]. change (1 + 1 =? 0) with false. change (1 + 1 + 1 <? 3) with false.
  cbn [andb mstate pkt pkt_idx]. change (wr (wr (wr [x0; x1; x2] 0 b0) 1 b1) (1 + 1) b2) with [b0; b1; b2].
  change (rd [b0; b1; b2] 0) with b0. change (rd [b0; b1; b2] 1) with b1. change (rd [b0; b1; b2] 2) with b2.
  split; [|done]. change 0x10 with (2 ^ 4). change 0x20 with (2 ^ 5).
  change 0x01 with (2 ^ 0). change 0x02 with (2 ^ 1). change 0x04 with (2 ^ 2).
  rewrite !land_bit, !negb_involutive by lia.
  rewrite <- !movement_sub by done. done.
Qed.

Lemma mouse_packet_witness :
  mstate (fold_left (λ m b, mouse_byte b m) ([0x00; 0x05] ++ [0x19; 0xFE; 3]) mouse_0) =
    MouseState (-2) (-3) true false false.
Proof.
  refine (eq_trans (proj1 (mouse_packet mouse_0 [0x00; 0x05] 0x19 0xFE 3 eq_refl eq_refl _ _ _ _ eq_refl)) _).
  - repeat constructor.
  - lia.
  - lia.
  - lia.
  - vm_compute. reflexivity.
Defined.
