(* ===== verification/Ps2.v ===== *)
(** The PS/2 controller behind src/drivers/input/ps2_keyboard.c and ps2_mouse.c.

    [Ps2Controller] states the documented behaviour the two initialisation
    routines rely on, and they return on any controller that follows it when no
    interrupt is served in between.  [i8042] is such a controller.  A processor
    that takes the controller's interrupts while it runs the same code is
    [live]: every port access is followed by the interrupts it raises. *)
From S2P Require Import Prelude Ports Interrupts Input.

(** ** The documented behaviour *)

(** The bytes a command, or a byte on the data port, is answered with; [param]
    is the command the data port's byte belongs to, [None] for the keyboard. *)
Definition cmd_replies (c : Z) : nat := if (c =? 0x20) || (c =? 0xAA) || (c =? 0xAB) then 1 else 0.
Definition cmd_param (c : Z) : option Z := if (c =? 0x60) || (c =? 0xD4) then Some c else None.
Definition data_replies (param : option Z) (v : Z) : nat :=
  match param with
  | None => if v =? 0xFF then 2 else 1
  | Some c => if c =? 0xD4 then if v =? 0xFF then 3 else 1 else 0
  end.

(** [owed] bytes are in the output buffer or on their way; the controller takes
    the next byte, and delivers the next one owed, within [ps2_polls] polls. *)
Class Ps2Controller (D : Type) `{Ports D} := {
  ps2_polls : nat;
  owed : D → nat;
  param : D → option Z;
  ps2_accepts : ∀ d, ∃ d', ps2_wait_clear ps2_polls 0x02 d = Ok d';
  ps2_delivers : ∀ d, owed d ≠ 0%nat → ∃ d', ps2_wait_set ps2_polls 0x01 d = Ok d';
  ps2_empty : ∀ d, owed d = 0%nat → Z.land (inb PS2_STATUS d).1 0x01 = 0;
  ps2_status : ∀ d, owed (inb PS2_STATUS d).2 = owed d ∧ param (inb PS2_STATUS d).2 = param d;
  ps2_take : ∀ d, owed (inb PS2_DATA d).2 = pred (owed d) ∧ param (inb PS2_DATA d).2 = param d;
  ps2_command : ∀ c d, owed (outb PS2_CMD c d) = (owed d + cmd_replies c)%nat ∧ param (outb PS2_CMD c d) = cmd_param c;
  ps2_write : ∀ v d, owed (outb PS2_DATA v d) = (owed d + data_replies (param d) v)%nat ∧ param (outb PS2_DATA v d) = None;
  ps2_other_in : ∀ p d, p ≠ PS2_DATA → p ≠ PS2_STATUS → owed (inb p d).2 = owed d;
  ps2_other_out : ∀ p v d, p ≠ PS2_DATA → p ≠ PS2_STATUS → owed (outb p v d) = owed d
}.

Section controller.
Context `{Ps2Controller D}.
Implicit Types d : D.

Lemma wait_clear_spec n mask d d' : ps2_wait_clear n mask d = Ok d' → owed d' = owed d ∧ param d' = param d.
Proof.
  revert d. induction n as [|n IH]; intros d; cbn [ps2_wait_clear]; [done|]. pose proof (ps2_status d) as [A B].
  destruct (inb PS2_STATUS d) as [v d1]. cbn [snd] in *. case_test; [by intros [= <-]|]. intros [-> ->]%IH. done.
Qed.

Lemma wait_set_spec n mask d d' : ps2_wait_set n mask d = Ok d' → owed d' = owed d ∧ param d' = param d.
Proof.
  revert d. induction n as [|n IH]; intros d; cbn [ps2_wait_set]; [done|]. pose proof (ps2_status d) as [A B].
  destruct (inb PS2_STATUS d) as [v d1]. cbn [snd] in *. case_test; [|by intros [= <-]]. intros [-> ->]%IH. done.
Qed.

(** More polls do not hurt. *)
Lemma wait_clear_more n k mask d d' : ps2_wait_clear n mask d = Ok d' → (n ≤ k)%nat → ps2_wait_clear k mask d = Ok d'.
Proof.
  revert k d. induction n as [|n IH]; intros k d; cbn [ps2_wait_clear]; [done|]. destruct k as [|k]; [lia|]. cbn [ps2_wait_clear].
  destruct (inb PS2_STATUS d) as [v d1]. case_test; [done|]. intros E Hk. apply IH; [done|lia].
Qed.
Lemma wait_set_more n k mask d d' : ps2_wait_set n mask d = Ok d' → (n ≤ k)%nat → ps2_wait_set k mask d = Ok d'.
Proof.
  revert k d. induction n as [|n IH]; intros k d; cbn [ps2_wait_set]; [done|]. destruct k as [|k]; [lia|]. cbn [ps2_wait_set].
  destruct (inb PS2_STATUS d) as [v d1]. case_test; [|done]. intros E Hk. apply IH; [done|lia].
Qed.

Context (fuel : nat) (Hfuel : (ps2_polls ≤ fuel)%nat).

(** A step that returns, leaving [n] bytes at most to come and no parameter, or
    the one of [p]. *)
Definition leaves (lo hi : nat) (p : option Z) (x : outcome D) : Prop :=
  ∃ d, x = Ok d ∧ (lo ≤ owed d ≤ hi)%nat ∧ param d = p.

Lemma leaves_bind lo hi p x {A} (k : D → outcome A) (Q : outcome A → Prop) : leaves lo hi p x →
  (∀ d, (lo ≤ owed d ≤ hi)%nat → param d = p → Q (k d)) → Q (x ≫= k).
Proof. intros (d & -> & Hn & Hp) Hk. by apply Hk. Qed.

Lemma send_cmd_leaves lo hi c d : (lo ≤ owed d ≤ hi)%nat →
  leaves (lo + cmd_replies c) (hi + cmd_replies c) (cmd_param c) (ps2_send_cmd fuel c d).
Proof.
  intros Hn. unfold ps2_send_cmd. destruct (ps2_accepts d) as [d1 E]. rewrite (wait_clear_more _ fuel _ _ _ E Hfuel).
  apply wait_clear_spec in E as [E _]. cbn [mbind outcome_bind]. eexists. split; [done|]. destruct (ps2_command c d1) as [-> ->]. split; [lia|done].
Qed.

Lemma send_data_leaves lo hi v d : (lo ≤ owed d ≤ hi)%nat →
  leaves (lo + data_replies (param d) v) (hi + data_replies (param d) v) None (ps2_send_data fuel v d).
Proof.
  intros Hn. unfold ps2_send_data. destruct (ps2_accepts d) as [d1 E]. rewrite (wait_clear_more _ fuel _ _ _ E Hfuel).
  apply wait_clear_spec in E as [E E']. cbn [mbind outcome_bind]. eexists. split; [done|]. destruct (ps2_write v d1) as [-> ->]. rewrite E'. split; [lia|done].
Qed.

(** A read of a byte that is owed. *)
Lemma ps2_read_leaves lo hi d {A} (k : Z * D → outcome A) (Q : outcome A → Prop) : (lo ≤ owed d ≤ hi)%nat → (0 < lo)%nat →
  (∀ v d', (lo - 1 ≤ owed d' ≤ hi - 1)%nat → param d' = param d → Q (k (v, d'))) → Q (ps2_read fuel d ≫= k).
Proof.
  intros Hn Hlo Hk. unfold ps2_read. destruct (ps2_delivers d) as [d1 E]; [lia|]. rewrite (wait_set_more _ fuel _ _ _ E Hfuel).
  apply wait_set_spec in E as [E E']. cbn [mbind outcome_bind]. destruct (ps2_take d1) as [F F'].
  destruct (inb PS2_DATA d1) as [v d2]. cbn [snd] in *. apply Hk; [lia|congruence].
Qed.

Lemma ps2_flush_leaves n hi d : (owed d ≤ hi)%nat → (hi < n)%nat → leaves 0 hi (param d) (ps2_flush n d).
Proof.
  revert hi d. induction n as [|n IH]; intros hi d Hn Hlt; [lia|]. cbn [ps2_flush].
  destruct (ps2_status d) as [A B]. pose proof (ps2_empty d) as He. destruct (inb PS2_STATUS d) as [v d1]. cbn [fst snd] in *.
  destruct (Z.eqb_spec (Z.land v 1) 0) as [Ez|Ez]; [exists d1; split; [done|]; split; [lia|done]|].
  assert (owed d ≠ 0%nat) by (intros E0; by apply Ez, He). destruct (ps2_take d1) as [F F'].
  destruct (IH (pred hi) (inb PS2_DATA d1).2) as (d2 & -> & Hd & Hp); [lia|lia|].
  exists d2. split; [done|]. split; [lia|congruence].
Qed.

Lemma mouse_write_leaves lo hi v d : (lo ≤ owed d ≤ hi)%nat →
  leaves (lo + data_replies (Some 0xD4) v) (hi + data_replies (Some 0xD4) v) None (mouse_write fuel v d).
Proof.
  intros Hn. unfold mouse_write. destruct (ps2_accepts d) as [d1 E]. rewrite (wait_clear_more _ fuel _ _ _ E Hfuel).
  apply wait_clear_spec in E as [E _]. cbn [mbind outcome_bind]. destruct (ps2_command 0xD4 d1) as [C C'].
  rewrite Nat.add_0_r in C. replace (Some 0xD4) with (param (outb PS2_CMD 0xD4 d1)) by (by rewrite C').
  apply send_data_leaves. lia.
Qed.

Definition returns {A} (x : outcome A) : Prop := ∃ a, x = Ok a.

(** The next exchange of an initialisation routine. *)
Ltac ps2_step :=
  match goal with Hn : (_ ≤ owed ?d ≤ _)%nat |- returns (_ ?d ≫= _) =>
    first [ eapply (leaves_bind _ _ _ _ _ returns); [apply send_cmd_leaves, Hn|]
          | eapply (leaves_bind _ _ _ _ _ returns); [apply send_data_leaves, Hn|]
          | eapply (leaves_bind _ _ _ _ _ returns); [apply mouse_write_leaves, Hn|]
          | eapply (leaves_bind _ _ _ _ _ returns); [eapply ps2_flush_leaves; [apply Hn|]|]
          | eapply (ps2_read_leaves _ _ _ _ returns Hn); [|intros ?] ];
    [try lia..|];
    let d' := fresh "d" in let Hn' := fresh "Hn" in let Hp := fresh "Hp" in intros d' Hn' Hp; cbn beta iota;
    repeat match goal with Hq : param _ = _ |- _ => progress rewrite Hq in Hn' end;
    cbv [cmd_replies data_replies cmd_param Z.eqb Pos.eqb orb] in Hn', Hp; clear Hn
  end.

Lemma keyboard_init_returns n d : (owed d ≤ n)%nat → (n + 2 < fuel)%nat → returns (keyboard_init fuel d).
Proof.
  intros Hd Hf. unfold keyboard_init. assert (0 ≤ owed d ≤ n)%nat as Hn by lia. clear Hd.
  do 18 ps2_step. by eexists.
Qed.

Lemma mouse_init_returns d : returns (mouse_init fuel d).
Proof.
  unfold mouse_init, mouse_read. assert (∃ n, 0 ≤ owed d ≤ n)%nat as [n Hn] by (exists (owed d); lia). do 11 ps2_step. by eexists.
Qed.
End controller.

(** ** A controller *)

(** The output buffer, the mouse's bytes marked, and the command byte; its bit 0
    asks for an interrupt whenever a byte that is not the mouse's is in the
    buffer.  Nothing else is behind the ports. *)
Record i8042 := I8042 { obuf : list (bool * Z); cbyte : Z; kparam : option Z }.

Definition reply (aux : bool) (l : list Z) (c : i8042) : i8042 := I8042 (obuf c ++ ((λ v, (aux, v)) <$> l)) (cbyte c) (kparam c).
Definition set_cbyte (v : Z) (c : i8042) : i8042 := I8042 (obuf c) v (kparam c).
Definition set_kparam (p : option Z) (c : i8042) : i8042 := I8042 (obuf c) (cbyte c) p.

Definition i8042_command (v : Z) (c : i8042) : i8042 :=
  let c := set_kparam (cmd_param v) c in
  if v =? 0x20 then reply false [cbyte c] c
  else if v =? 0xAA then reply false [0x55] c
  else if v =? 0xAB then reply false [0x00] c
  else if v =? 0xAD then set_cbyte (Z.lor (cbyte c) 0x10) c
  else if v =? 0xAE then set_cbyte (Z.land (cbyte c) 0xEF) c
  else if v =? 0xA7 then set_cbyte (Z.lor (cbyte c) 0x20) c
  else if v =? 0xA8 then set_cbyte (Z.land (cbyte c) 0xDF) c else c.

(** A byte for the command byte, the mouse or the keyboard; a reset is answered
    with an acknowledgement and the result of the self-test. *)
Definition i8042_write (v : Z) (c : i8042) : i8042 :=
  set_kparam None
    match kparam c with
    | None => reply false (if v =? 0xFF then [0xFA; 0xAA] else [0xFA]) c
    | Some p => if p =? 0xD4 then reply true (if v =? 0xFF then [0xFA; 0xAA; 0x00] else [0xFA]) c else set_cbyte v c
    end.

#[export] Instance i8042_ports : Ports i8042 := {
  inb p c := if p =? PS2_STATUS then (match obuf c with [] => 0 | _ => 1 end, c)
             else if p =? PS2_DATA then
               match obuf c with [] => (0, c) | (_, v) :: l => (v, I8042 l (cbyte c) (kparam c)) end
             else (0xFF, c);
  outb p v c := if p =? PS2_CMD then i8042_command v c else if p =? PS2_DATA then i8042_write v c else c;
  inw p c := (0xFFFF, c); outw p v c := c; inl p c := (0xFFFFFFFF, c); outl p v c := c
}.

#[export] Program Instance i8042_controller : Ps2Controller i8042 := {
  ps2_polls := 1; owed c := length (obuf c); param := kparam
}.
Next Obligation. intros c. exists c. cbn. by destruct (obuf c). Qed.
Next Obligation. intros c Hc. exists c. cbn in *. by destruct (obuf c). Qed.
Next Obligation. intros c Hc. cbn in *. by destruct (obuf c). Qed.
Next Obligation. done. Qed.
Next Obligation. intros [[|[]] ? ?]; done. Qed.
Next Obligation.
  intros v c. cbn. unfold i8042_command, cmd_replies, cmd_param.
  repeat match goal with |- context [?x =? ?k] => is_var x; destruct (Z.eqb_spec x k); [subst x|] end; cbn; rewrite ?length_app; cbn; split; (done || lia).
Qed.
Next Obligation.
  intros v c. cbn. unfold i8042_write, data_replies. destruct (kparam c) as [p|];
    repeat match goal with |- context [?x =? ?k] => is_var x; destruct (Z.eqb_spec x k) end; cbn; rewrite ?length_app; cbn; split; (done || lia).
Qed.
Next Obligation. intros p c A B. cbn. by rewrite !(proj2 (Z.eqb_neq _ _)) by done. Qed.
Next Obligation. intros p v c A B. cbn. by rewrite !(proj2 (Z.eqb_neq _ _)) by done. Qed.

(** ** The processor that serves the interrupts *)

(** The interrupt flag, what the two handlers act on, the interrupt controllers
    and the keyboard controller. *)
Record pc_t := Pc { p_if : bool; p_kbd : keyboard; p_mouse : mouse; p_pics : pics; p_kbc : i8042 }.

Definition with_kbc (c : i8042) (m : pc_t) : pc_t := Pc (p_if m) (p_kbd m) (p_mouse m) (p_pics m) c.
Definition with_pics (p : pics) (m : pc_t) : pc_t := Pc (p_if m) (p_kbd m) (p_mouse m) p (p_kbc m).
Definition pic_port (p : Z) : bool := (p =? PIC1_CMD) || (p =? PIC1_DATA) || (p =? PIC2_CMD) || (p =? PIC2_DATA).

#[export] Instance pc_ports : Ports pc_t := {
  inb p m := if pic_port p then let '(v, d) := inb p (p_pics m) in (v, with_pics d m)
             else let '(v, d) := inb p (p_kbc m) in (v, with_kbc d m);
  outb p v m := if pic_port p then with_pics (outb p v (p_pics m)) m else with_kbc (outb p v (p_kbc m)) m;
  inw p m := (0xFFFF, m); outw p v m := m; inl p m := (0xFFFFFFFF, m); outl p v m := m
}.

Definition pc_kb_handler (f : isr_frame_t) (m : pc_t) : outcome pc_t :=
  let '(k, m) := kb_handler (p_kbd m, m) in Ok (Pc (p_if m) k (p_mouse m) (p_pics m) (p_kbc m)).
Definition pc_mouse_handler (f : isr_frame_t) (m : pc_t) : outcome pc_t :=
  let '(x, m) := mouse_handler (p_mouse m, m) in Ok (Pc (p_if m) (p_kbd m) x (p_pics m) (p_kbc m)).
Definition pc_handlers : gmap Z (isr_frame_t → pc_t → outcome pc_t) :=
  isr_register 44 pc_mouse_handler (isr_register 33 pc_kb_handler ∅).

(** The vector of the request for the byte in the output buffer: line 12 for one
    of the mouse, line 1 for any other, if the command byte enables it and the
    interrupt controllers let it through. *)
Definition irq_of (m : pc_t) : option Z :=
  match obuf (p_kbc m) with
  | [] => None
  | (aux, _) :: _ =>
      let line := if aux : bool then 12 else 1 in
      if p_if m && Z.testbit (cbyte (p_kbc m)) (if aux then 1 else 0) && line_open (p_pics m) line then Some (32 + line) else None
  end.

Definition serve (m : pc_t) : pc_t :=
  match irq_of m with
  | Some v => match isr_dispatch pc_handlers (IsrFrame v 0 0 0) m with Ok m' => m' | _ => m end
  | None => m
  end.
Definition serve_all (m : pc_t) : pc_t := Nat.iter (length (obuf (p_kbc m))) serve m.

(** Code that runs while interrupts are served. *)
Record live := Live { at_pc : pc_t }.
#[export] Instance live_ports : Ports live := {
  inb p m := let '(v, x) := inb p (at_pc m) in (v, Live (serve_all x));
  outb p v m := Live (serve_all (outb p v (at_pc m)));
  inw p m := let '(v, x) := inw p (at_pc m) in (v, Live (serve_all x));
  outw p v m := Live (serve_all (outw p v (at_pc m)));
  inl p m := let '(v, x) := inl p (at_pc m) in (v, Live (serve_all x));
  outl p v m := Live (serve_all (outl p v (at_pc m)))
}.

(** Before [keyboard_init]: only the timer's line is open. *)
Definition before_ps2 (sti : bool) (cb : Z) : live :=
  Live (Pc sti keyboard_0 mouse_0 (Pics (0xFE, 0%nat) (0xFF, 0%nat)) (I8042 [] cb None)).

(** The interrupts on, and the bytes [l] of key presses arrived. *)
Definition keys_pressed (l : list Z) (m : live) : pc_t :=
  let m := at_pc m in Pc true (p_kbd m) (p_mouse m) (p_pics m) (reply false l (p_kbc m)).

(** The controller's interrupt is enabled and its line open, and nothing waits. *)
Definition armed (m : live) : Prop :=
  let m := at_pc m in obuf (p_kbc m) = [] ∧ p_if m = true ∧ Z.testbit (cbyte (p_kbc m)) 0 = true ∧ chip1 (p_pics m) = (0xFC, 0%nat).

(** Polling an empty buffer does not end. *)
Lemma wait_set_empty n m : obuf (p_kbc (at_pc m)) = [] → ps2_wait_set n 0x01 m = OutOfFuel.
Proof.
  intros Hm. induction n as [|n IH]; [done|]. cbn [ps2_wait_set].
  assert (inb PS2_STATUS m = (0, m)) as ->; [|exact IH].
  destruct m as [[i k x p [b c q]]]. cbn in *. by subst b.
Qed.

(** The handler takes a byte that is not the mouse's. *)
Lemma serve_key k x p2 v l cb q : Z.testbit cb 0 = true →
  serve (Pc true k x (Pics (0xFC, 0%nat) p2) (I8042 ((false, v) :: l) cb q)) =
    Pc true (kb_byte v k) x (Pics (0xFC, 0%nat) p2) (I8042 l cb q).
Proof.
  intros Hc. unfold serve, irq_of. cbn [obuf p_kbc p_if cbyte]. rewrite Hc. change (line_open _ _) with true. cbn [andb].
  unfold isr_dispatch. cbn [int_no]. change (32 + 1) with 33. unfold pc_handlers, isr_register.
  change (u8 44) with 44. change (u8 33) with 33. rewrite lookup_insert_ne, lookup_insert_eq by done. reflexivity.
Qed.

Lemma armed_out m c : armed m → c = 0xA8 ∨ c = 0x20 → armed (outb PS2_CMD c m).
Proof.
  destruct m as [[i k x [p1 p2] [b cb q]]]. intros (Hb & Hi & Hc & Hp). cbn [at_pc p_if p_pics p_kbc obuf cbyte chip1] in *. subst b i p1.
  intros [-> | ->].
  - unfold armed. cbn -[Z.testbit Z.land]. split_and!; [done|done| |done]. by rewrite Z.land_spec, Hc.
  - assert (outb PS2_CMD 0x20 (Live (Pc true k x (Pics (0xFC, 0%nat) p2) (I8042 [] cb q))) =
      Live (serve (Pc true k x (Pics (0xFC, 0%nat) p2) (I8042 [(false, cb)] cb None)))) as -> by reflexivity.
    by rewrite serve_key.
Qed.

Lemma armed_accepts n m : armed m → ps2_wait_clear (S n) 0x02 m = Ok m.
Proof.
  intros (Hb & _). cbn [ps2_wait_clear]. assert (inb PS2_STATUS m = (0, m)) as ->; [|done].
  destruct m as [[i k x p [b c q]]]. cbn in *. by subst b.
Qed.

Lemma mouse_init_armed fuel m : armed m → mouse_init fuel m = OutOfFuel.
Proof.
  intros Hm. destruct fuel as [|fuel]; [done|]. unfold mouse_init, ps2_send_cmd.
  rewrite (armed_accepts fuel m Hm). cbn [mbind outcome_bind].
  assert (armed (outb PS2_CMD 0xA8 m)) as Hm1 by (apply armed_out; auto). rewrite (armed_accepts fuel _ Hm1). cbn [mbind outcome_bind].
  unfold ps2_read. rewrite wait_set_empty; [done|]. apply armed_out; auto.
Qed.

(** [keyboard_init] arms it, whatever the command byte was. *)
Definition armed_b (m : live) : bool :=
  let m := at_pc m in bool_decide (obuf (p_kbc m) = []) && p_if m && Z.testbit (cbyte (p_kbc m)) 0 && bool_decide (chip1 (p_pics m) = (0xFC, 0%nat)).

Lemma armed_b_spec m : armed_b m = true → armed m.
Proof. unfold armed_b, armed. by intros [[[?%bool_decide_eq_true ?]%andb_true_iff ?]%andb_true_iff ?%bool_decide_eq_true]%andb_true_iff. Qed.

(** The same when the interrupts are held back until [mouse_init] is over: two
    bytes of the mouse are left, whose line stays closed. *)
#[global] Instance keyboard_eq_dec : EqDecision keyboard.
Proof. solve_decision. Defined.

Definition left_over (m : live) : bool :=
  let m := at_pc m in
  bool_decide (obuf (p_kbc m) = [(true, 0xFA); (true, 0xFA)]) && negb (line_open (p_pics m) 12) && bool_decide (p_kbd m = keyboard_0).

Definition both_init (sti : bool) (cb : Z) : outcome live := m ← keyboard_init 8 (before_ps2 sti cb); mouse_init 8 m.

Lemma init_results cb : 0 ≤ cb < 256 →
  match keyboard_init 8 (before_ps2 true cb) with Ok m => armed_b m | _ => false end = true ∧
  match both_init false cb with Ok m => left_over m | _ => false end = true.
Proof.
  intros Hcb.
  assert (forallb (λ cb, match keyboard_init 8 (before_ps2 true cb) with Ok m => armed_b m | _ => false end &&
    match both_init false cb with Ok m => left_over m | _ => false end) (seqZ 0 256) = true) as Hall by (vm_compute; reflexivity).
  rewrite forallb_forall in Hall. apply andb_true_iff, Hall, list_elem_of_In, elem_of_seqZ. lia.
Qed.

(** C28: the mouse is initialised while the keyboard's interrupts are served, and the
    controller requests that interrupt for every byte that is not the mouse's, its
    own answer to [mouse_init] included: from any value of the command byte
    [keyboard_init] returns, and [mouse_init] after it polls forever for the byte
    the handler has taken.  With the interrupts held back both return, but two
    bytes of the mouse's answers stay in the output buffer, line 12 being closed
    by the cascade: no key pressed afterwards is ever seen. *)
Theorem ps2_init_dead (cb : Z) : 0 ≤ cb < 256 →
  (∃ m, keyboard_init 8 (before_ps2 true cb) = Ok m ∧ ∀ fuel, mouse_init fuel m = OutOfFuel) ∧
  ∃ m, both_init false cb = Ok m ∧
    ∀ l, serve_all (keys_pressed l m) = keys_pressed l m ∧ keyboard_poll (p_kbd (keys_pressed l m)) = (None, keyboard_0).
Proof.
  intros Hcb. destruct (init_results cb Hcb) as [A B]. split.
  - revert A. generalize (keyboard_init 8 (before_ps2 true cb)). intros [m|?|] A; [|discriminate A|discriminate A]. exists m. split; [done|]. intros fuel. by apply mouse_init_armed, armed_b_spec.
  - revert B. generalize (both_init false cb). intros [m|?|] B; [|discriminate B|discriminate B]. exists m. split; [done|]. intros l.
    unfold left_over in B. apply andb_true_iff in B as [[Bo Bl]%andb_true_iff Bk].
    apply bool_decide_eq_true in Bo, Bk. apply negb_true_iff in Bl. split; [|change (p_kbd (keys_pressed l m)) with (p_kbd (at_pc m)); by rewrite Bk].
    assert (irq_of (keys_pressed l m) = None) as E.
    { unfold irq_of, keys_pressed. cbn [p_kbc obuf reply p_if p_pics cbyte]. rewrite Bo. cbn [app]. by rewrite Bl, andb_false_r. }
    unfold serve_all. generalize (length (obuf (p_kbc (keys_pressed l m)))). intros n.
    induction n as [|n IH]; [done|]. rewrite Nat.iter_succ, IH. unfold serve. by rewrite E.
Qed.

Lemma ps2_init_dead_witness : ∃ m, keyboard_init 8 (before_ps2 true 0x45) = Ok m ∧ mouse_init 1000 m = OutOfFuel.
Proof. destruct (ps2_init_dead 0x45) as [(m & E & Hm) _]; [lia|]. exists m. split; [exact E|exact (Hm 1000%nat)]. Defined.
