(* ===== verification/Console.v ===== *)
(** Text output: src/drivers/display/vga_text.c and src/drivers/serial/serial.c. *)
From S2P Require Import Prelude Ports.

(** ** VGA text mode *)

Definition VGA_COLS : Z := 80.
Definition VGA_ROWS : Z := 25.
Definition VGA_LIGHT_GRAY : Z := 7.
Definition VGA_BLACK : Z := 0.
Definition CRTC_ADDR : Z := 0x3D4.
Definition CRTC_DATA : Z := 0x3D5.

(** The statics, and the 16-bit cells by index from [VGA_BASE]. *)
Record vga := Vga { vga_row : Z; vga_col : Z; vga_attr : Z; cells : gmap Z Z }.

Definition cell (v : vga) (i : Z) : Z := default 0 (cells v !! i).
Definition set_cell (i x : Z) (v : vga) : vga :=
  Vga (vga_row v) (vga_col v) (vga_attr v) (<[i := x]> (cells v)).
Definition at_pos (row col : Z) (v : vga) : vga := Vga row col (vga_attr v) (cells v).

Definition make_attr (fg bg : Z) : Z := u8 (Z.lor (Z.shiftl bg 4) (Z.land fg 0x0F)).

(** A character with an attribute. *)
Definition glyph (c attr : Z) : Z := Z.lor (u8 c) (Z.shiftl attr 8).
Definition blank (v : vga) : Z := glyph 32 (vga_attr v).

Definition update_cursor `{Ports D} (v : vga) (d : D) : D :=
  let pos := u16 (vga_row v * VGA_COLS + vga_col v) in
  outbs [(CRTC_ADDR, 0x0E); (CRTC_DATA, u8 (Z.shiftr pos 8));
         (CRTC_ADDR, 0x0F); (CRTC_DATA, u8 (Z.land pos 0xFF))] d.

Definition scroll (v : vga) : vga :=
  let b := blank v in
  let v := for_up (λ r, for_up (λ c v,
             set_cell ((r - 1) * VGA_COLS + c) (cell v (r * VGA_COLS + c)) v) (span 0 VGA_COLS) 0)
             (span 1 VGA_ROWS) 1 v in
  for_up (λ c, set_cell ((VGA_ROWS - 1) * VGA_COLS + c) b) (span 0 VGA_COLS) 0 v.

Definition vga_clear `{Ports D} (s : vga * D) : vga * D :=
  let '(v, d) := s in
  let b := blank v in
  let v := for_up (λ i, set_cell i b) (span 0 (VGA_COLS * VGA_ROWS)) 0 v in
  let v := at_pos 0 0 v in
  (v, update_cursor v d).

Definition vga_set_color (fg bg : Z) (v : vga) : vga :=
  Vga (vga_row v) (vga_col v) (make_attr fg bg) (cells v).

Definition vga_init `{Ports D} (s : vga * D) : vga * D :=
  let '(v, d) := s in
  let v := vga_set_color VGA_LIGHT_GRAY VGA_BLACK v in
  let '(v, d) := vga_clear (v, d) in
  let d := outbs [(CRTC_ADDR, 0x0A); (CRTC_DATA, 0x0E); (CRTC_ADDR, 0x0B); (CRTC_DATA, 0x0F)] d in
  (v, update_cursor v d).

Definition vga_get_pos (v : vga) : Z * Z := (vga_row v, vga_col v).

Definition vga_set_pos `{Ports D} (row col : Z) (s : vga * D) : vga * D :=
  let '(v, d) := s in
  let v := at_pos row col v in (v, update_cursor v d).

Definition vga_write_at (row col c attr : Z) (v : vga) : vga :=
  set_cell (row * VGA_COLS + col) (glyph c attr) v.

Fixpoint vga_puts_at (row col : Z) (s : list Z) (attr : Z) (v : vga) : vga :=
  match s with
  | [] => v
  | c :: s => vga_puts_at row (col + 1) s attr (vga_write_at row col c attr v)
  end.

(** The cursor one cell to the right, wrapping at the end of the row. *)
Definition wrap_col (v : vga) : vga :=
  if VGA_COLS <=? vga_col v then at_pos (vga_row v + 1) 0 v else v.

Definition vga_putc `{Ports D} (c : Z) (s : vga * D) : vga * D :=
  let '(v, d) := s in
  let v :=
    if c =? 10 then at_pos (vga_row v + 1) 0 v
    else if c =? 13 then at_pos (vga_row v) 0 v
    else if c =? 8 then
      if 0 <? vga_col v then
        let v := at_pos (vga_row v) (vga_col v - 1) v in
        set_cell (vga_row v * VGA_COLS + vga_col v) (blank v) v
      else v
    else if c =? 9 then wrap_col (at_pos (vga_row v) (Z.land (vga_col v + 8) (Z.lnot 7)) v)
    else
      let v := set_cell (vga_row v * VGA_COLS + vga_col v) (glyph c (vga_attr v)) v in
      wrap_col (at_pos (vga_row v) (vga_col v + 1) v) in
  let v := if VGA_ROWS <=? vga_row v then at_pos (VGA_ROWS - 1) (vga_col v) (scroll v) else v in
  (v, update_cursor v d).

(** A string as the list of its characters. *)
Definition vga_puts `{Ports D} (l : list Z) (s : vga * D) : vga * D :=
  foldl (λ s c, vga_putc c s) s l.

(** ** Serial port *)

Definition COM1 : Z := 0x3F8.

Definition serial_init `{Ports D} (d : D) : D :=
  outbs [(COM1 + 1, 0x00); (COM1 + 3, 0x80); (COM1 + 0, 0x01); (COM1 + 1, 0x00);
         (COM1 + 3, 0x03); (COM1 + 2, 0xC7); (COM1 + 4, 0x0B)] d.

Definition serial_ready `{Ports D} (d : D) : Z * D :=
  let '(v, d) := inb (COM1 + 5) d in (Z.land v 0x20, d).

(** [while (!serial_ready());] *)
Fixpoint serial_wait `{Ports D} (fuel : nat) (d : D) : outcome D :=
  match fuel with
  | O => OutOfFuel
  | S k => let '(r, d) := serial_ready d in if r =? 0 then serial_wait k d else Ok d
  end.

Definition serial_putc `{Ports D} (fuel : nat) (c : Z) (d : D) : outcome D :=
  d ← serial_wait fuel d;
  d ← (if c =? 10 then serial_wait fuel (outb COM1 13 d) else Ok d);
  Ok (outb COM1 (u8 c) d).

Fixpoint serial_puts `{Ports D} (fuel : nat) (s : list Z) (d : D) : outcome D :=
  match s with
  | [] => Ok d
  | c :: s => d ← serial_putc fuel c d; serial_puts fuel s d
  end.

(** ** The screen *)

Lemma cell_set i x v j : cell (set_cell i x v) j = if decide (i = j) then x else cell v j.
Proof.
  unfold cell, set_cell. simpl. case_decide; subst; [by rewrite lookup_insert_eq|].
  by rewrite lookup_insert_ne.
Qed.

Lemma cell_at_pos r c v i : cell (at_pos r c v) i = cell v i.
Proof. done. Qed.

(** Everything but the cells is the same. *)
Definition same_cursor (v v' : vga) : Prop :=
  vga_row v' = vga_row v ∧ vga_col v' = vga_col v ∧ vga_attr v' = vga_attr v.

Lemma scroll_rows v r :
  1 ≤ r →
  let t := for_up (λ c v, set_cell ((r - 1) * VGA_COLS + c) (cell v (r * VGA_COLS + c)) v)
             (span 0 VGA_COLS) 0 v in
  same_cursor v t ∧
  ∀ i, cell t i = if decide ((r - 1) * 80 ≤ i < r * 80) then cell v (i + 80) else cell v i.
Proof.
  intros Hr t. unfold VGA_COLS in *.
  set (P := λ c t, same_cursor v t ∧
    ∀ i, cell t i = if decide ((r - 1) * 80 ≤ i < (r - 1) * 80 + c) then cell v (i + 80) else cell v i).
  assert (P 80 t) as [A B].
  { apply (for_span_inv P); [lia| |].
    - split; [done|]. intros i. by rewrite decide_False by lia.
    - intros c u Hc [IH1 IH2]. split; [exact IH1|]. intros i. rewrite cell_set, !IH2.
      rewrite (decide_False (P := (r - 1) * 80 ≤ r * 80 + c < (r - 1) * 80 + c)) by lia.
      repeat case_decide; try lia; try done. f_equal. lia. }
  split; [done|]. intros i. rewrite B. repeat case_decide; (done || lia).
Qed.

Lemma scroll_spec v :
  same_cursor v (scroll v) ∧
  ∀ i, cell (scroll v) i =
    if decide (0 ≤ i < 1920) then cell v (i + 80)
    else if decide (1920 ≤ i < 2000) then blank v else cell v i.
Proof.
  unfold scroll. set (t := for_up _ (span 1 VGA_ROWS) 1 v).
  set (P := λ r t, same_cursor v t ∧
    ∀ i, cell t i = if decide (0 ≤ i < (r - 1) * 80) then cell v (i + 80) else cell v i).
  assert (P VGA_ROWS t) as [A B].
  { apply (for_span_inv P); [unfold VGA_ROWS; lia| |].
    - split; [done|]. intros i. by rewrite decide_False by lia.
    - intros r u Hr [(I1 & I2 & I3) IH2]. destruct (scroll_rows u r) as [(J1 & J2 & J3) J4]; [lia|].
      split; [split_and!; congruence|]. intros i. rewrite J4, !IH2.
      repeat case_decide; (done || lia). }
  set (Q := λ c t', same_cursor v t' ∧
    ∀ i, cell t' i = if decide (1920 ≤ i < 1920 + c) then blank v else cell t i).
  assert (Q VGA_COLS (for_up (λ c, set_cell ((VGA_ROWS - 1) * VGA_COLS + c) (blank v))
    (span 0 VGA_COLS) 0 t)) as [C D].
  { apply (for_span_inv Q); [unfold VGA_COLS; lia| |].
    - split; [exact A|]. intros i. by rewrite decide_False by lia.
    - intros c u Hc [IH1 IH2]. split; [exact IH1|]. intros i. rewrite cell_set, IH2.
      unfold VGA_ROWS, VGA_COLS. repeat case_decide; (done || lia). }
  split; [done|]. intros i. rewrite D, B. unfold VGA_ROWS, VGA_COLS.
  repeat case_decide; (done || lia).
Qed.

(** Scrolling with the cursor sent to the last row. *)
Definition scrolled (v : vga) : vga := at_pos (VGA_ROWS - 1) (vga_col v) (scroll v).

Lemma scrolled_spec v :
  vga_row (scrolled v) = 24 ∧ vga_col (scrolled v) = vga_col v ∧ vga_attr (scrolled v) = vga_attr v ∧
  ∀ i, cell (scrolled v) i =
    if decide (0 ≤ i < 1920) then cell v (i + 80)
    else if decide (1920 ≤ i < 2000) then blank v else cell v i.
Proof.
  unfold scrolled. destruct (scroll_spec v) as [(_ & _ & A) B]. generalize dependent (scroll v).
  intros w A B. split; [reflexivity|]. split; [reflexivity|]. split; [exact A|exact B].
Qed.

Definition vga_ok (v : vga) : Prop := 0 ≤ vga_row v < VGA_ROWS ∧ 0 ≤ vga_col v < VGA_COLS.

(** What [vga_putc] does before it scrolls. *)
Definition putc_raw (c : Z) (v : vga) : vga :=
  if c =? 10 then at_pos (vga_row v + 1) 0 v
  else if c =? 13 then at_pos (vga_row v) 0 v
  else if c =? 8 then
    if 0 <? vga_col v then
      let v := at_pos (vga_row v) (vga_col v - 1) v in
      set_cell (vga_row v * VGA_COLS + vga_col v) (blank v) v
    else v
  else if c =? 9 then wrap_col (at_pos (vga_row v) (Z.land (vga_col v + 8) (Z.lnot 7)) v)
  else
    let v := set_cell (vga_row v * VGA_COLS + vga_col v) (glyph c (vga_attr v)) v in
    wrap_col (at_pos (vga_row v) (vga_col v + 1) v).

Lemma vga_putc_raw `{Ports D} c v d :
  (vga_putc c (v, d)).1 =
  if VGA_ROWS <=? vga_row (putc_raw c v)
  then scrolled (putc_raw c v) else putc_raw c v.
Proof. reflexivity. Qed.

(** Clearing the three low bits rounds down to a multiple of eight. *)
Lemma tab_stop x : Z.land x (Z.lnot 7) = x / 8 * 8.
Proof.
  rewrite <- Z.ldiff_land. change 7 with (Z.ones 3). rewrite Z.ldiff_ones_r by lia.
  rewrite Z.shiftr_div_pow2, Z.shiftl_mul_pow2 by lia. done.
Qed.

Lemma wrap_col_ok v : 0 ≤ vga_row v < VGA_ROWS → 0 ≤ vga_col v ≤ VGA_COLS →
  0 ≤ vga_row (wrap_col v) ≤ VGA_ROWS ∧ 0 ≤ vga_col (wrap_col v) < VGA_COLS ∧ cells (wrap_col v) = cells v.
Proof.
  unfold wrap_col, VGA_ROWS, VGA_COLS. intros. case_test; simpl; (split; [lia|split; [lia|done]]).
Qed.

Lemma putc_raw_ok c v : vga_ok v →
  0 ≤ vga_row (putc_raw c v) ≤ VGA_ROWS ∧ 0 ≤ vga_col (putc_raw c v) < VGA_COLS ∧
  vga_attr (putc_raw c v) = vga_attr v ∧
  ∀ i, ¬ 0 ≤ i < 2000 → cell (putc_raw c v) i = cell v i.
Proof.
  intros [Hr Hc]. unfold putc_raw, VGA_ROWS, VGA_COLS in *.
  case_test; [simpl; split_and!; (done || lia)|]. case_test; [simpl; split_and!; (done || lia)|].
  case_test.
  { case_test; [|split_and!; (done || lia)]. simpl. split_and!; try (done || lia).
    intros i Hi. rewrite cell_set, decide_False by (simpl; lia). done. }
  case_test.
  - rewrite tab_stop. set (x := (vga_col v + 8) / 8 * 8).
    assert (0 ≤ x ≤ 80) by (unfold x; dlia).
    destruct (wrap_col_ok (at_pos (vga_row v) x v)) as (A & B & C); [done|done|].
    split; [done|]. split; [done|]. split; [unfold wrap_col; by case_test|].
    intros i _. unfold cell. by rewrite C.
  - set (u := set_cell _ _ v).
    destruct (wrap_col_ok (at_pos (vga_row u) (vga_col u + 1) u)) as (A & B & C);
      [done|simpl; unfold VGA_COLS; lia|].
    split; [done|]. split; [done|]. split; [unfold wrap_col; by case_test|].
    intros i Hi. unfold cell at 1. rewrite C. change (cell u i = cell v i). unfold u.
    rewrite cell_set, decide_False by lia. done.
Qed.

Section putc.
Context `{Ports D}.

Lemma vga_putc_ok c v d : vga_ok v →
  let v' := (vga_putc c (v, d)).1 in
  vga_ok v' ∧ vga_attr v' = vga_attr v ∧ ∀ i, ¬ 0 ≤ i < 2000 → cell v' i = cell v i.
Proof.
  intros Hok v'. unfold v'. rewrite vga_putc_raw.
  destruct (putc_raw_ok c v Hok) as (A & B & C & E). set (u := putc_raw c v) in *.
  destruct (scrolled_spec u) as (S1 & S2 & S3 & S4). generalize dependent (scrolled u). intros w S1 S2 S3 S4.
  unfold VGA_ROWS in *. case_test.
  - split; [split; unfold VGA_ROWS; lia|]. split; [congruence|]. intros i Hi. rewrite S4, !decide_False by lia. by apply E.
  - split; [split; unfold VGA_ROWS; lia|]. done.
Qed.

Lemma vga_puts_ok l : ∀ v d, vga_ok v →
  let v' := (vga_puts l (v, d)).1 in
  vga_ok v' ∧ ∀ i, ¬ 0 ≤ i < 2000 → cell v' i = cell v i.
Proof.
  induction l as [|c l IH]; intros v d Hok; [done|]. cbn [vga_puts foldl].
  destruct (vga_putc_ok c v d Hok) as (A & _ & B). destruct (vga_putc c (v, d)) as [v1 d1].
  destruct (IH v1 d1 A) as [C E]. cbn [fst] in *. split; [exact C|].
  intros i Hi. unfold vga_puts in E. rewrite E, B by done. done.
Qed.
End putc.

(** The console stays inside the screen.  Whatever text is printed, the cursor
    ends on one of the 25 by 80 positions and no memory outside the 2000 cells is
    written; a printable character goes to the cursor's cell and nowhere else,
    and the cursor advances by one cell, except at the last cell, where every row
    moves up by one and a blank row is left at the bottom with the cursor on it. *)
Theorem vga_console `{Ports D} (text : list Z) (c : Z) (v : vga) (d : D) :
  vga_ok v →
  let '(v1, d1) := vga_puts text (v, d) in
  let v' := (vga_putc c (v1, d1)).1 in
  vga_ok v1 ∧ vga_ok v' ∧ (∀ i, ¬ 0 ≤ i < 2000 → cell v' i = cell v i) ∧
  (c ≠ 8 → c ≠ 9 → c ≠ 10 → c ≠ 13 →
   let pos := vga_row v1 * 80 + vga_col v1 in
   let shown i := if decide (i = pos) then glyph c (vga_attr v1) else cell v1 i in
   (pos < 1999 → vga_row v' * 80 + vga_col v' = pos + 1 ∧ ∀ i, cell v' i = shown i) ∧
   (pos = 1999 → vga_row v' = 24 ∧ vga_col v' = 0 ∧
      ∀ i, 0 ≤ i < 2000 → cell v' i = if decide (i < 1920) then shown (i + 80) else blank v1)).
Proof.
  intros Hok. pose proof (vga_puts_ok text v d Hok) as Hp. destruct (vga_puts text (v, d)) as [v1 d1].
  cbn [fst] in Hp. destruct Hp as [Hok1 Hk]. destruct (vga_putc_ok c v1 d1 Hok1) as (A & B & C).
  split; [done|]. split; [done|]. split; [intros i Hi; rewrite C, Hk by done; done|].
  intros H8 H9 H10 H13 pos shown. rewrite vga_putc_raw.
  assert (putc_raw c v1 = wrap_col (at_pos (vga_row v1) (vga_col v1 + 1)
    (set_cell pos (glyph c (vga_attr v1)) v1))) as E.
  { unfold putc_raw. rewrite !(proj2 (Z.eqb_neq c _)) by done. done. }
  set (u := set_cell pos (glyph c (vga_attr v1)) v1) in *.
  assert (∀ i, cell u i = shown i) as Hu.
  { intros i. unfold u, shown. rewrite cell_set. repeat case_decide; congruence. }
  destruct Hok1 as [Hr Hc]. unfold VGA_ROWS, VGA_COLS in *. rewrite E. unfold wrap_col, VGA_COLS.
  split; intros Hpos.
  - cbn [at_pos vga_col vga_row]. change (vga_row u) with (vga_row v1).
    destruct (Z.leb_spec 80 (vga_col v1 + 1)).
    + cbn [at_pos vga_row]. rewrite (proj2 (Z.leb_gt 25 _)) by (unfold pos in *; lia).
      split; [simpl; unfold pos in *; lia|exact Hu].
    + cbn [at_pos vga_row]. rewrite (proj2 (Z.leb_gt 25 _)) by (unfold pos in *; lia).
      split; [simpl; unfold pos in *; lia|exact Hu].
  - assert (vga_row v1 = 24 ∧ vga_col v1 = 79) as [Er Ec] by (unfold pos in *; lia).
    cbn [at_pos vga_col]. rewrite Ec. change (80 <=? 79 + 1) with true. cbn [at_pos vga_row]. rewrite Er.
    change (25 <=? 24 + 1) with true. cbn iota. set (w := at_pos (24 + 1) 0 u).
    destruct (scrolled_spec w) as (S1 & S2 & _ & S4). split; [exact S1|]. split; [exact S2|].
    intros i Hi. rewrite S4.
    repeat case_decide; try lia; [apply Hu|done].
Qed.

Lemma vga_console_witness :
  vga_row (vga_puts [72; 105; 10] (Vga 24 0 7 ∅, Trace [] [])).1 = 24 ∧
  vga_ok (vga_putc 33 (vga_puts [72; 105; 10] (Vga 24 0 7 ∅, Trace [] []))).1.
Proof.
  assert (vga_ok (Vga 24 0 7 ∅)) as Hok by (split; cbv; split; (discriminate || reflexivity)).
  pose proof (vga_console [72; 105; 10] 33 (Vga 24 0 7 ∅) (Trace [] []) Hok) as Hc.
  split; [vm_compute; reflexivity|].
  destruct (vga_puts [72; 105; 10] (Vga 24 0 7 ∅, Trace [] [])) as [v1 d1].
  destruct Hc as (_ & Hv & _). exact Hv.
Defined.
