(* ===== verification/Framebuffer.v ===== *)
(** The linear framebuffer: src/drivers/display/framebuffer.c.

    The pixels are bytes of memory from [fb_addr] on.  Coordinates are [int]s:
    the theorems keep them where C's arithmetic does not overflow. *)
From S2P Require Import Prelude CString.

Record fb_info_t := Fb {
  fb_addr : Z; pitch : Z; width : Z; height : Z; bpp : Z; active : bool; fmem : memory
}.
Definition with_fb (f : fb_info_t) (m : memory) : fb_info_t :=
  Fb (fb_addr f) (pitch f) (width f) (height f) (bpp f) (active f) m.

Definition FB_FONT_W : Z := 8.
Definition FB_FONT_H : Z := 16.
Definition RGB (r g b : Z) : Z := Z.lor (Z.lor (Z.shiftl r 16) (Z.shiftl g 8)) b.
Definition VBE_INFO_ADDR : Z := 0x6000.
Definition VBE_FLAG_ADDR : Z := 0x5FFC.

(** A glyph is sixteen rows of a byte, here the digits of one number, the top row
    first; the first 33 glyphs are blank. *)
Definition glyph_rows (g : Z) : list Z :=
  (λ i, Z.land (Z.shiftr g (8 * (15 - i))) 0xFF) <$> seqZ 0 16.

Definition font_8x16 : list (list Z) := glyph_rows <$> (replicate 33 0 ++ [
  0x0000183C3C1818001800000000000000; 0x00006666240000000000000000000000;
  0x00006C6CFE6CFE6C6C00000000000000; 0x0000183E033E303E1800000000000000;
  0x00006333180C06336300000000000000; 0x00001C361C6E3B336E00000000000000;
  0x000018180C0000000000000000000000; 0x0000180C0606060C1800000000000000;
  0x0000060C1818180C0600000000000000; 0x000000663CFF3C660000000000000000;
  0x00000018187E18180000000000000000; 0x0000000000000018180C000000000000;
  0x00000000007E00000000000000000000; 0x00000000000000181800000000000000;
  0x00006030180C06030100000000000000; 0x00003C66766E66663C00000000000000;
  0x0000181C181818187E00000000000000; 0x00003C666030180C7E00000000000000;
  0x00003C66603860663C00000000000000; 0x000030383C367F303000000000000000;
  0x00007E063E6060663C00000000000000; 0x0000380C063E66663C00000000000000;
  0x00007E6030180C0C0C00000000000000; 0x00003C66663C66663C00000000000000;
  0x00003C66667C60301C00000000000000; 0x00000018180018180000000000000000;
  0x00000018180018180C00000000000000; 0x000030180C060C183000000000000000;
  0x000000007E007E000000000000000000; 0x0000060C1830180C0600000000000000;
  0x00003C66603018001800000000000000; 0x00003C667A7A7A063C00000000000000;
  0x0000183C667E66666600000000000000; 0x00003E66663E66663E00000000000000;
  0x00003C66060606663C00000000000000; 0x00001E36666666361E00000000000000;
  0x00007E06063E06067E00000000000000; 0x00007E06063E06060600000000000000;
  0x00003C66067666663C00000000000000; 0x00006666667E66666600000000000000;
  0x00003C18181818183C00000000000000; 0x00007830303033331E00000000000000;
  0x000066361E0E1E366600000000000000; 0x00000606060606067E00000000000000;
  0x000063777F6B63636300000000000000; 0x000063676F7B73636300000000000000;
  0x00003C66666666663C00000000000000; 0x00003E66663E06060600000000000000;
  0x00003C6666666E3C7000000000000000; 0x00003E66663E36666600000000000000;
  0x00003C66061C60663C00000000000000; 0x00007E18181818181800000000000000;
  0x00006666666666663C00000000000000; 0x0000666666663C3C1800000000000000;
  0x00006363636B7F776300000000000000; 0x000063361C1C1C366300000000000000;
  0x00006666663C18181800000000000000; 0x00007E30180C06067E00000000000000;
  0x00001E06060606061E00000000000000; 0x000003060C1830604000000000000000;
  0x00001E18181818181E00000000000000; 0x0000081C366300000000000000000000;
  0x0000000000000000FF00000000000000; 0x00000C0C180000000000000000000000;
  0x000000003C607C667C00000000000000; 0x000006063E6666663E00000000000000;
  0x000000003C0606663C00000000000000; 0x000060607C6666667C00000000000000;
  0x000000003C667E063C00000000000000; 0x0000380C0C3E0C0C0C00000000000000;
  0x000000007C66667C603C000000000000; 0x000006063E6666666600000000000000;
  0x000018001E1818183C00000000000000; 0x000018001E181818180E000000000000;
  0x0000060666361E366600000000000000; 0x00001C18181818183C00000000000000;
  0x00000000337F7F6B6300000000000000; 0x000000003E6666666600000000000000;
  0x000000003C6666663C00000000000000; 0x000000003E66663E0606000000000000;
  0x000000007C66667C6060000000000000; 0x000000003E0606060600000000000000;
  0x000000007C063C603E00000000000000; 0x000018187E1818187000000000000000;
  0x00000000666666667C00000000000000; 0x000000006666663C1800000000000000;
  0x00000000636B7F362200000000000000; 0x00000000663C183C6600000000000000;
  0x000000006666667C603C000000000000; 0x000000007E30180C7E00000000000000;
  0x0000380C0C070C0C3800000000000000; 0x00001818180018181800000000000000;
  0x0000070C0C380C0C0700000000000000; 0x00006E3B000000000000000000000000;
  0x0000FFFFFFFFFFFFFFFF000000000000]).

(** Without the loader's flag the fields keep their old values. *)
Definition fb_init (f : fb_info_t) : bool * fb_info_t :=
  let m := fmem f in
  if negb (ld_le 4 VBE_FLAG_ADDR m =? 1)
  then (false, Fb (fb_addr f) (pitch f) (width f) (height f) (bpp f) false m)
  else
    let p := ld_le 2 (VBE_INFO_ADDR + 0x10) m in
    let w := ld_le 2 (VBE_INFO_ADDR + 0x12) m in
    let h := ld_le 2 (VBE_INFO_ADDR + 0x14) m in
    let b := ld m (VBE_INFO_ADDR + 0x19) in
    let a := ld_le 4 (VBE_INFO_ADDR + 0x28) m in
    let act := (0 <? w) && (0 <? h) && (0 <? a) in
    (act, Fb a p w h b act m).

Definition fb_active (f : fb_info_t) : bool := active f.
Definition fb_width (f : fb_info_t) : Z := width f.
Definition fb_height (f : fb_info_t) : Z := height f.

Definition off_screen (x y : Z) (f : fb_info_t) : bool := (width f <=? u16 x) || (height f <=? u16 y).

Definition put_pixel_32 (x y c : Z) (f : fb_info_t) : fb_info_t :=
  if off_screen x y f then f else
  with_fb f (st_le 4 (u32 (fb_addr f + u32 y * pitch f + u32 x * 4)) c (fmem f)).

Definition put_pixel_24 (x y c : Z) (f : fb_info_t) : fb_info_t :=
  if off_screen x y f then f else
  let p := u32 (fb_addr f + u32 y * pitch f + u32 x * 3) in
  let m := st p (Z.land c 0xFF) (fmem f) in
  let m := st (p + 1) (Z.land (Z.shiftr c 8) 0xFF) m in
  with_fb f (st (p + 2) (Z.land (Z.shiftr c 16) 0xFF) m).

Definition fb_pixel (x y c : Z) (f : fb_info_t) : fb_info_t :=
  if bpp f =? 32 then put_pixel_32 x y c f else put_pixel_24 x y c f.

Definition fb_hline (x y len c : Z) (f : fb_info_t) : fb_info_t :=
  for_up (λ i f, fb_pixel (x + i) y c f) (span 0 len) 0 f.

Definition fb_vline (x y len c : Z) (f : fb_info_t) : fb_info_t :=
  for_up (λ i f, fb_pixel x (y + i) c f) (span 0 len) 0 f.

Definition fb_clear (c : Z) (f : fb_info_t) : fb_info_t :=
  if (bpp f =? 32) && (pitch f =? u32 (width f * 4)) then
    let n := u32 (width f * height f) in
    for_up (λ i f, with_fb f (st_le 4 (fb_addr f + 4 * i) c (fmem f))) (span 0 n) 0 f
  else for_up (λ y f, fb_hline 0 y (width f) c f) (span 0 (height f)) 0 f.

Definition fb_rect (x y w h c : Z) (f : fb_info_t) : fb_info_t :=
  for_up (λ row f, fb_hline x row w c f) (span y (y + h)) y f.

Definition fb_rect_outline (x y w h t c : Z) (f : fb_info_t) : fb_info_t :=
  let f := fb_rect x y w t c f in
  let f := fb_rect x (y + h - t) w t c f in
  let f := fb_rect x y t h c f in
  fb_rect (x + w - t) y t h c f.

(** [for (;;)] of [fb_line]; C's division truncates. *)
Fixpoint line_loop (fuel : nat) (ax ay sx sy x1 y1 c err x0 y0 : Z) (f : fb_info_t) : outcome fb_info_t :=
  let f := fb_pixel x0 y0 c f in
  if (x0 =? x1) && (y0 =? y1) then Ok f else
  match fuel with
  | O => OutOfFuel
  | S k =>
      let e2 := err in
      let '(err, x0) := if - ax <? e2 then (err - ay, x0 + sx) else (err, x0) in
      let '(err, y0) := if e2 <? ay then (err + ax, y0 + sy) else (err, y0) in
      line_loop k ax ay sx sy x1 y1 c err x0 y0 f
  end.

Definition fb_line (fuel : nat) (x0 y0 x1 y1 c : Z) (f : fb_info_t) : outcome fb_info_t :=
  let dx := x1 - x0 in
  let dy := y1 - y0 in
  let ax := if dx <? 0 then - dx else dx in
  let ay := if dy <? 0 then - dy else dy in
  let sx := if dx <? 0 then -1 else 1 in
  let sy := if dy <? 0 then -1 else 1 in
  let err := Z.quot (if ay <? ax then ax else - ay) 2 in
  line_loop fuel ax ay sx sy x1 y1 c err x0 y0 f.

Definition fb_char (x y ch fg bg : Z) (f : fb_info_t) : fb_info_t :=
  let idx := u8 ch in
  let idx := if 128 <=? idx then 63 else idx in
  let glyph := default [] (font_8x16 !! Z.to_nat idx) in
  for_up (λ row f,
    let bits := rd glyph row in
    for_up (λ col f,
      let color := if negb (Z.land bits (Z.shiftr 0x80 col) =? 0) then fg else bg in
      fb_pixel (x + col) (y + row) color f) (span 0 FB_FONT_W) 0 f) (span 0 FB_FONT_H) 0 f.

(** The loop over the characters before the terminator. *)
Fixpoint string_loop (draw : Z → Z → fb_info_t → fb_info_t) (x : Z) (s : list Z) (f : fb_info_t) : fb_info_t :=
  match s with
  | [] => f
  | c :: s => string_loop draw (x + FB_FONT_W) s (draw x c f)
  end.

Definition fb_string (x y : Z) (s : list Z) (fg bg : Z) (f : fb_info_t) : fb_info_t :=
  string_loop (λ x c f, fb_char x y c fg bg f) x s f.

(** ** Painting *)

Lemma exists_between lo hi (P : Z → Prop) :
  List.Exists P (seqZ lo (hi - lo)) ↔ ∃ i, lo ≤ i < hi ∧ P i.
Proof.
  rewrite List.Exists_exists. split.
  - intros (i & Hi%list_elem_of_In%elem_of_seqZ & Hp). exists i. split; [lia|done].
  - intros (i & Hi & Hp). exists i. split; [|done]. apply list_elem_of_In, elem_of_seqZ. lia.
Qed.

#[local] Instance exists_between_dec lo hi (P : Z → Prop) `{∀ i, Decision (P i)} :
  Decision (∃ i, lo ≤ i < hi ∧ P i).
Proof.
  destruct (decide (List.Exists P (seqZ lo (hi - lo)))) as [H1|H1]; [left|right]; by rewrite <- exists_between.
Defined.

Implicit Types f : fb_info_t.

(** A 32-bit mode whose rows fit their pitch, below 4 GiB. *)
Definition fb_ok f : Prop :=
  bpp f = 32 ∧ 0 < width f < 2 ^ 16 ∧ 0 < height f < 2 ^ 16 ∧ width f * 4 ≤ pitch f < 2 ^ 16 ∧
  0 ≤ fb_addr f ∧ fb_addr f + pitch f * height f ≤ 2 ^ 32.

Definition on_screen f (x y : Z) : Prop := 0 ≤ x < width f ∧ 0 ≤ y < height f.
Definition pixel_addr f (x y : Z) : Z := fb_addr f + y * pitch f + x * 4.
Definition pixel_at f (x y : Z) : Z := ld_le 4 (pixel_addr f x y) (fmem f).

(** [f'] is [f] with each pixel of [P] on the screen set to its colour [col] and no
    other byte of memory changed; [painted] has one colour. *)
Definition drawn (P : Z → Z → Prop) (col : Z → Z → Z) f f' : Prop :=
  f' = with_fb f (fmem f') ∧
  (∀ x y, on_screen f x y →
     (P x y → pixel_at f' x y = col x y) ∧ (¬ P x y → pixel_at f' x y = pixel_at f x y)) ∧
  (∀ a, (∀ x y, on_screen f x y → P x y → ¬ pixel_addr f x y ≤ a < pixel_addr f x y + 4) →
     ld (fmem f') a = ld (fmem f) a).
Abbreviation painted P c := (drawn P (λ _ _, c)).

(** Coordinates the 16-bit comparison clips as intended. *)
Definition clipped f (x y : Z) : Prop := width f - 2 ^ 16 ≤ x < 2 ^ 16 ∧ height f - 2 ^ 16 ≤ y < 2 ^ 16.

Lemma drawn_none P col f : (∀ x y, on_screen f x y → ¬ P x y) → drawn P col f f.
Proof. intros H. split; [by destruct f|]. split; [|done]. intros x y Hs. split; [|done]. intros Hp. by destruct (H x y Hs). Qed.

Lemma drawn_ok P col f f' : drawn P col f f' → fb_ok f → fb_ok f'.
Proof. intros [-> _]. done. Qed.

Lemma drawn_trans P Q R col f f1 f2 :
  drawn P col f f1 → drawn Q col f1 f2 → (∀ x y, R x y ↔ P x y ∨ Q x y) → (∀ x y, Decision (P x y)) →
  (∀ x y, Decision (Q x y)) → drawn R col f f2.
Proof.
  intros (E1 & A1 & B1) (E2 & A2 & B2) HR DP DQ. rewrite E1 in E2, A2, B2. cbn [with_fb fmem] in *.
  split; [by rewrite E2|]. split.
  - intros x y Hs. destruct (A1 x y Hs) as [P1 P2]. destruct (A2 x y Hs) as [Q1 Q2]. rewrite HR.
    rewrite <- E1 in Q2. destruct (DP x y), (DQ x y); split; intros Hx; try tauto; try (by apply Q1);
      rewrite Q2 by done; try (by apply P1); by apply P2; tauto.
  - intros a Ha. rewrite B2, B1; [done| |]; intros x y Hs Hp; apply Ha; try done; rewrite HR; tauto.
Qed.

Lemma drawn_ext P Q col f f' : (∀ x y, on_screen f x y → P x y ↔ Q x y) → drawn P col f f' → drawn Q col f f'.
Proof.
  intros E (A & B & C). split; [done|]. split.
  - intros x y Hs. destruct (B x y Hs). pose proof (E x y Hs). tauto.
  - intros a Ha. apply C. intros x y Hs Hp. apply Ha; [done|]. by apply E.
Qed.

Lemma pixel_addr_bound f x y : fb_ok f → on_screen f x y →
  fb_addr f ≤ pixel_addr f x y ∧ pixel_addr f x y + 4 ≤ fb_addr f + pitch f * height f.
Proof. intros (Hb & Hw & Hh & Hp & Ha & He) [Hx Hy]. unfold pixel_addr. split; nia. Qed.

Lemma pixel_addr_disjoint f x y x' y' : fb_ok f → on_screen f x y → on_screen f x' y' → x ≠ x' ∨ y ≠ y' →
  pixel_addr f x y + 4 ≤ pixel_addr f x' y' ∨ pixel_addr f x' y' + 4 ≤ pixel_addr f x y.
Proof.
  intros (Hb & Hw & Hh & Hp & Ha & He) [Hx Hy] [Hx' Hy'] Hne. unfold pixel_addr.
  destruct (decide (y = y')) as [->|Hy0]; [lia|].
  assert (y < y' ∨ y' < y) as [Hlt|Hlt] by lia; nia.
Qed.

(** One pixel stored at its address. *)
Lemma store_pixel x y c f : fb_ok f → on_screen f x y → 0 ≤ c < 2 ^ 32 →
  painted (λ px py, px = x ∧ py = y) c f (with_fb f (st_le 4 (pixel_addr f x y) c (fmem f))).
Proof.
  intros Hok Hs Hc. split; [done|]. split.
  - intros px py Hp. change (pixel_at (with_fb f ?m) px py) with (ld_le 4 (pixel_addr f px py) m). split.
    + intros [-> ->]. rewrite ld_st_le_eq. by apply wrap_small.
    + intros Hne. apply ld_le_ext. intros b Hb. apply ld_st_le_ne.
      destruct (pixel_addr_disjoint f px py x y Hok Hp Hs); [|lia|lia].
      destruct (decide (px = x)), (decide (py = y)); subst; auto.
  - intros a Ha. cbn [fmem with_fb]. apply ld_st_le_ne. specialize (Ha x y Hs (conj eq_refl eq_refl)). lia.
Qed.

Lemma fb_pixel_painted x y c f : fb_ok f → clipped f x y → 0 ≤ c < 2 ^ 32 →
  painted (λ px py, px = x ∧ py = y) c f (fb_pixel x y c f).
Proof.
  intros Hok [Hx Hy] Hc. pose proof Hok as (Hb & Hw & Hh & Hp & Ha & He). unfold fb_pixel. rewrite Hb.
  change (32 =? 32) with true. cbn match. unfold put_pixel_32, off_screen.
  assert (u16 x = if decide (0 ≤ x) then x else x + 2 ^ 16) as ->.
  { case_decide; [apply wrap_small; lia|]. unfold wrap. rewrite <- (Z.mod_add x 1) by lia. apply Z.mod_small. lia. }
  assert (u16 y = if decide (0 ≤ y) then y else y + 2 ^ 16) as ->.
  { case_decide; [apply wrap_small; lia|]. unfold wrap. rewrite <- (Z.mod_add y 1) by lia. apply Z.mod_small. lia. }
  destruct (decide (on_screen f x y)) as [Hs|Hns].
  - pose proof Hs as [Hsx Hsy]. rewrite !decide_True by lia.
    rewrite (proj2 (Z.leb_gt (width f) x)), (proj2 (Z.leb_gt (height f) y)) by lia. cbn [orb].
    rewrite (wrap_small 32 x), (wrap_small 32 y) by lia.
    pose proof (pixel_addr_bound f x y Hok Hs). fold (pixel_addr f x y). rewrite wrap_small by lia.
    by apply store_pixel.
  - assert ((width f <=? (if decide (0 ≤ x) then x else x + 2 ^ 16)) || (height f <=? (if decide (0 ≤ y) then y else y + 2 ^ 16)) = true) as ->.
    { unfold on_screen in Hns. apply orb_true_iff. rewrite !Z.leb_le. repeat case_decide; lia. }
    apply drawn_none. intros px py Hs [-> ->]. done.
Qed.

(** A loop that paints one region per iteration. *)
Lemma drawn_loop (P : Z → Z → Z → Prop) body col lo hi f :
  (∀ i x y, Decision (P i x y)) →
  (∀ i m, lo ≤ i < hi → drawn (P i) col (with_fb f m) (body i (with_fb f m))) →
  drawn (λ x y, ∃ i, lo ≤ i < hi ∧ P i x y) col f (for_up body (span lo hi) lo f).
Proof.
  intros DP Hstep. destruct (decide (hi ≤ lo)).
  { rewrite span_nil by done. apply drawn_none. intros x y _ (i & Hi & _). lia. }
  apply (for_span_inv (λ j g, drawn (λ x y, ∃ i, lo ≤ i < j ∧ P i x y) col f g)); [lia| |].
  - apply drawn_none. intros x y _ (i & Hi & _). lia.
  - intros j g Hj Hg. pose proof (proj1 Hg) as Eg.
    eapply drawn_trans; [exact Hg|rewrite Eg; by apply Hstep| | |apply DP].
    + intros x y. split.
      * intros (i & Hi & Hp). destruct (decide (i = j)) as [->|]; [by right|]. left. exists i. split; [lia|done].
      * intros [(i & Hi & Hp)|Hp]; [exists i|exists j]; (split; [lia|done]).
    + intros x y. apply _.
Qed.

Lemma hline_painted x y len c f : fb_ok f → 0 ≤ c < 2 ^ 32 →
  (∀ i, 0 ≤ i < len → clipped f (x + i) y) →
  painted (λ px py, x ≤ px < x + len ∧ py = y) c f (fb_hline x y len c f).
Proof.
  intros Hok Hc Hcl. eapply drawn_ext; [|apply (drawn_loop (λ i px py, px = x + i ∧ py = y)); [apply _|]].
  - intros px py _. split; [intros (i & Hi & -> & ->); lia|]. intros [Hx ->]. exists (px - x). lia.
  - intros i m Hi. apply fb_pixel_painted; [done|by apply Hcl|done].
Qed.

Lemma rect_painted x y w h c f : fb_ok f → 0 ≤ c < 2 ^ 32 →
  (∀ px py, x ≤ px < x + w → y ≤ py < y + h → clipped f px py) →
  painted (λ px py, x ≤ px < x + w ∧ y ≤ py < y + h) c f (fb_rect x y w h c f).
Proof.
  intros Hok Hc Hcl. eapply drawn_ext; [|apply (drawn_loop (λ i px py, x ≤ px < x + w ∧ py = i)); [apply _|]].
  - intros px py _. split; [intros (i & Hi & Hx & ->); lia|]. intros [Hx Hy]. exists py. lia.
  - intros i m Hi. apply hline_painted; [done|done|]. intros j Hj. apply Hcl; lia.
Qed.

Lemma clear_painted c f : fb_ok f → 0 ≤ c < 2 ^ 32 → painted (λ _ _, True) c f (fb_clear c f).
Proof.
  intros Hok Hc. pose proof Hok as (Hb & Hw & Hh & Hp & Ha & He). unfold fb_clear. rewrite Hb.
  change (32 =? 32) with true. cbn [andb]. rewrite (wrap_small 32 (width f * 4)) by lia.
  destruct (Z.eqb_spec (pitch f) (width f * 4)) as [Ep|Ep].
  - rewrite wrap_small by nia.
    eapply drawn_ext; [|apply (drawn_loop (λ i px py, px = i mod width f ∧ py = i / width f)); [apply _|]].
    + intros px py [Hx Hy]. split; [done|]. intros _. exists (py * width f + px). split; [nia|].
      rewrite Z.add_comm, Z.mod_add, Z.div_add, Z.mod_small, Z.div_small by lia. lia.
    + intros i m Hi. assert (on_screen f (i mod width f) (i / width f)) as Hs.
      { unfold on_screen. split; [apply Z.mod_pos_bound; lia|].
        split; [apply Z.div_pos; lia|]. apply Z.div_lt_upper_bound; lia. }
      assert (fb_addr f + 4 * i = pixel_addr f (i mod width f) (i / width f)) as Ea.
      { unfold pixel_addr. pose proof (Z.div_mod i (width f) ltac:(lia)). rewrite Ep. lia. }
      cbn [fb_addr with_fb]. rewrite Ea. apply (store_pixel _ _ c (with_fb f m) Hok Hs Hc).
  - eapply drawn_ext; [|apply (drawn_loop (λ i px py, 0 ≤ px < 0 + width f ∧ py = i)); [apply _|]].
    + intros px py [Hx Hy]. split; [done|]. intros _. exists py. lia.
    + intros i m Hi. apply hline_painted; [done|done|]. intros j Hj. unfold clipped. cbn [width height with_fb] in *. lia.
Qed.

(** *** Lines *)

(** The minor coordinate after [k] of [a] major steps, when the minor one goes
    [b] steps in all: [k * b / a] rounded to nearest. *)
Definition minor (a b k : Z) : Z := (k * b - a / 2 + a - 1) / a.

Lemma minor_unique a b k j : 0 ≤ a / 2 - k * b + a * j < a → minor a b k = j.
Proof.
  intros Hj. unfold minor. assert (0 < a) as Ha by lia. symmetry.
  apply (Z.div_unique _ a j (k * b - a / 2 + a - 1 - a * j)); [left|]; lia.
Qed.

Lemma minor_spec a b k : 0 < a → 0 ≤ a / 2 - k * b + a * minor a b k < a.
Proof.
  intros Ha. unfold minor. pose proof (Z.div_mod (k * b - a / 2 + a - 1) a ltac:(lia)).
  pose proof (Z.mod_pos_bound (k * b - a / 2 + a - 1) a Ha). lia.
Qed.

Lemma minor_0 a b : 0 < a → minor a b 0 = 0.
Proof. intros Ha. apply minor_unique. dlia. Qed.

Lemma minor_end a b : 0 < a → minor a b a = b.
Proof. intros Ha. apply minor_unique. dlia. Qed.

(** Never more than half a pixel off the ideal line. *)
Lemma minor_nearest a b k : 0 < a → - a ≤ 2 * (a * minor a b k - k * b) ≤ a.
Proof. intros Ha. pose proof (minor_spec a b k Ha). dlia. Qed.

Lemma minor_bound a b k : 0 < a → 0 ≤ b → 0 ≤ k ≤ a → 0 ≤ minor a b k ≤ b.
Proof.
  intros Ha Hb Hk. pose proof (minor_nearest a b k Ha) as Hn. split.
  - destruct (decide (0 ≤ minor a b k)); [done|]. pose proof (minor_spec a b k Ha). nia.
  - destruct (decide (minor a b k ≤ b)); [done|]. pose proof (minor_spec a b k Ha).
    assert (a * (b + 1) ≤ a * minor a b k) by (apply Z.mul_le_mono_nonneg_l; lia).
    assert (k * b ≤ a * b) by (apply Z.mul_le_mono_nonneg_r; lia). lia.
Qed.

(** The [k]-th point of a line. *)
Definition line_point (x0 y0 sx sy ax ay k : Z) : Z * Z :=
  if ay <? ax then (x0 + sx * k, y0 + sy * minor ax ay k) else (x0 + sx * minor ay ax k, y0 + sy * k).

Definition paint_points (c : Z) (l : list (Z * Z)) f : fb_info_t := foldl (λ f p, fb_pixel p.1 p.2 c f) f l.

Lemma line_loop_x x0 y0 sx sy ax ay c : 0 ≤ ay < ax → (sx = 1 ∨ sx = -1) → ∀ n k fuel f,
  0 ≤ k → k + Z.of_nat n = ax → (n ≤ fuel)%nat →
  line_loop fuel ax ay sx sy (x0 + sx * ax) (y0 + sy * ay) c (ax / 2 - k * ay + ax * minor ax ay k)
    (x0 + sx * k) (y0 + sy * minor ax ay k) f =
  Ok (paint_points c ((λ k, (x0 + sx * k, y0 + sy * minor ax ay k)) <$> seqZ k (Z.of_nat n + 1)) f).
Proof.
  intros Ha Hs. unfold paint_points. induction n as [|n IH]; intros k fuel f Hk Hn Hf.
  - replace k with ax by lia. rewrite (minor_end ax ay) by lia.
    destruct fuel; cbn [line_loop]; rewrite !Z.eqb_refl; cbn [andb];
      change (seqZ ax (Z.of_nat 0 + 1)) with [ax];
      rewrite list_fmap_singleton; cbn [foldl fst snd]; by rewrite minor_end by lia.
  - destruct fuel as [|fuel]; [lia|]. cbn [line_loop].
    assert ((x0 + sx * k =? x0 + sx * ax) = false) as -> by (destruct Hs; subst sx; lia). cbn [andb].
    pose proof (minor_spec ax ay k ltac:(lia)) as He. set (e := ax / 2 - k * ay + ax * minor ax ay k) in *.
    rewrite (proj2 (Z.ltb_lt (- ax) e)) by lia. cbn match.
    rewrite (seqZ_cons k) by lia. rewrite fmap_cons. cbn [foldl fst snd].
    assert (x0 + sx * k + sx = x0 + sx * (k + 1)) as -> by lia.
    replace (Z.pred (Z.of_nat (S n) + 1)) with (Z.of_nat n + 1) by lia.
    replace (Z.succ k) with (k + 1) by lia.
    destruct (Z.ltb_spec e ay) as [Hlt|Hge].
    + assert (minor ax ay (k + 1) = minor ax ay k + 1) as Em by (apply minor_unique; unfold e in *; lia).
      rewrite <- (IH (k + 1) fuel) by lia. rewrite Em. f_equal; unfold e; lia.
    + assert (minor ax ay (k + 1) = minor ax ay k) as Em by (apply minor_unique; unfold e in *; lia).
      rewrite <- (IH (k + 1) fuel) by lia. rewrite Em. f_equal; unfold e; lia.
Qed.

Lemma line_loop_y x0 y0 sx sy ax ay c : 0 ≤ ax ≤ ay → 0 < ay → (sy = 1 ∨ sy = -1) → ∀ n k fuel f,
  0 ≤ k → k + Z.of_nat n = ay → (n ≤ fuel)%nat →
  line_loop fuel ax ay sx sy (x0 + sx * ax) (y0 + sy * ay) c (- (ay / 2) + k * ax - ay * minor ay ax k)
    (x0 + sx * minor ay ax k) (y0 + sy * k) f =
  Ok (paint_points c ((λ k, (x0 + sx * minor ay ax k, y0 + sy * k)) <$> seqZ k (Z.of_nat n + 1)) f).
Proof.
  intros Ha Hpos Hs. unfold paint_points. induction n as [|n IH]; intros k fuel f Hk Hn Hf.
  - replace k with ay by lia. rewrite (minor_end ay ax) by lia.
    destruct fuel; cbn [line_loop]; rewrite !Z.eqb_refl; cbn [andb];
      change (seqZ ay (Z.of_nat 0 + 1)) with [ay];
      rewrite list_fmap_singleton; cbn [foldl fst snd]; by rewrite minor_end by lia.
  - destruct fuel as [|fuel]; [lia|]. cbn [line_loop].
    assert ((y0 + sy * k =? y0 + sy * ay) = false) as -> by (destruct Hs; subst sy; lia). rewrite andb_false_r.
    pose proof (minor_spec ay ax k ltac:(lia)) as He. set (e := - (ay / 2) + k * ax - ay * minor ay ax k) in *.
    assert (- ay < e ≤ 0) as He' by (unfold e; lia). rewrite (proj2 (Z.ltb_lt e ay)) by lia.
    rewrite (seqZ_cons k) by lia. rewrite fmap_cons. cbn [foldl fst snd].
    assert (y0 + sy * k + sy = y0 + sy * (k + 1)) as -> by lia.
    replace (Z.pred (Z.of_nat (S n) + 1)) with (Z.of_nat n + 1) by lia.
    replace (Z.succ k) with (k + 1) by lia.
    destruct (Z.ltb_spec (- ax) e) as [Hlt|Hge].
    + assert (minor ay ax (k + 1) = minor ay ax k + 1) as Em by (apply minor_unique; unfold e in *; lia).
      rewrite <- (IH (k + 1) fuel) by lia. rewrite Em. f_equal; unfold e; lia.
    + assert (minor ay ax (k + 1) = minor ay ax k) as Em by (apply minor_unique; unfold e in *; lia).
      rewrite <- (IH (k + 1) fuel) by lia. rewrite Em. f_equal; unfold e; lia.
Qed.

Lemma fb_line_points fuel x0 y0 x1 y1 c f :
  let ax := Z.abs (x1 - x0) in
  let ay := Z.abs (y1 - y0) in
  let sx := if x1 - x0 <? 0 then -1 else 1 in
  let sy := if y1 - y0 <? 0 then -1 else 1 in
  (Z.to_nat (Z.max ax ay) ≤ fuel)%nat →
  fb_line fuel x0 y0 x1 y1 c f =
    Ok (paint_points c (line_point x0 y0 sx sy ax ay <$> seqZ 0 (Z.max ax ay + 1)) f).
Proof.
  intros ax ay sx sy Hf. unfold fb_line.
  assert ((if x1 - x0 <? 0 then - (x1 - x0) else x1 - x0) = ax) as -> by (unfold ax; case_test; lia).
  assert ((if y1 - y0 <? 0 then - (y1 - y0) else y1 - y0) = ay) as -> by (unfold ay; case_test; lia).
  fold sx sy. assert (x1 = x0 + sx * ax) as Ex by (unfold sx, ax; case_test; lia).
  assert (y1 = y0 + sy * ay) as Ey by (unfold sy, ay; case_test; lia).
  assert (sx = 1 ∨ sx = -1) as Hsx by (unfold sx; case_test; auto).
  assert (sy = 1 ∨ sy = -1) as Hsy by (unfold sy; case_test; auto).
  assert (0 ≤ ax) as Hax by (unfold ax; lia). assert (0 ≤ ay) as Hay by (unfold ay; lia).
  rewrite Ex at 1. rewrite Ey at 1. clearbody ax ay sx sy. unfold line_point.
  destruct (Z.ltb_spec ay ax) as [Hlt|Hge].
  - rewrite Z.quot_div_nonneg by lia. rewrite Z.max_l by lia.
    pose proof (line_loop_x x0 y0 sx sy ax ay c ltac:(lia) Hsx (Z.to_nat ax) 0 fuel f) as Hl.
    rewrite minor_0, !Z.mul_0_r, !Z.add_0_r, Z.mul_0_l, Z.sub_0_r, Z2Nat.id in Hl by lia. apply Hl; lia.
  - rewrite Z.max_r by lia. destruct (decide (ay = 0)) as [->|Hnz].
    + assert (ax = 0) as -> by lia. change (seqZ 0 (0 + 1)) with [0]. rewrite list_fmap_singleton.
      change (minor 0 0 0) with 0. rewrite !Z.mul_0_r, !Z.add_0_r.
      destruct fuel; cbn [line_loop]; rewrite !Z.eqb_refl; reflexivity.
    + rewrite Z.quot_opp_l, Z.quot_div_nonneg by lia.
      pose proof (line_loop_y x0 y0 sx sy ax ay c ltac:(lia) ltac:(lia) Hsy (Z.to_nat ay) 0 fuel f) as Hl.
      rewrite minor_0 in Hl by lia.
      replace (- (ay / 2) + 0 * ax - ay * 0) with (- (ay / 2)) in Hl by lia.
      rewrite !Z.mul_0_r, !Z.add_0_r, Z2Nat.id in Hl by lia. apply Hl; lia.
Qed.

Lemma points_painted c : ∀ l f, fb_ok f → 0 ≤ c < 2 ^ 32 → Forall (λ p, clipped f p.1 p.2) l →
  painted (λ px py, (px, py) ∈ l) c f (paint_points c l f).
Proof.
  induction l as [|[x y] l IH]; intros f Hok Hc Hl.
  { apply drawn_none. intros x y _ Hin. by apply elem_of_nil in Hin. }
  unfold paint_points in *.
  apply Forall_cons_1 in Hl as [Hp Hl]. cbn [foldl fst snd].
  pose proof (fb_pixel_painted x y c f Hok Hp Hc) as H1. pose proof (proj1 H1) as E1.
  eapply drawn_trans; [exact H1|apply IH| |intros px py; exact (decide (px = x ∧ py = y))|intros px py; exact (decide ((px, py) ∈ l))].
  - by rewrite E1.
  - done.
  - rewrite E1. exact Hl.
  - intros px py. rewrite elem_of_cons. split.
    + intros [[= -> ->]|Hx]; [by left|by right].
    + intros [[-> ->]|Hx]; [by left|by right].
Qed.

(** The points of a line lie in its box and close to the ideal line. *)
Lemma line_point_spec x0 y0 x1 y1 k :
  let ax := Z.abs (x1 - x0) in
  let ay := Z.abs (y1 - y0) in
  let p := line_point x0 y0 (if x1 - x0 <? 0 then -1 else 1) (if y1 - y0 <? 0 then -1 else 1) ax ay k in
  0 ≤ k ≤ Z.max ax ay →
  Z.min x0 x1 ≤ p.1 ≤ Z.max x0 x1 ∧ Z.min y0 y1 ≤ p.2 ≤ Z.max y0 y1 ∧
  - Z.max ax ay ≤ 2 * (ax * Z.abs (p.2 - y0) - ay * Z.abs (p.1 - x0)) ≤ Z.max ax ay.
Proof.
  intros ax ay p Hk. unfold p, line_point. destruct (Z.ltb_spec ay ax) as [Hlt|Hge]; cbn [fst snd].
  - assert (0 < ax) as Hpos by (unfold ay in *; lia).
    pose proof (minor_bound ax ay k Hpos ltac:(unfold ay; lia) ltac:(lia)) as Hb.
    pose proof (minor_nearest ax ay k Hpos) as Hn. set (j := minor ax ay k) in *. clearbody j.
    split; [unfold ax in *; case_test; lia|]. split; [unfold ay in *; case_test; lia|].
    assert (Z.abs (y0 + (if y1 - y0 <? 0 then -1 else 1) * j - y0) = j) as -> by (case_test; lia).
    assert (Z.abs (x0 + (if x1 - x0 <? 0 then -1 else 1) * k - x0) = k) as -> by (case_test; lia). lia.
  - destruct (decide (ay = 0)) as [E|Hnz].
    + assert (ax = 0 ∧ k = 0) as [Ea ->] by (unfold ax in *; lia). rewrite E, Ea. change (minor 0 0 0) with 0.
      unfold ax, ay in *. lia.
    + assert (0 < ay) as Hpos by (unfold ay in *; lia).
      pose proof (minor_bound ay ax k Hpos ltac:(unfold ax; lia) ltac:(lia)) as Hb.
      pose proof (minor_nearest ay ax k Hpos) as Hn. set (j := minor ay ax k) in *. clearbody j.
      split; [unfold ax in *; case_test; lia|]. split; [unfold ay in *; case_test; lia|].
      assert (Z.abs (y0 + (if y1 - y0 <? 0 then -1 else 1) * k - y0) = k) as -> by (case_test; lia).
      assert (Z.abs (x0 + (if x1 - x0 <? 0 then -1 else 1) * j - x0) = j) as -> by (case_test; lia). lia.
Qed.

(** *** Text *)

Lemma drawn_col P col col' f f' :
  (∀ x y, on_screen f x y → P x y → col x y = col' x y) → drawn P col f f' → drawn P col' f f'.
Proof.
  intros E (A & B & C). split; [done|]. split; [|done]. intros x y Hs. destruct (B x y Hs) as [B1 B2].
  split; [|done]. intros Hp. by rewrite <- E, B1.
Qed.

(** Row [row], column [col] of a character, bit 7 of the row leftmost. *)
Definition char_color (ch fg bg row col : Z) : Z :=
  let idx := if 128 <=? u8 ch then 63 else u8 ch in
  if Z.testbit (rd (default [] (font_8x16 !! Z.to_nat idx)) row) (7 - col) then fg else bg.

Lemma glyph_bit bits col : 0 ≤ col < 8 → negb (Z.land bits (Z.shiftr 0x80 col) =? 0) = Z.testbit bits (7 - col).
Proof.
  intros Hc. rewrite Z.shiftr_div_pow2 by lia. change 0x80 with (2 ^ 7).
  assert (2 ^ 7 / 2 ^ col = 2 ^ (7 - col)) as -> by (rewrite Z.pow_sub_r by lia; done).
  by rewrite land_bit, negb_involutive by lia.
Qed.

Lemma char_drawn x y ch fg bg f : fb_ok f → 0 ≤ fg < 2 ^ 32 → 0 ≤ bg < 2 ^ 32 →
  (∀ px py, x ≤ px < x + 8 → y ≤ py < y + 16 → clipped f px py) →
  drawn (λ px py, x ≤ px < x + 8 ∧ y ≤ py < y + 16)
    (λ px py, char_color ch fg bg (py - y) (px - x)) f (fb_char x y ch fg bg f).
Proof.
  unfold fb_char, FB_FONT_W, FB_FONT_H. intros Hok Hfg Hbg Hcl. cbv zeta.
  eapply drawn_ext; [|apply (drawn_loop (λ i px py, (x ≤ px < x + 8) ∧ py = y + i)); [apply _|]].
  { intros px py _. split; [intros (i & Hi & Hx & ->); lia|]. intros [Hx Hy]. exists (py - y). lia. }
  intros row m Hrow.
  eapply drawn_ext; [|apply (drawn_loop (λ i px py, px = x + i ∧ py = y + row)); [apply _|]].
  { intros px py _. split; [intros (i & Hi & -> & ->); lia|]. intros [Hx ->]. exists (px - x). lia. }
  intros col m' Hcol. rewrite glyph_bit by done.
  eapply drawn_col; [|apply fb_pixel_painted; [done|apply Hcl; lia|by case_match]].
  intros px py _ [-> ->]. unfold char_color.
  replace (y + row - y) with row by lia. replace (x + col - x) with col by lia. done.
Qed.

Lemma string_loop_cons draw x c s f : string_loop draw x (c :: s) f = string_loop draw (x + 8) s (draw x c f).
Proof. reflexivity. Qed.

Lemma fb_string_cons x y c s fg bg f :
  fb_string x y (c :: s) fg bg f = fb_string (x + 8) y s fg bg (fb_char x y c fg bg f).
Proof. exact (string_loop_cons (λ x c f, fb_char x y c fg bg f) x c s f). Qed.

Lemma string_drawn y fg bg s : ∀ x f, fb_ok f → 0 ≤ fg < 2 ^ 32 → 0 ≤ bg < 2 ^ 32 →
  (∀ px py, x ≤ px < x + 8 * Z.of_nat (length s) → y ≤ py < y + 16 → clipped f px py) →
  drawn (λ px py, x ≤ px < x + 8 * Z.of_nat (length s) ∧ y ≤ py < y + 16)
    (λ px py, char_color (rd s ((px - x) / 8)) fg bg (py - y) ((px - x) mod 8)) f (fb_string x y s fg bg f).
Proof.
  induction s as [|c s IH]; intros x f Hok Hfg Hbg Hcl.
  { apply drawn_none. cbn [length]. intros; lia. }
  rewrite fb_string_cons. cbn [length] in *.
  pose proof (char_drawn x y c fg bg f Hok Hfg Hbg ltac:(intros; apply Hcl; lia)) as Hc.
  pose proof (proj1 Hc) as E1. generalize dependent (fb_char x y c fg bg f). intros f1 Hc E1.
  assert (fb_ok f1) as Hok1 by (rewrite E1; exact Hok).
  assert (∀ px py, clipped f px py → clipped f1 px py) as Hcl1 by (rewrite E1; done).
  specialize (IH (x + 8) f1 Hok1 Hfg Hbg). assert (∀ px py, x + 8 ≤ px < x + 8 + 8 * Z.of_nat (length s) →
    y ≤ py < y + 16 → clipped f1 px py) as Hin by (intros; apply Hcl1, Hcl; lia). specialize (IH Hin).
  eapply drawn_trans.
  - eapply drawn_col; [|exact Hc]. intros px py _ [Hx Hy]. rewrite Z.div_small, Z.mod_small by lia. reflexivity.
  - eapply drawn_col; [|exact IH]. intros px py _ [Hx Hy].
    replace ((px - x) / 8) with ((px - (x + 8)) / 8 + 1) by dlia.
    replace ((px - x) mod 8) with ((px - (x + 8)) mod 8) by dlia.
    unfold rd. assert (0 ≤ (px - (x + 8)) / 8) by dlia.
    by replace (Z.to_nat ((px - (x + 8)) / 8 + 1)) with (S (Z.to_nat ((px - (x + 8)) / 8))) by lia.
  - intros px py. cbv beta. lia.
  - intros px py. apply _.
  - intros px py. apply _.
Qed.

(** *** The properties *)

(** In a 32-bit mode the fills paint exactly their pixels that are on the
    screen and change no other byte of memory: a rectangle its area, an outline
    the four bars along its edges, [fb_clear] every pixel.  Coordinates may lie
    off the screen as long as they stay within 65536 of it, beyond which the
    16-bit comparison lets them through. *)
Theorem fb_fills_painted (x y w h t c : Z) (f : fb_info_t) :
  fb_ok f → 0 ≤ c < 2 ^ 32 → 0 ≤ t ≤ w → t ≤ h →
  (∀ px py, x ≤ px < x + w → y ≤ py < y + h → clipped f px py) →
  painted (λ px py, x ≤ px < x + w ∧ y ≤ py < y + h) c f (fb_rect x y w h c f) ∧
  painted (λ px py, (x ≤ px < x + w ∧ y ≤ py < y + h) ∧
    (px < x + t ∨ x + w - t ≤ px ∨ py < y + t ∨ y + h - t ≤ py)) c f (fb_rect_outline x y w h t c f) ∧
  painted (λ _ _, True) c f (fb_clear c f).
Proof.
  intros Hok Hc Ht Hth Hcl. split; [by apply rect_painted|]. split; [|by apply clear_painted].
  unfold fb_rect_outline.
  assert (∀ x' y' w' h' g, x ≤ x' → x' + w' ≤ x + w → y ≤ y' → y' + h' ≤ y + h → g = with_fb f (fmem g) →
    painted (λ px py, x' ≤ px < x' + w' ∧ y' ≤ py < y' + h') c g (fb_rect x' y' w' h' c g)) as Hr.
  { intros x' y' w' h' g H1 H2 H3 H4 ->. apply rect_painted; [done|done|].
    intros px py Hx Hy. apply (Hcl px py); lia. }
  pose proof (Hr x y w t f ltac:(lia) ltac:(lia) ltac:(lia) ltac:(lia) ltac:(by destruct f)) as P1.
  set (f1 := fb_rect x y w t c f) in *.
  pose proof (Hr x (y + h - t) w t f1 ltac:(lia) ltac:(lia) ltac:(lia) ltac:(lia) (proj1 P1)) as P2.
  set (f2 := fb_rect x (y + h - t) w t c f1) in *.
  epose proof (drawn_trans _ _ _ (λ _ _, c) f f1 f2 P1 P2 (λ x y, iff_refl _) ltac:(intros; apply _) ltac:(intros; apply _)) as Q2.
  pose proof (Hr x y t h f2 ltac:(lia) ltac:(lia) ltac:(lia) ltac:(lia) (proj1 Q2)) as P3.
  set (f3 := fb_rect x y t h c f2) in *.
  epose proof (drawn_trans _ _ _ (λ _ _, c) f f2 f3 Q2 P3 (λ x y, iff_refl _) ltac:(intros; apply _) ltac:(intros; apply _)) as Q3.
  pose proof (Hr (x + w - t) y t h f3 ltac:(lia) ltac:(lia) ltac:(lia) ltac:(lia) (proj1 Q3)) as P4.
  epose proof (drawn_trans _ _ _ (λ _ _, c) f f3 _ Q3 P4 (λ x y, iff_refl _) ltac:(intros; apply _) ltac:(intros; apply _)) as Q4.
  eapply drawn_ext; [|exact Q4]. intros px py _. cbn beta. lia.
Qed.

(** [fb_line] terminates after max(|dx|, |dy|) steps and paints exactly one
    pixel per step of the longer side, both end points included: the [k]-th one
    is [k] along the longer side and, along the shorter, within half a pixel of
    the ideal line; nothing else in memory changes. *)
Theorem fb_line_painted (fuel : nat) (x0 y0 x1 y1 c : Z) (f : fb_info_t) :
  fb_ok f → 0 ≤ c < 2 ^ 32 →
  (∀ x y, Z.min x0 x1 ≤ x ≤ Z.max x0 x1 → Z.min y0 y1 ≤ y ≤ Z.max y0 y1 → clipped f x y) →
  let ax := Z.abs (x1 - x0) in
  let ay := Z.abs (y1 - y0) in
  let point := line_point x0 y0 (if x1 - x0 <? 0 then -1 else 1) (if y1 - y0 <? 0 then -1 else 1) ax ay in
  (Z.to_nat (Z.max ax ay) ≤ fuel)%nat →
  (∃ f', fb_line fuel x0 y0 x1 y1 c f = Ok f' ∧
     painted (λ px py, ∃ k, 0 ≤ k < Z.max ax ay + 1 ∧ (px, py) = point k) c f f') ∧
  point 0 = (x0, y0) ∧ point (Z.max ax ay) = (x1, y1) ∧
  ∀ k, 0 ≤ k ≤ Z.max ax ay →
    - Z.max ax ay ≤ 2 * (ax * Z.abs ((point k).2 - y0) - ay * Z.abs ((point k).1 - x0)) ≤ Z.max ax ay.
Proof.
  intros Hok Hc Hcl ax ay point Hf.
  assert (∀ k, 0 ≤ k ≤ Z.max ax ay → Z.min x0 x1 ≤ (point k).1 ≤ Z.max x0 x1 ∧ Z.min y0 y1 ≤ (point k).2 ≤ Z.max y0 y1 ∧
    - Z.max ax ay ≤ 2 * (ax * Z.abs ((point k).2 - y0) - ay * Z.abs ((point k).1 - x0)) ≤ Z.max ax ay) as Hp.
  { intros k Hk. by apply line_point_spec. }
  split; [|split_and!].
  - eexists. split; [by apply fb_line_points|]. eapply drawn_ext; [|apply points_painted; [done|done|]].
    + intros px py _. fold ax ay. rewrite list_elem_of_fmap. split.
      * intros (k & E & Hk%elem_of_seqZ). exists k. split; [lia|exact E].
      * intros (k & Hk & E). exists k. split; [exact E|]. apply elem_of_seqZ. lia.
    + apply List.Forall_forall. intros p (k & -> & Hk%elem_of_seqZ)%list_elem_of_In%list_elem_of_fmap. fold ax ay in Hk |- *.
      destruct (Hp k ltac:(lia)) as (A & B & _). by apply Hcl.
  - unfold point, line_point. case_test; rewrite ?Z.mul_0_r, ?Z.add_0_r; [by rewrite minor_0, Z.mul_0_r, Z.add_0_r by lia|].
    destruct (decide (ay = 0)) as [E|]; [|by rewrite minor_0, Z.mul_0_r, Z.add_0_r by lia].
    assert (ax = 0) as -> by lia. rewrite E. change (minor 0 0 0) with 0. by rewrite Z.mul_0_r, Z.add_0_r.
  - unfold point, line_point. case_test.
    + rewrite Z.max_l, minor_end by lia. unfold ax, ay. f_equal; case_test; lia.
    + rewrite Z.max_r by lia. destruct (decide (ay = 0)) as [E|].
      * assert (ax = 0) as E' by lia. rewrite E, E'. change (minor 0 0 0) with 0. unfold ax, ay in *. f_equal; lia.
      * rewrite minor_end by lia. unfold ax, ay. f_equal; case_test; lia.
  - intros k Hk. by apply Hp.
Qed.

(** A screen of 8 by 4 pixels at 4096. *)
Definition demo_fb : fb_info_t := Fb 4096 32 8 4 32 true ∅.

Lemma demo_fb_ok : fb_ok demo_fb.
Proof. unfold fb_ok, demo_fb. cbn. lia. Qed.

Lemma fb_fills_painted_witness :
  painted (λ px py, -1 ≤ px < -1 + 4 ∧ 2 ≤ py < 2 + 5) 7 demo_fb (fb_rect (-1) 2 4 5 7 demo_fb).
Proof.
  destruct (fb_fills_painted (-1) 2 4 5 1 7 demo_fb demo_fb_ok) as [Hr _]; [lia|lia|lia| |exact Hr].
  intros px py Hx Hy. unfold clipped, demo_fb. cbn [width height]. lia.
Defined.

Lemma fb_line_painted_witness :
  ∃ f', fb_line 5 6 3 1 0 7 demo_fb = Ok f' ∧ pixel_at f' 1 0 = 7 ∧ pixel_at f' 4 2 = 7 ∧ pixel_at f' 0 0 = 0.
Proof.
  destruct (fb_line_painted 5 6 3 1 0 7 demo_fb demo_fb_ok) as ((f' & E & Hp) & _); [lia| |vm_compute; lia|].
  { intros x y Hx Hy. unfold clipped, demo_fb. cbn [width height]. lia. }
  exists f'. split; [exact E|]. destruct Hp as (_ & Hp & _).
  assert (∀ x y, 0 ≤ x < 8 → 0 ≤ y < 4 → on_screen demo_fb x y) as Hs by (intros; split; cbn; lia).
  split_and!.
  - apply (Hp 1 0 (Hs 1 0 ltac:(lia) ltac:(lia))). exists 5. split; [lia|reflexivity].
  - apply (Hp 4 2 (Hs 4 2 ltac:(lia) ltac:(lia))). exists 2. split; [lia|reflexivity].
  - apply (Hp 0 0 (Hs 0 0 ltac:(lia) ltac:(lia))). intros (k & Hk & Ek).
    assert (k = 0 ∨ k = 1 ∨ k = 2 ∨ k = 3 ∨ k = 4 ∨ k = 5) as Hc by lia.
    destruct Hc as [->|[->|[->|[->|[->| ->]]]]]; vm_compute in Ek; discriminate Ek.
Defined.

(** [fb_string] shows its text: character [k] fills the 8 by 16 cell that
    starts [8 * k] pixels to the right, each pixel the foreground colour where the
    character's row in the font has the bit set, bit 7 leftmost, and the
    background colour elsewhere; what lies off the screen is clipped and no other
    byte of memory changes. *)
Theorem fb_string_drawn (x y : Z) (s : list Z) (fg bg : Z) (f : fb_info_t) :
  fb_ok f → 0 ≤ fg < 2 ^ 32 → 0 ≤ bg < 2 ^ 32 →
  (∀ px py, x ≤ px < x + FB_FONT_W * Z.of_nat (length s) → y ≤ py < y + FB_FONT_H → clipped f px py) →
  let f' := fb_string x y s fg bg f in
  f' = with_fb f (fmem f') ∧
  (∀ k ch row col, s !! k = Some ch → 0 ≤ row < FB_FONT_H → 0 ≤ col < FB_FONT_W →
     let px := x + FB_FONT_W * Z.of_nat k + col in
     on_screen f px (y + row) → pixel_at f' px (y + row) = char_color ch fg bg row col) ∧
  (∀ a, (∀ px py, on_screen f px py → x ≤ px < x + FB_FONT_W * Z.of_nat (length s) → y ≤ py < y + FB_FONT_H →
     ¬ pixel_addr f px py ≤ a < pixel_addr f px py + 4) → ld (fmem f') a = ld (fmem f) a).
Proof.
  intros Hok Hfg Hbg Hcl f'. destruct (string_drawn y fg bg s x f Hok Hfg Hbg Hcl) as (A & B & C).
  split; [exact A|]. split.
  - intros k ch row col Hk Hrow Hcol px Hs. pose proof (lookup_lt_Some _ _ _ Hk) as Hlt.
    unfold FB_FONT_W, FB_FONT_H in *. destruct (B px (y + row) Hs) as [B1 _]. unfold f'. rewrite B1 by (unfold px; lia).
    replace ((px - x) / 8) with (Z.of_nat k) by (unfold px; dlia).
    replace ((px - x) mod 8) with col by (unfold px; dlia). replace (y + row - y) with row by lia.
    unfold rd. by rewrite Nat2Z.id, Hk.
  - intros a Ha. apply C. intros px py Hs [Hx Hy]. by apply Ha.
Qed.

Lemma fb_string_drawn_witness :
  pixel_at (fb_string 0 0 [33] 7 1 demo_fb) 3 2 = 7.
Proof.
  destruct (fb_string_drawn 0 0 [33] 7 1 demo_fb demo_fb_ok) as (_ & E & _); [lia|lia| |].
  - intros px py Hx Hy. unfold clipped, FB_FONT_W, FB_FONT_H in *. cbn [demo_fb width height length] in *. lia.
  - assert (char_color 33 7 1 2 3 = 7) as Ec by (vm_compute; reflexivity). rewrite <- Ec.
    apply (E 0%nat 33 2 3); [reflexivity|unfold FB_FONT_H; lia|unfold FB_FONT_W; lia|]. vm_compute. split; split; done.
Defined.
