(* ===== verification/Pci.v ===== *)
(** The PCI bus: src/drivers/bus/pci.c.

    Configuration space is reached through an address and a data port.  What is
    behind them is a parameter; [PciConfig] states the documented access
    mechanism, and [pci_demo] is a machine with a few devices that follows it. *)
From S2P Require Import Prelude Ports Printf.

Definition PCI_MAX_DEVICES : Z := 64.
Definition PCI_VENDOR_NONE : Z := 0xFFFF.
Definition PCI_CFG_ADDR : Z := 0xCF8.
Definition PCI_CFG_DATA : Z := 0xCFC.

Record pci_dev_t := PciDev {
  bus : Z; dev : Z; fn : Z; vendor_id : Z; device_id : Z;
  class_code : Z; subclass : Z; prog_if : Z; revision : Z; bar : list Z; irq_line : Z
}.
Definition pci_dev_0 : pci_dev_t := PciDev 0 0 0 0 0 0 0 0 0 [] 0.

(** The device array and its length. *)
Record pci := Pci { devices : list pci_dev_t; ndevices : Z }.
Definition pci_0 : pci := Pci (replicate (Z.to_nat PCI_MAX_DEVICES) pci_dev_0) 0.

Definition cfg_addr (bus dev fn offset : Z) : Z :=
  Z.lor (Z.lor (Z.lor (Z.lor 0x80000000 (Z.shiftl bus 16)) (Z.shiftl dev 11)) (Z.shiftl fn 8))
    (Z.land offset 0xFC).

Definition pci_read `{Ports D} (bus dev fn offset : Z) (d : D) : Z * D :=
  inl PCI_CFG_DATA (outl PCI_CFG_ADDR (cfg_addr bus dev fn offset) d).

Definition pci_write `{Ports D} (bus dev fn offset v : Z) (d : D) : D :=
  outl PCI_CFG_DATA v (outl PCI_CFG_ADDR (cfg_addr bus dev fn offset) d).

(** The loop over the six base address registers. *)
Definition read_bars `{Ports D} (b v f : Z) (d : D) : list Z * D :=
  for_up (λ i '(bars, d), let '(x, d) := pci_read b v f (u8 (0x10 + i * 4)) d in (wr bars i x, d))
    (span 0 6) 0 (replicate 6 0, d).

Definition probe `{Ports D} (b v f : Z) (s : pci * D) : pci * D :=
  let '(p, d) := s in
  let '(id, d) := pci_read b v f 0x00 d in
  if Z.land id 0xFFFF =? PCI_VENDOR_NONE then (p, d)
  else if PCI_MAX_DEVICES <=? ndevices p then (p, d)
  else
    let '(cc, d) := pci_read b v f 0x08 d in
    let '(bars, d) := read_bars b v f d in
    let '(irq, d) := pci_read b v f 0x3C d in
    let x := PciDev b v f (Z.land id 0xFFFF) (u16 (Z.shiftr id 16))
      (Z.land (Z.shiftr cc 24) 0xFF) (Z.land (Z.shiftr cc 16) 0xFF) (Z.land (Z.shiftr cc 8) 0xFF)
      (Z.land cc 0xFF) bars (u8 (Z.land irq 0xFF)) in
    (Pci (<[Z.to_nat (ndevices p) := x]> (devices p)) (ndevices p + 1), d).

(** One device number: function 0, then the others of a multi-function device. *)
Definition scan_slot `{Ports D} (b v : Z) (s : pci * D) : pci * D :=
  let '(p, d) := s in
  let '(id, d) := pci_read b v 0 0x00 d in
  if Z.land id 0xFFFF =? PCI_VENDOR_NONE then (p, d) else
  let '(hdr, d) := pci_read b v 0 0x0C d in
  let multi := Z.land (Z.shiftr hdr 16) 0x80 in
  let s := probe b v 0 (p, d) in
  if multi =? 0 then s else
  for_up (λ f '(p, d),
    let '(fid, d) := pci_read b v f 0x00 d in
    if negb (Z.land fid 0xFFFF =? PCI_VENDOR_NONE) then probe b v f (p, d) else (p, d))
    (span 1 8) 1 s.

Definition pci_init `{Arch} `{Ports D} `{Kprint D} (s : pci * D) : pci * D :=
  let '(p, d) := s in
  let '(p, d) := for_up (λ b s, for_up (λ v s, scan_slot b v s) (span 0 32) 0 s) (span 0 256) 0
    (Pci (devices p) 0, d) in
  (p, klog "[PCI] Found %d device(s)
" [Num (ndevices p)] d).

Definition pci_count (p : pci) : Z := ndevices p.

(** Pointers into the array are indices. *)
Definition pci_get (i : Z) (p : pci) : option Z := if i <? ndevices p then Some i else None.

Fixpoint find_class_from (n : nat) (i cls sub pif : Z) (p : pci) : option Z :=
  match n with
  | O => None
  | S k =>
      let d := default pci_dev_0 (devices p !! Z.to_nat i) in
      if (class_code d =? cls) && (subclass d =? sub) && ((pif =? 0xFF) || (prog_if d =? pif))
      then Some i else find_class_from k (i + 1) cls sub pif p
  end.

Definition pci_find_class (cls sub pif : Z) (p : pci) : option Z :=
  find_class_from (span 0 (ndevices p)) 0 cls sub pif p.

(** ** The documented access mechanism

    [cfg d a] is the register a configuration address selects; reading has no
    effect on the registers, and neither has printing. *)
Class PciConfig (D : Type) `{Ports D} `{Kprint D} := {
  cfg : D → Z → Z;
  cfg_read : ∀ d a, Z.testbit a 31 = true → (inl 0xCFC (outl 0xCF8 a d)).1 = cfg d a;
  cfg_same : ∀ d a, cfg (inl 0xCFC (outl 0xCF8 a d)).2 = cfg d;
  cfg_print : ∀ d l, cfg (kprint l d) = cfg d
}.

(** What the registers [c] say about a function, a device number and the bus. *)
Definition present (c : Z → Z) (b v f : Z) : bool :=
  negb (Z.land (c (cfg_addr b v f 0)) 0xFFFF =? PCI_VENDOR_NONE).

Definition decode (c : Z → Z) (b v f : Z) : pci_dev_t :=
  let reg o := c (cfg_addr b v f o) in
  PciDev b v f (Z.land (reg 0) 0xFFFF) (u16 (Z.shiftr (reg 0) 16))
    (Z.land (Z.shiftr (reg 8) 24) 0xFF) (Z.land (Z.shiftr (reg 8) 16) 0xFF)
    (Z.land (Z.shiftr (reg 8) 8) 0xFF) (Z.land (reg 8) 0xFF)
    ((λ i, reg (0x10 + i * 4)) <$> seqZ 0 6) (Z.land (reg 0x3C) 0xFF).

Definition multi (c : Z → Z) (b v : Z) : bool :=
  negb (Z.land (Z.shiftr (c (cfg_addr b v 0 0x0C)) 16) 0x80 =? 0).

Definition slot_functions (c : Z → Z) (b v : Z) : list Z :=
  if present c b v 0 then 0 :: (if multi c b v then filter (λ f, present c b v f = true) (seqZ 1 7) else []) else [].

(** Every function of the machine, in the order of bus, device and function. *)
Definition pci_functions (c : Z → Z) : list pci_dev_t :=
  b ← seqZ 0 256; v ← seqZ 0 32; f ← slot_functions c b v; [decode c b v f].

(** ** The scan *)

Section scan.
Context `{Arch} `{PciConfig D}.
Implicit Types (p : pci) (d : D).

(** The array holds the first 64 of the devices [l]. *)
Definition found (l : list pci_dev_t) p : Prop :=
  length (devices p) = Z.to_nat PCI_MAX_DEVICES ∧
  ndevices p = Z.min PCI_MAX_DEVICES (Z.of_nat (length l)) ∧
  take (Z.to_nat (ndevices p)) (devices p) = take (Z.to_nat PCI_MAX_DEVICES) l.

Lemma cfg_addr_enabled b v f o : Z.testbit (cfg_addr b v f o) 31 = true.
Proof. unfold cfg_addr. by rewrite !Z.lor_spec. Qed.

(** A read returns the register and changes no register. *)
Lemma pci_read_spec b v f o d c : cfg d = c →
  ∃ d', pci_read b v f o d = (c (cfg_addr b v f o), d') ∧ cfg d' = c.
Proof.
  intros <-. unfold pci_read, PCI_CFG_DATA, PCI_CFG_ADDR.
  pose proof (cfg_read d _ (cfg_addr_enabled b v f o)) as E. pose proof (cfg_same d (cfg_addr b v f o)) as E'.
  destruct (inl _ _) as [x d']. cbn [fst snd] in *. subst x. by exists d'.
Qed.

Lemma read_bars_spec b v f d c : cfg d = c →
  ∃ d', read_bars b v f d = ((λ i, c (cfg_addr b v f (0x10 + i * 4))) <$> seqZ 0 6, d') ∧ cfg d' = c.
Proof.
  intros Hc. unfold read_bars.
  change (span 0 6) with 6%nat. change (seqZ 0 6) with [0; 1; 2; 3; 4; 5]. cbn [for_up replicate fmap list_fmap].
  do 6 (match goal with |- context [pci_read b v f ?o ?d] =>
    destruct (pci_read_spec b v f o d c Hc) as (? & -> & ?Hc') end; clear Hc; rename Hc' into Hc).
  eexists. split; [|exact Hc]. reflexivity.
Qed.

Lemma found_snoc l x p : found l p → ndevices p < PCI_MAX_DEVICES →
  found (l ++ [x]) (Pci (<[Z.to_nat (ndevices p) := x]> (devices p)) (ndevices p + 1)).
Proof.
  unfold found, PCI_MAX_DEVICES. intros (Hl & Hn & Ht) Hlt. cbn [devices ndevices].
  rewrite length_insert, length_app. cbn [length]. split_and!; [done|lia|].
  rewrite (take_ge (l ++ [x])) by (rewrite length_app; cbn [length]; lia).
  rewrite (take_ge l) in Ht by lia. replace (Z.to_nat (ndevices p + 1)) with (S (Z.to_nat (ndevices p))) by lia.
  rewrite (take_S_r _ _ x) by (apply list_lookup_insert_eq; lia).
  by rewrite take_insert_ge, Ht by lia.
Qed.

Lemma found_full l k p : found l p → PCI_MAX_DEVICES ≤ ndevices p → found (l ++ k) p.
Proof.
  unfold found, PCI_MAX_DEVICES. intros (Hl & Hn & Ht) Hge. rewrite length_app. split_and!; [done|lia|].
  by rewrite take_app_le by lia.
Qed.

Lemma probe_spec b v f l p d c : cfg d = c → found l p → present c b v f = true →
  ∃ p' d', probe b v f (p, d) = (p', d') ∧ cfg d' = c ∧ found (l ++ [decode c b v f]) p'.
Proof.
  intros Hc Hl Hp. unfold probe. destruct (pci_read_spec b v f 0 d c Hc) as (d1 & -> & G1).
  unfold present in Hp. rewrite (proj1 (negb_true_iff _) Hp).
  destruct (Z.leb_spec PCI_MAX_DEVICES (ndevices p)) as [Hge|Hlt].
  { eexists _, _. split; [reflexivity|]. split; [done|]. by apply found_full. }
  destruct (pci_read_spec b v f 8 d1 c G1) as (d2 & -> & G2).
  destruct (read_bars_spec b v f d2 c G2) as (d3 & -> & G3).
  destruct (pci_read_spec b v f 0x3C d3 c G3) as (d4 & -> & G4).
  eexists _, _. split; [reflexivity|]. split; [done|].
  assert (∀ x, u8 (Z.land x 0xFF) = Z.land x 0xFF) as E.
  { intros x. change 0xFF with (Z.ones 8). rewrite Z.land_ones by lia. apply wrap_wrap. }
  rewrite E. by apply found_snoc.
Qed.

Lemma scan_slot_spec b v l p d c : cfg d = c → found l p →
  ∃ p' d', scan_slot b v (p, d) = (p', d') ∧ cfg d' = c ∧
    found (l ++ (f ← slot_functions c b v; [decode c b v f])) p'.
Proof.
  intros Hc Hl. unfold scan_slot, slot_functions. destruct (pci_read_spec b v 0 0 d c Hc) as (d1 & -> & G1).
  destruct (present c b v 0) eqn:Hp; pose proof Hp as Hp'; unfold present in Hp.
  2:{ rewrite (proj1 (negb_false_iff _) Hp). eexists _, _. split; [reflexivity|]. split; [done|].
      cbn. by rewrite app_nil_r. }
  rewrite (proj1 (negb_true_iff _) Hp). destruct (pci_read_spec b v 0 0x0C d1 c G1) as (d2 & -> & G2).
  destruct (probe_spec b v 0 l p d2 c G2 Hl Hp') as (p3 & d3 & -> & G3 & Hl3).
  fold (multi c b v). unfold multi. destruct (Z.land _ 0x80 =? 0); cbn [negb].
  { eexists _, _. split; [reflexivity|]. split; [done|]. done. }
  rewrite bind_cons, (assoc_L (++)).
  set (body := λ f '(p, d), _).
  pose proof (for_span_inv (λ j (s : pci * D), cfg s.2 = c ∧
    found ((l ++ [decode c b v 0]) ++ (f ← filter (λ f, present c b v f = true) (seqZ 1 (j - 1)); [decode c b v f])) s.1)
    body 1 8 (p3, d3)) as Hi.
  destruct (for_up body (span 1 8) 1 (p3, d3)) as [p' d']. exists p', d'. split; [done|]. apply Hi; [lia| |].
  { split; [done|]. cbn. by rewrite app_nil_r. }
  intros f [p4 d4] Hf [G4 Hl4]. cbn [fst snd] in *. unfold body.
  destruct (pci_read_spec b v f 0 d4 c G4) as (d5 & -> & G5).
  replace (f + 1 - 1) with (f - 1 + 1) by lia. rewrite seqZ_app, list.filter_app, bind_app, (assoc_L (++)) by lia.
  change (seqZ (1 + (f - 1)) 1) with [0 + (1 + (f - 1))]. replace (0 + (1 + (f - 1))) with f by lia.
  destruct (present c b v f) eqn:Hpf; pose proof Hpf as Hpf'; unfold present in Hpf; rewrite Hpf.
  - destruct (probe_spec b v f _ p4 d5 c G5 Hl4 Hpf') as (p6 & d6 & -> & G6 & Hl6). split; [done|].
    by rewrite filter_cons_True, filter_nil by done.
  - split; [done|]. rewrite filter_cons_False, filter_nil by (rewrite Hpf'; done). cbn. by rewrite app_nil_r.
Qed.

Lemma bind_snoc {A B} (f : A → list B) l x : (l ++ [x]) ≫= f = (l ≫= f) ++ f x.
Proof. rewrite bind_app. cbn. by rewrite app_nil_r. Qed.

Lemma seqZ_snoc lo j : lo ≤ j → seqZ lo (j + 1 - lo) = seqZ lo (j - lo) ++ [j].
Proof.
  intros Hj. replace (j + 1 - lo) with (j - lo + 1) by lia. rewrite seqZ_app by lia. f_equal.
  change (seqZ (lo + (j - lo)) 1) with [0 + (lo + (j - lo))]. f_equal. lia.
Qed.

(** A loop whose iterations append their devices. *)
Lemma found_loop body (g : Z → list pci_dev_t) c lo hi l p d : lo ≤ hi → cfg d = c → found l p →
  (∀ j l p d, cfg d = c → found l p →
     ∃ p' d', body j (p, d) = (p', d') ∧ cfg d' = c ∧ found (l ++ g j) p') →
  ∃ p' d', for_up body (span lo hi) lo (p, d) = (p', d') ∧ cfg d' = c ∧ found (l ++ (seqZ lo (hi - lo) ≫= g)) p'.
Proof.
  intros Hle Hc Hl Hb.
  pose proof (for_span_inv (λ j (s : pci * D), cfg s.2 = c ∧ found (l ++ (seqZ lo (j - lo) ≫= g)) s.1)
    body lo hi (p, d) Hle) as Hi.
  destruct (for_up body (span lo hi) lo (p, d)) as [p' d']. exists p', d'. split; [done|]. apply Hi.
  - split; [done|]. rewrite Z.sub_diag. cbn. by rewrite app_nil_r.
  - intros j [p1 d1] Hj [G1 Hl1]. cbn [fst snd] in *. destruct (Hb j _ p1 d1 G1 Hl1) as (p2 & d2 & -> & G2 & Hl2).
    split; [done|]. cbn [fst]. by rewrite seqZ_snoc, bind_snoc, (assoc_L (++)) by lia.
Qed.

Lemma pci_init_found p d : length (devices p) = Z.to_nat PCI_MAX_DEVICES →
  ∃ p' d', pci_init (p, d) = (p', d') ∧ cfg d' = cfg d ∧ found (pci_functions (cfg d)) p'.
Proof.
  intros Hl. unfold pci_init.
  assert (found [] (Pci (devices p) 0)) as Hf by (split; [done|split; done]).
  destruct (found_loop (λ b s, for_up (λ v s, scan_slot b v s) (span 0 32) 0 s)
    (λ b, v ← seqZ 0 32; f ← slot_functions (cfg d) b v; [decode (cfg d) b v f]) (cfg d) 0 256 [] _ d
    ltac:(lia) eq_refl Hf) as (p' & d' & -> & Hc & Hl').
  - intros b l p1 d1 G1 Hl1.
    apply (found_loop (λ v s, scan_slot b v s)
      (λ v, f ← slot_functions (cfg d) b v; [decode (cfg d) b v f]) (cfg d) 0 32 l p1 d1); [lia|done|done|].
    intros v k p2 d2 G2 Hl2. by apply scan_slot_spec.
  - eexists _, _. split; [reflexivity|]. split; [unfold klog; by rewrite cfg_print|exact Hl'].
Qed.

Definition matches (cls sub pif : Z) (x : pci_dev_t) : Prop :=
  class_code x = cls ∧ subclass x = sub ∧ (pif = 0xFF ∨ prog_if x = pif).
#[export] Instance matches_dec cls sub pif x : Decision (matches cls sub pif x).
Proof. unfold matches. apply _. Defined.

Lemma find_class_from_spec cls sub pif p l : ∀ n i,
  n = length l → 0 ≤ i → (∀ k x, l !! k = Some x → devices p !! Z.to_nat (i + Z.of_nat k) = Some x) →
  find_class_from n i cls sub pif p = (λ r, i + Z.of_nat r.1) <$> list_find (matches cls sub pif) l.
Proof.
  induction l as [|x l IH]; intros n i -> Hi Hk; [done|]. cbn [length find_class_from list_find]. cbv zeta.
  pose proof (Hk 0%nat x eq_refl) as E. rewrite Z.add_0_r in E. rewrite E. cbn [default from_option id].
  assert ((class_code x =? cls) && (subclass x =? sub) && ((pif =? 0xFF) || (prog_if x =? pif)) =
    bool_decide (matches cls sub pif x)) as ->.
  { unfold matches. destruct (Z.eqb_spec (class_code x) cls), (Z.eqb_spec (subclass x) sub),
      (Z.eqb_spec pif 255), (Z.eqb_spec (prog_if x) pif); case_bool_decide; tauto. }
  rewrite bool_decide_decide. destruct (decide _); [cbn; f_equal; lia|].
  rewrite (IH (length l) (i + 1)); [|done|lia|].
  - destruct (list_find _ l) as [[k y]|]; cbn; [f_equal; lia|done].
  - intros k y Hy. replace (i + 1 + Z.of_nat k) with (i + Z.of_nat (S k)) by lia. by apply Hk.
Qed.

Lemma found_lookup l p k x : found l p → take (Z.to_nat PCI_MAX_DEVICES) l !! k = Some x → devices p !! k = Some x.
Proof. intros (_ & _ & <-) Hk. apply lookup_take_Some in Hk. tauto. Qed.

Lemma find_class_found cls sub pif l p : found l p →
  pci_find_class cls sub pif p =
    (λ r, Z.of_nat r.1) <$> list_find (matches cls sub pif) (take (Z.to_nat PCI_MAX_DEVICES) l).
Proof.
  intros Hf. pose proof Hf as (Hl & Hn & Ht). unfold pci_find_class.
  rewrite (find_class_from_spec cls sub pif p (take (Z.to_nat PCI_MAX_DEVICES) l)).
  - destruct (list_find _ _) as [[k y]|]; done.
  - rewrite length_take. pose proof (of_nat_span 0 (ndevices p)). unfold PCI_MAX_DEVICES in *. lia.
  - done.
  - intros k x Hk. rewrite Z.add_0_l, Nat2Z.id. by eapply found_lookup.
Qed.

Lemma elem_slot c b v f : 
  f ∈ slot_functions c b v ↔
    present c b v 0 = true ∧ (f = 0 ∨ multi c b v = true ∧ 1 ≤ f < 8 ∧ present c b v f = true).
Proof.
  unfold slot_functions. destruct (present c b v 0); [|rewrite elem_of_nil; intuition discriminate].
  rewrite elem_of_cons. destruct (multi c b v).
  - rewrite list_elem_of_filter, elem_of_seqZ. intuition lia.
  - rewrite elem_of_nil. intuition discriminate.
Qed.

Lemma elem_pci_functions c x : x ∈ pci_functions c ↔ ∃ b v f,
  0 ≤ b < 256 ∧ 0 ≤ v < 32 ∧ f ∈ slot_functions c b v ∧ x = decode c b v f.
Proof.
  unfold pci_functions. rewrite list_elem_of_bind. split.
  - intros (b & (v & (f & Hx & Hf)%list_elem_of_bind & Hv)%list_elem_of_bind & Hb).
    apply elem_of_seqZ in Hv, Hb. apply list_elem_of_singleton in Hx.
    exists b, v, f. split_and!; (done || lia).
  - intros (b & v & f & Hb & Hv & Hf & ->). exists b. rewrite elem_of_seqZ. split; [|lia].
    apply list_elem_of_bind. exists v. rewrite elem_of_seqZ. split; [|lia].
    apply list_elem_of_bind. exists f. split; [|done]. by apply list_elem_of_singleton.
Qed.
End scan.

(** C30: [pci_init] scans the whole bus: it finds the functions that answer, a
    device's functions 1 to 7 only when function 0 answers and declares several,
    each decoded from its own registers, in the order of bus, device and
    function, keeps the first 64 of them and changes no register;
    [pci_find_class] then returns the first of these of the class asked for, an
    interface of 0xFF standing for any. *)
Theorem pci_init_finds `{Arch} `{PciConfig D} (p : pci) (d : D) :
  length (devices p) = Z.to_nat PCI_MAX_DEVICES →
  let l := pci_functions (cfg d) in
  (∀ x, x ∈ l ↔ ∃ b v f, (0 ≤ b < 256 ∧ 0 ≤ v < 32) ∧ present (cfg d) b v 0 = true ∧
     (f = 0 ∨ multi (cfg d) b v = true ∧ 1 ≤ f < 8 ∧ present (cfg d) b v f = true) ∧ x = decode (cfg d) b v f) ∧
  ∃ p' d', pci_init (p, d) = (p', d') ∧ cfg d' = cfg d ∧
    pci_count p' = Z.min PCI_MAX_DEVICES (Z.of_nat (length l)) ∧
    (∀ k x, (k < 64)%nat → l !! k = Some x → devices p' !! k = Some x) ∧
    ∀ cls sub pif, pci_find_class cls sub pif p' =
      (λ r, Z.of_nat r.1) <$> list_find (matches cls sub pif) (take (Z.to_nat PCI_MAX_DEVICES) l).
Proof.
  intros Hl l. split.
  { intros x. unfold l. rewrite elem_pci_functions. setoid_rewrite elem_slot. split.
    - intros (b & v & f & A & B & [C C'] & E). by exists b, v, f.
    - intros (b & v & f & [A B] & C & C' & E). by exists b, v, f. }
  destruct (pci_init_found p d Hl) as (p' & d' & E & Hc & Hf). exists p', d'.
  split_and!; [done|done|apply Hf| |].
  - intros k x Hk Hx. eapply found_lookup; [exact Hf|]. unfold PCI_MAX_DEVICES. by rewrite lookup_take_lt by lia.
  - intros. by apply find_class_found.
Qed.

(** ** A machine that follows the mechanism *)

Record pci_demo := PciDemo { latch : Z; regs : gmap Z Z; printed : list (list Z) }.

#[export] Instance pci_demo_ports : Ports pci_demo := {
  inb p d := (0, d); outb p v d := d; inw p d := (0, d); outw p v d := d;
  inl p d := (if p =? 0xCFC then default 0xFFFFFFFF (regs d !! latch d) else 0, d);
  outl p v d :=
    if p =? 0xCF8 then PciDemo v (regs d) (printed d)
    else if p =? 0xCFC then PciDemo (latch d) (<[latch d := v]> (regs d)) (printed d) else d
}.
#[export] Instance pci_demo_print : Kprint pci_demo := λ l d, PciDemo (latch d) (regs d) (printed d ++ [l]).
#[export] Instance pci_demo_config : PciConfig pci_demo := {
  cfg d a := default 0xFFFFFFFF (regs d !! a);
  cfg_read d a _ := eq_refl; cfg_same d a := eq_refl; cfg_print d l := eq_refl
}.

(** A bridge at 0:0.0 and a network card at 0:3.0. *)
Definition demo_machine : pci_demo := PciDemo 0 (list_to_map [
  (cfg_addr 0 0 0 0, 0x12378086); (cfg_addr 0 0 0 8, 0x06000002); (cfg_addr 0 0 0 0x0C, 0);
  (cfg_addr 0 3 0 0, 0x813910EC); (cfg_addr 0 3 0 4, 0); (cfg_addr 0 3 0 8, 0x02000020);
  (cfg_addr 0 3 0 0x0C, 0); (cfg_addr 0 3 0 0x10, 0xC001); (cfg_addr 0 3 0 0x3C, 11)]) [].

Lemma pci_init_finds_witness :
  let _ : Arch := X86 in
  let r := pci_init (pci_0, demo_machine) in
  pci_count r.1 = 2 ∧ pci_find_class 2 0 0xFF r.1 = Some 1.
Proof.
  intros HA r. destruct (pci_init_finds (H := HA) pci_0 demo_machine eq_refl) as (_ & p' & d' & E & _ & Hn & _ & Hf).
  unfold r. rewrite E. cbn [fst]. split.
  - rewrite Hn. vm_compute. reflexivity.
  - rewrite Hf. vm_compute. reflexivity.
Defined.
