(* ===== verification/Usb.v ===== *)
(** The USB host controller and the Bluetooth probe: src/drivers/usb/xhci.c and
    src/drivers/usb/bluetooth.c.

    The controller's registers are reached through 32-bit accesses of memory, the
    interface [Mmio]; what is behind them is a parameter.  [XhciRegs] states the
    documented life of the registers the driver uses, and [usb_demo] is a
    controller that follows it. *)
From S2P Require Import Prelude CString Ports Printf Pmm Pci.

(** [*(volatile u32 * )a], read and written. *)
Class Mmio (D : Type) := {
  mmio_rd : Z → D → Z * D;
  mmio_wr : Z → Z → D → D
}.

Definition XHCI_CLASS : Z := 0x0C.
Definition XHCI_SUBCLASS : Z := 0x03.
Definition XHCI_PROGIF : Z := 0x30.
Definition XHCI_CAPLENGTH : Z := 0x00.
Definition XHCI_HCSPARAMS1 : Z := 0x04.
Definition XHCI_USBCMD : Z := 0x00.
Definition XHCI_USBSTS : Z := 0x04.
Definition XHCI_DNCTRL : Z := 0x14.
Definition XHCI_DCBAAP : Z := 0x30.
Definition XHCI_CONFIG : Z := 0x38.
Definition XHCI_PORTSC_BASE : Z := 0x400.

(** The statics of the driver. *)
Record xhci := Xhci { x_found : bool; mmio : Z; cap_len : Z; n_ports : Z }.
Definition xhci_0 : xhci := Xhci false 0 0 0.

(** The machine as the driver sees it. *)
Record usbsys (D : Type) := UsbSys { uhc : xhci; upmm : pmm; umem : memory; udev : D }.
Arguments UsbSys {D}. Arguments uhc {D}. Arguments upmm {D}. Arguments umem {D}. Arguments udev {D}.

Section xhci.
Context `{Arch} `{Ports D} `{Kprint D} `{!Mmio D}.

Definition with_uhc (x : xhci) (s : usbsys D) : usbsys D := UsbSys x (upmm s) (umem s) (udev s).
Definition with_upmm (p : pmm) (s : usbsys D) : usbsys D := UsbSys (uhc s) p (umem s) (udev s).
Definition with_umem (m : memory) (s : usbsys D) : usbsys D := UsbSys (uhc s) (upmm s) m (udev s).
Definition with_udev (d : D) (s : usbsys D) : usbsys D := UsbSys (uhc s) (upmm s) (umem s) d.
Definition usb_log (fmt : string) (ap : list karg) (s : usbsys D) : usbsys D := with_udev (klog fmt ap (udev s)) s.

Definition cap_reg (x : xhci) (off : Z) : Z := uptr (mmio x + off).
Definition op_reg (x : xhci) (off : Z) : Z := uptr (mmio x + cap_len x + off).

Definition usb_rd (a : Z) (s : usbsys D) : Z * usbsys D := let '(v, d) := mmio_rd a (udev s) in (v, with_udev d s).
Definition usb_wr (a v : Z) (s : usbsys D) : usbsys D := with_udev (mmio_wr a v (udev s)) s.

(** [for (int i = 0; i < n; i++) if (... *r ...) break;] *)
Fixpoint wait_reg (n : nat) (r : Z) (ready : Z → bool) (s : usbsys D) : usbsys D :=
  match n with
  | O => s
  | S k => let '(v, s) := usb_rd r s in if ready v then s else wait_reg k r ready s
  end.

Definition WAIT : nat := Z.to_nat 100000.

Definition xhci_reset (s : usbsys D) : usbsys D :=
  let x := uhc s in
  let cmd := op_reg x XHCI_USBCMD in
  let '(v, s) := usb_rd cmd s in
  let s := usb_wr cmd (Z.land v (u32 (Z.lnot 1))) s in
  let s := wait_reg WAIT (op_reg x XHCI_USBSTS) (λ v, negb (Z.land v 1 =? 0)) s in
  let '(v, s) := usb_rd cmd s in
  let s := usb_wr cmd (Z.lor v (Z.shiftl 1 1)) s in
  let s := wait_reg WAIT cmd (λ v, Z.land v (Z.shiftl 1 1) =? 0) s in
  wait_reg WAIT (op_reg x XHCI_USBSTS) (λ v, Z.land v (Z.shiftl 1 11) =? 0) s.

(** One port of the last loop. *)
Definition xhci_port (p : Z) (s : usbsys D) : usbsys D :=
  let '(portsc, s) := usb_rd (op_reg (uhc s) (u32 (XHCI_PORTSC_BASE + p * 0x10))) s in
  if Z.land portsc 1 =? 0 then s
  else usb_log "[xHCI] Port %u: device connected (PORTSC=0x%x)
" [Num (p + 1); Num portsc] s.

(** The page for the device context array, when there is one. *)
Definition xhci_dcbaa (s : usbsys D) : usbsys D :=
  let '(dcbaap, p) := pmm_alloc (upmm s) in
  let s := with_upmm p s in
  if dcbaap =? 0 then s else
  let s := with_umem (memset dcbaap 0 4096 (umem s)) s in
  let s := usb_wr (op_reg (uhc s) XHCI_DCBAAP) (u32 (Z.land dcbaap 0xFFFFFFFF)) s in
  usb_wr (op_reg (uhc s) (XHCI_DCBAAP + 4)) 0 s.

(** From the reset to the start. *)
Definition xhci_start (n_slots : Z) (s : usbsys D) : usbsys D :=
  let s := usb_log "[xHCI] Reset complete
" [] (xhci_reset s) in
  let s := usb_wr (op_reg (uhc s) XHCI_CONFIG) (Z.land n_slots 0xFF) s in
  let s := usb_wr (op_reg (uhc s) XHCI_DNCTRL) 0 s in
  let s := xhci_dcbaa s in
  let s := usb_wr (op_reg (uhc s) XHCI_USBCMD) 1 s in
  let s := wait_reg WAIT (op_reg (uhc s) XHCI_USBSTS) (λ v, Z.land v 1 =? 0) s in
  usb_log "[xHCI] HC started
" [] s.

Definition xhci_init (p : pci) (s : usbsys D) : bool * usbsys D :=
  match pci_find_class XHCI_CLASS XHCI_SUBCLASS XHCI_PROGIF p with
  | None => (false, usb_log "[xHCI] Not found
" [] s)
  | Some i =>
      let d := default pci_dev_0 (devices p !! Z.to_nat i) in
      let x := uhc s in
      let s := with_uhc (Xhci (x_found x) (Z.land (rd (bar d) 0) (uptr (Z.lnot 0xF))) (cap_len x) (n_ports x)) s in
      if mmio (uhc s) =? 0 then (false, usb_log "[xHCI] Invalid MMIO
" [] s) else
      let x := uhc s in
      let '(c, s) := usb_rd (cap_reg x XHCI_CAPLENGTH) s in
      let s := with_uhc (Xhci (x_found x) (mmio x) (u8 (Z.land c 0xFF)) (n_ports x)) s in
      let x := uhc s in
      let '(hcs1, s) := usb_rd (cap_reg x XHCI_HCSPARAMS1) s in
      let s := with_uhc (Xhci (x_found x) (mmio x) (cap_len x) (Z.land (Z.shiftr hcs1 24) 0xFF)) s in
      let n_slots := Z.land hcs1 0xFF in
      let s := usb_log "[xHCI] PCI %02x:%02x.%x  MMIO=0x%x  cap_len=%u  ports=%u
" [Num (bus d); Num (dev d); Num (fn d); Num (u32 (mmio (uhc s))); Num (cap_len (uhc s)); Num (n_ports (uhc s))] s in
      let '(pci_cmd, dv) := pci_read (bus d) (dev d) (fn d) 0x04 (udev s) in
      let s := with_udev (pci_write (bus d) (dev d) (fn d) 0x04 (Z.lor pci_cmd 0x06) dv) s in
      let s := xhci_start n_slots s in
      let s := for_up xhci_port (span 0 (Z.min (n_ports (uhc s)) 8)) 0 s in
      let x := uhc s in
      (true, with_uhc (Xhci true (mmio x) (cap_len x) (n_ports x)) s)
  end.

Definition xhci_present (s : usbsys D) : bool := x_found (uhc s).

(** bluetooth.c; the state is [bt_found]. *)
Definition BT_CLASS : Z := 0x0E.
Definition BT_SUBCLASS : Z := 0x00.

Definition bluetooth_detect (p : pci) (s : bool * D) : bool * (bool * D) :=
  let '(bt_found, dv) := s in
  match pci_find_class BT_CLASS BT_SUBCLASS 0xFF p with
  | None => (false, (bt_found, klog "[BT] Not found via PCI (USB-attached adapters detected at runtime)
" [] dv))
  | Some i =>
      let d := default pci_dev_0 (devices p !! Z.to_nat i) in
      (true, (true, klog "[BT] Adapter at PCI %02x:%02x.%x
" [Num (bus d); Num (dev d); Num (fn d)] dv))
  end.
Definition bluetooth_present (s : bool * D) : bool := s.1.
End xhci.

(** ** The documented controller

    What matters of it: whether it runs; the reads it still takes until a change
    of that is visible in the status, until a reset is over, and until it is
    ready for accesses; and the three registers.  [faults] counts writes of a
    register, other than the command register, while the controller runs, resets
    or is not ready, which the standard forbids. *)
Record hc := Hc {
  hc_run : bool; halt_in : nat; reset_in : nat; ready_in : nat;
  hc_config : Z; hc_dn : Z; hc_dcbaa : Z * Z; faults : nat
}.

(** The delays of a controller: of starting and stopping, of a reset, and of
    getting ready after one. *)
Record delays := Delays { del_halt : nat; del_reset : nat; del_ready : nat }.

Definition tick (h : hc) : hc :=
  Hc (hc_run h) (pred (halt_in h)) (pred (reset_in h)) (pred (ready_in h)) (hc_config h) (hc_dn h) (hc_dcbaa h) (faults h).

Definition hc_usbcmd (h : hc) : Z := Z.b2z (hc_run h) + 2 * (if decide (reset_in h = 0%nat) then 0 else 1).
Definition hc_halted (h : hc) : bool := if hc_run h then negb (bool_decide (halt_in h = 0%nat)) else bool_decide (halt_in h = 0%nat).
Definition hc_usbsts (h : hc) : Z := Z.b2z (hc_halted h) + 2 ^ 11 * (if decide (ready_in h = 0%nat) then 0 else 1).

Definition hc_idle (h : hc) : bool :=
  negb (hc_run h) && bool_decide (halt_in h = 0%nat) && bool_decide (reset_in h = 0%nat) && bool_decide (ready_in h = 0%nat).

(** A write of the command register: a reset needs a halted controller. *)
Definition hc_command (dl : delays) (v : Z) (h : hc) : hc :=
  if Z.testbit v 1 then Hc false 0 (del_reset dl) (del_ready dl) 0 0 (0, 0) (faults h + if hc_halted h then 0 else 1)
  else Hc (Z.testbit v 0) (if Bool.eqb (hc_run h) (Z.testbit v 0) then halt_in h else del_halt dl) (reset_in h) (ready_in h)
    (hc_config h) (hc_dn h) (hc_dcbaa h) (faults h).

Definition hc_blame (h : hc) : nat := (faults h + if hc_idle h then 0 else 1)%nat.
Definition hc_set_config (v : Z) (h : hc) : hc :=
  Hc (hc_run h) (halt_in h) (reset_in h) (ready_in h) v (hc_dn h) (hc_dcbaa h) (hc_blame h).
Definition hc_set_dn (v : Z) (h : hc) : hc :=
  Hc (hc_run h) (halt_in h) (reset_in h) (ready_in h) (hc_config h) v (hc_dcbaa h) (hc_blame h).
Definition hc_set_dcbaa (v : Z * Z) (h : hc) : hc :=
  Hc (hc_run h) (halt_in h) (reset_in h) (ready_in h) (hc_config h) (hc_dn h) v (hc_blame h).

(** The registers start at [regs_at]; the operational ones [caps] bytes later. *)
Class XhciRegs (D : Type) `{Ports D} `{Kprint D} `{!Mmio D} := {
  hc_of : D → hc;
  hc_delays : delays;
  regs_at : Z; caps : Z; params1 : Z;
  regs_bound : 0 < regs_at ∧ regs_at mod 16 = 0 ∧ 0 ≤ caps < 2 ^ 8 ∧ regs_at + caps + 2 ^ 16 < 2 ^ 32 ∧ 0 ≤ params1;
  hc_read : ∀ a d, hc_of (mmio_rd a d).2 = tick (hc_of d);
  caps_read : ∀ d, Z.land (mmio_rd regs_at d).1 0xFF = caps;
  params_read : ∀ d, (mmio_rd (regs_at + 4) d).1 = params1;
  cmd_read : ∀ d, (mmio_rd (regs_at + caps) d).1 = hc_usbcmd (hc_of d);
  sts_read : ∀ d, (mmio_rd (regs_at + caps + 4) d).1 = hc_usbsts (hc_of d);
  cmd_write : ∀ v d, hc_of (mmio_wr (regs_at + caps) v d) = hc_command hc_delays v (hc_of d);
  dn_write : ∀ v d, hc_of (mmio_wr (regs_at + caps + 0x14) v d) = hc_set_dn v (hc_of d);
  dcbaa_write : ∀ v d, hc_of (mmio_wr (regs_at + caps + 0x30) v d) = hc_set_dcbaa (v, (hc_dcbaa (hc_of d)).2) (hc_of d);
  dcbaa_write4 : ∀ v d, hc_of (mmio_wr (regs_at + caps + 0x34) v d) = hc_set_dcbaa ((hc_dcbaa (hc_of d)).1, v) (hc_of d);
  config_write : ∀ v d, hc_of (mmio_wr (regs_at + caps + 0x38) v d) = hc_set_config v (hc_of d);
  hc_print : ∀ l d, hc_of (kprint l d) = hc_of d;
  hc_inl : ∀ p d, hc_of (inl p d).2 = hc_of d;
  hc_outl : ∀ p v d, hc_of (outl p v d) = hc_of d
}.

(** The bits the driver looks at. *)
Lemma sts_halted h : negb (Z.land (hc_usbsts h) 1 =? 0) = hc_halted h.
Proof. unfold hc_usbsts. destruct (hc_halted h), (decide _); done. Qed.
Lemma sts_ready h : (Z.land (hc_usbsts h) (Z.shiftl 1 11) =? 0) = bool_decide (ready_in h = 0%nat).
Proof. unfold hc_usbsts. rewrite bool_decide_decide. destruct (hc_halted h), (decide _); done. Qed.
Lemma cmd_reset h : (Z.land (hc_usbcmd h) (Z.shiftl 1 1) =? 0) = bool_decide (reset_in h = 0%nat).
Proof. unfold hc_usbcmd. rewrite bool_decide_decide. destruct (hc_run h), (decide _); done. Qed.
Lemma cmd_stop h : reset_in h = 0%nat → Z.testbit (Z.land (hc_usbcmd h) (u32 (Z.lnot 1))) 0 = false ∧
  Z.testbit (Z.land (hc_usbcmd h) (u32 (Z.lnot 1))) 1 = false.
Proof. intros E. unfold hc_usbcmd. rewrite decide_True by done. by destruct (hc_run h). Qed.
Lemma cmd_start_reset h : Z.testbit (Z.lor (hc_usbcmd h) (Z.shiftl 1 1)) 1 = true.
Proof. unfold hc_usbcmd. by destruct (hc_run h), (decide _). Qed.

(** Only time has passed. *)
Definition later (h h' : hc) : Prop :=
  hc_run h' = hc_run h ∧ (halt_in h' ≤ halt_in h)%nat ∧ (reset_in h' ≤ reset_in h)%nat ∧ (ready_in h' ≤ ready_in h)%nat ∧
  hc_config h' = hc_config h ∧ hc_dn h' = hc_dn h ∧ hc_dcbaa h' = hc_dcbaa h ∧ faults h' = faults h.

#[global] Instance later_preorder : PreOrder later.
Proof. split; [by intros h|]. unfold later. intros a b c Hab Hbc. intuition (congruence || lia). Qed.

Lemma later_tick h : later h (tick h).
Proof. unfold later, tick. cbn. intuition lia. Qed.

(** Stopped, or reset, and ready. *)
Definition hc_quiet (h : hc) : Prop := hc_run h = false ∧ halt_in h = 0%nat ∧ reset_in h = 0%nat ∧ ready_in h = 0%nat.

Lemma quiet_idle h : hc_quiet h → hc_idle h = true.
Proof. intros (A & B & C & E). unfold hc_idle. by rewrite A, B, C, E. Qed.

Section controller.
Context `{Arch} `{XhciRegs D}.
Implicit Types (s : usbsys D) (d : D).

Definition our (x : xhci) : Prop := mmio x = regs_at ∧ cap_len x = caps.

Lemma op_reg_at x off : our x → 0 ≤ off < 2 ^ 16 → op_reg x off = regs_at + caps + off.
Proof. intros [A B] Ho. unfold op_reg. rewrite A, B. destruct regs_bound as (? & ? & ? & ? & ?). apply wrap_word_u32_small. lia. Qed.

(** A wait ends when its delay is over, as long as it is short enough. *)
Lemma wait_reg_spec (delay : hc → nat) r ready h0 : (∀ h, delay (tick h) = pred (delay h)) →
  (∀ d, later h0 (hc_of d) → ready (mmio_rd r d).1 = bool_decide (delay (hc_of d) = 0%nat)) →
  ∀ n s, later h0 (hc_of (udev s)) → (delay (hc_of (udev s)) < n)%nat →
  ∃ d', wait_reg n r ready s = with_udev d' s ∧ later h0 (hc_of d') ∧ delay (hc_of d') = 0%nat.
Proof.
  intros Htick Hready. induction n as [|n IH]; intros s Hl Hd; [lia|]. cbn [wait_reg]. unfold usb_rd.
  pose proof (Hready (udev s) Hl) as E. pose proof (hc_read r (udev s)) as Et. destruct (mmio_rd r (udev s)) as [v d]. cbn [fst snd] in *.
  rewrite E. assert (later h0 (hc_of d)) as Hl' by (rewrite Et; etrans; [exact Hl|apply later_tick]).
  assert (delay (hc_of d) = pred (delay (hc_of (udev s)))) as Ed by by rewrite Et.
  case_bool_decide as D0; [exists d; split; [done|]; split; [done|]; by rewrite Ed, D0|].
  destruct (IH (with_udev d s) Hl') as (d' & -> & A & B); [cbn [with_udev udev]; lia|]. by exists d'.
Qed.

(** Reading the command register and writing it back changed. *)
Lemma cmd_update s f : our (uhc s) → ∃ d' v, usb_wr (op_reg (uhc s) XHCI_USBCMD) (f v) (usb_rd (op_reg (uhc s) XHCI_USBCMD) s).2 = with_udev d' s ∧
  (usb_rd (op_reg (uhc s) XHCI_USBCMD) s).1 = v ∧ v = hc_usbcmd (hc_of (udev s)) ∧ hc_of d' = hc_command hc_delays (f v) (tick (hc_of (udev s))).
Proof.
  intros Hx. rewrite op_reg_at by (done || (unfold XHCI_USBCMD; lia)). unfold XHCI_USBCMD. rewrite Z.add_0_r. unfold usb_rd, usb_wr.
  pose proof (cmd_read (udev s)) as E. pose proof (hc_read (regs_at + caps) (udev s)) as Et.
  destruct (mmio_rd _ (udev s)) as [v d]. cbn [fst snd] in *. exists (mmio_wr (regs_at + caps) (f v) d), v.
  split; [done|]. split; [done|]. split; [done|]. by rewrite cmd_write, Et.
Qed.

Definition quick (h : hc) : Prop :=
  (halt_in h < WAIT)%nat ∧ (del_halt hc_delays < WAIT)%nat ∧ (del_reset hc_delays < WAIT)%nat ∧ (del_ready hc_delays < WAIT)%nat.

(** The reset: the controller is stopped first, and at its end ready, with the
    registers cleared. *)
Lemma xhci_reset_spec s : our (uhc s) → quick (hc_of (udev s)) → reset_in (hc_of (udev s)) = 0%nat →
  ∃ d', xhci_reset s = with_udev d' s ∧ hc_quiet (hc_of d') ∧ faults (hc_of d') = faults (hc_of (udev s)) ∧ hc_dcbaa (hc_of d') = (0, 0).
Proof.
  intros Hx (Q1 & Q2 & Q3 & Q4) Hr. unfold xhci_reset.
  destruct (cmd_update s (λ v, Z.land v (u32 (Z.lnot 1))) Hx) as (d1 & v1 & E1 & Ev1 & Hv1 & Hd1).
  destruct (usb_rd (op_reg (uhc s) XHCI_USBCMD) s) as [v s0]. cbn [fst snd] in *. subst v. rewrite E1. clear E1 s0.
  destruct (cmd_stop _ Hr) as [B0 B1]. rewrite <- Hv1 in B0, B1. unfold hc_command in Hd1. rewrite B1, B0 in Hd1.
  destruct (wait_reg_spec halt_in (op_reg (uhc s) XHCI_USBSTS) (λ v, negb (Z.land v 1 =? 0)) (hc_of d1))
    with (n := WAIT) (s := with_udev d1 s) as (d2 & -> & L2 & K2); [done| |done| |].
  { intros d Hl. rewrite op_reg_at by (done || (unfold XHCI_USBSTS; lia)). unfold XHCI_USBSTS. rewrite sts_read, sts_halted.
    unfold hc_halted. destruct Hl as (-> & _). by rewrite Hd1. }
  { cbn [with_udev udev]. rewrite Hd1. cbn. destruct (Bool.eqb _ _); lia. }
  change (with_udev d2 (with_udev d1 s)) with (with_udev d2 s).
  destruct (cmd_update (with_udev d2 s) (λ v, Z.lor v (Z.shiftl 1 1)) Hx) as (d3 & v3 & E3 & Ev3 & Hv3 & Hd3).
  change (uhc (with_udev d2 s)) with (uhc s) in *. change (with_udev d3 (with_udev d2 s)) with (with_udev d3 s) in E3.
  change (udev (with_udev d2 s)) with d2 in *.
  destruct (usb_rd (op_reg (uhc s) XHCI_USBCMD) _) as [v s0]. cbn [fst snd] in *. subst v. rewrite E3. clear E3 s0.
  subst v3. unfold hc_command in Hd3. rewrite cmd_start_reset in Hd3.
  assert (hc_halted (tick (hc_of d2)) = true) as Hh.
  { unfold hc_halted. cbn [tick hc_run halt_in]. destruct L2 as (-> & _). rewrite K2, Hd1. done. }
  rewrite Hh in Hd3. cbn [tick faults] in Hd3.
  destruct (wait_reg_spec reset_in (op_reg (uhc s) XHCI_USBCMD) (λ v, Z.land v (Z.shiftl 1 1) =? 0) (hc_of d3))
    with (n := WAIT) (s := with_udev d3 s) as (d4 & -> & L4 & K4); [done| |done|cbn [with_udev udev]; by rewrite Hd3|].
  { intros d _. rewrite op_reg_at by (done || (unfold XHCI_USBCMD; lia)). unfold XHCI_USBCMD. rewrite Z.add_0_r, cmd_read. apply cmd_reset. }
  change (with_udev d4 (with_udev d3 s)) with (with_udev d4 s).
  destruct (wait_reg_spec ready_in (op_reg (uhc s) XHCI_USBSTS) (λ v, Z.land v (Z.shiftl 1 11) =? 0) (hc_of d4))
    with (n := WAIT) (s := with_udev d4 s) as (d5 & E5 & L5 & K5); [done| |done| |].
  { intros d _. rewrite op_reg_at by (done || (unfold XHCI_USBSTS; lia)). unfold XHCI_USBSTS. rewrite sts_read. apply sts_ready. }
  { cbn [with_udev udev]. destruct L4 as (_ & _ & _ & L & _). rewrite Hd3 in L. cbn [ready_in] in L. lia. }
  change (with_udev d5 (with_udev d4 s)) with (with_udev d5 s) in E5. rewrite E5. exists d5. split; [done|].
  assert (reset_in (hc_of d5) = 0%nat) as C by (destruct L5 as (_ & _ & L & _); lia).
  assert (later (hc_of d3) (hc_of d5)) as (A & B & _ & _ & _ & _ & F & G) by by etrans. rewrite Hd3 in A, B, F, G.
  cbn [hc_run halt_in hc_dcbaa faults] in A, B, F, G. split; [|split; [|done]].
  - split; [done|]. split; [lia|]. by split.
  - rewrite G, Nat.add_0_r. destruct L2 as (_ & _ & _ & _ & _ & _ & _ & L). by rewrite L, Hd1.
Qed.

(** The context array: a fresh page full of zeros, or none. *)
Definition dcbaa_set (s s' : usbsys D) (h : hc) : Prop :=
  let '(page, p) := pmm_alloc (upmm s) in
  upmm s' = p ∧ hc_dcbaa h = (page, 0) ∧
  umem s' = (if decide (page = 0) then umem s else memset page 0 4096 (umem s)).

Lemma xhci_dcbaa_spec s : our (uhc s) → pmm_ok (upmm s) → hc_quiet (hc_of (udev s)) → hc_dcbaa (hc_of (udev s)) = (0, 0) →
  let s' := xhci_dcbaa s in let h := hc_of (udev s) in let h' := hc_of (udev s') in
  uhc s' = uhc s ∧ dcbaa_set s s' h' ∧ hc_quiet h' ∧ hc_config h' = hc_config h ∧ hc_dn h' = hc_dn h ∧ faults h' = faults h.
Proof.
  intros Hx Hp Hq H0' s' h h'. subst h h' s'. unfold dcbaa_set, xhci_dcbaa.
  destruct (pmm_alloc (upmm s)) as [page p] eqn:Ea. destruct (Z.eqb_spec page 0) as [->|Hne]; [by cbn [with_upmm udev uhc upmm umem]; rewrite H0'|].
  assert (0 ≤ page < 2 ^ 32) as Hpage.
  { unfold pmm_alloc in Ea. eapply pmm_alloc_from_spec in Ea; [|exact Hp|lia|rewrite of_nat_span; unfold MAX_PAGES; lia|intros; lia].
    destruct Ea as (_ & [(-> & _)|(k & -> & Hk & _)]); [lia|]. unfold MAX_PAGES, PAGE_SIZE in *. lia. }
  unfold usb_wr. cbn [with_udev with_umem with_upmm udev uhc upmm umem].
  rewrite !op_reg_at by (done || (unfold XHCI_DCBAAP; lia)). unfold XHCI_DCBAAP. replace (regs_at + caps + (48 + 4)) with (regs_at + caps + 0x34) by lia.
  rewrite dcbaa_write4, dcbaa_write. change 0xFFFFFFFF with (Z.ones 32). rewrite Z.land_ones by lia.
  change (page mod 2 ^ 32) with (u32 page). rewrite wrap_wrap, wrap_small by lia. rewrite decide_False by done.
  pose proof (quiet_idle _ Hq) as Hi. pose proof Hq as (Q1 & Q2 & Q3 & Q4).
  unfold hc_set_dcbaa, hc_blame. cbn [hc_dcbaa fst snd]. unfold hc_quiet. cbn [hc_run halt_in reset_in ready_in hc_config hc_dn faults].
  assert (∀ f v, hc_idle (Hc (hc_run (hc_of (udev s))) (halt_in (hc_of (udev s))) (reset_in (hc_of (udev s)))
    (ready_in (hc_of (udev s))) (hc_config (hc_of (udev s))) (hc_dn (hc_of (udev s))) v f) = true) as Hi' by (intros; exact Hi).
  rewrite Hi, Hi', !Nat.add_0_r. done.
Qed.

(** After the reset: the number of slots, no notifications, the context array,
    and the start. *)
Lemma xhci_start_spec n_slots s : our (uhc s) → pmm_ok (upmm s) → quick (hc_of (udev s)) → reset_in (hc_of (udev s)) = 0%nat →
  let s' := xhci_start n_slots s in let h := hc_of (udev s') in
  uhc s' = uhc s ∧ dcbaa_set s s' h ∧ hc_run h = true ∧ hc_halted h = false ∧ hc_config h = Z.land n_slots 0xFF ∧ hc_dn h = 0 ∧
  faults h = faults (hc_of (udev s)).
Proof.
  intros Hx Hp Hquick Hr s' h. subst h s'. unfold xhci_start.
  destruct (xhci_reset_spec s Hx Hquick Hr) as (d1 & -> & Hq & Hf & Hd).
  cbv zeta. set (s0 := usb_log "[xHCI] Reset complete
" [] (with_udev d1 s)).
  set (s1 := usb_wr (op_reg (uhc s0) XHCI_CONFIG) (Z.land n_slots 0xFF) s0). set (s2 := usb_wr (op_reg (uhc s1) XHCI_DNCTRL) 0 s1).
  assert (uhc s2 = uhc s ∧ upmm s2 = upmm s ∧ umem s2 = umem s) as (U1 & U2 & U3) by done.
  assert (hc_of (udev s2) = Hc (hc_run (hc_of d1)) (halt_in (hc_of d1)) (reset_in (hc_of d1)) (ready_in (hc_of d1)) (Z.land n_slots 0xFF) 0
    (0, 0) (faults (hc_of d1))) as E2.
  { unfold s2, s1, s0, usb_wr, usb_log, klog. cbn [with_udev uhc udev]. rewrite !op_reg_at by (done || (unfold XHCI_CONFIG, XHCI_DNCTRL; lia)).
    unfold XHCI_CONFIG, XHCI_DNCTRL. rewrite dn_write, config_write, hc_print. unfold hc_set_dn, hc_set_config, hc_blame.
    pose proof (quiet_idle _ Hq) as Hi. cbn [hc_run halt_in reset_in ready_in hc_config hc_dn hc_dcbaa faults].
    match goal with |- context [hc_idle (Hc ?a ?b ?c ?e ?f ?g ?x ?y)] => change (hc_idle (Hc a b c e f g x y)) with (hc_idle (hc_of d1)) end.
    by rewrite Hi, Hd, !Nat.add_0_r. }
  assert (hc_quiet (hc_of (udev s2))) as Hq2 by (by rewrite E2).
  destruct (xhci_dcbaa_spec s2) as (A & B & C & F & G & I); [by rewrite U1|by rewrite U2|done|by rewrite E2|].
  assert (our (uhc (xhci_dcbaa s2))) as Hx3 by by rewrite A, U1.
  set (s3 := xhci_dcbaa s2) in *. clearbody s3. unfold dcbaa_set in B. rewrite U2, U3 in B.
  set (s4 := usb_wr (op_reg (uhc s3) XHCI_USBCMD) 1 s3). set (h3 := hc_of (udev s3)) in *.
  assert (hc_of (udev s4) = Hc true (del_halt hc_delays) (reset_in h3) (ready_in h3) (hc_config h3) (hc_dn h3) (hc_dcbaa h3) (faults h3)) as E4.
  { unfold s4, usb_wr. cbn [with_udev udev]. rewrite op_reg_at by (done || (unfold XHCI_USBCMD; lia)). unfold XHCI_USBCMD.
    rewrite Z.add_0_r, cmd_write. fold h3. unfold hc_command. change (Z.testbit 1 1) with false. change (Z.testbit 1 0) with true. cbv iota.
    by destruct C as (-> & _). }
  destruct (wait_reg_spec halt_in (op_reg (uhc s4) XHCI_USBSTS) (λ v, Z.land v 1 =? 0) (hc_of (udev s4)))
    with (n := WAIT) (s := s4) as (d5 & E5 & L5 & K5); [done| |done| |].
  { intros d Hl. change (uhc s4) with (uhc s3). rewrite op_reg_at by (done || (unfold XHCI_USBSTS; lia)). unfold XHCI_USBSTS. rewrite sts_read.
    rewrite <- (negb_involutive (_ =? 0)), sts_halted. unfold hc_halted. destruct Hl as (-> & _). rewrite E4. cbn. apply negb_involutive. }
  { rewrite E4. cbn. by destruct Hquick as (_ & ? & _). }
  rewrite E5. unfold usb_log, klog. cbn [with_udev uhc udev upmm umem]. rewrite hc_print. destruct L5 as (L1 & _ & _ & _ & L5 & L6 & L7 & L8).
  rewrite E4 in L1, L5, L6, L7, L8. cbn in L1, L5, L6, L7, L8. unfold dcbaa_set. rewrite L7, L5, L6, L8.
  split; [by rewrite <- U1, <- A|]. split; [exact B|]. split; [done|].
  split; [unfold hc_halted; by rewrite L1, K5|]. rewrite F, G, I, E2. cbn. by rewrite Hf.
Qed.
End controller.

Section ports_read.
Context `{Arch} `{XhciRegs D}.

Lemma xhci_port_keeps q (s : usbsys D) : uhc (xhci_port q s) = uhc s ∧ upmm (xhci_port q s) = upmm s ∧ umem (xhci_port q s) = umem s ∧
  later (hc_of (udev s)) (hc_of (udev (xhci_port q s))).
Proof.
  unfold xhci_port, usb_rd. set (a := op_reg _ _). pose proof (hc_read a (udev s)) as Et. destruct (mmio_rd a (udev s)) as [v d].
  cbn [snd] in Et. destruct (Z.land v 1 =? 0); unfold usb_log, klog; cbn [with_udev uhc upmm umem udev]; rewrite ?hc_print, Et;
    repeat split; apply later_tick.
Qed.

Lemma xhci_ports_keep n (s : usbsys D) : 0 ≤ n → let s' := for_up xhci_port (span 0 n) 0 s in
  uhc s' = uhc s ∧ upmm s' = upmm s ∧ umem s' = umem s ∧ later (hc_of (udev s)) (hc_of (udev s')).
Proof.
  intros Hn s'. apply (for_span_inv (λ _ t, uhc t = uhc s ∧ upmm t = upmm s ∧ umem t = umem s ∧ later (hc_of (udev s)) (hc_of (udev t)))
    xhci_port 0 n s); [lia|done|].
  intros q t _ (A & B & C & E). destruct (xhci_port_keeps q t) as (A' & B' & C' & E').
  split_and!; [congruence..|by etrans].
Qed.
End ports_read.

(** C31: without a controller on the bus [xhci_init] refuses and touches nothing.
    With one, whatever it was doing, and as long as it is quicker than the waits
    allow: it is stopped, reset and started in that order, each wait ends by the
    status it waits for, and no register is written while the controller runs,
    resets or is not ready; it then runs with the slots its parameters announce,
    notifications off, and a context array that is the first free page, cleared
    (none when there is no page). *)
Theorem xhci_init_starts `{Arch} `{XhciRegs D} (p : pci) (s : usbsys D) :
  let '(ok, s') := xhci_init p s in let h := hc_of (udev s') in
  match pci_find_class XHCI_CLASS XHCI_SUBCLASS XHCI_PROGIF p with
  | None => ok = false ∧ uhc s' = uhc s ∧ upmm s' = upmm s ∧ umem s' = umem s ∧ h = hc_of (udev s)
  | Some i =>
      Z.land (rd (bar (default pci_dev_0 (devices p !! Z.to_nat i))) 0) (uptr (Z.lnot 0xF)) = regs_at →
      pmm_ok (upmm s) → quick (hc_of (udev s)) → reset_in (hc_of (udev s)) = 0%nat →
      ok = true ∧ xhci_present s' = true ∧ hc_run h = true ∧ hc_halted h = false ∧
      hc_config h = Z.land params1 0xFF ∧ hc_dn h = 0 ∧ dcbaa_set s s' h ∧ faults h = faults (hc_of (udev s))
  end.
Proof.
  unfold xhci_init. destruct (pci_find_class _ _ _ p) as [i|].
  2:{ unfold usb_log, klog. cbn [with_udev uhc upmm umem udev]. by rewrite hc_print. }
  set (x := default pci_dev_0 _). cbv zeta. destruct (if _ =? 0 then _ else _) as [ok s'] eqn:E. intros Hbar Hp Hq Hr.
  revert E. rewrite Hbar. cbn [with_uhc uhc mmio]. destruct regs_bound as (R1 & R2 & R3 & R4 & R5).
  rewrite (proj2 (Z.eqb_neq regs_at 0)) by lia. unfold usb_rd, cap_reg, XHCI_CAPLENGTH, XHCI_HCSPARAMS1.
  cbn [with_uhc uhc mmio udev x_found cap_len n_ports]. rewrite !wrap_word_u32_small by lia. rewrite Z.add_0_r.
  pose proof (caps_read (udev s)) as Ec. pose proof (hc_read regs_at (udev s)) as T1. destruct (mmio_rd regs_at (udev s)) as [c d1].
  cbn [fst snd with_uhc with_udev uhc upmm umem udev mmio x_found cap_len n_ports] in *. rewrite ?wrap_word_u32_small by lia.
  pose proof (params_read d1) as Ep. pose proof (hc_read (regs_at + 4) d1) as T2. destruct (mmio_rd (regs_at + 4) d1) as [hcs1 d2].
  cbn [fst snd] in *. subst hcs1. rewrite Ec, (wrap_small 8) by lia. unfold usb_log, klog.
  cbn [with_uhc with_udev uhc upmm umem udev mmio x_found cap_len n_ports]. set (d3 := kprint _ d2).
  assert (hc_of d3 = hc_of d2) as T3 by apply hc_print. clearbody d3.
  unfold pci_read. set (d4 := outl PCI_CFG_ADDR _ d3). assert (hc_of d4 = hc_of d2) as T4 by by (unfold d4; rewrite hc_outl).
  clearbody d4. pose proof (hc_inl PCI_CFG_DATA d4) as T5. destruct (inl PCI_CFG_DATA d4) as [pci_cmd d5]. cbn [snd] in T5.
  unfold pci_write. set (d6 := outl PCI_CFG_DATA _ _). assert (hc_of d6 = tick (tick (hc_of (udev s)))) as T6.
  { unfold d6. rewrite !hc_outl, T5, T4, T2, T1. done. }
  clearbody d6. set (s1 := with_udev d6 _). set (s2 := xhci_start _ s1).
  destruct (xhci_start_spec (Z.land params1 0xFF) s1) as (A & B & C & F & G & I & J).
  { by split. } { done. }
  { destruct Hq as (Q1 & Q). split; [|done]. change (udev s1) with d6. rewrite T6. cbn. lia. }
  { change (udev s1) with d6. rewrite T6. cbn. by rewrite Hr. }
  fold s2 in A, B, C, F, G, I, J. clearbody s2. rewrite A. cbn [uhc s1 with_udev n_ports].
  set (n := Z.min _ 8). destruct (xhci_ports_keep n s2) as (U1 & U2 & U3 & L).
  { unfold n. cbn. apply Z.min_glb; [|lia]. apply Z.land_nonneg. by right. }
  set (s3 := for_up xhci_port _ 0 s2) in *. clearbody s3. intros [= <- <-]. cbn [with_uhc udev uhc upmm umem].
  destruct L as (L1 & L2 & _ & _ & L5 & L6 & L7 & L8). split; [done|]. split; [done|]. rewrite L1, L5, L6, L8.
  split; [done|]. split; [unfold hc_halted in *; rewrite L1; rewrite C in F |- *; apply negb_false_iff, bool_decide_eq_true in F;
    apply negb_false_iff, bool_decide_eq_true; lia|].
  split; [rewrite G; by rewrite <- Z.land_assoc|]. split; [done|]. split.
  - unfold dcbaa_set in *. cbn [with_uhc upmm umem]. change (upmm s1) with (upmm s) in B. change (umem s1) with (umem s) in B.
    destruct (pmm_alloc (upmm s)). by rewrite U2, U3, L7.
  - rewrite J. change (udev s1) with d6. by rewrite T6.
Qed.

(** ** A controller *)

(** Its operational registers are 0x20 bytes after the capability registers at
    0xFEB00000; it has eight slots and one port, with a device. *)
Record usb_demo := UsbDemo { demo_hc : hc }.
Definition demo_delays : delays := Delays 3 5 2.

#[export] Instance usb_demo_ports : Ports usb_demo := {|
  inb p d := (0, d); outb p v d := d; inw p d := (0, d); outw p v d := d; inl p d := (0, d); outl p v d := d
|}.
#[export] Instance usb_demo_print : Kprint usb_demo := λ _ d, d.
#[export] Instance usb_demo_mmio : Mmio usb_demo := {|
  mmio_rd a d :=
    (if a =? 0xFEB00000 then 0x01000020 else if a =? 0xFEB00004 then 0x01000008
     else if a =? 0xFEB00020 then hc_usbcmd (demo_hc d) else if a =? 0xFEB00024 then hc_usbsts (demo_hc d)
     else if a =? 0xFEB00420 then 1 else 0, UsbDemo (tick (demo_hc d)));
  mmio_wr a v d :=
    let h := demo_hc d in
    UsbDemo (if a =? 0xFEB00020 then hc_command demo_delays v h else if a =? 0xFEB00034 then hc_set_dn v h
      else if a =? 0xFEB00050 then hc_set_dcbaa (v, (hc_dcbaa h).2) h else if a =? 0xFEB00054 then hc_set_dcbaa ((hc_dcbaa h).1, v) h
      else if a =? 0xFEB00058 then hc_set_config v h else h)
|}.
#[export] Program Instance usb_demo_regs : XhciRegs usb_demo := {|
  hc_of := demo_hc; hc_delays := demo_delays; regs_at := 0xFEB00000; caps := 0x20; params1 := 0x01000008
|}.
Solve All Obligations with first [done | by intros; vm_compute | lia].

(** A controller the firmware left running. *)
Definition demo_usb : usbsys usb_demo := UsbSys xhci_0 all_free ∅ (UsbDemo (Hc true 0 0 0 4 2 (0x7000, 0) 0)).
Definition demo_usb_bus : pci := Pci [PciDev 0 4 0 0x8086 0x9D2F 0x0C 0x03 0x30 0 [0xFEB00004; 0; 0; 0; 0; 0] 11] 1.

Lemma xhci_init_starts_witness :
  let _ : Arch := X86 in
  let '(ok, s') := xhci_init demo_usb_bus demo_usb in
  ok = true ∧ hc_run (hc_of (udev s')) = true ∧ hc_config (hc_of (udev s')) = 8 ∧ faults (hc_of (udev s')) = 0%nat.
Proof.
  intros HA. pose proof (xhci_init_starts demo_usb_bus demo_usb) as Hw.
  destruct (xhci_init demo_usb_bus demo_usb) as [ok s'].
  destruct Hw as (A & _ & B & _ & C & _ & _ & F).
  - vm_compute. reflexivity.
  - apply all_free_ok.
  - unfold quick, WAIT. cbn. lia.
  - reflexivity.
  - split; [exact A|]. split; [exact B|]. split; [exact C|exact F].
Defined.
