(* ===== verification/Ata.v ===== *)
(** The ATA disk driver: src/drivers/storage/ata.c.

    The drive behind the ports is a parameter; [AtaDisk] states the documented
    behaviour of programmed-input transfers on one channel.  A drive that follows
    it gives the block device [fat32_mount] expects. *)
From S2P Require Import Prelude CString Ports Printf Heap Vfs Fat32.

Definition ATA_PRIMARY_BASE : Z := 0x1F0.
Definition ATA_PRIMARY_ALT : Z := 0x3F6.
Definition ATA_SECONDARY_BASE : Z := 0x170.
Definition ATA_SECONDARY_ALT : Z := 0x376.
Definition ATA_REG_DATA : Z := 0.
Definition ATA_REG_SECCOUNT : Z := 2.
Definition ATA_REG_LBA_LO : Z := 3.
Definition ATA_REG_LBA_MID : Z := 4.
Definition ATA_REG_LBA_HI : Z := 5.
Definition ATA_REG_DRIVE : Z := 6.
Definition ATA_REG_STATUS : Z := 7.
Definition ATA_REG_CMD : Z := 7.
Definition ATA_SR_BSY : Z := 0x80.
Definition ATA_SR_DRQ : Z := 0x08.
Definition ATA_SR_ERR : Z := 0x01.
Definition ATA_CMD_READ_PIO : Z := 0x20.
Definition ATA_CMD_WRITE_PIO : Z := 0x30.
Definition ATA_CMD_IDENTIFY : Z := 0xEC.
Definition ATA_MAX_DRIVES : Z := 4.

Record ata_drive_t := AtaDrive {
  a_present : bool; a_base : Z; a_alt : Z; slave : Z; sectors : Z; model : list Z
}.
Definition ata_drive_0 : ata_drive_t := AtaDrive false 0 0 0 0 (replicate 41 0).

(** The drive array and [ndrives]. *)
Record ata := Ata { drives : list ata_drive_t; ndrives : Z }.
Definition ata_0 : ata := Ata (replicate (Z.to_nat ATA_MAX_DRIVES) ata_drive_0) 0.
Definition drive (a : ata) (i : Z) : ata_drive_t := default ata_drive_0 (drives a !! Z.to_nat i).

(** A set bit of a status byte. *)
Definition has (s bit : Z) : bool := negb (Z.land s bit =? 0).

Definition delay400 `{Ports D} (alt : Z) (d : D) : D := for_up (λ _ d, (inb alt d).2) (span 0 4) 0 d.

Fixpoint wait_busy_loop `{Ports D} (n : nat) (base : Z) (d : D) : Z * D :=
  match n with
  | O => (-1, d)
  | S k =>
      let '(s, d) := inb (base + ATA_REG_STATUS) d in
      if negb (has s ATA_SR_BSY) then (if has s ATA_SR_ERR then -1 else 0, d)
      else wait_busy_loop k base d
  end.

Fixpoint wait_drq_loop `{Ports D} (n : nat) (base : Z) (d : D) : Z * D :=
  match n with
  | O => (-1, d)
  | S k =>
      let '(s, d) := inb (base + ATA_REG_STATUS) d in
      if has s ATA_SR_ERR then (-1, d)
      else if has s ATA_SR_DRQ then (0, d)
      else wait_drq_loop k base d
  end.

Definition ATA_POLLS : nat := Z.to_nat 100000.
Definition wait_busy `{Ports D} (base : Z) (d : D) : Z * D := wait_busy_loop ATA_POLLS base d.
Definition wait_drq `{Ports D} (base : Z) (d : D) : Z * D := wait_drq_loop ATA_POLLS base d.

(** [while (end > d->model && *end == ' ') *end-- = 0;] from the index [n]. *)
Fixpoint trim_model (n : nat) (m : list Z) : list Z :=
  match n with
  | O => m
  | S k => if rd m (Z.of_nat n) =? 32 then trim_model k (wr m (Z.of_nat n) 0) else m
  end.

(** The words of an IDENTIFY block. *)
Definition model_string (id old : list Z) : list Z :=
  let m := for_up (λ i m,
      let w := rd id (27 + i) in
      wr (wr m (i * 2) (u8 (Z.shiftr w 8))) (i * 2 + 1) (u8 (Z.land w 0xFF))) (span 0 20) 0 old in
  trim_model 39 (wr m 40 0).

Definition probe `{Ports D} (base alt sl idx : Z) (s : ata * D) : ata * D :=
  let '(a, d) := s in
  let d := outb (base + ATA_REG_DRIVE) (if sl =? 0 then 0xA0 else 0xB0) d in
  let d := delay400 alt d in
  let d := outb (base + ATA_REG_SECCOUNT) 0 d in
  let d := outb (base + ATA_REG_LBA_LO) 0 d in
  let d := outb (base + ATA_REG_LBA_MID) 0 d in
  let d := outb (base + ATA_REG_LBA_HI) 0 d in
  let d := outb (base + ATA_REG_CMD) ATA_CMD_IDENTIFY d in
  let d := delay400 alt d in
  let '(st, d) := inb (base + ATA_REG_STATUS) d in
  if st =? 0 then (a, d) else
  let '(r, d) := wait_busy base d in
  if r <? 0 then (a, d) else
  let '(mid, d) := inb (base + ATA_REG_LBA_MID) d in
  let '(hi, d) := inb (base + ATA_REG_LBA_HI) d in
  if negb (mid =? 0) || negb (hi =? 0) then (a, d) else
  let '(r, d) := wait_drq base d in
  if r <? 0 then (a, d) else
  let '(id, d) := for_up (λ i '(id, d), let '(w, d) := inw (base + ATA_REG_DATA) d in (wr id i w, d))
    (span 0 256) 0 (replicate 256 0, d) in
  let x := AtaDrive true base alt sl (Z.lor (rd id 60) (Z.shiftl (rd id 61) 16))
    (model_string id (model (drive a idx))) in
  (Ata (<[Z.to_nat idx := x]> (drives a)) (ndrives a), d).

Definition ata_init `{Arch} `{Ports D} `{Kprint D} (s : ata * D) : Z * (ata * D) :=
  let s := probe ATA_PRIMARY_BASE ATA_PRIMARY_ALT 0 0 s in
  let s := probe ATA_PRIMARY_BASE ATA_PRIMARY_ALT 1 1 s in
  let s := probe ATA_SECONDARY_BASE ATA_SECONDARY_ALT 0 2 s in
  let s := probe ATA_SECONDARY_BASE ATA_SECONDARY_ALT 1 3 s in
  let '(a, d) := for_up (λ i '(a, d),
      let x := drive a i in
      if a_present x then
        (Ata (drives a) (ndrives a + 1),
         klog "[ATA] Drive %d: %s  %u MiB
" [Num i; Str (until_nul (model x)); Num (sectors x / 2048)] d)
      else (a, d)) (span 0 ATA_MAX_DRIVES) 0 s in
  (ndrives a, (a, d)).

(** A pointer into the array is an index. *)
Definition ata_drive (idx : Z) : option Z := if idx <? ATA_MAX_DRIVES then Some idx else None.

(** The command block both transfers write. *)
Definition ata_command `{Ports D} (x : ata_drive_t) (lba count cmd : Z) (d : D) : D :=
  let b := a_base x in
  let d := outb (b + ATA_REG_DRIVE)
    (u8 (Z.lor (Z.lor 0xE0 (Z.shiftl (slave x) 4)) (Z.land (Z.shiftr lba 24) 0x0F))) d in
  let d := outb (b + ATA_REG_SECCOUNT) count d in
  let d := outb (b + ATA_REG_LBA_LO) (u8 (Z.land lba 0xFF)) d in
  let d := outb (b + ATA_REG_LBA_MID) (u8 (Z.land (Z.shiftr lba 8) 0xFF)) d in
  let d := outb (b + ATA_REG_LBA_HI) (u8 (Z.land (Z.shiftr lba 16) 0xFF)) d in
  outb (b + ATA_REG_CMD) cmd d.

Definition read_words `{Ports D} (base dst : Z) (s : memory * D) : memory * D :=
  for_up (λ w '(m, d), let '(v, d) := inw (base + ATA_REG_DATA) d in (st_le 2 (dst + 2 * w) v m, d))
    (span 0 256) 0 s.

(** The sector loop; [n] sectors are left, [i] are done. *)
Fixpoint read_sectors `{Ports D} (n : nat) (base buf i : Z) (s : memory * D) : Z * (memory * D) :=
  match n with
  | O => (0, s)
  | S k =>
      let '(m, d) := s in
      let '(r, d) := wait_drq base d in
      if r <? 0 then (-1, (m, d))
      else read_sectors k base buf (i + 1) (read_words base (buf + 2 * (i * 256)) (m, d))
  end.

Definition ata_read `{Ports D} (a : ata) (drv lba count buf : Z) (s : memory * D) : Z * (memory * D) :=
  if (ATA_MAX_DRIVES <=? drv) || negb (a_present (drive a drv)) then (-1, s) else
  let x := drive a drv in
  let '(m, d) := s in
  let '(r, d) := wait_busy (a_base x) d in
  if r <? 0 then (-1, (m, d)) else
  let d := ata_command x lba count ATA_CMD_READ_PIO d in
  read_sectors (span 0 count) (a_base x) buf 0 (m, d).

Definition write_words `{Ports D} (base src : Z) (m : memory) (d : D) : D :=
  for_up (λ w d, outw (base + ATA_REG_DATA) (ld_le 2 (src + 2 * w) m) d) (span 0 256) 0 d.

Fixpoint write_sectors `{Ports D} (n : nat) (base buf i : Z) (m : memory) (d : D) : Z * D :=
  match n with
  | O => (0, d)
  | S k =>
      let '(r, d) := wait_drq base d in
      if r <? 0 then (-1, d) else
      let d := write_words base (buf + 2 * (i * 256)) m d in
      let d := outb (base + ATA_REG_CMD) 0xE7 d in
      let '(r, d) := wait_busy base d in
      if r <? 0 then (-1, d) else write_sectors k base buf (i + 1) m d
  end.

Definition ata_write `{Ports D} (a : ata) (drv lba count buf : Z) (m : memory) (d : D) : Z * D :=
  if (ATA_MAX_DRIVES <=? drv) || negb (a_present (drive a drv)) then (-1, d) else
  let x := drive a drv in
  let '(r, d) := wait_busy (a_base x) d in
  if r <? 0 then (-1, d) else
  let d := ata_command x lba count ATA_CMD_WRITE_PIO d in
  write_sectors (span 0 count) (a_base x) buf 0 m d.

(** [ata_read_cb] of kmain.c, the callback [fat32_mount] is given: what the
    512-byte buffer holds after one sector was read from the drive [drv]. *)
Definition ata_read_cb `{Ports D} (a : ata) (drv : Z) (d : D) : BlockDev := λ lba old,
  let '(_, (m, _)) := ata_read a drv lba 1 0 (store_bytes 0 old ∅, d) in load_bytes 512 0 m.

(** ** The documented behaviour of a channel

    [task] are the registers of the command block, [sector u l] the 256 words of
    a sector of the master (0) or the slave (1), [xfer] what a read still has to
    deliver, [wbuf] what a write has received, and [drq] says whether the data
    register may be used.  Nothing is said about when a drive becomes ready. *)
Class AtaDisk (D : Type) `{Ports D} (b : Z) := {
  task : D → Z → Z;
  sector : D → Z → Z → list Z;
  xfer : D → list Z;
  wbuf : D → list Z;
  drq : D → bool;
  task_unit := λ d, Z.b2z (Z.testbit (task d 6) 4);
  task_lba := λ d, task d 3 + 2 ^ 8 * task d 4 + 2 ^ 16 * task d 5 + 2 ^ 24 * (task d 6 mod 16);
  sector_ok : ∀ d u l, length (sector d u l) = 256%nat ∧ Forall (λ w, 0 ≤ w < 2 ^ 16) (sector d u l);
  out_task : ∀ r v d, 2 ≤ r ≤ 6 → 0 ≤ v < 2 ^ 8 →
    sector (outb (b + r) v d) = sector d ∧
    ∀ r', 2 ≤ r' ≤ 6 → task (outb (b + r) v d) r' = if decide (r' = r) then v else task d r';
  status_read : ∀ d, let s := (inb (b + 7) d).1 in let d' := (inb (b + 7) d).2 in
    sector d' = sector d ∧ xfer d' = xfer d ∧ wbuf d' = wbuf d ∧ task d' = task d ∧
    (has s ATA_SR_DRQ = true → has s ATA_SR_ERR = false → drq d' = true);
  cmd_read : ∀ d, 0 < task d 2 →
    sector (outb (b + 7) 0x20 d) = sector d ∧
    xfer (outb (b + 7) 0x20 d) = i ← seqZ 0 (task d 2); sector d (task_unit d) (task_lba d + i);
  data_read : ∀ d w ws, xfer d = w :: ws → drq d = true →
    (inw b d).1 = w ∧ xfer (inw b d).2 = ws ∧ sector (inw b d).2 = sector d ∧
    (Z.of_nat (length ws) mod 256 ≠ 0 → drq (inw b d).2 = true);
  cmd_write : ∀ d, task d 2 = 1 →
    let d' := outb (b + 7) 0x30 d in sector d' = sector d ∧ wbuf d' = [] ∧ task d' = task d;
  data_write : ∀ d w, drq d = true → 0 ≤ w < 2 ^ 16 → (length (wbuf d) < 256)%nat →
    let l := wbuf d ++ [w] in let d' := outw b w d in
    if decide (length l = 256%nat)
    then ∀ u n, sector d' u n = if decide (u = task_unit d ∧ n = task_lba d) then l else sector d u n
    else sector d' = sector d ∧ wbuf d' = l ∧ task d' = task d ∧ drq d' = true;
  cmd_flush : ∀ d, sector (outb (b + 7) 0xE7 d) = sector d
}.

(** The bytes of words, the low byte first. *)
Definition word_bytes (l : list Z) : list Z := w ← l; [w mod 2 ^ 8; w / 2 ^ 8].

(** The drive [drv] of the driver is the unit [u] of the channel at [b]. *)
Definition attached (b : Z) (a : ata) (drv u : Z) : Prop :=
  0 ≤ drv < ATA_MAX_DRIVES ∧ a_present (drive a drv) = true ∧ a_base (drive a drv) = b ∧
  slave (drive a drv) = u ∧ (u = 0 ∨ u = 1).

Section disk.
Context `{AtaDisk D b}.
Implicit Types (d : D) (m : memory).

(** A drive that is always ready before the driver gives up. *)
Definition prompt : Prop := (∀ d, (wait_busy b d).1 = 0) ∧ ∀ d, xfer d ≠ [] → (wait_drq b d).1 = 0.

(** Waiting only reads the status register. *)
Definition waited d d' : Prop :=
  sector d' = sector d ∧ xfer d' = xfer d ∧ wbuf d' = wbuf d ∧ task d' = task d.

Lemma wait_busy_spec n d : let r := wait_busy_loop n b d in (r.1 = 0 ∨ r.1 = -1) ∧ waited d r.2.
Proof.
  revert d. induction n as [|n IH]; intros d; cbn [wait_busy_loop]; [split; [by right|done]|].
  pose proof (status_read d) as (A & B & C & E & _). unfold ATA_REG_STATUS.
  destruct (inb (b + 7) d) as [s d']. cbn [fst snd] in *. destruct (has s ATA_SR_BSY); cbn [negb].
  - destruct (IH d') as [F (A' & B' & C' & E')]. split; [done|]. unfold waited. split_and!; congruence.
  - split; [destruct (has s ATA_SR_ERR); auto|done].
Qed.

Lemma wait_drq_spec n d : let r := wait_drq_loop n b d in
  (r.1 = 0 ∧ drq r.2 = true ∨ r.1 = -1) ∧ waited d r.2.
Proof.
  revert d. induction n as [|n IH]; intros d; cbn [wait_drq_loop]; [split; [by right|done]|].
  pose proof (status_read d) as (A & B & C & E & F). unfold ATA_REG_STATUS.
  destruct (inb (b + 7) d) as [s d']. cbn [fst snd] in *. destruct (has s ATA_SR_ERR); [split; [by right|done]|].
  destruct (has s ATA_SR_DRQ).
  - split; [left; auto|done].
  - destruct (IH d') as [G (A' & B' & C' & E')]. split; [done|]. unfold waited. split_and!; congruence.
Qed.

Lemma word_bytes_cons w l : word_bytes (w :: l) = [w mod 2 ^ 8; w / 2 ^ 8] ++ word_bytes l.
Proof. done. Qed.

Lemma length_word_bytes l : length (word_bytes l) = (2 * length l)%nat.
Proof. induction l as [|w l IH]; [done|]. rewrite word_bytes_cons, length_app, IH. cbn [length]. lia. Qed.

Lemma word_bytes_app l k : word_bytes (l ++ k) = word_bytes l ++ word_bytes k.
Proof. apply bind_app. Qed.

Lemma word_bytes_ok l : Forall (λ w, 0 ≤ w < 2 ^ 16) l → Forall (λ c, 0 ≤ c < 2 ^ 8) (word_bytes l).
Proof.
  induction 1 as [|w l Hw Hl IH]; [constructor|]. rewrite word_bytes_cons.
  constructor; [dlia|]. constructor; [dlia|done].
Qed.

(** A word stored is its two bytes. *)
Lemma st_word_bytes p w m : 0 ≤ w < 2 ^ 16 → bytes_at (st_le 2 p w m) p [w mod 2 ^ 8; w / 2 ^ 8].
Proof.
  intros Hw. cbn [bytes_at st_le]. rewrite ld_st_ne, !ld_st_eq, Z.shiftr_div_pow2 by lia.
  split_and!; [done| |done]. apply wrap_small. dlia.
Qed.

(** The words still to be read land one after the other. *)
Lemma read_loop_spec dst l : ∀ ws i m d, xfer d = ws ++ l → Z.of_nat (length l) mod 256 = 0 → drq d = true →
  Forall (λ w, 0 ≤ w < 2 ^ 16) ws → (length ws ≤ 256)%nat →
  let r := for_up (λ w '(m, d), let '(v, d) := inw (b + ATA_REG_DATA) d in (st_le 2 (dst + 2 * w) v m, d))
    (length ws) i (m, d) in
  bytes_at r.1 (dst + 2 * i) (word_bytes ws) ∧ xfer r.2 = l ∧ sector r.2 = sector d ∧
  ∀ a, a < dst + 2 * i ∨ dst + 2 * (i + Z.of_nat (length ws)) ≤ a → ld r.1 a = ld m a.
Proof.
  induction ws as [|w ws IH]; intros i m d Hx Hl Hd Hok Hn; cbn [length for_up] in *; [done|].
  destruct (data_read d w (ws ++ l) Hx Hd) as (A & B & C & E). unfold ATA_REG_DATA.
  rewrite Z.add_0_r. destruct (inw b d) as [v d1]. cbn [fst snd] in *. subst v.
  apply Forall_cons_1 in Hok as [Hw Hok].
  destruct (decide (ws = [])) as [->|Hne].
  { cbn [length for_up fst snd app] in *. split_and!; [by apply st_word_bytes|done|done|].
    intros a Ha. apply ld_st_le_ne. lia. }
  assert (drq d1 = true) as Hd1.
  { apply E. rewrite length_app, Nat2Z.inj_add, Zplus_mod, Hl, Z.add_0_r, Zmod_mod.
    destruct ws; [done|]. cbn [length] in *. rewrite Z.mod_small by lia. lia. }
  specialize (IH (i + 1) (st_le 2 (dst + 2 * i) w m) d1 B Hl Hd1 Hok ltac:(lia)) as (F & G & I & J).
  unfold ATA_REG_DATA in *. rewrite Z.add_0_r in *.
  set (r := for_up _ _ _ _) in *. split_and!; [|done|by rewrite I|].
  - rewrite word_bytes_cons. apply bytes_at_app. split.
    + eapply bytes_at_ext; [|apply (st_word_bytes _ w m Hw)]. cbn [length]. intros a Ha. apply J. lia.
    + cbn [length]. replace (dst + 2 * i + Z.of_nat 2) with (dst + 2 * (i + 1)) by lia. done.
  - intros a Ha. rewrite J by lia. apply ld_st_le_ne. lia.
Qed.

Definition run_sectors d u lba i n : list Z := j ← seqZ i n; sector d u (lba + j).

Lemma run_sectors_cons d u lba i n : 0 < n →
  run_sectors d u lba i n = sector d u (lba + i) ++ run_sectors d u lba (i + 1) (n - 1).
Proof. intros Hn. unfold run_sectors. rewrite seqZ_cons, bind_cons by lia. do 3 f_equal; lia. Qed.

Lemma length_run_sectors d u lba n : ∀ i, length (run_sectors d u lba i (Z.of_nat n)) = (256 * n)%nat.
Proof.
  induction n as [|n IH]; intros i; [done|]. rewrite run_sectors_cons, length_app by lia.
  replace (Z.of_nat (S n) - 1) with (Z.of_nat n) by lia. rewrite IH, (proj1 (sector_ok d u (lba + i))). lia.
Qed.

Lemma read_sectors_spec buf u lba n : ∀ i m d,
  xfer d = run_sectors d u lba i (Z.of_nat n) →
  let r := read_sectors n b buf i (m, d) in
  (r.1 = 0 ∨ r.1 = -1) ∧ (prompt → r.1 = 0) ∧ sector r.2.2 = sector d ∧
  (∀ a, a < buf + 512 * i ∨ buf + 512 * (i + Z.of_nat n) ≤ a → ld r.2.1 a = ld m a) ∧
  (r.1 = 0 → bytes_at r.2.1 (buf + 512 * i) (word_bytes (run_sectors d u lba i (Z.of_nat n)))).
Proof.
  induction n as [|n IH]; intros i m d Hx; cbn [read_sectors].
  { split_and!; [by left|done|done|done|done]. }
  unfold wait_drq. pose proof (wait_drq_spec ATA_POLLS d) as [Hr (A & B & _)].
  assert (prompt → (wait_drq_loop ATA_POLLS b d).1 = 0) as Hprompt.
  { intros [_ Hp]. apply Hp. rewrite Hx. intros E. apply (f_equal length) in E.
    rewrite length_run_sectors in E. cbn [length] in E. lia. }
  destruct (wait_drq_loop ATA_POLLS b d) as [r d1]. cbn [fst snd] in *.
  destruct Hr as [[-> Hd]| ->].
  2:{ change (-1 <? 0) with true. split_and!; [by right|by intros ?%Hprompt|done|done|done]. }
  change (0 <? 0) with false. cbn match. unfold read_words. change (span 0 256) with 256%nat.
  pose proof (sector_ok d u (lba + i)) as [Hlen Hok].
  rewrite run_sectors_cons in Hx by lia. replace (Z.of_nat (S n) - 1) with (Z.of_nat n) in Hx by lia.
  rewrite <- Hlen.
  destruct (read_loop_spec (buf + 2 * (i * 256)) (run_sectors d u lba (i + 1) (Z.of_nat n))
    (sector d u (lba + i)) 0 m d1) as (F & G & I & J); [by rewrite B|..].
  { rewrite length_run_sectors. dlia. }
  { done. } { done. } { by rewrite Hlen. }
  destruct (for_up _ _ 0 (m, d1)) as [m2 d2]. cbn [fst snd] in *. rewrite Hlen in *.
  assert (sector d2 = sector d) as Es by congruence.
  specialize (IH (i + 1) m2 d2). unfold run_sectors in IH. rewrite Es in IH. specialize (IH G) as (R & P & S & K & L).
  split_and!; [done|done|by rewrite S|..].
  - intros a Ha. rewrite K, J by lia. done.
  - intros E. specialize (L E). rewrite run_sectors_cons, word_bytes_app by lia. apply bytes_at_app.
    rewrite length_word_bytes, Hlen. split.
    + replace (buf + 512 * i) with (buf + 2 * (i * 256) + 2 * 0) by lia. eapply bytes_at_ext; [|exact F].
      rewrite length_word_bytes, Hlen. intros a Ha. apply K. lia.
    + replace (buf + 512 * i + Z.of_nat (2 * 256)) with (buf + 512 * (i + 1)) by lia.
      replace (Z.of_nat (Datatypes.S n) - 1) with (Z.of_nat n) by lia. exact L.
Qed.

(** The command block selects the drive and the low 28 bits of the address. *)
Lemma command_bits sl lba : sl = 0 ∨ sl = 1 →
  let h := u8 (Z.lor (Z.lor 0xE0 (Z.shiftl sl 4)) (Z.land (Z.shiftr lba 24) 0x0F)) in
  Z.b2z (Z.testbit h 4) = sl ∧ h mod 16 = (lba / 2 ^ 24) mod 16.
Proof.
  intros Hs. change 0x0F with (Z.ones 4). rewrite Z.land_ones, Z.shiftr_div_pow2 by lia.
  change (2 ^ 4) with 16. assert (0 ≤ (lba / 2 ^ 24) mod 16 < 16) as Hq by dlia.
  set (q := (lba / 2 ^ 24) mod 16) in *. clearbody q.
  set (good := λ sl q, let h := u8 (Z.lor (Z.lor 0xE0 (Z.shiftl sl 4)) q) in
    (Z.b2z (Z.testbit h 4) =? sl) && (h mod 16 =? q)).
  assert (forallb (good sl) (seqZ 0 16) = true) as Hg by (destruct Hs as [-> | ->]; vm_compute; done).
  rewrite List.forallb_forall in Hg. specialize (Hg q). unfold good in Hg. cbv zeta in Hg.
  rewrite andb_true_iff, !Z.eqb_eq in Hg. apply Hg. apply list_elem_of_In, elem_of_seqZ. lia.
Qed.

Lemma ata_command_task x lba count cmd d : a_base x = b → slave x = 0 ∨ slave x = 1 → 0 ≤ count < 2 ^ 8 →
  ∃ d1, ata_command x lba count cmd d = outb (b + 7) cmd d1 ∧ sector d1 = sector d ∧
    task d1 2 = count ∧ task_unit d1 = slave x ∧ task_lba d1 = lba mod 2 ^ 28.
Proof.
  intros Hb Hs Hc. unfold ata_command. rewrite Hb.
  unfold ATA_REG_DRIVE, ATA_REG_SECCOUNT, ATA_REG_LBA_LO, ATA_REG_LBA_MID, ATA_REG_LBA_HI, ATA_REG_CMD.
  set (h := u8 (Z.lor _ _)). set (lo := u8 (Z.land lba _)). set (mid := u8 (Z.land (Z.shiftr lba 8) _)).
  set (hi := u8 (Z.land (Z.shiftr lba 16) _)). cbv zeta.
  set (d1 := outb (b + 5) hi _). exists d1. split; [done|].
  assert (∀ v, 0 ≤ u8 v < 2 ^ 8) as Hu8 by (intros; by apply wrap_bound).
  pose proof (out_task 6 h d ltac:(lia) (Hu8 _)) as [A6 B6]. set (e6 := outb (b + 6) h d) in *.
  pose proof (out_task 2 count e6 ltac:(lia) Hc) as [A2 B2]. set (e2 := outb (b + 2) count e6) in *.
  pose proof (out_task 3 lo e2 ltac:(lia) (Hu8 _)) as [A3 B3]. set (e3 := outb (b + 3) lo e2) in *.
  pose proof (out_task 4 mid e3 ltac:(lia) (Hu8 _)) as [A4 B4]. set (e4 := outb (b + 4) mid e3) in *.
  pose proof (out_task 5 hi e4 ltac:(lia) (Hu8 _)) as [A5 B5]. fold d1 in A5, B5.
  assert (task d1 2 = count ∧ task d1 3 = lo ∧ task d1 4 = mid ∧ task d1 5 = hi ∧ task d1 6 = h) as (T2 & T3 & T4 & T5 & T6).
  { rewrite !B5, !B4, !B3, !B2, !B6 by lia. done. }
  split; [by rewrite A5, A4, A3, A2|]. split; [done|].
  pose proof (command_bits (slave x) lba Hs) as [U L]. fold h in U, L. cbv zeta in U, L.
  unfold task_unit, task_lba. rewrite T6, T5, T4, T3. split; [done|]. rewrite L.
  assert (∀ v, u8 (Z.land v 0xFF) = v mod 2 ^ 8) as E.
  { intros v. change 0xFF with (Z.ones 8). rewrite Z.land_ones by lia. apply wrap_wrap. }
  unfold lo, mid, hi. rewrite !E, !Z.shiftr_div_pow2 by lia. dlia.
Qed.

Lemma attached_guard a drv u : attached b a drv u → (ATA_MAX_DRIVES <=? drv) || negb (a_present (drive a drv)) = false.
Proof. intros (A & -> & _). rewrite (proj2 (Z.leb_gt _ _)) by lia. done. Qed.

Lemma ata_read_sectors a drv u lba count buf m d : attached b a drv u → 0 < count < 2 ^ 8 →
  let r := ata_read a drv lba count buf (m, d) in
  (r.1 = 0 ∨ r.1 = -1) ∧ (prompt → r.1 = 0) ∧ sector r.2.2 = sector d ∧
  (∀ x, x < buf ∨ buf + 512 * count ≤ x → ld r.2.1 x = ld m x) ∧
  (r.1 = 0 → bytes_at r.2.1 buf (word_bytes (run_sectors d u (lba mod 2 ^ 28) 0 count))).
Proof.
  intros Ha Hc. unfold ata_read. rewrite (attached_guard a drv u Ha). destruct Ha as (_ & _ & Hb & Hsl & Hu).
  cbv zeta. rewrite Hb. unfold wait_busy. pose proof (wait_busy_spec ATA_POLLS d) as [Hr (Hs & _)].
  assert (prompt → (wait_busy_loop ATA_POLLS b d).1 = 0) as Hp by (intros [Hp _]; apply Hp).
  destruct (wait_busy_loop ATA_POLLS b d) as [r d1]. cbn [fst snd] in *.
  destruct Hr as [-> | ->].
  2:{ change (-1 <? 0) with true. split_and!; [by right|by intros ?%Hp|done|done|done]. }
  change (0 <? 0) with false. cbn match.
  destruct (ata_command_task (drive a drv) lba count ATA_CMD_READ_PIO d1 Hb ltac:(by rewrite Hsl) ltac:(lia))
    as (d2 & -> & S2 & T2 & U2 & L2). rewrite Hsl in U2.
  assert (0 < task d2 2) as Hpos by lia. destruct (cmd_read d2 Hpos) as [S3 X3]. fold ATA_CMD_READ_PIO in S3, X3.
  set (d3 := outb (b + 7) ATA_CMD_READ_PIO d2) in *. rewrite T2, U2, L2 in X3.
  assert (sector d3 = sector d) as E by congruence.
  assert (Z.of_nat (span 0 count) = count) as En by (rewrite of_nat_span, Z.sub_0_r; lia).
  pose proof (read_sectors_spec buf u (lba mod 2 ^ 28) (span 0 count) 0 m d3) as R. rewrite En in R.
  unfold run_sectors in R. rewrite E in R. rewrite S2, Hs in X3.
  specialize (R X3) as (R1 & R2 & R3 & R4 & R5). split_and!; [done|done|done| |].
  - intros x Hx. apply R4. lia.
  - intros Hz. specialize (R5 Hz). replace (buf + 512 * 0) with buf in R5 by lia. exact R5.
Qed.

(** *** Writing one sector *)

Definition words_of m (src : Z) : list Z := (λ w, ld_le 2 (src + 2 * w) m) <$> seqZ 0 256.

Lemma ld_le2_bound m a : mem_ok m → 0 ≤ ld_le 2 a m < 2 ^ 16.
Proof. intros Hm. cbn [ld_le]. pose proof (ld_bound m a Hm). pose proof (ld_bound m (a + 1) Hm). lia. Qed.

Lemma write_loop_spec src m : mem_ok m → ∀ n i d, drq d = true → length (wbuf d) = Z.to_nat i → 0 ≤ i →
  i + Z.of_nat n = 256 → (0 < n)%nat →
  ∀ u l, sector (for_up (λ w d, outw (b + ATA_REG_DATA) (ld_le 2 (src + 2 * w) m) d) n i d) u l =
    if decide (u = task_unit d ∧ l = task_lba d)
    then wbuf d ++ ((λ w, ld_le 2 (src + 2 * w) m) <$> seqZ i (Z.of_nat n)) else sector d u l.
Proof.
  intros Hm. induction n as [|n IH]; intros i d Hd Hw Hi Hn Hpos u l; [lia|]. cbn [for_up].
  unfold ATA_REG_DATA in *. rewrite Z.add_0_r in *. rewrite seqZ_cons, fmap_cons by lia.
  pose proof (data_write d (ld_le 2 (src + 2 * i) m) Hd (ld_le2_bound _ _ Hm) ltac:(lia)) as Hstep. cbv zeta in Hstep.
  rewrite length_app in Hstep. cbn [length] in Hstep. destruct n as [|n].
  - rewrite decide_True in Hstep by lia. cbn [for_up]. rewrite Hstep. done.
  - rewrite decide_False in Hstep by lia. destruct Hstep as (A & B & C & E).
    rewrite IH; [|done|rewrite B, length_app; cbn [length]; lia|lia|lia|lia].
    unfold task_unit, task_lba. rewrite C, A, B, <- (assoc_L (++)).
    replace (Z.succ i) with (i + 1) by lia. replace (Z.pred (Z.of_nat (S (S n)))) with (Z.of_nat (S n)) by lia. done.
Qed.

Lemma ata_write_sector a drv u lba buf m d : attached b a drv u → mem_ok m →
  let r := ata_write a drv lba 1 buf m d in
  (r.1 = 0 ∨ r.1 = -1) ∧
  (r.1 = 0 → ∀ v l, sector r.2 v l = if decide (v = u ∧ l = lba mod 2 ^ 28) then words_of m buf else sector d v l).
Proof.
  intros Ha Hm. unfold ata_write. rewrite (attached_guard a drv u Ha). destruct Ha as (_ & _ & Hb & Hsl & Hu).
  cbv zeta. rewrite Hb. unfold wait_busy. pose proof (wait_busy_spec ATA_POLLS d) as [Hr (Hs & _)].
  destruct (wait_busy_loop ATA_POLLS b d) as [r d1]. cbn [fst snd] in *.
  destruct Hr as [-> | ->]; [|by split; [right|]]. change (0 <? 0) with false. cbn match.
  destruct (ata_command_task (drive a drv) lba 1 ATA_CMD_WRITE_PIO d1 Hb ltac:(by rewrite Hsl) ltac:(lia))
    as (d2 & -> & S2 & T2 & U2 & L2). rewrite Hsl in U2.
  destruct (cmd_write d2 T2) as (S3 & W3 & T3). fold ATA_CMD_WRITE_PIO in S3, W3, T3.
  set (d3 := outb (b + 7) ATA_CMD_WRITE_PIO d2) in *. change (span 0 1) with 1%nat. cbn [write_sectors].
  unfold wait_drq. pose proof (wait_drq_spec ATA_POLLS d3) as [Hr (S4 & _ & W4 & T4)].
  destruct (wait_drq_loop ATA_POLLS b d3) as [r d4]. cbn [fst snd] in *.
  destruct Hr as [[-> Hd]| ->]; [|by split; [right|]]. change (0 <? 0) with false. cbn match.
  unfold write_words. change (span 0 256) with 256%nat.
  pose proof (write_loop_spec (buf + 2 * (0 * 256)) m Hm 256 0 d4 Hd ltac:(by rewrite W4, W3) ltac:(lia) ltac:(lia)
    ltac:(lia)) as Hw.
  set (d5 := for_up _ 256 0 d4) in *. clearbody d5.
  pose proof (cmd_flush d5) as S6. unfold ATA_REG_CMD. set (d6 := outb (b + 7) 0xE7 d5) in *.
  pose proof (wait_busy_spec ATA_POLLS d6) as [Hr (S7 & _)].
  unfold wait_busy. destruct (wait_busy_loop ATA_POLLS b d6) as [r d7]. cbn [fst snd] in *.
  destruct Hr as [-> | ->]; [|by split; [right|]]. change (0 <? 0) with false. cbn match. cbn [fst snd].
  split; [by left|]. intros _ v l. rewrite S7, S6, Hw. unfold task_unit, task_lba in *. rewrite T4, T3, U2, L2.
  rewrite S4, S3, S2, Hs, W4, W3. cbn [app]. unfold words_of. replace (buf + 2 * (0 * 256)) with buf by lia. done.
Qed.

(** The bytes of the words of a buffer are its bytes. *)
Lemma word_bytes_load m src : mem_ok m → ∀ n i,
  word_bytes ((λ w, ld_le 2 (src + 2 * w) m) <$> seqZ i (Z.of_nat n)) = (λ j, ld m (src + j)) <$> seqZ (2 * i) (2 * Z.of_nat n).
Proof.
  intros Hm. induction n as [|n IH]; intros i; [done|].
  rewrite seqZ_cons, fmap_cons, word_bytes_cons by lia. replace (Z.pred (Z.of_nat (S n))) with (Z.of_nat n) by lia.
  rewrite IH. rewrite (seqZ_cons (2 * i)), fmap_cons by lia. rewrite (seqZ_cons (Z.succ (2 * i))), fmap_cons by lia.
  cbn [app ld_le]. pose proof (ld_bound m (src + 2 * i) Hm). pose proof (ld_bound m (src + 2 * i + 1) Hm).
  f_equal; [dlia|]. replace (src + Z.succ (2 * i)) with (src + 2 * i + 1) by lia. f_equal; [dlia|].
  f_equal. f_equal; lia.
Qed.

End disk.

(** ** The properties *)

Lemma rd_app_l l k i : 0 ≤ i < Z.of_nat (length l) → rd (l ++ k) i = rd l i.
Proof. intros Hi. unfold rd. by rewrite lookup_app_l by lia. Qed.

Lemma rd_app_r l k i : Z.of_nat (length l) ≤ i → rd (l ++ k) i = rd k (i - Z.of_nat (length l)).
Proof.
  intros Hi. unfold rd. rewrite lookup_app_r by lia.
  by replace (Z.to_nat i - length l)%nat with (Z.to_nat (i - Z.of_nat (length l))) by lia.
Qed.

Lemma run_sectors_byte `{AtaDisk D b} (d : D) u lba n : ∀ j i, 0 ≤ i < 512 * Z.of_nat n →
  rd (word_bytes (run_sectors d u lba j (Z.of_nat n))) i = rd (word_bytes (sector d u (lba + (j + i / 512)))) (i mod 512).
Proof.
  induction n as [|n IH]; intros j i Hi; [lia|]. rewrite run_sectors_cons, word_bytes_app by lia.
  replace (Z.of_nat (S n) - 1) with (Z.of_nat n) by lia.
  assert (Z.of_nat (length (word_bytes (sector d u (lba + j)))) = 512) as Hl.
  { rewrite length_word_bytes, (proj1 (sector_ok d u (lba + j))). done. }
  destruct (decide (i < 512)).
  - rewrite rd_app_l, Z.div_small, Z.mod_small, Z.add_0_r by lia. done.
  - rewrite rd_app_r, Hl, IH by lia. replace (j + 1 + (i - 512) / 512) with (j + i / 512) by dlia.
    by replace ((i - 512) mod 512) with (i mod 512) by dlia.
Qed.

(** A read of 1 to 255 sectors from a drive that is there returns 0 or -1,
    and 0 if the drive is ready in time; it changes nothing outside its buffer
    and nothing on the disk, and when it returns 0 the buffer holds the sectors
    of the 28-bit block address, low byte first. *)
Theorem ata_read_correct `{AtaDisk D b} (a : ata) (drv u lba count buf : Z) (m : memory) (d : D) :
  attached b a drv u → 0 ≤ lba → 0 < count < 2 ^ 8 → lba + count ≤ 2 ^ 28 →
  let '(r, (m', d')) := ata_read a drv lba count buf (m, d) in
  (r = 0 ∨ r = -1) ∧ (prompt → r = 0) ∧ sector d' = sector d ∧
  (∀ x, x < buf ∨ buf + 512 * count ≤ x → ld m' x = ld m x) ∧
  (r = 0 → ∀ i, 0 ≤ i < 512 * count →
     ld m' (buf + i) = rd (word_bytes (sector d u (lba + i / 512))) (i mod 512)).
Proof.
  intros Ha Hl Hc Hlim. pose proof (ata_read_sectors a drv u lba count buf m d Ha Hc) as (A & B & C & E & F).
  destruct (ata_read a drv lba count buf (m, d)) as [r [m' d']]. cbn [fst snd] in *.
  split_and!; [done|done|done|done|]. intros Hr i Hi. specialize (F Hr). rewrite Z.mod_small in F by lia.
  replace count with (Z.of_nat (Z.to_nat count)) in F by lia.
  rewrite (bytes_at_rd _ _ _ i F).
  - rewrite run_sectors_byte by lia. by rewrite Z.add_0_l.
  - rewrite length_word_bytes, length_run_sectors. lia.
Qed.

(** C22: writing one sector and reading it back gives the bytes that were
    written, and no other sector of the channel changes. *)
Theorem ata_write_read `{AtaDisk D b} (a : ata) (drv u lba buf buf' : Z) (m m1 m2 : memory) (d d1 d2 : D) :
  attached b a drv u → mem_ok m → ata_write a drv lba 1 buf m d = (0, d1) →
  ata_read a drv lba 1 buf' (m1, d1) = (0, (m2, d2)) →
  load_bytes 512 buf' m2 = load_bytes 512 buf m ∧
  ∀ v n, ¬ (v = u ∧ n = lba mod 2 ^ 28) → sector d2 v n = sector d v n.
Proof.
  intros Ha Hm Ew Er. pose proof (ata_write_sector a drv u lba buf m d Ha Hm) as [_ Hw]. rewrite Ew in Hw.
  pose proof (ata_read_sectors a drv u lba 1 buf' m1 d1 Ha ltac:(lia)) as (_ & _ & Hs & _ & Hr).
  rewrite Er in Hs, Hr. cbn [fst snd] in *. specialize (Hw eq_refl). specialize (Hr eq_refl). split.
  - rewrite run_sectors_cons, Z.add_0_r, Hw in Hr by lia. rewrite decide_True in Hr by done.
    change (run_sectors d1 u (lba mod 2 ^ 28) (0 + 1) (1 - 1)) with (@nil Z) in Hr. rewrite app_nil_r in Hr.
    pose proof (word_bytes_load m buf Hm 256 0) as E. change (Z.of_nat 256) with 256 in E. fold (words_of m buf) in E.
    pose proof (bytes_at_load m2 _ buf' Hr) as E2. rewrite length_word_bytes in E2.
    change (length (words_of m buf)) with 256%nat in E2. change (Z.of_nat (2 * 256)) with 512 in E2.
    rewrite E2, E. done.
  - intros v n Hne. by rewrite Hs, Hw, decide_False by done.
Qed.

(** C23: through [ata_read_cb], a drive that is ready in time is the block device
    the FAT32 reader is proved against: every sector can be read, with the bytes
    of the 28-bit block address. *)
Theorem ata_block_device `{AtaDisk D b} (a : ata) (drv u : Z) (d : D) :
  attached b a drv u → prompt →
  disk_ok (H0 := ata_read_cb a drv d) (λ lba, word_bytes (sector d u (lba mod 2 ^ 28))).
Proof.
  intros Ha Hp. split.
  - intros lba old. unfold read_sector, ata_read_cb.
    pose proof (ata_read_sectors a drv u lba 1 0 (store_bytes 0 old ∅) d Ha ltac:(lia)) as (_ & Hr & _ & _ & Hb).
    destruct (ata_read _ _ _ _ _ _) as [r [m' d']]. cbn [fst snd] in *. specialize (Hb (Hr Hp)).
    rewrite run_sectors_cons, Z.add_0_r in Hb by lia.
    change (run_sectors d u (lba mod 2 ^ 28) (0 + 1) (1 - 1)) with (@nil Z) in Hb. rewrite app_nil_r in Hb.
    pose proof (bytes_at_load m' _ 0 Hb) as E. rewrite length_word_bytes, (proj1 (sector_ok d u _)) in E. exact E.
  - intros lba. pose proof (sector_ok d u (lba mod 2 ^ 28)) as [Hl Hok].
    rewrite length_word_bytes, Hl. split; [done|by apply word_bytes_ok].
Qed.

(** *** No drive *)

(** A channel without drives: the status register reads as zero, or as a floating
    bus whose busy bit is set. *)
Definition silent `{Ports D} (base : Z) : Prop :=
  (∀ d, (inb (base + ATA_REG_STATUS) d).1 = 0) ∨ (∀ d, has (inb (base + ATA_REG_STATUS) d).1 ATA_SR_BSY = true).

Lemma busy_forever `{Ports D} base n : (∀ d, has (inb (base + ATA_REG_STATUS) d).1 ATA_SR_BSY = true) →
  ∀ d, (wait_busy_loop n base d).1 = -1.
Proof.
  intros Hb. induction n as [|n IH]; intros d; cbn [wait_busy_loop]; [done|].
  specialize (Hb d). destruct (inb _ d) as [s d']. cbn [fst] in Hb. rewrite Hb. apply IH.
Qed.

Lemma probe_silent `{Ports D} base alt sl idx a d : silent base → ∃ d', probe base alt sl idx (a, d) = (a, d').
Proof.
  intros Hs. unfold probe. cbv zeta. set (d1 := delay400 alt (outb (base + ATA_REG_CMD) _ _)). clearbody d1.
  destruct Hs as [H0|Hb].
  - specialize (H0 d1). destruct (inb _ d1) as [s d2]. cbn [fst] in H0. subst s. by exists d2.
  - destruct (inb _ d1) as [s d2]. case_test; [by exists d2|]. unfold wait_busy.
    pose proof (busy_forever base ATA_POLLS Hb d2) as E. destruct (wait_busy_loop ATA_POLLS base d2) as [r d3].
    cbn [fst] in E. subst r. by exists d3.
Qed.

(** C24: on a machine where no drive answers [ata_init] finds none and returns 0,
    and every later read or write fails with -1 before it touches a port or the
    memory. *)
Theorem ata_no_drives `{Arch} `{Ports D} `{Kprint D} (d : D) :
  silent ATA_PRIMARY_BASE → silent ATA_SECONDARY_BASE →
  ∃ d', ata_init (ata_0, d) = (0, (ata_0, d')) ∧
    ∀ drv lba count buf m d2, 0 ≤ drv < 2 ^ 8 →
      ata_read ata_0 drv lba count buf (m, d2) = (-1, (m, d2)) ∧
      ata_write ata_0 drv lba count buf m d2 = (-1, d2).
Proof.
  intros Hp Hs. unfold ata_init.
  destruct (probe_silent ATA_PRIMARY_BASE ATA_PRIMARY_ALT 0 0 ata_0 d Hp) as [d1 ->].
  destruct (probe_silent ATA_PRIMARY_BASE ATA_PRIMARY_ALT 1 1 ata_0 d1 Hp) as [d2 ->].
  destruct (probe_silent ATA_SECONDARY_BASE ATA_SECONDARY_ALT 0 2 ata_0 d2 Hs) as [d3 ->].
  destruct (probe_silent ATA_SECONDARY_BASE ATA_SECONDARY_ALT 1 3 ata_0 d3 Hs) as [d4 ->].
  exists d4. split; [reflexivity|]. intros drv lba count buf m d5 Hdrv.
  assert ((ATA_MAX_DRIVES <=? drv) || negb (a_present (drive ata_0 drv)) = true) as E.
  { destruct (Z.leb_spec ATA_MAX_DRIVES drv) as [|Hlt]; [done|]. unfold ATA_MAX_DRIVES in Hlt.
    assert (drv = 0 ∨ drv = 1 ∨ drv = 2 ∨ drv = 3) as [-> |[-> |[-> | ->]]] by lia; reflexivity. }
  unfold ata_read, ata_write. by rewrite E.
Qed.

(** ** A drive that follows the protocol: the master of the primary channel *)

Record ata_demo := AtaDemo { tk : Z → Z; media : gmap (Z * Z) (list Z); xf : list Z; wb : list Z; open_ : bool }.

Definition norm (l : list Z) : list Z := (λ i, u16 (rd l i)) <$> seqZ 0 256.
Definition demo_sector (d : ata_demo) (u n : Z) : list Z := norm (default [] (media d !! (u, n))).
Definition demo_unit (d : ata_demo) : Z := Z.b2z (Z.testbit (tk d 6) 4).
Definition demo_lba (d : ata_demo) : Z := tk d 3 + 2 ^ 8 * tk d 4 + 2 ^ 16 * tk d 5 + 2 ^ 24 * (tk d 6 mod 16).

Definition demo_out (p v : Z) (d : ata_demo) : ata_demo :=
  if p =? 0x1F7 then
    if v =? 0x20 then
      AtaDemo (tk d) (media d) (i ← seqZ 0 (tk d 2); demo_sector d (demo_unit d) (demo_lba d + i)) [] false
    else if v =? 0x30 then AtaDemo (tk d) (media d) [] [] true else d
  else if (0x1F2 <=? p) && (p <=? 0x1F6) then
    AtaDemo (λ r, if decide (r = p - 0x1F0) then v else tk d r) (media d) (xf d) (wb d) (open_ d)
  else d.

Definition demo_outw (p v : Z) (d : ata_demo) : ata_demo :=
  if p =? 0x1F0 then
    let l := (u16 <$> wb d) ++ [v] in
    if decide (length l = 256%nat) then AtaDemo (tk d) (<[(demo_unit d, demo_lba d) := l]> (media d)) [] [] false
    else AtaDemo (tk d) (media d) (xf d) l (open_ d)
  else d.

Definition demo_inb (p : Z) (d : ata_demo) : Z * ata_demo :=
  if p =? 0x1F7 then
    if open_ d || negb (bool_decide (xf d = [])) then (0x48, AtaDemo (tk d) (media d) (xf d) (wb d) true) else (0x40, d)
  else (0, d).

Definition demo_inw (p : Z) (d : ata_demo) : Z * ata_demo :=
  match xf d with w :: ws => (w, AtaDemo (tk d) (media d) ws (wb d) (open_ d)) | [] => (0, d) end.

#[export] Instance ata_demo_ports : Ports ata_demo := {
  inb := demo_inb; outb := demo_out; inw := demo_inw; outw := demo_outw; inl p d := (0, d); outl p v d := d
}.

Lemma norm_ok l : length (norm l) = 256%nat ∧ Forall (λ w, 0 ≤ w < 2 ^ 16) (norm l).
Proof.
  split; [unfold norm; by rewrite length_fmap, length_seqZ|]. unfold norm. apply Forall_fmap, Forall_forall.
  intros i _. by apply wrap_bound.
Qed.

Lemma norm_id l : length l = 256%nat → Forall (λ w, 0 ≤ w < 2 ^ 16) l → norm l = l.
Proof.
  intros Hl Hok. apply list_eq. intros k. unfold norm. rewrite list_lookup_fmap.
  destruct (decide (k < 256)%nat).
  - rewrite lookup_seqZ_lt by lia. cbn. unfold rd. rewrite Z.add_0_l, Nat2Z.id.
    destruct (lookup_lt_is_Some_2 l k) as [x Hx]; [lia|]. rewrite Hx. cbn. f_equal. apply wrap_small.
    by apply (Forall_lookup_1 _ _ _ _ Hok Hx).
  - rewrite lookup_seqZ_ge, lookup_ge_None_2 by lia. done.
Qed.

#[export] Program Instance ata_demo_disk : AtaDisk ata_demo 0x1F0 := {
  task := tk; sector := demo_sector; xfer := xf; wbuf d := u16 <$> wb d; drq := open_
}.
Next Obligation. intros d u l. apply norm_ok. Qed.
Next Obligation.
  intros r v d Hr Hv. change (outb (0x1F0 + r) v d) with (demo_out (0x1F0 + r) v d). unfold demo_out.
  rewrite (proj2 (Z.eqb_neq (0x1F0 + r) 0x1F7)), (proj2 (Z.leb_le 0x1F2 (0x1F0 + r))),
    (proj2 (Z.leb_le (0x1F0 + r) 0x1F6)) by lia. cbn [andb]. split; [done|]. intros r' Hr'. cbn [tk].
  replace (0x1F0 + r - 0x1F0) with r by lia. done.
Qed.
Next Obligation.
  intros d. change (inb (0x1F0 + 7) d) with (demo_inb 0x1F7 d). unfold demo_inb. cbn [Z.eqb Pos.eqb].
  destruct (open_ d || _) eqn:E; cbn [fst snd]; split_and!; done.
Qed.
Next Obligation. done. Qed.
Next Obligation.
  intros d w ws Hx Hd. change (inw 0x1F0 d) with (demo_inw 0x1F0 d). unfold demo_inw. rewrite Hx. done.
Qed.
Next Obligation. done. Qed.
Next Obligation.
  intros d w Hd Hw Hl. change (outw 0x1F0 w d) with (demo_outw 0x1F0 w d). unfold demo_outw. cbn [Z.eqb Pos.eqb].
  assert (Forall (λ w, 0 ≤ w < 2 ^ 16) ((u16 <$> wb d) ++ [w])) as Hok.
  { apply Forall_app. split; [|by apply Forall_singleton]. apply Forall_fmap, Forall_forall. intros x _. by apply wrap_bound. }
  case_decide as E.
  - intros u n. unfold demo_sector at 1. cbn [media]. case_decide as En.
    + destruct En as [-> ->]. rewrite lookup_insert_eq. by apply norm_id.
    + rewrite lookup_insert_ne; [done|]. intros [= <- <-]. by apply En.
  - cbn [media wb tk open_]. split_and!; [done| |done|done].
    apply list_eq. intros k. rewrite list_lookup_fmap. destruct (_ !! k) as [x|] eqn:Ex; [|done]. cbn. f_equal.
    apply wrap_small. by apply (Forall_lookup_1 _ _ _ _ Hok Ex).
Qed.
Next Obligation. done. Qed.

Lemma ata_demo_prompt : prompt (D := ata_demo) (b := 0x1F0).
Proof.
  assert (∃ n, ATA_POLLS = S n) as [n En].
  { assert (0 < Z.of_nat ATA_POLLS) by (unfold ATA_POLLS; lia). destruct ATA_POLLS as [|n]; [lia|by exists n]. }
  split; intros d.
  - unfold wait_busy. rewrite En. cbn [wait_busy_loop].
    change (inb (0x1F0 + ATA_REG_STATUS) d) with (demo_inb 0x1F7 d). unfold demo_inb. cbn [Z.eqb Pos.eqb].
    by destruct (open_ d || _).
  - intros Hx. unfold wait_drq. rewrite En. cbn [wait_drq_loop].
    change (inb (0x1F0 + ATA_REG_STATUS) d) with (demo_inb 0x1F7 d). unfold demo_inb. cbn [Z.eqb Pos.eqb].
    rewrite bool_decide_eq_false_2 by done. cbn [negb]. by rewrite orb_true_r.
Qed.

(** The master of the primary channel with a two-byte mark in sector 5. *)
Definition demo_drives : ata :=
  Ata [AtaDrive true 0x1F0 0x3F6 0 1000 (replicate 41 0); ata_drive_0; ata_drive_0; ata_drive_0] 1.
Definition demo_media : ata_demo :=
  AtaDemo (λ _, 0) (list_to_map [((0, 5), replicate 255 0 ++ [0xAA55])]) [] [] false.

Lemma demo_attached : attached 0x1F0 demo_drives 0 0.
Proof. split; [split; [lia|reflexivity]|]. split_and!; [reflexivity|reflexivity|reflexivity|by left]. Qed.

Lemma ata_read_correct_witness :
  let '(r, (m', _)) := ata_read demo_drives 0 5 1 4096 (∅, demo_media) in
  r = 0 ∧ ld m' (4096 + 510) = 0x55 ∧ ld m' (4096 + 511) = 0xAA.
Proof.
  pose proof (ata_read_correct demo_drives 0 0 5 1 4096 ∅ demo_media demo_attached) as E.
  destruct (ata_read demo_drives 0 5 1 4096 (∅, demo_media)) as [r [m' d']].
  destruct E as (_ & P & _ & _ & Hb); [lia|lia|lia|]. specialize (P ata_demo_prompt). specialize (Hb P).
  split; [exact P|]. split.
  - rewrite (Hb 510) by lia. vm_compute. reflexivity.
  - rewrite (Hb 511) by lia. vm_compute. reflexivity.
Defined.

Lemma ata_write_read_witness :
  let m := list_to_map [(100, 7); (101, 8)] in
  let '(r, d1) := ata_write demo_drives 0 9 1 100 m demo_media in
  let '(r', (m2, d2)) := ata_read demo_drives 0 9 1 4096 (∅, d1) in
  r = 0 ∧ r' = 0 ∧ load_bytes 512 4096 m2 = load_bytes 512 100 m.
Proof.
  intros m. destruct (ata_write demo_drives 0 9 1 100 m demo_media) as [r d1] eqn:Ew.
  destruct (ata_read demo_drives 0 9 1 4096 (∅, d1)) as [r' [m2 d2]] eqn:Er.
  assert (r = 0) as ->.
  { change r with ((r, d1).1). rewrite <- Ew. vm_compute. reflexivity. }
  assert (r' = 0) as ->.
  { change r' with ((r', (m2, d2)).1). rewrite <- Er. change d1 with ((0, d1).2). rewrite <- Ew. vm_compute. reflexivity. }
  split; [reflexivity|]. split; [reflexivity|].
  destruct (ata_write_read demo_drives 0 0 9 100 4096 m ∅ m2 demo_media d1 d2 demo_attached) as [E _].
  - apply map_Forall_lookup_2. intros i x. unfold m. intros Hx.
    apply elem_of_list_to_map_2 in Hx. rewrite !elem_of_cons, elem_of_nil in Hx.
    destruct Hx as [[= _ ->]|[[= _ ->]|[]]]; lia.
  - exact Ew.
  - exact Er.
  - exact E.
Defined.

Lemma ata_block_device_witness :
  read_sector (BlockDev := ata_read_cb demo_drives 0 demo_media) 5 [] !! 511%nat = Some 0xAA.
Proof.
  destruct (ata_block_device demo_drives 0 0 demo_media demo_attached ata_demo_prompt) as [E _].
  rewrite E. vm_compute. reflexivity.
Defined.

(** A machine with nothing behind its ports. *)
Inductive floating := Floating.
#[export] Instance floating_ports : Ports floating := {
  inb p d := (0xFF, d); outb p v d := d; inw p d := (0xFFFF, d); outw p v d := d;
  inl p d := (0xFFFFFFFF, d); outl p v d := d
}.
#[export] Instance floating_print : Kprint floating := λ _ d, d.

Lemma ata_no_drives_witness : let _ : Arch := X86 in
  ∃ d', ata_init (ata_0, Floating) = (0, (ata_0, d')) ∧ ata_read ata_0 0 0 1 0 (∅, d') = (-1, (∅, d')).
Proof.
  intros HA. destruct (ata_no_drives (H := HA) Floating) as (d' & E & Hr).
  - right. intros d. reflexivity.
  - right. intros d. reflexivity.
  - exists d'. split; [exact E|]. apply (Hr 0 0 1 0 ∅ d'). lia.
Defined.
