(* ===== verification/Gui.v ===== *)
(** The window manager: src/kernel/gui/gui.c, over the framebuffer.

    Windows are the elements of a fixed array; a pointer to a window is its index, so that the test for a null window has no
    counterpart.
    The callbacks windows can have are code outside this file: [on_key] is their
    address and [call_key] what calling them does. *)
From S2P Require Import Prelude CString Framebuffer.

Definition GUI_TITLEBAR_H : Z := 20.
Definition GUI_BORDER : Z := 2.
Definition GUI_MAX_WINDOWS : Z := 8.

Definition COLOR_WHITE : Z := RGB 0xFF 0xFF 0xFF.
Definition COLOR_RED : Z := RGB 0xCC 0x00 0x00.
Definition COLOR_CYAN : Z := RGB 0x00 0xCC 0xCC.
Definition COLOR_NAVY : Z := RGB 0x00 0x00 0x80.
Definition COLOR_LTBLUE : Z := RGB 0x60 0x90 0xD0.

Record gui_window_t := Window {
  win_x : Z; win_y : Z; win_w : Z; win_h : Z; title : list Z; visible : bool; bg_color : Z; on_key : option Z
}.
Definition window_0 : gui_window_t := Window 0 0 0 0 (replicate 64 0) false 0 None.

Record gui := Gui {
  windows : list gui_window_t; nwindows : Z; cursor_x : list Z; cursor_y : list Z; gfb : fb_info_t
}.
Definition gui_0 (f : fb_info_t) : gui :=
  Gui (replicate (Z.to_nat GUI_MAX_WINDOWS) window_0) 0 (replicate 8 0) (replicate 8 0) f.

Definition with_gfb (f : fb_info_t) (g : gui) : gui := Gui (windows g) (nwindows g) (cursor_x g) (cursor_y g) f.
Definition draw (p : fb_info_t → fb_info_t) (g : gui) : gui := with_gfb (p (gfb g)) g.
Definition with_cursor (i cx cy : Z) (g : gui) : gui :=
  Gui (windows g) (nwindows g) (wr (cursor_x g) i cx) (wr (cursor_y g) i cy) (gfb g).
Definition window (g : gui) (i : Z) : gui_window_t := default window_0 (windows g !! Z.to_nat i).

Definition desktop_bg : Z := COLOR_NAVY.
Definition taskbar_bg : Z := RGB 0x20 0x40 0x80.
Definition title_active : Z := COLOR_LTBLUE.
Definition title_text : Z := COLOR_WHITE.
Definition border_col : Z := RGB 0x90 0xB0 0xD0.
Definition win_bg : Z := RGB 0xF0 0xF0 0xF0.

Definition gui_draw_desktop (f : fb_info_t) : fb_info_t :=
  let w := fb_width f in
  let h := fb_height f in
  let f := fb_clear desktop_bg f in
  let f := for_up (λ y f,
      let shade := u8 (0x00 + Z.quot (y * 0x30) h) in
      fb_hline 0 y w (RGB 0x00 shade (0x80 + shade)) f) (span 0 h) 0 f in
  let th := 28 in
  let f := fb_rect 0 (h - th) w th taskbar_bg f in
  let f := fb_hline 0 (h - th) w COLOR_LTBLUE f in
  let f := fb_string 8 (h - th + 6) (bytes "Aerogel OS v0.1.0") COLOR_WHITE taskbar_bg f in
  fb_string (w - 100) (h - th + 6) (bytes "Phase 8") COLOR_CYAN taskbar_bg f.

Definition gui_init (g : gui) : gui :=
  draw gui_draw_desktop
    (Gui (replicate (Z.to_nat GUI_MAX_WINDOWS) window_0) 0 (cursor_x g) (cursor_y g) (gfb g)).

Definition gui_draw_window (w : gui_window_t) (f : fb_info_t) : fb_info_t :=
  if negb (visible w) then f else
  let f := fb_rect (win_x w) (win_y w) (win_w w) (win_h w) win_bg f in
  let f := fb_rect (win_x w) (win_y w) (win_w w) GUI_TITLEBAR_H title_active f in
  let f := fb_string (win_x w + 6) (win_y w + 3) (until_nul (title w)) title_text title_active f in
  let cx := win_x w + win_w w - 18 in
  let cy := win_y w + 3 in
  let f := fb_rect cx cy 14 14 COLOR_RED f in
  let f := fb_string (cx + 4) (cy + 1) (bytes "x") COLOR_WHITE COLOR_RED f in
  fb_rect_outline (win_x w) (win_y w) (win_w w) (win_h w) GUI_BORDER border_col f.

(** [strncpy] of at most 63 characters into the zeroed title. *)
Definition set_title (s : list Z) : list Z := take 63 s ++ replicate (64 - length (take 63 s)) 0.

Definition gui_create_window (s : list Z) (x y w h : Z) (g : gui) : option Z * gui :=
  if GUI_MAX_WINDOWS <=? nwindows g then (None, g) else
  let idx := nwindows g in
  let win := Window x y w h (set_title s) true win_bg None in
  let g := Gui (<[Z.to_nat idx := win]> (windows g)) (nwindows g + 1) (cursor_x g) (cursor_y g) (gfb g) in
  let g := with_cursor idx 4 (GUI_TITLEBAR_H + 4) g in
  (Some idx, draw (gui_draw_window win) g).

Definition gui_draw_all (g : gui) : gui :=
  let g := draw gui_draw_desktop g in
  for_up (λ i g, draw (gui_draw_window (window g i)) g) (span 0 (nwindows g)) 0 g.

Definition gui_destroy_window (win : option Z) (g : gui) : gui :=
  match win with
  | None => g
  | Some i =>
      let x := window g i in
      let x := Window (win_x x) (win_y x) (win_w x) (win_h x) (title x) false (bg_color x) (on_key x) in
      let g := Gui (<[Z.to_nat i := x]> (windows g)) (nwindows g) (cursor_x g) (cursor_y g) (gfb g) in
      let g := draw gui_draw_desktop g in
      for_up (λ j g, if j =? i then g else draw (gui_draw_window (window g j)) g) (span 0 (nwindows g)) 0 g
  end.

(** One character of [gui_window_print] in the window [idx]. *)
Definition print_char (idx fg c : Z) (g : gui) : gui :=
  let win := window g idx in
  let client_right := win_x win + win_w win - GUI_BORDER - 2 in
  let client_bot := win_y win + win_h win - GUI_BORDER - 2 in
  let cx := rd (cursor_x g) idx in
  let cy := rd (cursor_y g) idx in
  if c =? 10 then with_cursor idx 4 (cy + FB_FONT_H) g else
  let '(cx, cy) := if client_right <? win_x win + cx + FB_FONT_W then (4, cy + FB_FONT_H) else (cx, cy) in
  let '(cy, g) :=
    if client_bot <? win_y win + cy + FB_FONT_H
    then (GUI_TITLEBAR_H + 4,
          draw (fb_rect (win_x win + 2) (win_y win + GUI_TITLEBAR_H)
                  (win_w win - 4) (win_h win - GUI_TITLEBAR_H - 2) (bg_color win)) g)
    else (cy, g) in
  let g := draw (fb_char (win_x win + cx) (win_y win + cy) c fg (bg_color win)) g in
  with_cursor idx (cx + FB_FONT_W) cy g.

Definition gui_window_print (idx : Z) (s : list Z) (fg : Z) (g : gui) : gui :=
  foldl (λ g c, print_char idx fg c g) g s.

Definition gui_window_clear (idx : Z) (g : gui) : gui :=
  let win := window g idx in
  let g := with_cursor idx 4 (GUI_TITLEBAR_H + 4) g in
  draw (fb_rect (win_x win + GUI_BORDER) (win_y win + GUI_TITLEBAR_H)
          (win_w win - GUI_BORDER * 2) (win_h win - GUI_TITLEBAR_H - GUI_BORDER) (bg_color win)) g.

(** The callbacks may change the windows, so the loop tests their number each time;
    there are at most [GUI_MAX_WINDOWS]. *)
Fixpoint dispatch_loop (call_key : Z → Z → gui → gui) (n : nat) (i c : Z) (g : gui) : gui :=
  match n with
  | O => g
  | S k =>
      if i <? nwindows g then
        let w := window g i in
        dispatch_loop call_key k (i + 1) c
          (match on_key w with Some fn => if visible w then call_key fn c g else g | None => g end)
      else g
  end.

Definition gui_dispatch_key (call_key : Z → Z → gui → gui) (c : Z) (g : gui) : gui :=
  dispatch_loop call_key (Z.to_nat GUI_MAX_WINDOWS) 0 c g.

(** ** What a drawing leaves alone *)

Section region.
Implicit Types (f : fb_info_t) (P Q : Z → Z → Prop).

(** From [f] to [f'] only pixels of [P] change. *)
Definition only_in P f f' : Prop :=
  f' = with_fb f (fmem f') ∧
  ∀ a, (∀ x y, on_screen f x y → P x y → ¬ pixel_addr f x y ≤ a < pixel_addr f x y + 4) →
    ld (fmem f') a = ld (fmem f) a.

#[export] Instance only_in_preorder P : PreOrder (only_in P).
Proof.
  split.
  - intros f. split; [by destruct f|done].
  - intros f1 f2 f3 [E1 A1] [E2 A2]. rewrite E1 in E2, A2. cbn [with_fb fmem] in *.
    split; [by rewrite E2|]. intros a Ha. by rewrite A2, A1.
Qed.

Lemma only_in_mono P Q f f' : (∀ x y, on_screen f x y → P x y → Q x y) → only_in P f f' → only_in Q f f'.
Proof. intros H [A B]. split; [done|]. intros a Ha. apply B. auto. Qed.

Lemma only_in_drawn P col f f' : drawn P col f f' → only_in P f f'.
Proof. intros (A & _ & C). by split. Qed.

(** A pixel outside the region keeps its colour. *)
Lemma only_in_pixel P f f' x y : fb_ok f → (∀ x y, Decision (P x y)) → only_in P f f' → on_screen f x y → ¬ P x y →
  pixel_at f' x y = pixel_at f x y.
Proof.
  intros Hok HP [E A] Hs Hn. rewrite E. unfold pixel_at. cbn [with_fb fmem pixel_addr].
  apply ld_le_ext. intros b Hb. apply A. intros x' y' Hs' Hp' Hin.
  change (pixel_addr (with_fb f (fmem f')) x y) with (pixel_addr f x y) in Hb.
  assert (x ≠ x' ∨ y ≠ y') as Hne.
  { destruct (decide (x = x')) as [->|]; [|by left]. destruct (decide (y = y')) as [->|]; [done|by right]. }
  destruct (pixel_addr_disjoint f x y x' y' Hok Hs Hs' Hne); lia.
Qed.

Definition inside (x y w h px py : Z) : Prop := (x ≤ px < x + w) ∧ (y ≤ py < y + h).

(** Every pixel of a rectangle is clipped as intended. *)
Definition near f (x y w h : Z) : Prop := ∀ px py, inside x y w h px py → clipped f px py.

Lemma near_sub f x y w h x' y' w' h' :
  near f x y w h → x ≤ x' → y ≤ y' → x' + w' ≤ x + w → y' + h' ≤ y + h → near f x' y' w' h'.
Proof. intros Hn H1 H2 H3 H4 px py [A B]. apply Hn. split; lia. Qed.

Lemma inside_sub x y w h x' y' w' h' px py :
  x ≤ x' → y ≤ y' → x' + w' ≤ x + w → y' + h' ≤ y + h → inside x' y' w' h' px py → inside x y w h px py.
Proof. intros H1 H2 H3 H4 [A B]. split; lia. Qed.

(** A step of a drawing on a screen of the geometry of [f0]. *)
Definition screen f0 f : Prop := fb_ok f ∧ ∃ m, f = with_fb f0 m.

Lemma near_screen f0 f x y w h : screen f0 f → near f0 x y w h → near f x y w h.
Proof. intros [_ [m ->]]. done. Qed.

Lemma only_in_screen P f0 f f' : screen f0 f → only_in P f f' → screen f0 f'.
Proof. intros [Hok [m ->]] [E _]. rewrite E. split; [done|by exists (fmem f')]. Qed.

Lemma rect_in x y w h c f : fb_ok f → 0 ≤ c < 2 ^ 32 → near f x y w h →
  only_in (inside x y w h) f (fb_rect x y w h c f).
Proof. intros Hok Hc Hn. eapply only_in_drawn, rect_painted; [done|done|]. intros px py Hx Hy. by apply Hn. Qed.

Lemma char_in x y ch fg bg f : fb_ok f → 0 ≤ fg < 2 ^ 32 → 0 ≤ bg < 2 ^ 32 → near f x y 8 16 →
  only_in (inside x y 8 16) f (fb_char x y ch fg bg f).
Proof. intros Hok Hf Hb Hn. eapply only_in_drawn, char_drawn; [done..|]. intros px py Hx Hy. by apply Hn. Qed.

Lemma string_in x y s fg bg f : fb_ok f → 0 ≤ fg < 2 ^ 32 → 0 ≤ bg < 2 ^ 32 →
  near f x y (8 * Z.of_nat (length s)) 16 →
  only_in (inside x y (8 * Z.of_nat (length s)) 16) f (fb_string x y s fg bg f).
Proof. intros Hok Hf Hb Hn. eapply only_in_drawn, string_drawn; [done..|]. intros px py Hx Hy. by apply Hn. Qed.

(** One step in a region around it. *)
Lemma step_in x y w h x' y' w' h' f0 f f' : screen f0 f → near f0 x y w h →
  x ≤ x' → y ≤ y' → x' + w' ≤ x + w → y' + h' ≤ y + h →
  (fb_ok f → near f x' y' w' h' → only_in (inside x' y' w' h') f f') →
  only_in (inside x y w h) f f' ∧ screen f0 f'.
Proof.
  intros Hs Hn H1 H2 H3 H4 Hstep.
  assert (only_in (inside x y w h) f f') as Hi.
  { eapply only_in_mono; [|apply Hstep; [apply Hs|]].
    - intros px py _. by apply inside_sub.
    - eapply near_screen; [exact Hs|]. by eapply near_sub. }
  split; [done|by eapply only_in_screen].
Qed.
End region.

(** ** The windows *)

Section windows.
Implicit Types (g : gui) (w : gui_window_t).

(** Drawing and printing only need the window to hold one character and its
    decoration, and to lie within 65536 pixels of the screen. *)
Definition window_ok f w : Prop :=
  18 ≤ win_w w ∧ 44 ≤ win_h w ∧ 0 ≤ bg_color w < 2 ^ 32 ∧ near f (win_x w) (win_y w) (win_w w) (win_h w).

Definition in_window w : Z → Z → Prop := inside (win_x w) (win_y w) (win_w w) (win_h w).

Lemma screen_refl f : fb_ok f → screen f f.
Proof. intros Hok. split; [done|]. exists (fmem f). by destruct f. Qed.

(** A title that fits: no drawing leaves the window. *)
Lemma draw_window_in w f : fb_ok f → window_ok f w → 6 + 8 * Z.of_nat (length (until_nul (title w))) ≤ win_w w →
  only_in (in_window w) f (gui_draw_window w f).
Proof.
  intros Hok (Hw & Hh & _ & Hn) Ht. unfold gui_draw_window. destruct (visible w); cbn [negb]; [|done].
  pose proof (screen_refl f Hok) as S0. unfold in_window, GUI_TITLEBAR_H, GUI_BORDER. cbv zeta.
  set (x := win_x w) in *. set (y := win_y w) in *. set (ww := win_w w) in *. set (h := win_h w) in *.
  assert (∀ x' y' v' h' c k, 0 ≤ c < 2 ^ 32 → screen f k → x ≤ x' → y ≤ y' → x' + v' ≤ x + ww → y' + h' ≤ y + h →
    only_in (inside x y ww h) k (fb_rect x' y' v' h' c k) ∧ screen f (fb_rect x' y' v' h' c k)) as Rect.
  { intros x' y' v' h' c k Hc Hs H1 H2 H3 H4. eapply step_in; [done..|]. intros. by apply rect_in. }
  assert (∀ x' y' s fg bg k, 0 ≤ fg < 2 ^ 32 → 0 ≤ bg < 2 ^ 32 → screen f k → x ≤ x' → y ≤ y' →
    x' + 8 * Z.of_nat (length s) ≤ x + ww → y' + 16 ≤ y + h →
    only_in (inside x y ww h) k (fb_string x' y' s fg bg k) ∧ screen f (fb_string x' y' s fg bg k)) as Text.
  { intros x' y' s fg bg k Hf Hb Hs H1 H2 H3 H4. eapply step_in; [done..|]. intros. by apply string_in. }
  destruct (Rect x y ww h win_bg f) as [I1 S1]; [done|done|lia..|]. set (f1 := fb_rect x y ww h win_bg f) in *.
  destruct (Rect x y ww 20 title_active f1) as [I2 S2]; [done|done|lia..|]. set (f2 := fb_rect x y ww 20 _ f1) in *.
  destruct (Text (x + 6) (y + 3) (until_nul (title w)) title_text title_active f2) as [I3 S3];
    [done|done|done|lia..|]. set (f3 := fb_string (x + 6) _ _ _ _ f2) in *.
  destruct (Rect (x + ww - 18) (y + 3) 14 14 COLOR_RED f3) as [I4 S4]; [done|done|lia..|].
  set (f4 := fb_rect (x + ww - 18) _ _ _ _ f3) in *.
  destruct (Text (x + ww - 18 + 4) (y + 3 + 1) (bytes "x") COLOR_WHITE COLOR_RED f4) as [I5 S5];
    [done|done|done|lia|lia|change (length (bytes "x")) with 1%nat; lia|lia|]. set (f5 := fb_string (x + ww - 18 + 4) _ _ _ _ f4) in *.
  clearbody f1 f2 f3 f4 f5. unfold fb_rect_outline.
  destruct (Rect x y ww 2 border_col f5) as [I6 S6]; [done|done|lia..|]. set (f6 := fb_rect x y ww 2 _ f5) in *.
  destruct (Rect x (y + h - 2) ww 2 border_col f6) as [I7 S7]; [done|done|lia..|].
  set (f7 := fb_rect x (y + h - 2) _ _ _ f6) in *.
  destruct (Rect x y 2 h border_col f7) as [I8 S8]; [done|done|lia..|]. set (f8 := fb_rect x y 2 h _ f7) in *.
  destruct (Rect (x + ww - 2) y 2 h border_col f8) as [I9 S9]; [done|done|lia..|].
  by repeat (etrans; [eassumption|]).
Qed.

(** The client area text is printed in. *)
Definition client w : Z → Z → Prop := inside (win_x w + 2) (win_y w + 20) (win_w w - 4) (win_h w - 22).

Definition cursor_ok g (i : Z) : Prop :=
  0 ≤ i < GUI_MAX_WINDOWS ∧ length (cursor_x g) = 8%nat ∧ length (cursor_y g) = 8%nat ∧
  4 ≤ rd (cursor_x g) i ∧ 24 ≤ rd (cursor_y g) i.

(** From [g] to [g'] only the cursor of window [i] and pixels of [P] change. *)
Definition only_text (i : Z) P g g' : Prop :=
  only_in P (gfb g) (gfb g') ∧ windows g' = windows g ∧ nwindows g' = nwindows g ∧
  ∀ j, 0 ≤ j → j ≠ i → rd (cursor_x g') j = rd (cursor_x g) j ∧ rd (cursor_y g') j = rd (cursor_y g) j.

#[export] Instance only_text_preorder i P : PreOrder (only_text i P).
Proof.
  split; [done|]. intros g1 g2 g3 (A1 & B1 & C1 & E1) (A2 & B2 & C2 & E2).
  split_and!; [by etrans|congruence|congruence|]. intros j Hj Hne.
  destruct (E1 j Hj Hne), (E2 j Hj Hne). split; congruence.
Qed.

Lemma with_cursor_text i cx cy P g : 0 ≤ i → only_text i P g (with_cursor i cx cy g).
Proof. intros Hi. split_and!; [done|done|done|]. intros j Hj Hne. cbn. by rewrite !rd_wr_ne by lia. Qed.

Lemma draw_text i P p g : only_in P (gfb g) (p (gfb g)) → only_text i P g (draw p g).
Proof. by intros. Qed.

Lemma with_cursor_ok i cx cy g : cursor_ok g i → 4 ≤ cx → 24 ≤ cy → cursor_ok (with_cursor i cx cy g) i.
Proof.
  intros (Hi & Hx & Hy & _) Hcx Hcy. unfold cursor_ok, GUI_MAX_WINDOWS in *. cbn [with_cursor cursor_x cursor_y].
  rewrite !length_wr, !rd_wr_eq by lia. tauto.
Qed.

Lemma print_char_in i fg c g : fb_ok (gfb g) → 0 ≤ fg < 2 ^ 32 → cursor_ok g i → window_ok (gfb g) (window g i) →
  only_text i (client (window g i)) g (print_char i fg c g) ∧ cursor_ok (print_char i fg c g) i.
Proof.
  intros Hok Hfg Hcur (Hw & Hh & Hbg & Hn). pose proof Hcur as (Hi & Hlx & Hly & Hcx & Hcy). unfold print_char.
  cbv zeta. set (w := window g i) in *. unfold FB_FONT_H, FB_FONT_W, GUI_BORDER, GUI_TITLEBAR_H in *.
  case_test. { split; [apply with_cursor_text; lia|apply with_cursor_ok; [done|lia|lia]]. }
  assert (∃ cx cy, (if win_x w + win_w w - 2 - 2 <? win_x w + rd (cursor_x g) i + 8
    then (4, rd (cursor_y g) i + 16) else (rd (cursor_x g) i, rd (cursor_y g) i)) = (cx, cy) ∧
    4 ≤ cx ∧ cx + 8 ≤ win_w w - 4 ∧ 24 ≤ cy) as (cx & cy & -> & Hx1 & Hx2 & Hy1).
  { case_test; eexists _, _; (split; [reflexivity|lia]). }
  assert (∃ cy' g', (if win_y w + win_h w - 2 - 2 <? win_y w + cy + 16
    then (20 + 4, draw (fb_rect (win_x w + 2) (win_y w + 20) (win_w w - 4) (win_h w - 20 - 2) (bg_color w)) g)
    else (cy, g)) = (cy', g') ∧ 24 ≤ cy' ∧ cy' + 16 ≤ win_h w - 4 ∧ screen (gfb g) (gfb g') ∧
    only_text i (client w) g g' ∧ cursor_ok g' i) as (cy' & g' & -> & Hy2 & Hy3 & Hs & Ht & Hcur').
  { case_test; eexists _, _; (split; [reflexivity|]).
    - assert (only_in (client w) (gfb g) (fb_rect (win_x w + 2) (win_y w + 20) (win_w w - 4) (win_h w - 20 - 2)
        (bg_color w) (gfb g))) as Hr.
      { replace (win_h w - 20 - 2) with (win_h w - 22) by lia. apply rect_in; [done|done|].
        eapply near_sub; [exact Hn|lia..]. }
      split; [lia|]. split; [lia|]. split; [eapply only_in_screen; [by apply screen_refl|exact Hr]|].
      split; [by apply draw_text|exact Hcur].
    - split; [lia|]. split; [lia|]. split; [by apply screen_refl|]. split; [done|exact Hcur]. }
  split.
  - etrans; [exact Ht|]. etrans; [|apply with_cursor_text; lia]. apply draw_text.
    eapply (step_in _ _ _ _ (win_x w + cx) (win_y w + cy') 8 16); [exact Hs| |lia..|].
    + eapply near_sub; [exact Hn|lia..].
    + intros. by apply char_in.
  - apply with_cursor_ok; [done|lia|lia].
Qed.

Lemma window_only_text i j P g g' : only_text i P g g' → window g' j = window g j.
Proof. intros (_ & E & _). unfold window. by rewrite E. Qed.

Lemma window_print_in i s fg : ∀ g, fb_ok (gfb g) → 0 ≤ fg < 2 ^ 32 → cursor_ok g i →
  window_ok (gfb g) (window g i) →
  only_text i (client (window g i)) g (gui_window_print i s fg g) ∧ cursor_ok (gui_window_print i s fg g) i.
Proof.
  induction s as [|c s IH]; intros g Hok Hfg Hc Hw; [split; [done|exact Hc]|].
  destruct (print_char_in i fg c g Hok Hfg Hc Hw) as [A B]. unfold gui_window_print in *. cbn [foldl].
  pose proof A as ([E _] & _). pose proof (window_only_text i i _ _ _ A) as Ew.
  destruct (IH (print_char i fg c g)) as [A' B']; [by rewrite E|done|done|rewrite Ew, E; exact Hw|].
  split; [|done]. rewrite Ew in A'. by etrans.
Qed.
End windows.

(** ** The invariant of the window array *)

Definition gui_ok (g : gui) : Prop :=
  (length (windows g) = 8%nat ∧ length (cursor_x g) = 8%nat ∧ length (cursor_y g) = 8%nat) ∧
  0 ≤ nwindows g ≤ GUI_MAX_WINDOWS ∧
  ∀ i, 0 ≤ i < nwindows g → 4 ≤ rd (cursor_x g) i ∧ 24 ≤ rd (cursor_y g) i ∧
    length (title (window g i)) = 64%nat ∧ rd (title (window g i)) 63 = 0.

(** The calls a client can make, from boot on. *)
Inductive gui_reach : gui → Prop :=
  | reach_boot f : gui_reach (gui_0 f)
  | reach_init g : gui_reach g → gui_reach (gui_init g)
  | reach_create s x y w h g : gui_reach g → gui_reach (gui_create_window s x y w h g).2
  | reach_destroy i g : gui_reach g → 0 ≤ i < nwindows g → gui_reach (gui_destroy_window (Some i) g)
  | reach_print i s fg g : gui_reach g → 0 ≤ i < nwindows g → gui_reach (gui_window_print i s fg g)
  | reach_clear i g : gui_reach g → 0 ≤ i < nwindows g → gui_reach (gui_window_clear i g)
  | reach_draw g : gui_reach g → gui_reach (gui_draw_all g).

(** Only the framebuffer differs. *)
Definition same_windows (g g' : gui) : Prop :=
  windows g' = windows g ∧ nwindows g' = nwindows g ∧ cursor_x g' = cursor_x g ∧ cursor_y g' = cursor_y g.
#[export] Instance same_windows_preorder : PreOrder same_windows.
Proof.
  split; [done|]. intros g1 g2 g3 (A1 & B1 & C1 & D1) (A2 & B2 & C2 & D2). split_and!; congruence.
Qed.

Lemma gui_ok_same g g' : same_windows g g' → gui_ok g → gui_ok g'.
Proof. intros (A & B & C & E) H. unfold gui_ok, window in *. by rewrite A, B, C, E. Qed.

Lemma for_same body n i g : (∀ j g, same_windows g (body j g)) → same_windows g (for_up body n i g).
Proof. intros Hb. apply (for_up_inv (λ _ g', same_windows g g')); [done|]. intros j t _ Ht. etrans; [exact Ht|apply Hb]. Qed.

Lemma window_update g i w : 0 ≤ i < 8 → length (windows g) = 8%nat → ∀ j, 0 ≤ j →
  default window_0 (<[Z.to_nat i := w]> (windows g) !! Z.to_nat j) = if decide (j = i) then w else window g j.
Proof.
  intros Hi Hl j Hj. unfold window. case_decide as E.
  - subst j. by rewrite list_lookup_insert_eq by lia.
  - by rewrite list_lookup_insert_ne by lia.
Qed.

Lemma with_cursor_gui_ok i cx cy g : gui_ok g → 0 ≤ i < nwindows g → 4 ≤ cx → 24 ≤ cy → gui_ok (with_cursor i cx cy g).
Proof.
  intros ((Hl & Hx & Hy) & Hn & Hi) Hb H1 H2. unfold gui_ok, with_cursor, window in *.
  cbn [windows nwindows cursor_x cursor_y]. rewrite !length_wr. split; [done|]. split; [done|].
  intros j Hj. destruct (Hi j Hj) as (A & B & C). unfold GUI_MAX_WINDOWS in Hn. destruct (decide (j = i)) as [->|].
  - rewrite !rd_wr_eq by lia. done.
  - rewrite !rd_wr_ne by lia. done.
Qed.

Lemma set_title_ok s : length (set_title s) = 64%nat ∧ rd (set_title s) 63 = 0.
Proof.
  unfold set_title.
  assert (length (take 63 s) ≤ 63)%nat as Hl by (rewrite length_take; lia).
  split; [rewrite length_app, length_replicate; lia|].
  unfold rd. change (Z.to_nat 63) with 63%nat. rewrite lookup_app_r by lia.
  by rewrite lookup_replicate_2 by lia.
Qed.

(** What [gui_create_window] does with the array. *)
Lemma create_window_ok s x y w h g : gui_ok g → nwindows g < GUI_MAX_WINDOWS →
  let g' := (gui_create_window s x y w h g).2 in
  gui_ok g' ∧ nwindows g' = nwindows g + 1 ∧
  window g' (nwindows g) = Window x y w h (set_title s) true win_bg None ∧
  ∀ j, 0 ≤ j → j ≠ nwindows g → window g' j = window g j.
Proof.
  intros ((Hl & Hx & Hy) & Hn & Hi) Hlt. unfold gui_create_window. rewrite (proj2 (Z.leb_gt _ _)) by done.
  unfold GUI_MAX_WINDOWS in *. set (win := Window _ _ _ _ _ _ _ _). cbv zeta. cbn [snd].
  assert (∀ j, 0 ≤ j → default window_0 (<[Z.to_nat (nwindows g) := win]> (windows g) !! Z.to_nat j) =
    if decide (j = nwindows g) then win else window g j) as Hw by (intros; apply window_update; lia).
  unfold gui_ok, draw, with_gfb, with_cursor, GUI_TITLEBAR_H, GUI_MAX_WINDOWS, window in *.
  cbn [windows nwindows cursor_x cursor_y]. split; [|split_and!].
  - rewrite length_insert, !length_wr. split; [done|]. split; [lia|]. intros j Hj. rewrite (Hw j) by lia.
    case_decide as E.
    + subst j. rewrite !rd_wr_eq by lia. split; [lia|]. split; [lia|]. apply set_title_ok.
    + rewrite !rd_wr_ne by lia. apply Hi. lia.
  - done.
  - rewrite Hw by lia. by rewrite decide_True.
  - intros j Hj Hne. rewrite (Hw j) by lia. by rewrite decide_False.
Qed.

Lemma print_char_gui_ok i fg c g : gui_ok g → 0 ≤ i < nwindows g →
  gui_ok (print_char i fg c g) ∧ nwindows (print_char i fg c g) = nwindows g.
Proof.
  intros Hg Hi. pose proof Hg as (_ & _ & Hc). destruct (Hc i Hi) as (Hx & Hy & _). unfold print_char. cbv zeta.
  unfold FB_FONT_H, FB_FONT_W, GUI_TITLEBAR_H. case_test; [split; [apply with_cursor_gui_ok; (done || lia)|done]|].
  case_test; case_test; (split; [apply with_cursor_gui_ok; [|done|lia|lia]; eapply gui_ok_same; [|exact Hg]; done|done]).
Qed.

Lemma gui_reach_inv g : gui_reach g → gui_ok g.
Proof.
  induction 1 as [f|g _ IH|s x y w h g _ IH|i g _ IH Hi|i s fg g _ IH Hi|i g _ IH Hi|g _ IH].
  - split; [done|]. split; [by vm_compute|]. cbn. lia.
  - destruct IH as ((_ & Hx & Hy) & _). split; [done|]. split; [by vm_compute|]. cbn. lia.
  - destruct (decide (nwindows g < GUI_MAX_WINDOWS)); [by apply create_window_ok|].
    unfold gui_create_window. by rewrite (proj2 (Z.leb_le _ _)) by lia.
  - unfold gui_destroy_window. cbv zeta. set (w := Window _ _ _ _ _ _ _ _). set (g1 := Gui _ _ _ _ _).
    assert (gui_ok g1) as Hg1.
    { destruct IH as ((Hl & Hx & Hy) & Hn & Hc). unfold GUI_MAX_WINDOWS in *. unfold gui_ok, g1.
      assert (∀ j, 0 ≤ j → default window_0 (<[Z.to_nat i := w]> (windows g) !! Z.to_nat j) =
        if decide (j = i) then w else window g j) as Hw by (intros; apply window_update; lia).
      unfold window at 1 2. cbn [windows nwindows cursor_x cursor_y]. rewrite length_insert.
      split; [done|]. split; [done|]. intros j Hj. rewrite (Hw j) by lia.
      case_decide as E; [subst j; by apply Hc|by apply Hc]. }
    eapply gui_ok_same; [|exact Hg1]. etrans; [|apply for_same; intros j k; by case_match]. done.
  - unfold gui_window_print. revert g IH Hi. induction s as [|c s IHs]; intros g IH Hi; [done|]. cbn [foldl].
    destruct (print_char_gui_ok i fg c g IH Hi) as [A B]. apply IHs; [done|by rewrite B].
  - unfold gui_window_clear. cbv zeta. eapply gui_ok_same; [|apply (with_cursor_gui_ok i 4 24 g IH Hi); lia]. done.
  - unfold gui_draw_all. cbv zeta. eapply gui_ok_same; [|exact IH]. etrans; [|apply for_same; done]. done.
Qed.

(** ** The properties *)

(** C39: text printed into a window stays in its client area: no other pixel of
    the screen and no other byte of memory changes, nor any window or the cursor
    of another one, whatever the text and wherever the cursor was; and drawing the
    window itself stays inside it when its title fits.  The window must be at
    least 18 by 44 pixels; titles are not clipped. *)
Theorem gui_draws_inside (i fg : Z) (s : list Z) (g : gui) :
  fb_ok (gfb g) → 0 ≤ fg < 2 ^ 32 → cursor_ok g i → window_ok (gfb g) (window g i) →
  let g' := gui_window_print i s fg g in
  (∀ x y, on_screen (gfb g) x y → ¬ client (window g i) x y → pixel_at (gfb g') x y = pixel_at (gfb g) x y) ∧
  only_in (client (window g i)) (gfb g) (gfb g') ∧
  windows g' = windows g ∧ cursor_ok g' i ∧
  (∀ j, 0 ≤ j → j ≠ i → rd (cursor_x g') j = rd (cursor_x g) j ∧ rd (cursor_y g') j = rd (cursor_y g) j) ∧
  (6 + 8 * Z.of_nat (length (until_nul (title (window g i)))) ≤ win_w (window g i) →
     only_in (in_window (window g i)) (gfb g) (gui_draw_window (window g i) (gfb g))).
Proof.
  intros Hok Hfg Hc Hw g'. destruct (window_print_in i s fg g Hok Hfg Hc Hw) as [(A & B & _ & C) E].
  split_and!; [|exact A|exact B|exact E|exact C|by apply draw_window_in].
  intros x y Hs Hn. eapply only_in_pixel; [done| |exact A|done|done].
  intros px py. unfold client, inside. apply _.
Qed.

(** C40: whatever the client calls, at most eight windows exist, each with its
    cursor inside it and a terminated title; a window is created with the
    geometry and the first 63 characters of the title it was given in the next
    slot, the others untouched, exactly when fewer than eight were created since
    [gui_init]: destroying a window frees no slot. *)
Theorem gui_reach_ok (g : gui) :
  gui_reach g →
  gui_ok g ∧
  (∀ i, nwindows (gui_destroy_window (Some i) g) = nwindows g) ∧
  ∀ s x y w h, let r := gui_create_window s x y w h g in
    if decide (nwindows g = GUI_MAX_WINDOWS) then r = (None, g)
    else r.1 = Some (nwindows g) ∧ nwindows r.2 = nwindows g + 1 ∧
      window r.2 (nwindows g) = Window x y w h (set_title s) true win_bg None ∧
      ∀ j, 0 ≤ j → j ≠ nwindows g → window r.2 j = window g j.
Proof.
  intros Hr. pose proof (gui_reach_inv g Hr) as Hg. split; [done|]. split.
  - intros i. unfold gui_destroy_window. cbv zeta. set (g1 := Gui _ _ _ _ _).
    destruct (for_same (λ j g, if j =? i then g else draw (gui_draw_window (window g j)) g)
      (span 0 (nwindows (draw gui_draw_desktop g1))) 0 (draw gui_draw_desktop g1)) as (_ & E & _); [|exact E].
    intros j k. by case_match.
  - intros s x y w h. cbv zeta. pose proof Hg as (_ & Hn & _). case_decide as E.
    + unfold gui_create_window. by rewrite (proj2 (Z.leb_le _ _)) by lia.
    + split; [unfold gui_create_window; by rewrite (proj2 (Z.leb_gt _ _)) by lia|].
      apply create_window_ok; [done|lia].
Qed.

(** A screen of 64 by 64 pixels with a window of 18 by 44 in its corner. *)
Definition demo_screen : fb_info_t := Fb 4096 256 64 64 32 true ∅.
Definition demo_gui : gui :=
  Gui (Window 0 0 18 44 (set_title [65]) true win_bg None :: replicate 7 window_0) 1
    (4 :: replicate 7 0) (24 :: replicate 7 0) demo_screen.

Lemma gui_draws_inside_witness :
  pixel_at (gfb (gui_window_print 0 [72; 10; 105] 0 demo_gui)) 40 30 = 0.
Proof.
  destruct (gui_draws_inside 0 0 [72; 10; 105] demo_gui) as (Hp & _).
  - unfold fb_ok, demo_gui, demo_screen. cbn. lia.
  - lia.
  - unfold cursor_ok, GUI_MAX_WINDOWS. split; [lia|]. vm_compute. split_and!; done.
  - unfold window_ok. split; [vm_compute; done|]. split; [vm_compute; done|]. split; [vm_compute; split; done|].
    change (near demo_screen 0 0 18 44). intros px py [Hx Hy]. unfold clipped, demo_screen. cbn. lia.
  - rewrite Hp; [reflexivity| |].
    + unfold on_screen, demo_gui, demo_screen. cbn. lia.
    + intros [[_ Hx] _]. vm_compute in Hx. discriminate Hx.
Defined.

Lemma gui_reach_ok_witness :
  nwindows (gui_destroy_window (Some 0) (gui_create_window [65] 0 0 18 44 (gui_0 demo_screen)).2) = 1.
Proof.
  destruct (gui_reach_ok (gui_create_window [65] 0 0 18 44 (gui_0 demo_screen)).2) as (_ & E & _).
  - apply reach_create, reach_boot.
  - rewrite E. reflexivity.
Defined.
