(* ===== verification/NetStack.v ===== *)
(** The network protocols: the crate src/rust/crates/aerogel-core (lib.rs and
    net/ethernet.rs, ipv4.rs, arp.rs, icmp.rs, udp.rs).

    A slice is the list of its bytes.  A function that fills a mutable slice
    returns the slice as it leaves it, with the number of bytes it reports. *)
From S2P Require Import Prelude.

(** [buf[off..off + l.len()].copy_from_slice(l)] *)
Definition put (off : nat) (l buf : list Z) : list Z := take off buf ++ l ++ drop (off + length l) buf.

(** [u16::from_be_bytes] of two bytes of a slice, [u32::from_be_bytes] of four, and
    [to_be_bytes]. *)
Definition be16 (l : list Z) (i : Z) : Z := rd l i * 2 ^ 8 + rd l (i + 1).
Definition be32 (l : list Z) (i : Z) : Z := be16 l i * 2 ^ 16 + be16 l (i + 2).
Definition to_be16 (v : Z) : list Z := [u8 (Z.shiftr v 8); u8 v].
Definition to_be32 (v : Z) : list Z := [u8 (Z.shiftr v 24); u8 (Z.shiftr v 16); u8 (Z.shiftr v 8); u8 v].

(** ** ethernet.rs *)

Inductive EtherType := Arp | Ipv4 | Unknown.
Definition from_u16 (v : Z) : EtherType := if v =? 0x0806 then Arp else if v =? 0x0800 then Ipv4 else Unknown.

Definition write_frame (buf dst src : list Z) (etype : Z) : nat * list Z :=
  if (length buf <? 14)%nat then (0%nat, buf) else
  let buf := put 0 dst buf in
  let buf := put 6 src buf in
  let buf := wr buf 12 (u8 (Z.shiftr etype 8)) in
  let buf := wr buf 13 (u8 etype) in
  (14%nat, buf).

(** ** ipv4.rs *)

Definition PROTO_ICMP : Z := 1.
Definition PROTO_UDP : Z := 17.
Definition PROTO_TCP : Z := 6.

(** The sum of the big-endian words of [data], an odd last byte padded with zero. *)
Fixpoint sum_words (data : list Z) (sum : Z) : Z :=
  match data with
  | a :: b :: l => sum_words l (u32 (sum + (a * 2 ^ 8 + b)))
  | [a] => u32 (sum + Z.shiftl a 8)
  | [] => sum
  end.

(** [while sum >> 16 != 0 { ... }]; four rounds are enough for 32 bits. *)
Fixpoint fold_carry (n : nat) (sum : Z) : Z :=
  match n with
  | O => sum
  | S k => if Z.shiftr sum 16 =? 0 then sum else fold_carry k (u32 (Z.land sum 0xFFFF + Z.shiftr sum 16))
  end.

Definition checksum (data : list Z) : Z := u16 (Z.lnot (u16 (fold_carry 4 (sum_words data 0)))).

Definition ipv4_parse (pkt : list Z) : option (list Z * Z * Z * Z) :=
  if (length pkt <? 20)%nat then None else
  let ihl := Z.land (rd pkt 0) 0x0F * 4 in
  let proto := rd pkt 9 in
  let src_ip := be32 pkt 12 in
  let dst_ip := be32 pkt 16 in
  if Z.of_nat (length pkt) <? ihl then None
  else Some (drop (Z.to_nat ihl) pkt, proto, src_ip, dst_ip).

Definition ipv4_write (buf : list Z) (proto src_ip dst_ip payload_len : Z) : nat * list Z :=
  let total := 20 + payload_len in
  if Z.of_nat (length buf) <? total then (0%nat, buf) else
  let buf := wr buf 0 0x45 in
  let buf := wr buf 1 0 in
  let buf := put 2 (to_be16 (u16 total)) buf in
  let buf := put 4 [0; 1] buf in
  let buf := put 6 [0x40; 0] buf in
  let buf := wr buf 8 64 in
  let buf := wr buf 9 proto in
  let buf := put 10 [0; 0] buf in
  let buf := put 12 (to_be32 src_ip) buf in
  let buf := put 16 (to_be32 dst_ip) buf in
  let csum := checksum (take 20 buf) in
  (20%nat, put 10 (to_be16 csum) buf).

(** ** arp.rs *)

Definition arp_handle (payload our_mac : list Z) (our_ip : Z) (src_mac out : list Z) : nat * list Z :=
  if (length payload <? 28)%nat then (0%nat, out) else
  let oper := be16 payload 6 in
  let sender_ip := be32 payload 14 in
  let target_ip := be32 payload 24 in
  if negb (oper =? 1) || negb (target_ip =? our_ip) then (0%nat, out) else
  let sender_mac := take 6 (drop 8 payload) in
  let '(hlen, out) := write_frame out sender_mac our_mac 0x0806 in
  if (length out <? hlen + 28)%nat then (0%nat, out) else
  let p := drop hlen out in
  let p := put 0 [0x00; 0x01] p in
  let p := put 2 [0x08; 0x00] p in
  let p := wr p 4 6 in
  let p := wr p 5 4 in
  let p := put 6 [0x00; 0x02] p in
  let p := put 8 our_mac p in
  let p := put 14 (to_be32 our_ip) p in
  let p := put 18 sender_mac p in
  let p := put 24 (to_be32 sender_ip) p in
  ((hlen + 28)%nat, take hlen out ++ p).

(** ** icmp.rs *)

Definition icmp_handle (payload our_mac : list Z) (our_ip : Z) (src_mac : list Z) (src_ip : Z) (out : list Z)
    : nat * list Z :=
  if (length payload <? 8)%nat then (0%nat, out) else
  if negb (rd payload 0 =? 8) then (0%nat, out) else
  let data_len := length payload in
  if (length out <? 14 + 20 + data_len)%nat then (0%nat, out) else
  let '(eh, out) := write_frame out src_mac our_mac 0x0800 in
  let ip_buf := drop eh out in
  let '(ih, ip_buf) := ipv4_write ip_buf PROTO_ICMP our_ip src_ip (Z.of_nat data_len) in
  let out := take eh out ++ ip_buf in
  let eh := (eh + ih)%nat in
  let icmp := take data_len (drop eh out) in
  let icmp := put 0 payload icmp in
  let icmp := wr icmp 0 0 in
  let icmp := wr icmp 1 0 in
  let icmp := wr icmp 2 0 in
  let icmp := wr icmp 3 0 in
  let csum := checksum icmp in
  let icmp := put 2 (to_be16 csum) icmp in
  ((eh + data_len)%nat, put eh icmp out).

(** ** udp.rs *)

Definition udp_parse (pkt : list Z) : option (Z * Z * list Z) :=
  if (length pkt <? 8)%nat then None else Some (be16 pkt 0, be16 pkt 2, drop 8 pkt).

Definition udp_write (buf : list Z) (src_port dst_port : Z) (payload : list Z) : nat * list Z :=
  let total := (8 + length payload)%nat in
  if (length buf <? total)%nat then (0%nat, buf) else
  let buf := put 0 (to_be16 src_port) buf in
  let buf := put 2 (to_be16 dst_port) buf in
  let buf := put 4 (to_be16 (u16 (Z.of_nat total))) buf in
  let buf := put 6 [0; 0] buf in
  (total, put 8 payload buf).

(** ** lib.rs *)

(** The result and the reply buffer; [None] when no reply is to be sent, the
    length of the reply otherwise. *)
Definition net_process_packet (pkt omac : list Z) (our_ip : Z) (rbuf : list Z) : option nat * list Z :=
  if (length pkt <? 14)%nat then (None, rbuf) else
  let etype := from_u16 (be16 pkt 12) in
  let src_mac := take 6 (drop 6 pkt) in
  let payload := drop 14 pkt in
  let r :=
    match etype with
    | Arp => Some (arp_handle payload omac our_ip src_mac rbuf)
    | Ipv4 =>
        match ipv4_parse payload with
        | Some (ip_payload, proto, src_ip, dst_ip) =>
            if negb (dst_ip =? our_ip) then None
            else if proto =? PROTO_ICMP then Some (icmp_handle ip_payload omac our_ip src_mac src_ip rbuf)
            else Some (0%nat, rbuf)
        | None => Some (0%nat, rbuf)
        end
    | Unknown => Some (0%nat, rbuf)
    end in
  match r with
  | None => (None, rbuf)
  | Some (n, rbuf) => (if (0 <? n)%nat then Some n else None, rbuf)
  end.

(** The request [net_arp_announce] makes up, and its answer. *)
Definition net_arp_announce (omac : list Z) (our_ip : Z) (buf : list Z) : nat * list Z :=
  let fake := replicate 28 0 in
  let fake := put 0 [0x00; 0x01] fake in
  let fake := put 2 [0x08; 0x00] fake in
  let fake := wr fake 4 6 in
  let fake := wr fake 5 4 in
  let fake := put 6 [0x00; 0x01] fake in
  let fake := put 8 omac fake in
  let fake := put 14 (to_be32 our_ip) fake in
  let fake := put 24 (to_be32 our_ip) fake in
  arp_handle fake omac our_ip omac buf.

(** ** Slices *)

(** Name the next element of a list that is long enough. *)
Ltac uncons l := destruct l as [|? l]; [cbn [length] in *; lia|].
Ltac list_nil l := destruct l; [|cbn [length] in *; lia].

Lemma write_frame_spec buf dst src etype : (14 ≤ length buf)%nat → length dst = 6%nat → length src = 6%nat →
  write_frame buf dst src etype = (14%nat, dst ++ src ++ to_be16 etype ++ drop 14 buf).
Proof.
  intros Hb Hd Hs. unfold write_frame. rewrite (proj2 (Nat.ltb_ge _ _)) by lia.
  do 6 uncons dst. list_nil dst. do 6 uncons src. list_nil src. do 14 uncons buf. reflexivity.
Qed.

(** The header [ipv4_write] writes, with the checksum field [c]. *)
Definition ip_header (proto src_ip dst_ip payload_len : Z) (c : list Z) : list Z :=
  [0x45; 0] ++ to_be16 (u16 (20 + payload_len)) ++ [0; 1; 0x40; 0; 64; proto] ++ c ++ to_be32 src_ip ++ to_be32 dst_ip.

Lemma ipv4_write_spec buf proto s d n : 0 ≤ n → 20 + n ≤ Z.of_nat (length buf) →
  ipv4_write buf proto s d n =
    (20%nat, ip_header proto s d n (to_be16 (checksum (ip_header proto s d n [0; 0]))) ++ drop 20 buf).
Proof.
  intros Hn Hb. unfold ipv4_write. rewrite (proj2 (Z.ltb_ge _ _)) by lia. do 20 uncons buf. reflexivity.
Qed.

Definition arp_body (oper : Z) (sha : list Z) (spa : Z) (tha : list Z) (tpa : Z) : list Z :=
  [0x00; 0x01; 0x08; 0x00; 6; 4] ++ to_be16 oper ++ sha ++ to_be32 spa ++ tha ++ to_be32 tpa.

Lemma put_arp_spec p mac ip tmac tip : (28 ≤ length p)%nat → length mac = 6%nat → length tmac = 6%nat →
  put 24 (to_be32 tip) (put 18 tmac (put 14 (to_be32 ip) (put 8 mac (put 6 [0; 2] (wr (wr
    (put 2 [8; 0] (put 0 [0; 1] p)) 4 6) 5 4))))) = arp_body 2 mac ip tmac tip ++ drop 28 p.
Proof.
  intros Hp Hm Ht. do 6 uncons mac. list_nil mac. do 6 uncons tmac. list_nil tmac.
  do 28 uncons p. reflexivity.
Qed.

(** ** Checksums *)

Lemma list_pair_ind (P : list Z → Prop) :
  P [] → (∀ a, P [a]) → (∀ a b l, P l → P (a :: b :: l)) → ∀ l, P l.
Proof.
  intros H0 H1 H2 l. enough (P l ∧ ∀ a, P (a :: l)) by tauto.
  induction l as [|b l [IH IH']]; split; auto.
Qed.

(** The exact sum of the words. *)
Fixpoint word_sum (l : list Z) : Z :=
  match l with a :: b :: l => a * 2 ^ 8 + b + word_sum l | [a] => a * 2 ^ 8 | [] => 0 end.

Definition is_byte (c : Z) : Prop := 0 ≤ c < 2 ^ 8.

Lemma word_sum_bound l : Forall is_byte l → 0 ≤ word_sum l ≤ 65535 * Z.of_nat (length l).
Proof.
  unfold is_byte. induction l as [|a|a b l IH] using list_pair_ind; intros Hl; cbn [word_sum length].
  - lia.
  - apply Forall_cons_1 in Hl as [Ha _]. lia.
  - apply Forall_cons_1 in Hl as [Ha Hl]. apply Forall_cons_1 in Hl as [Hb Hl]. specialize (IH Hl). lia.
Qed.

Lemma word_sum_app a b : Nat.even (length a) = true → word_sum (a ++ b) = word_sum a + word_sum b.
Proof.
  induction a as [|x|x y a IH] using list_pair_ind; intros He; [done|done|]. cbn [app word_sum].
  rewrite IH; [lia|exact He].
Qed.

Lemma sum_words_exact l : ∀ s, Forall is_byte l → 0 ≤ s → s + word_sum l < 2 ^ 32 →
  sum_words l s = s + word_sum l.
Proof.
  unfold is_byte. induction l as [|a|a b l IH] using list_pair_ind; intros s Hl Hs Hb; cbn [sum_words word_sum] in *.
  - lia.
  - apply Forall_cons_1 in Hl as [Ha _]. rewrite Z.shiftl_mul_pow2 by lia. apply wrap_small. lia.
  - apply Forall_cons_1 in Hl as [Ha Hl]. apply Forall_cons_1 in Hl as [Hb' Hl].
    pose proof (word_sum_bound l Hl). rewrite wrap_small by lia. rewrite IH by (done || lia). lia.
Qed.

(** Folding the carries keeps the value modulo 65535 and ends below 65536. *)
Lemma fold_carry_step s : 0 ≤ s < 2 ^ 32 →
  u32 (Z.land s 0xFFFF + Z.shiftr s 16) = s mod 2 ^ 16 + s / 2 ^ 16 ∧ Z.shiftr s 16 = s / 2 ^ 16.
Proof.
  intros Hs. change 0xFFFF with (Z.ones 16). rewrite Z.land_ones, Z.shiftr_div_pow2 by lia.
  split; [|done]. apply wrap_small. dlia.
Qed.

Lemma fold_carry_spec s : 0 ≤ s < 2 ^ 32 →
  let r := fold_carry 4 s in 0 ≤ r < 2 ^ 16 ∧ (∃ k, s = r + 65535 * k) ∧ (r = 0 ↔ s = 0).
Proof.
  assert (∀ n s, 0 ≤ s < 2 ^ 32 →
    (n = 1%nat → s < 2 ^ 16) → (n = 2%nat → s ≤ 2 ^ 16) → (n = 3%nat → s < 2 ^ 17 - 1) → (1 ≤ n ≤ 4)%nat →
    let r := fold_carry n s in 0 ≤ r < 2 ^ 16 ∧ (∃ k, s = r + 65535 * k) ∧ (r = 0 ↔ s = 0)) as H.
  { clear s. intros n. induction n as [|n IH]; intros s Hs H1 H2 H3 Hn; [lia|]. cbn [fold_carry].
    destruct (fold_carry_step s Hs) as [-> ->]. destruct (Z.eqb_spec (s / 2 ^ 16) 0) as [E|E].
    { split; [dlia|]. split; [exists 0; lia|done]. }
    destruct (IH (s mod 2 ^ 16 + s / 2 ^ 16)) as (A & [k Ek] & C); [dlia|dlia..| |].
    { destruct n; [|lia]. assert (s < 2 ^ 16) by auto. dlia. }
    split; [done|]. split; [exists (k + s / 2 ^ 16); dlia|]. rewrite C. dlia. }
  intros Hs. apply (H 4%nat); lia.
Qed.

Lemma checksum_fold l : Forall is_byte l → Z.of_nat (length l) < 2 ^ 16 →
  ∃ r k, checksum l = 65535 - r ∧ 0 ≤ r < 2 ^ 16 ∧ word_sum l = r + 65535 * k ∧ (r = 0 ↔ word_sum l = 0).
Proof.
  intros Hl Hn. pose proof (word_sum_bound l Hl) as Hb.
  unfold checksum. rewrite sum_words_exact, Z.add_0_l by (done || lia).
  destruct (fold_carry_spec (word_sum l)) as (A & [k E] & C); [lia|].
  exists (fold_carry 4 (word_sum l)), k. split; [|done]. rewrite (wrap_small 16 (fold_carry _ _)) by done.
  unfold wrap, Z.lnot. rewrite <- (Z.mod_add _ 1) by lia. rewrite Z.mod_small by lia. lia.
Qed.

(** A packet with its checksum in the place of two zero bytes sums to zero. *)
Lemma checksum_inserted a b :
  Nat.even (length a) = true → Forall is_byte a → Forall is_byte b → Z.of_nat (length a) + Z.of_nat (length b) < 60000 →
  checksum (a ++ to_be16 (checksum (a ++ [0; 0] ++ b)) ++ b) = 0.
Proof.
  intros He Ha Hb Hn.
  assert (∀ x y, is_byte x → is_byte y → Forall is_byte (a ++ [x; y] ++ b)) as Hby.
  { intros x y Hx Hy. apply Forall_app. split; [done|]. apply Forall_app. split; [|done].
    constructor; [done|]. constructor; [done|constructor]. }
  assert (∀ x y, Z.of_nat (length (a ++ [x; y] ++ b)) < 2 ^ 16) as Hlen.
  { intros x y. rewrite !length_app. cbn [length]. lia. }
  destruct (checksum_fold (a ++ [0; 0] ++ b)) as (r & k & E & Hr & Es & Hz); [by apply Hby|apply Hlen|].
  rewrite E. unfold to_be16. rewrite Z.shiftr_div_pow2 by lia.
  set (x := u8 ((65535 - r) / 2 ^ 8)). set (y := u8 (65535 - r)).
  assert (x * 2 ^ 8 + y = 65535 - r) as Exy.
  { unfold x, y, wrap. dlia. }
  assert (is_byte x ∧ is_byte y) as [Hx Hy] by (split; by apply wrap_bound).
  destruct (checksum_fold (a ++ [x; y] ++ b)) as (r' & k' & E' & Hr' & Es' & Hz'); [by apply Hby|apply Hlen|].
  pose proof (word_sum_bound a Ha). pose proof (word_sum_bound b Hb).
  rewrite E'. rewrite word_sum_app in Es, Es', Hz, Hz' by done. cbn [app word_sum] in Es, Es', Hz, Hz'. lia.
Qed.

(** ** What is answered *)

Section replies.
Implicit Types (pkt omac rbuf : list Z) (our_ip : Z).

(** An ARP request for our address, and its answer. *)
Definition arp_request pkt our_ip : bool :=
  let p := drop 14 pkt in
  (be16 pkt 12 =? 0x0806) && (28 <=? length p)%nat && (be16 p 6 =? 1) && (be32 p 24 =? our_ip).

Definition arp_reply pkt omac our_ip : list Z :=
  let p := drop 14 pkt in
  let sender := take 6 (drop 8 p) in
  sender ++ omac ++ to_be16 0x0806 ++ arp_body 2 omac our_ip sender (be32 p 14).

(** The payload of the IP packet in a frame. *)
Definition ip_payload pkt : list Z := drop (Z.to_nat (Z.land (rd (drop 14 pkt) 0) 0x0F * 4)) (drop 14 pkt).

(** An echo request to our address whose answer fits a frame. *)
Definition echo_request pkt our_ip : bool :=
  let p := drop 14 pkt in
  let q := ip_payload pkt in
  (be16 pkt 12 =? 0x0800) && (20 <=? length p)%nat && (Z.land (rd p 0) 0x0F * 4 <=? Z.of_nat (length p)) &&
  (be32 p 16 =? our_ip) && (rd p 9 =? PROTO_ICMP) && (8 <=? length q)%nat && (rd q 0 =? 8) && (length q <=? 1480)%nat.

Definition echo_header pkt our_ip (c : list Z) : list Z :=
  ip_header PROTO_ICMP our_ip (be32 (drop 14 pkt) 12) (Z.of_nat (length (ip_payload pkt))) c.
Definition echo_body pkt (c : list Z) : list Z := [0; 0] ++ c ++ drop 4 (ip_payload pkt).

Definition echo_reply pkt omac our_ip : list Z :=
  (take 6 (drop 6 pkt) ++ omac ++ to_be16 0x0800) ++
  echo_header pkt our_ip (to_be16 (checksum (echo_header pkt our_ip [0; 0]))) ++
  echo_body pkt (to_be16 (checksum (echo_body pkt [0; 0]))).

Lemma put_after n (pre l rest : list Z) : n = length pre → put n l (pre ++ rest) = pre ++ l ++ drop (length l) rest.
Proof. intros ->. unfold put. by rewrite take_app_length, drop_app_add. Qed.

Lemma length_mac (l : list Z) n : (n + 6 ≤ length l)%nat → length (take 6 (drop n l)) = 6%nat.
Proof. intros Hl. rewrite length_take, length_drop. lia. Qed.

Lemma arp_handle_reply p omac our_ip smac rbuf : (28 ≤ length p)%nat → be16 p 6 = 1 → be32 p 24 = our_ip →
  length omac = 6%nat → (42 ≤ length rbuf)%nat →
  let s := take 6 (drop 8 p) in
  arp_handle p omac our_ip smac rbuf =
    (42%nat, (s ++ omac ++ to_be16 0x0806) ++ arp_body 2 omac our_ip s (be32 p 14) ++ drop 42 rbuf).
Proof.
  intros Hp Ho Ht Hm Hr s. unfold arp_handle. rewrite (proj2 (Nat.ltb_ge _ _)), Ho, Ht, !Z.eqb_refl by lia.
  cbn [negb orb]. fold s. assert (length s = 6%nat) as Hs by (apply length_mac; lia).
  rewrite write_frame_spec by lia. set (pre := s ++ omac ++ to_be16 0x0806).
  assert (length pre = 14%nat) as Hpre by (unfold pre; rewrite !length_app, Hs, Hm; done).
  assert (s ++ omac ++ to_be16 0x0806 ++ drop 14 rbuf = pre ++ drop 14 rbuf) as -> by (unfold pre; by rewrite <- !(assoc_L (++))).
  rewrite (proj2 (Nat.ltb_ge _ _)) by (rewrite length_app, length_drop; lia).
  rewrite (drop_app_length' _ _ 14), (take_app_length' _ _ 14) by done.
  rewrite put_arp_spec by (rewrite ?length_drop; lia). rewrite drop_drop. done.
Qed.

Lemma icmp_handle_reply q omac our_ip smac sip rbuf : (8 ≤ length q)%nat → rd q 0 = 8 →
  length omac = 6%nat → length smac = 6%nat → (34 + length q ≤ length rbuf)%nat →
  let h c := ip_header PROTO_ICMP our_ip sip (Z.of_nat (length q)) c in
  let b c := [0; 0] ++ c ++ drop 4 q in
  icmp_handle q omac our_ip smac sip rbuf =
    ((34 + length q)%nat,
     ((smac ++ omac ++ to_be16 0x0800) ++ h (to_be16 (checksum (h [0; 0]))) ++ b (to_be16 (checksum (b [0; 0])))) ++
     drop (34 + length q) rbuf).
Proof.
  intros Hq H8 Hm Hs Hr h b. unfold icmp_handle.
  rewrite (proj2 (Nat.ltb_ge (length q) 8)), H8, Z.eqb_refl, (proj2 (Nat.ltb_ge (length rbuf) _)) by lia. cbn [negb].
  rewrite write_frame_spec by lia. set (pre := smac ++ omac ++ to_be16 0x0800).
  assert (length pre = 14%nat) as Hpre by (unfold pre; rewrite !length_app, Hs, Hm; done).
  assert (smac ++ omac ++ to_be16 0x0800 ++ drop 14 rbuf = pre ++ drop 14 rbuf) as -> by (unfold pre; by rewrite <- !(assoc_L (++))).
  rewrite (drop_app_length' _ _ 14), (take_app_length' _ _ 14) by done.
  rewrite ipv4_write_spec by (rewrite ?length_drop; lia). fold (h [0; 0]). fold (h (to_be16 (checksum (h [0; 0])))).
  set (hd := h (to_be16 (checksum (h [0; 0])))). assert (length hd = 20%nat) as Hhd by done.
  rewrite drop_drop. cbn [Nat.add].
  assert (length (pre ++ hd) = 34%nat) as Hph by (rewrite length_app; lia).
  rewrite (assoc_L (++)), (drop_app_length' _ _ 34) by done.
  assert (put 0 q (take (length q) (drop 34 rbuf)) = q) as ->.
  { unfold put. rewrite take_0, drop_ge by (rewrite length_take, length_drop; lia). by rewrite app_nil_r. }
  assert (wr (wr (wr (wr q 0 0) 1 0) 2 0) 3 0 = b [0; 0]) as -> by (unfold b; do 4 uncons q; reflexivity).
  assert (∀ c1 c2, put 2 [c1; c2] (b [0; 0]) = b [c1; c2]) as Hput by reflexivity.
  unfold to_be16 at 1. rewrite Hput. fold (to_be16 (checksum (b [0; 0]))).
  set (bd := b (to_be16 (checksum (b [0; 0])))). assert (length bd = length q) as Hbd.
  { unfold bd, b. rewrite !length_app, length_drop. cbn [length to_be16]. lia. }
  rewrite (put_after 34), Hbd, drop_drop by done. rewrite <- !(assoc_L (++)). done.
Qed.

Lemma echo_checksums pkt our_ip : Forall is_byte pkt → Z.of_nat (length pkt) < 2 ^ 15 →
  echo_request pkt our_ip = true → 
  checksum (echo_header pkt our_ip (to_be16 (checksum (echo_header pkt our_ip [0; 0])))) = 0 ∧
  checksum (echo_body pkt (to_be16 (checksum (echo_body pkt [0; 0])))) = 0.
Proof.
  intros Hb Hn _. split.
  - unfold echo_header, ip_header.
    set (n := Z.of_nat (length (ip_payload pkt))). set (s := be32 (drop 14 pkt) 12).
    rewrite !(assoc_L (++) ([69; 0] ++ _) ([0; 1; 64; 0; 64; PROTO_ICMP]) _) || idtac.
    pose proof (checksum_inserted ([69; 0] ++ to_be16 (u16 (20 + n)) ++ [0; 1; 64; 0; 64; PROTO_ICMP])
      (to_be32 our_ip ++ to_be32 s) eq_refl) as E.
    rewrite <- !(assoc_L (++)) in E. apply E.
    + cbn [app to_be16]. repeat (constructor; [first [by apply wrap_bound|unfold is_byte, PROTO_ICMP; lia]|]). constructor.
    + cbn [app to_be32]. repeat (constructor; [by apply wrap_bound|]). constructor.
    + cbn [app to_be16 to_be32 length]. lia.
  - unfold echo_body. apply (checksum_inserted [0; 0] (drop 4 (ip_payload pkt)) eq_refl).
    + repeat (constructor; [unfold is_byte; lia|]). constructor.
    + unfold ip_payload. by repeat apply Forall_drop.
    + unfold ip_payload. rewrite !length_drop. cbn [length]. lia.
Qed.
End replies.


Lemma process_cases (pkt omac rbuf : list Z) (our_ip : Z) :
  length omac = 6%nat → length rbuf = 1514%nat →
  let r := net_process_packet pkt omac our_ip rbuf in
  if arp_request pkt our_ip
  then r.1 = Some 42%nat ∧ take 42 r.2 = arp_reply pkt omac our_ip
  else if echo_request pkt our_ip
  then let n := (34 + length (ip_payload pkt))%nat in r.1 = Some n ∧ take n r.2 = echo_reply pkt omac our_ip
  else r = (None, rbuf).
Proof.
  intros Hm Hr r.
  unfold r, net_process_packet. clear r. destruct (Nat.ltb_spec (length pkt) 14) as [Hs|Hs].
  { assert (length (drop 14 pkt) = 0%nat) as E by (rewrite length_drop; lia).
    unfold arp_request, echo_request. rewrite E. cbn [Nat.leb]. by rewrite !andb_false_r. }
  assert (length (take 6 (drop 6 pkt)) = 6%nat) as Hsm by (apply length_mac; lia).
  unfold arp_request, echo_request, from_u16.
  destruct (Z.eqb_spec (be16 pkt 12) 0x0806) as [Ea|Ea].
  { rewrite Ea. cbn [andb Z.eqb Pos.eqb].
    destruct (Nat.leb_spec 28 (length (drop 14 pkt))) as [H28|H28]; cbn [andb].
    2:{ unfold arp_handle. rewrite (proj2 (Nat.ltb_lt _ _)) by done. done. }
    destruct (Z.eqb_spec (be16 (drop 14 pkt) 6) 1) as [E1|E1]; cbn [andb].
    2:{ unfold arp_handle. rewrite (proj2 (Nat.ltb_ge _ _)), (proj2 (Z.eqb_neq _ _)) by done. done. }
    destruct (Z.eqb_spec (be32 (drop 14 pkt) 24) our_ip) as [E2|E2].
    2:{ unfold arp_handle. rewrite (proj2 (Nat.ltb_ge _ _)), (proj2 (Z.eqb_neq _ our_ip)), orb_true_r by done. done. }
    rewrite arp_handle_reply by (done || lia). split; [done|]. cbn [snd].
    rewrite (assoc_L (++)). rewrite take_app_length'; [by rewrite <- !(assoc_L (++))|].
    pose proof (length_mac (drop 14 pkt) 8 ltac:(lia)) as Hl. unfold arp_body. rewrite !length_app, Hm, Hl. done. }
  cbn [andb]. destruct (Z.eqb_spec (be16 pkt 12) 0x0800) as [Ei|Ei]; [|done]. cbn [andb].
  unfold ipv4_parse. destruct (Nat.leb_spec 20 (length (drop 14 pkt))) as [H20|H20]; cbn [andb].
  2:{ rewrite (proj2 (Nat.ltb_lt _ _)) by done. done. }
  rewrite (proj2 (Nat.ltb_ge _ _)) by done.
  destruct (Z.leb_spec (Z.land (rd (drop 14 pkt) 0) 0x0F * 4) (Z.of_nat (length (drop 14 pkt)))) as [Hi|Hi]; cbn [andb].
  2:{ rewrite (proj2 (Z.ltb_lt _ _)) by done. done. }
  rewrite (proj2 (Z.ltb_ge _ _)) by done. fold (ip_payload pkt).
  destruct (Z.eqb_spec (be32 (drop 14 pkt) 16) our_ip) as [Ed|Ed]; cbn [andb negb]; [|done].
  destruct (Z.eqb_spec (rd (drop 14 pkt) 9) PROTO_ICMP) as [Ep|Ep]; cbn [andb]; [|done].
  destruct (Nat.leb_spec 8 (length (ip_payload pkt))) as [H8|H8]; cbn [andb].
  2:{ unfold icmp_handle. rewrite (proj2 (Nat.ltb_lt _ _)) by done. done. }
  destruct (Z.eqb_spec (rd (ip_payload pkt) 0) 8) as [Et|Et]; cbn [andb].
  2:{ unfold icmp_handle. rewrite (proj2 (Nat.ltb_ge _ _)), (proj2 (Z.eqb_neq _ _)) by done. done. }
  destruct (Nat.leb_spec (length (ip_payload pkt)) 1480) as [Hf|Hf].
  2:{ unfold icmp_handle.
      rewrite (proj2 (Nat.ltb_ge _ 8)), Et, Z.eqb_refl, (proj2 (Nat.ltb_lt (length rbuf) _)) by (done || lia). done. }
  rewrite icmp_handle_reply by (done || lia). split; [done|]. cbn [snd].
  unfold echo_reply, echo_header, echo_body. apply take_app_length'.
  rewrite !length_app, Hsm, Hm, length_drop. cbn. lia.
Qed.

(** ** The properties *)

(** C26: the network core answers exactly the ARP requests for our address and
    the echo requests to it that fit a frame; every other frame is ignored and
    leaves the reply buffer alone.  An ARP request gets the reply with our
    hardware address; an echo request gets its payload back in a packet to its
    sender, whose IP header and ICMP message have valid checksums (both sum to
    zero). *)
Theorem net_process_packet_replies (pkt omac rbuf : list Z) (our_ip : Z) :
  Forall is_byte pkt → (length pkt ≤ 1514)%nat → length omac = 6%nat → length rbuf = 1514%nat →
  let r := net_process_packet pkt omac our_ip rbuf in
  (if arp_request pkt our_ip
   then r.1 = Some 42%nat ∧ take 42 r.2 = arp_reply pkt omac our_ip
   else if echo_request pkt our_ip
   then let n := (34 + length (ip_payload pkt))%nat in r.1 = Some n ∧ take n r.2 = echo_reply pkt omac our_ip
   else r = (None, rbuf)) ∧
  (echo_request pkt our_ip = true →
   checksum (echo_header pkt our_ip (to_be16 (checksum (echo_header pkt our_ip [0; 0])))) = 0 ∧
   checksum (echo_body pkt (to_be16 (checksum (echo_body pkt [0; 0])))) = 0).
Proof.
  intros Hby Hlen Hm Hr r. split; [by apply process_cases|]. intros He. apply echo_checksums; (done || lia).
Qed.

(** The announcement goes to our own address, not to the broadcast address. *)
Lemma be32_to_be32 v : 0 ≤ v < 2 ^ 32 → be32 (to_be32 v) 0 = v.
Proof.
  intros Hv. unfold to_be32.
  assert (∀ a b c d, be32 [a; b; c; d] 0 = (a * 2 ^ 8 + b) * 2 ^ 16 + (c * 2 ^ 8 + d)) as -> by reflexivity.
  rewrite !Z.shiftr_div_pow2 by lia. unfold wrap. dlia.
Qed.

Lemma net_arp_announce_unicast (omac buf : list Z) (our_ip : Z) :
  length omac = 6%nat → length buf = 42%nat → 0 ≤ our_ip < 2 ^ 32 →
  let r := net_arp_announce omac our_ip buf in
  r.1 = 42%nat ∧ take 42 r.2 = omac ++ omac ++ to_be16 0x0806 ++ arp_body 2 omac our_ip omac our_ip.
Proof.
  intros Hm Hb Hi r. unfold r, net_arp_announce. clear r. do 6 uncons omac. list_nil omac.
  set (m := [z; z0; z1; z2; z3; z4]).
  set (fake := put 24 _ _). assert (fake = [0; 1; 8; 0; 6; 4; 0; 1] ++ m ++ to_be32 our_ip ++ replicate 6 0 ++ to_be32 our_ip)
    as -> by reflexivity.
  assert (∀ l, be32 ([0; 1; 8; 0; 6; 4; 0; 1] ++ m ++ to_be32 our_ip ++ l) 14 = our_ip) as E1.
  { intros l. etrans; [|apply (be32_to_be32 our_ip Hi)]. reflexivity. }
  rewrite arp_handle_reply; [|done|reflexivity| |done|lia].
  2:{ etrans; [|apply (be32_to_be32 our_ip Hi)]. reflexivity. }
  rewrite E1. split; [done|]. cbn [snd]. rewrite (assoc_L (++)). rewrite take_app_length' by done. reflexivity.
Qed.

(** A ping of eight bytes and one of data from 10.0.0.1 to 10.0.0.2. *)
Definition demo_ping : list Z :=
  [2; 2; 2; 2; 2; 2] ++ [1; 1; 1; 1; 1; 1] ++ [0x08; 0x00] ++
  [0x45; 0; 0; 29; 0; 0; 0; 0; 64; 1; 0; 0; 10; 0; 0; 1; 10; 0; 0; 2] ++ [8; 0; 0; 0; 0; 7; 0; 1; 99].

Lemma net_process_packet_replies_witness :
  let r := net_process_packet demo_ping [2; 2; 2; 2; 2; 2] 0x0A000002 (replicate 1514 0) in
  r.1 = Some 43%nat ∧ take 6 (take 43 r.2) = [1; 1; 1; 1; 1; 1].
Proof.
  destruct (net_process_packet_replies demo_ping [2; 2; 2; 2; 2; 2] (replicate 1514 0) 0x0A000002) as [H _].
  - unfold demo_ping. cbn [app]. repeat (constructor; [unfold is_byte; lia|]). constructor.
  - vm_compute. lia.
  - reflexivity.
  - apply length_replicate.
  - assert (arp_request demo_ping 0x0A000002 = false) as Ea by (vm_compute; reflexivity).
    assert (echo_request demo_ping 0x0A000002 = true) as Ee by (vm_compute; reflexivity).
    rewrite Ea, Ee in H. change (34 + length (ip_payload demo_ping))%nat with 43%nat in H. destruct H as [H1 H2].
    split; [exact H1|]. rewrite H2. vm_compute. reflexivity.
Defined.
