(* ===== verification/Net.v ===== *)
(** The network card and the interface layer: src/drivers/net/rtl8139.c and
    src/kernel/net/net.c.

    The only callbacks are [rtl_rx] (given to the card driver) and [rtl_tx] (given
    to the interface layer), so that each pointer is set or null; their context
    pointers are null and unused.  The protocol code is reached through [NetCore]:
    the crate of NetStack.v, or the stubs linked when it is absent. *)
From S2P Require Import Prelude CString Ports Printf Pmm Pci NetStack.

Definition RX_BUF_SIZE : Z := 8192 + 16 + 1500.
Definition TX_BUFS : Z := 4.
Definition RTL_IDR0 : Z := 0x00.
Definition RTL_TXSTATUS : Z := 0x10.
Definition RTL_TXADDR : Z := 0x20.
Definition RTL_RXBUF : Z := 0x30.
Definition RTL_CMD : Z := 0x37.
Definition RTL_CAPR : Z := 0x38.
Definition RTL_IMR : Z := 0x3C.
Definition RTL_ISR : Z := 0x3E.
Definition RTL_TCR : Z := 0x40.
Definition RTL_RCR : Z := 0x44.
Definition RTL_CONFIG1 : Z := 0x52.
Definition CMD_RESET : Z := 0x10.
Definition CMD_RXEN : Z := 0x08.
Definition CMD_TXEN : Z := 0x04.
Definition ISR_ROK : Z := 0x0001.
Definition ISR_TOK : Z := 0x0004.
Definition RTL_VENDOR : Z := 0x10EC.
Definition RTL_DEVICE : Z := 0x8139.
Definition NET_MTU : Z := 1514.

(** The statics of the card driver and of the interface layer. *)
Record rtl := Rtl {
  io_base : Z; rx_buf : Z; tx_bufs : list Z; tx_cur : Z; rx_ptr : Z; rtl_present : bool; rx_cb : bool; mac : list Z
}.
Record iface := Iface { our_ip : Z; our_mac : list Z; tx_fn : bool; iface_up : bool }.
Definition rtl_0 : rtl := Rtl 0 0 (replicate 4 0) 0 0 false false (replicate 6 0).
Definition iface_0 : iface := Iface 0 (replicate 6 0) false false.

(** The machine as these files see it. *)
Record netsys (D : Type) := NetSys { card : rtl; ifc : iface; npmm : pmm; nmem : memory; ndev : D }.
Arguments NetSys {D}. Arguments card {D}. Arguments ifc {D}. Arguments npmm {D}. Arguments nmem {D}. Arguments ndev {D}.

(** The protocol code: [net_process_packet] and [net_arp_announce]. *)
Class NetCore := {
  process : list Z → list Z → Z → list Z → option nat * list Z;
  announce : list Z → Z → list Z → nat * list Z
}.
Definition stub_core : NetCore := {| process _ _ _ rbuf := (None, rbuf); announce _ _ buf := (0%nat, buf) |}.
Definition rust_core : NetCore := {| process := net_process_packet; announce := net_arp_announce |}.

Section net.
Context `{Arch} `{Ports D} `{Kprint D} `{NetCore}.

(** The addresses of the static [rx_reply] and of the stack buffer [ann]. *)
Context (rx_reply ann : Z).

Definition with_card (c : rtl) (s : netsys D) : netsys D := NetSys c (ifc s) (npmm s) (nmem s) (ndev s).
Definition with_ifc (i : iface) (s : netsys D) : netsys D := NetSys (card s) i (npmm s) (nmem s) (ndev s).
Definition with_nmem (m : memory) (s : netsys D) : netsys D := NetSys (card s) (ifc s) (npmm s) m (ndev s).
Definition with_ndev (d : D) (s : netsys D) : netsys D := NetSys (card s) (ifc s) (npmm s) (nmem s) d.
Definition net_log (fmt : string) (ap : list karg) (s : netsys D) : netsys D := with_ndev (klog fmt ap (ndev s)) s.

Definition reg (c : rtl) (r : Z) : Z := u16 (io_base c + r).
Definition rtl_rb (r : Z) (s : netsys D) : Z * netsys D :=
  let '(v, d) := inb (reg (card s) r) (ndev s) in (v, with_ndev d s).
Definition rtl_rw (r : Z) (s : netsys D) : Z * netsys D :=
  let '(v, d) := inw (reg (card s) r) (ndev s) in (v, with_ndev d s).
Definition rtl_wb (r v : Z) (s : netsys D) : netsys D := with_ndev (outb (reg (card s) r) v (ndev s)) s.
Definition rtl_ww (r v : Z) (s : netsys D) : netsys D := with_ndev (outw (reg (card s) r) v (ndev s)) s.
Definition rtl_wl (r v : Z) (s : netsys D) : netsys D := with_ndev (outl (reg (card s) r) v (ndev s)) s.

Definition rtl8139_send (data len : Z) (s : netsys D) : Z * netsys D :=
  if negb (rtl_present (card s)) || (1500 <? len) then (-1, s) else
  let cur := tx_cur (card s) in
  let s := with_nmem (memcpy (rd (tx_bufs (card s)) cur) data len (nmem s)) s in
  let s := rtl_wl (u8 (RTL_TXSTATUS + cur * 4)) len s in
  let c := card s in
  (0, with_card (Rtl (io_base c) (rx_buf c) (tx_bufs c) (Z.rem (cur + 1) TX_BUFS) (rx_ptr c) (rtl_present c)
                   (rx_cb c) (mac c)) s).

Definition rtl_tx (data len : Z) (s : netsys D) : netsys D := (rtl8139_send data len s).2.

Definition rtl_rx (data len : Z) (s : netsys D) : netsys D :=
  let '(n, rbuf) := process (load_bytes len data (nmem s)) (our_mac (ifc s)) (our_ip (ifc s))
                      (load_bytes NET_MTU rx_reply (nmem s)) in
  let s := with_nmem (store_bytes rx_reply rbuf (nmem s)) s in
  match n with
  | Some n => if (0 <? n)%nat && tx_fn (ifc s) then rtl_tx rx_reply (Z.of_nat n) s else s
  | None => s
  end.

Definition set_rx_ptr (p : Z) (s : netsys D) : netsys D :=
  let c := card s in
  with_card (Rtl (io_base c) (rx_buf c) (tx_bufs c) (tx_cur c) p (rtl_present c) (rx_cb c) (mac c)) s.

(** The while loop of [rtl8139_poll]. *)
Fixpoint poll_loop (fuel : nat) (s : netsys D) : outcome (netsys D) :=
  match fuel with
  | O => OutOfFuel
  | S k =>
      let '(cmd, s) := rtl_rb RTL_CMD s in
      if negb (Z.land cmd 0x01 =? 0) then Ok s else
      let c := card s in
      let off := u16 (rx_ptr c mod 8192) in
      let hdr := rx_buf c + off in
      let plen := u16 (Z.lor (Z.shiftl (ld (nmem s) (hdr + 3)) 8) (ld (nmem s) (hdr + 2))) in
      if (plen <? 4) || (1514 <? plen) then Ok s else
      let pkt := hdr + 4 in
      let s := if rx_cb c then rtl_rx pkt (plen - 4) s else s in
      let p := u16 (Z.land (rx_ptr (card s) + plen + 4 + 3) (Z.lnot 3)) in
      let s := set_rx_ptr p s in
      poll_loop k (rtl_ww RTL_CAPR (u16 (p - 16)) s)
  end.

Definition rtl8139_poll (fuel : nat) (s : netsys D) : outcome (netsys D) :=
  if negb (rtl_present (card s)) then Ok s else
  let '(isr, s) := rtl_rw RTL_ISR s in
  if isr =? 0 then Ok s else
  let s := rtl_ww RTL_ISR isr s in
  if negb (Z.land isr ISR_ROK =? 0) then poll_loop fuel s else Ok s.

(** [for (i = 0; i < 10000; i++) if (!(rtl_rb(RTL_CMD) & CMD_RESET)) break;] *)
Fixpoint wait_reset (n : nat) (s : netsys D) : netsys D :=
  match n with
  | O => s
  | S k => let '(v, s) := rtl_rb RTL_CMD s in if Z.land v CMD_RESET =? 0 then s else wait_reset k s
  end.

Definition rtl8139_init (p : pci) (s : netsys D) : bool * netsys D :=
  match pci_find_class 0x02 0x00 0xFF p with
  | None => (false, net_log "[RTL8139] Not found
" [] s)
  | Some i =>
      let d := default pci_dev_0 (devices p !! Z.to_nat i) in
      if negb (vendor_id d =? RTL_VENDOR) || negb (device_id d =? RTL_DEVICE)
      then (false, net_log "[RTL8139] Not found
" [] s) else
      let bar0 := rd (bar d) 0 in
      if Z.land bar0 1 =? 0 then (false, net_log "[RTL8139] BAR0 not I/O space
" [] s) else
      let c := card s in
      let s := with_card (Rtl (u16 (Z.land bar0 (Z.lnot 3))) (rx_buf c) (tx_bufs c) (tx_cur c) (rx_ptr c)
                            (rtl_present c) (rx_cb c) (mac c)) s in
      let '(pci_cmd, dv) := pci_read (bus d) (dev d) (fn d) 0x04 (ndev s) in
      let s := with_ndev (pci_write (bus d) (dev d) (fn d) 0x04 (Z.lor pci_cmd 0x04) dv) s in
      let c := card s in
      let s := with_card (Rtl (io_base c) (rx_buf c) (tx_bufs c) (tx_cur c) (rx_ptr c) (rtl_present c) true (mac c)) s in
      let s := rtl_wb RTL_CONFIG1 0x00 s in
      let s := rtl_wb RTL_CMD CMD_RESET s in
      let s := wait_reset (Z.to_nat 10000) s in
      let '(m, s) := for_up (λ i '(m, s), let '(v, s) := rtl_rb (u8 (RTL_IDR0 + i)) s in (wr m i v, s))
        (span 0 6) 0 (mac (card s), s) in
      let '(rx, pm) := pmm_alloc_n (Z.quot (RX_BUF_SIZE + 4095) 4096) (npmm s) in
      let c := card s in
      let s := NetSys (Rtl (io_base c) rx (tx_bufs c) (tx_cur c) (rx_ptr c) (rtl_present c) (rx_cb c) m)
                 (ifc s) pm (nmem s) (ndev s) in
      if rx =? 0 then (false, s) else
      let s := with_nmem (memset rx 0 RX_BUF_SIZE (nmem s)) s in
      let s := for_up (λ i s,
          let '(t, pm) := pmm_alloc (npmm s) in
          let c := card s in
          NetSys (Rtl (io_base c) (rx_buf c) (wr (tx_bufs c) i t) (tx_cur c) (rx_ptr c) (rtl_present c) (rx_cb c) (mac c))
            (ifc s) pm (memset t 0 4096 (nmem s)) (ndev s)) (span 0 TX_BUFS) 0 s in
      let s := rtl_wl RTL_RXBUF (u32 rx) s in
      let s := for_up (λ i s, rtl_wl (u8 (RTL_TXADDR + i * 4)) (u32 (rd (tx_bufs (card s)) i)) s) (span 0 TX_BUFS) 0 s in
      let s := rtl_ww RTL_IMR (Z.lor ISR_ROK ISR_TOK) s in
      let s := rtl_wl RTL_RCR (Z.lor 0x0F (Z.shiftl 1 7)) s in
      let s := rtl_wl RTL_TCR 0x03000700 s in
      let s := rtl_wb RTL_CMD (Z.lor CMD_RXEN CMD_TXEN) s in
      let c := card s in
      let s := with_card (Rtl (io_base c) (rx_buf c) (tx_bufs c) (tx_cur c) 0 true (rx_cb c) (mac c)) s in
      (true, net_log "[RTL8139] MAC %02x:%02x:%02x:%02x:%02x:%02x  IO=0x%x
" (Num <$> (mac (card s) ++ [io_base (card s)])) s)
  end.

Definition rtl8139_get_mac (s : netsys D) : list Z := take 6 (mac (card s)).

(** ** net.c *)

Definition net_init (s : netsys D) : netsys D :=
  with_ifc (Iface 0 (replicate 6 0) (tx_fn (ifc s)) false) s.

Definition net_set_interface (m : list Z) (s : netsys D) : netsys D :=
  with_ifc (Iface (our_ip (ifc s)) (take 6 m) true true) s.

Definition net_configure (ip : Z) (s : netsys D) : netsys D :=
  let i := ifc s in
  let s := with_ifc (Iface ip (our_mac i) (tx_fn i) (iface_up i)) s in
  let s := net_log "[NET] IP: %u.%u.%u.%u
" [Num (Z.land (Z.shiftr ip 24) 0xFF); Num (Z.land (Z.shiftr ip 16) 0xFF); Num (Z.land (Z.shiftr ip 8) 0xFF);
   Num (Z.land ip 0xFF)] s in
  let '(n, a) := announce (our_mac (ifc s)) (our_ip (ifc s)) (load_bytes 42 ann (nmem s)) in
  let s := with_nmem (store_bytes ann a (nmem s)) s in
  if (0 <? n)%nat && tx_fn (ifc s) then rtl_tx ann (Z.of_nat n) s else s.

Definition net_receive (data len : Z) (s : netsys D) : netsys D := rtl_rx data len s.
Definition net_poll (fuel : nat) (s : netsys D) : outcome (netsys D) := rtl8139_poll fuel s.
Definition net_our_ip (s : netsys D) : Z := our_ip (ifc s).
Definition net_get_mac (s : netsys D) : list Z := take 6 (our_mac (ifc s)).
Definition net_up (s : netsys D) : bool := iface_up (ifc s).

Definition net_bring_up (p : pci) (s : netsys D) : netsys D :=
  let '(ok, s) := rtl8139_init p s in
  if ok then net_configure 0xC0A80002 (net_set_interface (rtl8139_get_mac s) s) else s.

(** ** The documented behaviour of the card

    [pending] frames wait in the receive ring; the command register says when
    there is none, moving the read pointer consumes one, and no other access the
    driver makes here changes their number.  Frames that arrive during a poll are
    left to the next one. *)
Class RtlCard (base : Z) := {
  pending : D → nat;
  isr_read : ∀ d, pending (inw (u16 (base + RTL_ISR)) d).2 = pending d;
  isr_ack : ∀ v d, pending (outw (u16 (base + RTL_ISR)) v d) = pending d;
  cmd_status : ∀ d, Z.land (inb (u16 (base + RTL_CMD)) d).1 0x01 = Z.b2z (bool_decide (pending d = 0%nat));
  cmd_same : ∀ d, pending (inb (u16 (base + RTL_CMD)) d).2 = pending d;
  capr_consume : ∀ v d, pending (outw (u16 (base + RTL_CAPR)) v d) = pred (pending d);
  tx_same : ∀ k v d, 0 ≤ k < TX_BUFS → pending (outl (u16 (base + (RTL_TXSTATUS + 4 * k))) v d) = pending d
}.

(** Where the frame after one of [len] bytes starts. *)
Definition next_ptr (ptr plen : Z) : Z := u16 (Z.land (ptr + plen + 4 + 3) (Z.lnot 3)).

(** The frames [l] lie in the ring from the read pointer [ptr] on, each with its
    length (the four bytes of its checksum included) before it. *)
Fixpoint ring (m : memory) (rb ptr : Z) (l : list (list Z)) : Prop :=
  match l with
  | [] => True
  | f :: l' =>
      let hdr := rb + ptr mod 8192 in
      let plen := Z.of_nat (length f) + 4 in
      ld m (hdr + 2) = plen mod 2 ^ 8 ∧ ld m (hdr + 3) = plen / 2 ^ 8 ∧ plen ≤ 1514 ∧ bytes_at m (hdr + 4) f ∧
      ring m rb (next_ptr ptr plen) l'
  end.

(** What the interface does with a frame, whatever address it is at. *)
Definition handle (f : list Z) (s : netsys D) : netsys D :=
  let '(n, rbuf) := process f (our_mac (ifc s)) (our_ip (ifc s)) (load_bytes NET_MTU rx_reply (nmem s)) in
  let s := with_nmem (store_bytes rx_reply rbuf (nmem s)) s in
  match n with
  | Some n => if (0 <? n)%nat && tx_fn (ifc s) then rtl_tx rx_reply (Z.of_nat n) s else s
  | None => s
  end.

(** One turn of the loop: the status is read, the frame handled and consumed. *)
Definition deliver (s : netsys D) (f : list Z) : netsys D :=
  let s := handle f (rtl_rb RTL_CMD s).2 in
  let p := next_ptr (rx_ptr (card s)) (Z.of_nat (length f) + 4) in
  rtl_ww RTL_CAPR (u16 (p - 16)) (set_rx_ptr p s).

Definition apart (a n b k : Z) : Prop := a + n ≤ b ∨ b + k ≤ a.

(** The driver is up and its buffers do not overlap. *)
Definition card_ok (base : Z) (s : netsys D) : Prop :=
  io_base (card s) = base ∧ rtl_present (card s) = true ∧ rx_cb (card s) = true ∧
  length (our_mac (ifc s)) = 6%nat ∧ 0 ≤ tx_cur (card s) < TX_BUFS ∧ length (tx_bufs (card s)) = 4%nat ∧ 0 ≤ rx_ptr (card s) < 2 ^ 16 ∧
  apart (rx_buf (card s)) RX_BUF_SIZE rx_reply NET_MTU ∧
  ∀ i, 0 ≤ i < TX_BUFS → apart (rx_buf (card s)) RX_BUF_SIZE (rd (tx_bufs (card s)) i) 1500 ∧
    apart rx_reply NET_MTU (rd (tx_bufs (card s)) i) 1500.

(** The protocol code keeps the size of the reply buffer. *)
Definition core_ok : Prop := ∀ pkt omac ip rbuf,
  length omac = 6%nat → length rbuf = Z.to_nat NET_MTU → length (process pkt omac ip rbuf).2 = length rbuf.

Section poll.
Context (base : Z) `{RtlCard base} (Hcore : core_ok).

Lemma load_bytes_length n p m : length (load_bytes n p m) = Z.to_nat n.
Proof. unfold load_bytes. by rewrite length_fmap, length_seqZ. Qed.

Lemma rx_ring_ext m m' rb : ∀ l ptr, 0 ≤ ptr →
  (∀ a, rb ≤ a < rb + RX_BUF_SIZE → ld m' a = ld m a) → ring m rb ptr l → ring m' rb ptr l.
Proof.
  unfold RX_BUF_SIZE. induction l as [|f l IH]; intros ptr Hp Hm; cbn [ring]; [done|]. cbv zeta.
  intros (A & B & C & E & F). assert (0 ≤ ptr mod 8192 < 8192) by (apply Z.mod_pos_bound; lia).
  rewrite !Hm by lia. split_and!; [done|done|done| |apply IH; [|done|done]].
  - eapply bytes_at_ext; [|exact E]. intros a Ha. apply Hm. lia.
  - apply wrap_bound. lia.
Qed.

(** Between two turns only memory outside the ring, the device and [tx_cur] change. *)
Definition kept (s s' : netsys D) : Prop :=
  io_base (card s') = io_base (card s) ∧ rx_buf (card s') = rx_buf (card s) ∧ tx_bufs (card s') = tx_bufs (card s) ∧
  rtl_present (card s') = rtl_present (card s) ∧ rx_cb (card s') = rx_cb (card s) ∧
  rx_ptr (card s') = rx_ptr (card s) ∧ 0 ≤ tx_cur (card s') < TX_BUFS ∧ ifc s' = ifc s ∧
  pending (ndev s') = pending (ndev s) ∧
  ∀ a, rx_buf (card s) ≤ a < rx_buf (card s) + RX_BUF_SIZE → ld (nmem s') a = ld (nmem s) a.

Lemma net_kept_trans s1 s2 s3 : kept s1 s2 → kept s2 s3 → kept s1 s3.
Proof.
  intros (A1 & B1 & C1 & D1 & E1 & F1 & G1 & H1' & I1 & J1) (A2 & B2 & C2 & D2 & E2 & F2 & G2 & H2' & I2 & J2).
  split_and!; try congruence; [lia|lia|]. intros a Ha. rewrite J2, J1; [done|done|by rewrite B1].
Qed.

Lemma card_ok_kept s s' : kept s s' → card_ok base s → card_ok base s'.
Proof.
  intros (A & B & C & E & F & G & I & J & _) (H1' & H2' & H3' & H0' & _ & H5' & H6' & H7').
  unfold card_ok. rewrite A, B, C, E, F, G, J. tauto.
Qed.

Lemma send_kept data len s : card_ok base s → 0 ≤ len → kept s (rtl8139_send data len s).2.
Proof.
  intros (Hb & Hp & _ & _ & Hc & Hl & _ & _ & Ht) Hlen. unfold rtl8139_send. rewrite Hp. cbn [negb orb].
  destruct (Z.ltb_spec 1500 len) as [Hgt|Hle]; cbn [snd]; [split_and!; (done || lia)|]. cbv zeta.
  unfold rtl_wl, with_card, with_nmem, with_ndev, reg.
  cbn [card ifc npmm nmem ndev io_base rx_buf tx_bufs tx_cur rx_ptr rtl_present rx_cb mac snd].
  unfold kept, TX_BUFS in *. cbn [card ifc npmm nmem ndev io_base rx_buf tx_bufs tx_cur rx_ptr rtl_present rx_cb mac].
  assert (0 ≤ Z.rem (tx_cur (card s) + 1) 4 < 4) as Hr.
  { rewrite Z.rem_mod_nonneg by lia. apply Z.mod_pos_bound. lia. }
  split_and!; try done; [lia|lia| |].
  - rewrite Hb. replace (u8 (RTL_TXSTATUS + tx_cur (card s) * 4)) with (RTL_TXSTATUS + 4 * tx_cur (card s)).
    + by apply tx_same.
    + unfold RTL_TXSTATUS. rewrite wrap_small by lia. lia.
  - intros a Ha. unfold memcpy. destruct (Ht (tx_cur (card s)) Hc) as [Hd _]. unfold apart in Hd.
    apply copy_up_frame. rewrite Z2Nat.id by lia. lia.
Qed.

Lemma handle_kept f s : card_ok base s → kept s (handle f s).
Proof.
  intros Hok. unfold handle. pose proof Hok as (_ & _ & _ & Hmac & _).
  pose proof (Hcore f (our_mac (ifc s)) (our_ip (ifc s)) (load_bytes NET_MTU rx_reply (nmem s)) Hmac
    (load_bytes_length _ _ _)) as Hlen.
  destruct (process _ _ _ _) as [n rbuf]. cbn [snd] in Hlen. rewrite load_bytes_length in Hlen.
  set (s1 := with_nmem _ s). assert (kept s s1) as Hk.
  { pose proof Hok as (_ & _ & _ & _ & Hc & _ & _ & Hd & _). unfold kept, s1, with_nmem.
    cbn [card ifc npmm nmem ndev]. split_and!; try done; [lia|lia|]. intros a Ha.
    apply store_bytes_frame. rewrite Hlen. unfold apart, NET_MTU, RX_BUF_SIZE in *. lia. }
  destruct n as [n|]; [|done]. destruct ((0 <? n)%nat && tx_fn (ifc s1)); [|done].
  eapply net_kept_trans; [exact Hk|]. apply send_kept; [by eapply card_ok_kept|lia].
Qed.

Lemma rb_kept r s : card_ok base s → r = RTL_CMD → kept s (rtl_rb r s).2.
Proof.
  intros (Hb & _ & _ & _ & Hc & _) ->. unfold rtl_rb, reg. rewrite Hb. pose proof (cmd_same (ndev s)) as E.
  destruct (inb _ _) as [v d]. cbn [snd] in *. unfold kept. cbn. split_and!; try done; lia.
Qed.

(** Reading the length of the frame at the read pointer. *)
Lemma plen_read x : 0 ≤ x < 2 ^ 16 → u16 (Z.lor (Z.shiftl (x / 2 ^ 8) 8) (x mod 2 ^ 8)) = x.
Proof.
  intros Hx. rewrite <- (Z.land_ones x 8), <- Z.shiftr_div_pow2 by lia.
  assert (Z.lor (Z.shiftl (Z.shiftr x 8) 8) (Z.land x (Z.ones 8)) = x) as ->; [|by apply wrap_small].
  rewrite <- Z.ldiff_ones_r by lia. apply Z.bits_inj'. intros n Hn. rewrite Z.lor_spec, Z.ldiff_spec, Z.land_spec.
  destruct (Z.testbit x n), (Z.testbit (Z.ones 8) n); done.
Qed.

Lemma poll_loop_delivers : ∀ l fuel s, card_ok base s → ring (nmem s) (rx_buf (card s)) (rx_ptr (card s)) l →
  pending (ndev s) = length l → (length l < fuel)%nat →
  poll_loop fuel s = Ok (rtl_rb RTL_CMD (foldl deliver s l)).2 ∧ card_ok base (foldl deliver s l).
Proof.
  induction l as [|f l IH]; intros [|fuel] s Hok Hring Hpend Hfuel; cbn [length] in Hfuel; try lia; cbn [poll_loop foldl].
  - pose proof (cmd_status (ndev s)) as Hst. rewrite Hpend in Hst. pose proof Hok as (Hb & _).
    unfold rtl_rb, reg. rewrite Hb. destruct (inb _ _) as [v d]. cbn [fst snd] in *.
    rewrite Hst. done.
  - pose proof (rb_kept RTL_CMD s Hok eq_refl) as Hk1. pose proof (card_ok_kept _ _ Hk1 Hok) as Hok1.
    assert (Z.land (rtl_rb RTL_CMD s).1 0x01 = 0) as Hst.
    { pose proof (cmd_status (ndev s)) as Hst. rewrite Hpend in Hst. pose proof Hok as (Hb & _).
      unfold rtl_rb, reg. rewrite Hb. destruct (inb _ _) as [v d]. exact Hst. }
    destruct (rtl_rb RTL_CMD s) as [v s1] eqn:Erb. cbn [fst snd] in *. rewrite Hst. cbn [Z.eqb negb].
    pose proof Hk1 as (_ & K1 & _ & _ & _ & K2 & _ & _ & K4 & K3).
    destruct Hring as (R1 & R2 & R3 & R4 & R5). cbv zeta in *.
    set (plen := Z.of_nat (length f) + 4) in *.
    pose proof Hok as (_ & _ & Hcb & _ & _ & _ & Hptr & _).
    assert (0 ≤ rx_ptr (card s) mod 8192 < 8192) as Hoff by (apply Z.mod_pos_bound; lia).
    rewrite K1, K2. rewrite (wrap_small 16 (rx_ptr (card s) mod 8192)) by lia.
    rewrite !K3 by (unfold RX_BUF_SIZE; lia). rewrite R1, R2, plen_read by (unfold plen in *; lia).
    assert ((plen <? 4) || (1514 <? plen) = false) as -> by (unfold plen in *; lia).
    pose proof Hok1 as (_ & _ & -> & _). replace (plen - 4) with (Z.of_nat (length f)) by (unfold plen; lia).
    assert (rtl_rx (rx_buf (card s) + rx_ptr (card s) mod 8192 + 4) (Z.of_nat (length f)) s1 = handle f s1) as ->.
    { unfold rtl_rx, handle. rewrite (bytes_at_load _ f); [done|]. eapply bytes_at_ext; [|exact R4].
      intros a Ha. apply K3. unfold RX_BUF_SIZE, plen in *. lia. }
    pose proof (handle_kept f s1 Hok1) as Hk2. pose proof (card_ok_kept _ _ Hk2 Hok1) as Hok2.
    pose proof Hk2 as (_ & L1 & _ & _ & _ & L2 & _ & _ & L4 & L3).
    set (s2 := handle f s1) in *. rewrite L2, K2. fold (next_ptr (rx_ptr (card s)) plen).
    set (s3 := rtl_ww RTL_CAPR _ (set_rx_ptr _ s2)).
    assert (rx_ptr (card s3) = next_ptr (rx_ptr (card s)) plen ∧ rx_buf (card s3) = rx_buf (card s)) as [P1 P2].
    { unfold s3, rtl_ww, with_ndev, set_rx_ptr, with_card. cbn [card rx_ptr rx_buf]. split; congruence. }
    assert (nmem s3 = nmem s2) as P3 by done.
    assert (pending (ndev s3) = length l) as P4.
    { unfold s3, rtl_ww, with_ndev, set_rx_ptr, with_card, reg. cbn [card ndev io_base]. pose proof Hok2 as (-> & _).
      rewrite capr_consume, L4, K4, Hpend. done. }
    assert (card_ok base s3) as P5.
    { destruct Hok2 as (Q1 & Q2 & Q3 & Q0 & Q4 & Q5 & _ & Q7). unfold s3, rtl_ww, with_ndev, set_rx_ptr, with_card.
      unfold card_ok. cbn [card io_base rtl_present rx_cb tx_cur tx_bufs rx_ptr rx_buf ifc].
      pose proof (wrap_bound 16 (Z.land (rx_ptr (card s) + plen + 4 + 3) (Z.lnot 3)) ltac:(lia)). tauto. }
    assert (deliver s f = s3) as ->.
    { unfold deliver. rewrite Erb. cbn [snd]. fold s2. rewrite L2, K2. done. }
    apply IH; [done| |done|lia]. rewrite P1, P2, P3.
    eapply rx_ring_ext; [apply wrap_bound; lia| |exact R5]. intros a Ha. rewrite L3 by (by rewrite K1). by apply K3.
Qed.

(** A reply of at most 1500 bytes reaches the next transmit buffer and is sent. *)
Lemma handle_sends f s n rbuf : card_ok base s → mem_ok (nmem s) → tx_fn (ifc s) = true →
  process f (our_mac (ifc s)) (our_ip (ifc s)) (load_bytes NET_MTU rx_reply (nmem s)) = (Some n, rbuf) →
  (0 < n ≤ 1500)%nat →
  let cur := tx_cur (card s) in
  (∀ i, 0 ≤ i < Z.of_nat n → ld (nmem (handle f s)) (rd (tx_bufs (card s)) cur + i) = u8 (rd rbuf i)) ∧
  tx_cur (card (handle f s)) = (cur + 1) mod TX_BUFS ∧
  ndev (handle f s) = outl (u16 (base + (RTL_TXSTATUS + 4 * cur))) (Z.of_nat n) (ndev s).
Proof.
  intros Hok Hm Htx Hp Hn cur. pose proof Hok as (Hb & Hpr & _ & Hmac & Hc & Hl & _ & _ & Ht).
  pose proof (Hcore f (our_mac (ifc s)) (our_ip (ifc s)) (load_bytes NET_MTU rx_reply (nmem s)) Hmac
    (load_bytes_length _ _ _)) as Hlen. rewrite Hp in Hlen. cbn [snd] in Hlen. rewrite load_bytes_length in Hlen.
  change (Z.to_nat NET_MTU) with 1514%nat in Hlen. destruct (Ht cur Hc) as [_ Hd]. unfold apart, NET_MTU in Hd.
  unfold handle. rewrite Hp. cbn [with_nmem ifc]. rewrite Htx, (proj2 (Nat.ltb_lt 0 n)) by lia. cbn [andb].
  unfold rtl_tx, rtl8139_send. cbn [with_nmem card]. rewrite Hpr, (proj2 (Z.ltb_ge 1500 (Z.of_nat n))) by lia.
  cbn [negb orb]. fold cur. cbv zeta. unfold rtl_wl, with_card, with_ndev, with_nmem, reg.
  cbn [card ifc npmm nmem ndev io_base rx_buf tx_bufs tx_cur rx_ptr rtl_present rx_cb mac snd].
  unfold TX_BUFS in *. split; [|split].
  - intros i Hi. rewrite memcpy_spec; [|by apply mem_ok_store|lia|lia]. rewrite decide_True by lia.
    replace (rx_reply + _) with (rx_reply + i) by lia. apply store_bytes_at. lia.
  - apply Z.rem_mod_nonneg; lia.
  - rewrite Hb. f_equal. f_equal. f_equal. unfold RTL_TXSTATUS. rewrite wrap_small by lia. lia.
Qed.

Lemma net_poll_delivered fuel s l : card_ok base s → ring (nmem s) (rx_buf (card s)) (rx_ptr (card s)) l →
  pending (ndev s) = length l → (length l < fuel)%nat → Z.land (rtl_rw RTL_ISR s).1 ISR_ROK ≠ 0 →
  net_poll fuel s =
    Ok (rtl_rb RTL_CMD (foldl deliver (rtl_ww RTL_ISR (rtl_rw RTL_ISR s).1 (rtl_rw RTL_ISR s).2) l)).2.
Proof.
  intros Hok Hring Hpend Hfuel Hisr. unfold net_poll, rtl8139_poll. pose proof Hok as (Hb & -> & _). cbn [negb].
  pose proof (isr_read (ndev s)) as E1. unfold rtl_rw, reg in *. rewrite Hb in *.
  destruct (inw _ _) as [isr d]. cbn [fst snd] in *.
  rewrite (proj2 (Z.eqb_neq isr 0)) by (intros ->; by apply Hisr).
  rewrite (proj2 (Z.eqb_neq _ _) Hisr). cbn [negb]. apply poll_loop_delivers; [exact Hok|exact Hring| |done].
  unfold rtl_ww, with_ndev, reg. cbn [ndev card]. rewrite Hb, isr_ack. congruence.
Qed.
End poll.
End net.

Lemma length_put off l buf : (off + length l ≤ length buf)%nat → length (put off l buf) = length buf.
Proof. intros Hl. unfold put. rewrite !length_app, length_take, length_drop. lia. Qed.

(** The crate keeps the size of the reply buffer. *)
Lemma rust_core_ok : core_ok (H2 := rust_core).
Proof.
  intros pkt omac ip rbuf Hm Hr. unfold process, rust_core, net_process_packet. change (Z.to_nat NET_MTU) with 1514%nat in Hr.
  destruct (Nat.ltb_spec (length pkt) 14); [done|].
  assert (length (take 6 (drop 6 pkt)) = 6%nat) as Hs by (apply length_mac; lia).
  destruct (from_u16 _); [| |done].
  - set (p := drop 14 pkt). destruct (decide ((28 ≤ length p)%nat ∧ be16 p 6 = 1 ∧ be32 p 24 = ip)) as [(A & B & C)|Hn].
    + rewrite arp_handle_reply by (done || lia). pose proof (length_mac p 8 ltac:(lia)) as Hl. cbn [snd]. unfold arp_body.
      rewrite !length_app, Hm, Hl, length_drop, Hr. done.
    + unfold arp_handle. destruct (Nat.ltb_spec (length p) 28); [done|].
      destruct (Z.eqb_spec (be16 p 6) 1), (Z.eqb_spec (be32 p 24) ip); try done. by destruct Hn.
  - destruct (ipv4_parse _) as [[[[q proto] sip] dip]|]; [|done]. destruct (negb _); [done|]. destruct (_ =? _); [|done].
    destruct (decide ((8 ≤ length q)%nat ∧ rd q 0 = 8 ∧ (34 + length q ≤ 1514)%nat)) as [(A & B & C)|Hn].
    + rewrite icmp_handle_reply by (done || lia). cbn [snd]. rewrite !length_app, Hm, Hs, !length_drop, Hr. cbn. lia.
    + unfold icmp_handle. destruct (Nat.ltb_spec (length q) 8); [done|]. destruct (Z.eqb_spec (rd q 0) 8); [|done].
      destruct (Nat.ltb_spec (length rbuf) (14 + 20 + length q)); [done|]. destruct Hn. lia.
Qed.

(** ** The properties *)

(** A poll of the card terminates and hands every waiting frame to the
    protocol code once, whole, without its checksum and in the order of arrival,
    also where the ring wraps around; after each one the read pointer moves to the
    next frame and the card is told.  It holds for any protocol code that keeps
    the size of the reply buffer, for frames of at most 1510 bytes. *)
Theorem net_poll_delivers `{Ports D} `{NetCore} (rx_reply base : Z) `{RtlCard D base}
    (fuel : nat) (s : netsys D) (l : list (list Z)) :
  core_ok → card_ok rx_reply base s → ring (nmem s) (rx_buf (card s)) (rx_ptr (card s)) l →
  pending (ndev s) = length l → (length l < fuel)%nat → Z.land (rtl_rw RTL_ISR s).1 ISR_ROK ≠ 0 →
  ∃ s', net_poll rx_reply fuel s = Ok s' ∧ s' =
    (rtl_rb RTL_CMD (foldl (deliver rx_reply) (rtl_ww RTL_ISR (rtl_rw RTL_ISR s).1 (rtl_rw RTL_ISR s).2) l)).2.
Proof. intros. eexists. split; [by eapply net_poll_delivered|done]. Qed.

(** The bytes of an echo reply. *)
Lemma echo_reply_bytes pkt omac our_ip : Forall is_byte pkt → Forall is_byte omac → Forall is_byte (echo_reply pkt omac our_ip).
Proof.
  intros Hp Hm. assert (∀ v, Forall is_byte (to_be16 v)) as H16.
  { intros v. unfold to_be16. do 2 (constructor; [by apply wrap_bound|]). constructor. }
  assert (∀ v, Forall is_byte (to_be32 v)) as H32.
  { intros v. unfold to_be32. do 4 (constructor; [by apply wrap_bound|]). constructor. }
  unfold echo_reply, echo_header, echo_body, ip_header, ip_payload, PROTO_ICMP.
  repeat (apply Forall_app; split); auto; try (repeat (constructor; [unfold is_byte; lia|]); constructor).
  - by apply Forall_take, Forall_drop.
  - by repeat apply Forall_drop.
Qed.

Lemma echo_not_arp pkt our_ip : echo_request pkt our_ip = true → arp_request pkt our_ip = false.
Proof.
  unfold echo_request, arp_request. intros He. apply andb_prop in He as [He _].
  do 6 (apply andb_prop in He as [He _]). apply Z.eqb_eq in He. by rewrite He.
Qed.

(** What the crate answers to an echo request, as a whole. *)
Lemma process_echo f omac our_ip rbuf :
  length omac = 6%nat → length rbuf = 1514%nat → echo_request f our_ip = true →
  let n := (34 + length (ip_payload f))%nat in
  ∃ rbuf', net_process_packet f omac our_ip rbuf = (Some n, rbuf') ∧ take n rbuf' = echo_reply f omac our_ip ∧
    length rbuf' = 1514%nat.
Proof.
  intros Hm Hr He n. pose proof (process_cases f omac rbuf our_ip Hm Hr) as Hp. cbv zeta in Hp.
  rewrite (echo_not_arp _ _ He), He in Hp. pose proof (rust_core_ok f omac our_ip rbuf Hm Hr) as Hl.
  unfold process, rust_core in Hl. destruct (net_process_packet _ _ _ _) as [n' rbuf'].
  destruct Hp as [[= ->] Ht]. exists rbuf'. split_and!; [done|exact Ht|cbn in Hl; lia].
Qed.

(** Reading a register changes the device alone. *)
Lemma rb_same `{Ports D} r (s : netsys D) :
  card (rtl_rb r s).2 = card s ∧ ifc (rtl_rb r s).2 = ifc s ∧ nmem (rtl_rb r s).2 = nmem s ∧
  ndev (rtl_rb r s).2 = (inb (reg (card s) r) (ndev s)).2.
Proof. unfold rtl_rb. by destruct (inb _ _). Qed.

Lemma ack_same `{Ports D} base `{!RtlCard base} (s : netsys D) : io_base (card s) = base →
  let s' := rtl_ww RTL_ISR (rtl_rw RTL_ISR s).1 (rtl_rw RTL_ISR s).2 in
  card s' = card s ∧ ifc s' = ifc s ∧ nmem s' = nmem s ∧ pending (ndev s') = pending (ndev s).
Proof.
  intros Hb. pose proof (isr_read (ndev s)) as E1. unfold rtl_rw, rtl_ww, reg, with_ndev. rewrite Hb.
  destruct (inw _ _) as [isr d]. cbn [fst snd card ifc nmem ndev] in *. by rewrite Hb, isr_ack.
Qed.


(** ** A card that follows the documentation *)

Record demo_card := DemoCard { waiting : nat; sent : list (Z * Z) }.

#[export] Instance demo_card_ports : Ports demo_card := {
  inb p d := (if p =? 0xC037 then Z.b2z (bool_decide (waiting d = 0%nat)) else 0, d);
  outb p v d := d;
  inw p d := (if p =? 0xC03E then 1 else 0, d);
  outw p v d := if p =? 0xC038 then DemoCard (pred (waiting d)) (sent d) else d;
  inl p d := (0, d);
  outl p v d := DemoCard (waiting d) (sent d ++ [(p, v)])
}.
#[export] Instance demo_card_print : Kprint demo_card := λ _ d, d.

#[export] Program Instance demo_rtl : RtlCard (D := demo_card) 0xC000 := { pending := waiting }.
Next Obligation. done. Qed.
Next Obligation. done. Qed.
Next Obligation. intros d. change (inb _ d).1 with (Z.b2z (bool_decide (waiting d = 0%nat))). by destruct (waiting d). Qed.
Next Obligation. done. Qed.
Next Obligation. done. Qed.
Next Obligation. done. Qed.

(** The demo ping of NetStack.v at the start of the ring. *)
Definition demo_net : netsys demo_card :=
  NetSys (Rtl 0xC000 0x100000 [0x300000; 0x301000; 0x302000; 0x303000] 0 0 true true [2; 2; 2; 2; 2; 2])
    (Iface 0x0A000002 [2; 2; 2; 2; 2; 2] true true) (Pmm [] 0 0)
    (store_bytes 0x100000 ([1; 0; 47; 0] ++ demo_ping) ∅) (DemoCard 1 []).

Lemma demo_net_ok : card_ok 0x200000 0xC000 demo_net.
Proof.
  unfold card_ok, demo_net, TX_BUFS, apart, RX_BUF_SIZE, NET_MTU.
  cbn [card ifc io_base rtl_present rx_cb our_mac tx_cur tx_bufs rx_ptr rx_buf length].
  split_and!; try done; [lia|]. intros i Hi.
  assert (i = 0 ∨ i = 1 ∨ i = 2 ∨ i = 3) as [-> |[-> |[-> | ->]]] by lia; vm_compute; split; left; done.
Qed.

Lemma demo_net_ring : ring (nmem demo_net) 0x100000 0 [demo_ping].
Proof.
  cbn [ring]. cbv zeta. split; [vm_compute; reflexivity|]. split; [vm_compute; reflexivity|].
  split; [vm_compute; done|]. split; [|done]. vm_compute. repeat (split; [reflexivity|]). done.
Qed.

Lemma net_poll_delivers_witness :
  ∃ s', net_poll (H2 := stub_core) 0x200000 5 demo_net = Ok s' ∧ pending (ndev s') = 0%nat.
Proof.
  destruct (net_poll_delivers (H0 := stub_core) 0x200000 0xC000 5 demo_net [demo_ping]) as (s' & E & Es).
  - intros pkt omac ip rbuf _ _. reflexivity.
  - exact demo_net_ok.
  - exact demo_net_ring.
  - reflexivity.
  - cbn. lia.
  - vm_compute. discriminate.
  - exists s'. split; [exact E|]. rewrite Es. vm_compute. reflexivity.
Defined.

