(* ===== verification/Shell.v ===== *)
(** The shell: src/userspace/shell/shell.c, with the line reader it shares with
    src/userspace/setup/setup.c.

    What the shell uses of the kernel is the interface [Terminal], for the
    keyboard and the screen, and [ShellKernel] for the rest; the file system, a
    part of the kernel's state by [Files], is vfs.c itself.  The arguments of the command line are indices into [buf]. *)
From S2P Require Import Prelude CString Heap Vfs Tmpfs Fat32 Fs Printf Input Console.

(** ** The terminal *)

Definition VGA_LIGHT_BLUE : Z := 9.
Definition VGA_LIGHT_GREEN : Z := 10.
Definition VGA_LIGHT_CYAN : Z := 11.
Definition VGA_YELLOW : Z := 14.
Definition VGA_WHITE : Z := 15.

(** The calls into ps2_keyboard.c, vga_text.c and serial.c. *)
Class Terminal (D : Type) := {
  term_poll : D → option key_event_t * D;
  term_putc : Z → D → D;
  term_serial : Z → D → D;
  term_color : Z → Z → D → D;
  term_clear : D → D
}.

(** The file systems within the kernel's state. *)
Class Files (D : Type) := {
  files : D → fsys;
  with_files : fsys → D → D
}.

Section reader.
Context `{Terminal D}.

(** The loop of [readline] and of [readln]: [limit] characters at most, [putc]
    to echo one, [wait] when no event is there.  [fuel] counts the iterations. *)
Fixpoint read_loop (limit : Z) (putc : Z → D → D) (wait : D → D) (fuel : nat)
    (buf : list Z) (len : Z) (d : D) : outcome (list Z * Z * D) :=
  match fuel with
  | O => OutOfFuel
  | S k =>
      let '(e, d) := term_poll d in
      match e with
      | None => read_loop limit putc wait k buf len (wait d)
      | Some e =>
          if negb (pressed e) then read_loop limit putc wait k buf len d else
          if (ascii e =? 10) || (ascii e =? 13) then
            let d := putc 10 d in
            Ok (wr buf len 0, len, d)
          else if (ascii e =? 8) && (0 <? len) then
            read_loop limit putc wait k buf (len - 1) (putc 8 d)
          else if negb (ascii e =? 0) && (len <? limit) then
            read_loop limit putc wait k (wr buf len (ascii e)) (len + 1) (putc (ascii e) d)
          else read_loop limit putc wait k buf len d
      end
  end.
End reader.

(** ** The shell's code *)

Definition CMD_BUF : Z := 256.
Definition MAX_ARGS : Z := 16.

Class ShellKernel (D : Type) := {
  sched_yield_ : D → D;
  thread_current_ : D → option (Z * str);
  pmm_total_ : D → Z;
  pmm_used_ : D → Z;
  pmm_available_ : D → Z;
  pit_ticks_ : D → Z;
  net_up_ : D → bool;
  net_get_mac_ : D → list Z;
  net_our_ip_ : D → Z;
  net_poll_ : D → D;
  outb_ : Z → Z → D → D
}.

(** The statics [buf] and [buf_len], [args] and [argc]. *)
Record shell := Shell { buf : list Z; buf_len : Z; args : list Z }.

(** A loop [while (test(buf[p])) p++]. *)
Fixpoint skip (test : Z → bool) (fuel : nat) (b : list Z) (p : Z) : outcome Z :=
  match fuel with
  | O => OutOfFuel
  | S k => if test (rd b p) then skip test k b (p + 1) else Ok p
  end.
Definition is_space (c : Z) : bool := c =? 32.
Definition in_word (c : Z) : bool := negb (c =? 0) && negb (c =? 32).

(** The loop of [parse_args]: [k] is [MAX_ARGS - argc]. *)
Fixpoint parse_loop (k : nat) (b : list Z) (p : Z) : outcome (list Z * list Z) :=
  match k with
  | O => Ok ([], b)
  | S k =>
      if rd b p =? 0 then Ok ([], b) else
      q ← skip in_word (length b) b p;
      '(b, q) ← (if negb (rd b q =? 0) then
                   let b := wr b q 0 in
                   q ← skip is_space (length b) b (q + 1);
                   Ok (b, q)
                 else Ok (b, q));
      '(l, b) ← parse_loop k b q;
      Ok (p :: l, b)
  end.

Definition parse_args (s : shell) : outcome shell :=
  p ← skip is_space (length (buf s)) (buf s) 0;
  '(l, b) ← parse_loop (Z.to_nat MAX_ARGS) (buf s) p;
  Ok (Shell b (buf_len s) l).

(** The string a pointer into [buf] designates. *)
Definition arg_at (b : list Z) (p : Z) : str := until_nul (drop (Z.to_nat p) b).

Section commands.
Context `{Arch} `{Terminal D} `{Kprint D} `{Files D} `{ShellKernel D} `{FsCode}.
(** What the stack holds after [resolve]'s buffer, and where [cmd_cat]'s is. *)
Context (stack : str) (chunk : Z).

Definition shell_putc (c : Z) (d : D) : D := term_serial c (term_putc c d).

(** [memset] clears the buffer first; it always returns with [buf_len] set. *)
Definition readline (fuel : nat) (s : shell) (d : D) : outcome (shell * D) :=
  '(b, n, d) ← read_loop (CMD_BUF - 1) shell_putc sched_yield_ fuel (replicate (Z.to_nat CMD_BUF) 0) 0 d;
  Ok (Shell b n (args s), d).

Definition cmd_help (d : D) : D :=
  klog "Commands: help ls cat echo clear ps mem uptime reboot ifconfig netpoll
" [] d.

(** The loop of [cmd_ls]; [vfs_readdir] may load a directory, so it may fail. *)
Fixpoint ls_loop (fuel : nat) (dir i : Z) (d : D) : outcome D :=
  match fuel with
  | O => OutOfFuel
  | S k =>
      '(e, fs) ← vfs_readdir dir i (files d);
      let d := with_files fs d in
      if e =? 0 then Ok d else
      let is_dir := negb (Z.land (flags (node fs e)) VFS_DIR =? 0) in
      let d := term_color (if is_dir then VGA_LIGHT_BLUE else VGA_LIGHT_GRAY) VGA_BLACK d in
      let d := klog "  %s%s
" [Str (name (node fs e)); Str (if is_dir then bytes "/" else [])] d in
      ls_loop k dir (u32 (i + 1)) d
  end.

Definition cmd_ls (fuel : nat) (path : option str) (d : D) : outcome D :=
  let path := default (bytes "/") path in
  '(dir, fs) ← vfs_open stack (Some path) 0 (files d);
  let d := with_files fs d in
  if dir =? 0 then Ok (klog "ls: no such directory: %s
" [Str path] d) else
  d ← ls_loop fuel dir 0 d;
  let d := term_color VGA_LIGHT_GRAY VGA_BLACK d in
  fs ← vfs_close dir (files d);
  Ok (with_files fs d).

(** The loop of [cmd_cat]: 63 bytes at a time into the 64 bytes at [chunk]. *)
Fixpoint cat_loop (fuel : nat) (f off : Z) (d : D) : outcome D :=
  match fuel with
  | O => OutOfFuel
  | S k =>
      '(n, fs) ← vfs_read f off 63 chunk (files d);
      if n =? 0 then Ok (with_files fs d) else
      let m := st (chunk + n) 0 (mem (fheap fs)) in
      let d := with_files (with_fheap (with_mem (fheap fs) m) fs) d in
      let d := klog "%s" [Str (until_nul (load_bytes 64 chunk m))] d in
      cat_loop k f (u32 (off + n)) d
  end.

Definition cmd_cat (fuel : nat) (path : option str) (d : D) : outcome D :=
  match path with
  | None => Ok (klog "usage: cat <path>
" [] d)
  | Some path =>
      '(f, fs) ← vfs_open stack (Some path) 0 (files d);
      let d := with_files fs d in
      if (f =? 0) || (Z.land (flags (node fs f)) VFS_FILE =? 0) then
        Ok (klog "cat: not found: %s
" [Str path] d)
      else
        d ← cat_loop fuel f 0 d;
        fs ← vfs_close f (files d);
        Ok (with_files fs d)
  end.

Definition cmd_ps (d : D) : D :=
  let d := klog "  ID  NAME             STATE
" [] d in
  let d := klog "  --  ---------------  --------
" [] d in
  let d := match thread_current_ d with
           | Some (id, nm) => klog "  %-3u %-16s RUNNING
" [Num id; Str nm] d
           | None => d
           end in
  klog "  (run-queue threads omitted in Phase 7)
" [] d.

Definition cmd_mem (d : D) : D :=
  let total := u32 (Z.shiftr (pmm_total_ d) 20) in
  let used := u32 (Z.shiftr (pmm_used_ d) 20) in
  let free := u32 (Z.shiftr (pmm_available_ d) 20) in
  let d := klog "  Total : %u MiB
" [Num total] d in
  let d := klog "  Used  : %u MiB
" [Num used] d in
  klog "  Free  : %u MiB
" [Num free] d.

Definition cmd_uptime (d : D) : D :=
  let secs := u32 (pit_ticks_ d) / 100 in
  klog "  Uptime: %u min %u sec
" [Num (secs / 60); Num (secs mod 60)] d.

(** The processor then halts for good. *)
Definition cmd_reboot (d : D) : D :=
  let d := klog "Rebooting...
" [] d in
  outb_ 0x64 0xFE d.

(** The branch [echo] of [dispatch]. *)
Fixpoint cmd_echo (ws : list str) (d : D) : D :=
  match ws with
  | [] => klog "
" [] d
  | w :: ws => cmd_echo ws (klog "%s%s" [Str w; Str (match ws with [] => [] | _ => [32] end)] d)
  end.

Definition cmd_ifconfig (d : D) : D :=
  if net_up_ d then
    let mac := net_get_mac_ d in
    let ip := net_our_ip_ d in
    let d := klog "  eth0  MAC: %02x:%02x:%02x:%02x:%02x:%02x
" (Num <$> [rd mac 0; rd mac 1; rd mac 2; rd mac 3; rd mac 4; rd mac 5]) d in
    klog "        IP:  %u.%u.%u.%u
" (Num <$> [Z.land (Z.shiftr ip 24) 0xFF; Z.land (Z.shiftr ip 16) 0xFF; Z.land (Z.shiftr ip 8) 0xFF; Z.land ip 0xFF]) d
  else klog "  No network interface
" [] d.

(** [dispatch] on the strings of [args]; whether the processor was halted. *)
Definition dispatch (fuel : nat) (ws : list str) (d : D) : outcome (bool * D) :=
  match ws with
  | [] => Ok (false, d)
  | cmd :: ws =>
      let run (d : D) : outcome (bool * D) := Ok (false, d) in
      if bool_decide (cmd = bytes "help") then run (cmd_help d)
      else if bool_decide (cmd = bytes "ls") then d ← cmd_ls fuel (List.hd_error ws) d; run d
      else if bool_decide (cmd = bytes "cat") then d ← cmd_cat fuel (List.hd_error ws) d; run d
      else if bool_decide (cmd = bytes "echo") then run (cmd_echo ws d)
      else if bool_decide (cmd = bytes "clear") then run (term_clear d)
      else if bool_decide (cmd = bytes "ps") then run (cmd_ps d)
      else if bool_decide (cmd = bytes "mem") then run (cmd_mem d)
      else if bool_decide (cmd = bytes "uptime") then run (cmd_uptime d)
      else if bool_decide (cmd = bytes "reboot") then Ok (true, cmd_reboot d)
      else if bool_decide (cmd = bytes "ifconfig") then run (cmd_ifconfig d)
      else if bool_decide (cmd = bytes "netpoll") then run (klog "Network polled.
" [] (net_poll_ d))
      else run (klog "%s: command not found
" [Str cmd] d)
  end.

(** One turn of the loop of [shell_run]. *)
Definition shell_turn (fuel : nat) (s : shell) (d : D) : outcome (bool * (shell * D)) :=
  let d := term_color VGA_LIGHT_GREEN VGA_BLACK d in
  let d := klog "aerogel> " [] d in
  let d := term_color VGA_WHITE VGA_BLACK d in
  '(s, d) ← readline fuel s d;
  let d := term_color VGA_LIGHT_GRAY VGA_BLACK d in
  s ← parse_args s;
  '(halted, d) ← dispatch fuel (arg_at (buf s) <$> args s) d;
  Ok (halted, (s, d)).

(** [shell_run] for [turns] turns, or until the processor is halted. *)
Fixpoint shell_loop (turns fuel : nat) (s : shell) (d : D) : outcome (bool * (shell * D)) :=
  match turns with
  | O => Ok (false, (s, d))
  | S k => '(halted, (s, d)) ← shell_turn fuel s d;
           if (halted : bool) then Ok (true, (s, d)) else shell_loop k fuel s d
  end.
Definition shell_run (turns fuel : nat) (s : shell) (d : D) : outcome (bool * (shell * D)) :=
  let d := term_color VGA_LIGHT_GRAY VGA_BLACK d in
  let d := klog "
Aerogel shell. Type 'help' for commands.
" [] d in
  shell_loop turns fuel s d.
End commands.

(** ** What the user sees *)

(** [typed] is what the next polls of the keyboard return and [shown] what has
    been sent to the screen so far; colours and clearing are not part of it. *)
Class TerminalView (D : Type) `{Terminal D} `{Kprint D} := {
  typed : D → list (option key_event_t);
  shown : D → list Z;
  poll_typed : ∀ d o l, typed d = o :: l → (term_poll d).1 = o ∧ typed (term_poll d).2 = l;
  poll_shown : ∀ d, shown (term_poll d).2 = shown d;
  putc_typed : ∀ c d, typed (term_putc c d) = typed d;
  putc_shown : ∀ c d, shown (term_putc c d) = shown d ++ [c];
  serial_typed : ∀ c d, typed (term_serial c d) = typed d;
  serial_shown : ∀ c d, shown (term_serial c d) = shown d;
  color_typed : ∀ f b d, typed (term_color f b d) = typed d;
  color_shown : ∀ f b d, shown (term_color f b d) = shown d;
  clear_typed : ∀ d, typed (term_clear d) = typed d;
  clear_shown : ∀ d, shown (term_clear d) = shown d;
  print_typed : ∀ l d, typed (kprint l d) = typed d;
  print_shown : ∀ l d, shown (kprint l d) = shown d ++ l
}.

(** ** Line editing *)

(** The editor over lists: the line typed so far and the events to come give the
    line at the return key, what was echoed, and the events left. *)
Fixpoint edit (limit : Z) (line : str) (l : list (option key_event_t)) : option (str * list Z * list (option key_event_t)) :=
  match l with
  | [] => None
  | None :: l => edit limit line l
  | Some e :: l =>
      if negb (pressed e) then edit limit line l else
      if (ascii e =? 10) || (ascii e =? 13) then Some (line, [10], l)
      else if (ascii e =? 8) && negb (bool_decide (line = [])) then
        '(r, echo, l) ← edit limit (removelast line) l; Some (r, 8 :: echo, l)
      else if negb (ascii e =? 0) && (Z.of_nat (length line) <? limit) then
        '(r, echo, l) ← edit limit (line ++ [ascii e]) l; Some (r, ascii e :: echo, l)
      else edit limit line l
  end.

(** Pressing the keys of some characters. *)
Definition press (c : Z) : option key_event_t := Some (KeyEvent 0 c 0 true).

Lemma edit_press limit ws l : Forall (λ c, c ≠ 0 ∧ c ≠ 8 ∧ c ≠ 10 ∧ c ≠ 13) ws → ∀ line,
  Z.of_nat (length line + length ws) ≤ limit →
  edit limit line ((press <$> ws) ++ press 10 :: l) = Some (line ++ ws, ws ++ [10], l).
Proof.
  induction 1 as [|c ws (H0 & H8 & H10 & H13) _ IH]; intros line Hl; [by rewrite app_nil_r|].
  cbn [fmap list_fmap app edit press pressed ascii negb length] in *.
  rewrite !(proj2 (Z.eqb_neq c _)) by done. rewrite (proj2 (Z.ltb_lt _ _)) by lia. cbn [orb andb negb].
  rewrite IH by (rewrite length_app; cbn [length]; lia). cbn. by rewrite <- app_assoc.
Qed.

(** The line stays within the limit. *)
Lemma edit_limit limit l : ∀ line r echo rest, edit limit line l = Some (r, echo, rest) →
  Z.of_nat (length line) ≤ limit → Z.of_nat (length r) ≤ limit.
Proof.
  induction l as [|o l IH]; intros line r echo rest He Hl; [done|]. cbn [edit] in He.
  destruct o as [e|]; [|by eapply IH]. destruct (negb (pressed e)); [by eapply IH|].
  destruct (_ || _); [by injection He as <- _ _|]. destruct (_ && negb _).
  - destruct (edit limit (removelast line) l) as [[[r' echo'] rest']|] eqn:E; [|done]. injection He as <- _ _.
    eapply IH; [exact E|]. rewrite removelast_firstn_len, length_take. lia.
  - destruct (negb _ && (_ <? limit)) eqn:Ec; [|by eapply IH].
    destruct (edit limit (line ++ [ascii e]) l) as [[[r' echo'] rest']|] eqn:E; [|done]. injection He as <- _ _.
    apply andb_true_iff in Ec as [_ Ec%Z.ltb_lt]. eapply IH; [exact E|]. rewrite length_app. cbn [length]. lia.
Qed.

(** The buffer holds the line in its first [len] bytes. *)
Definition holds (b : list Z) (line : str) : Prop :=
  take (length line) b = line ∧ (length line < length b)%nat.

Lemma holds_push b line c : holds b line → (S (length line) < length b)%nat → holds (wr b (Z.of_nat (length line)) c) (line ++ [c]).
Proof.
  intros [E Hl] Hs. unfold holds, wr. rewrite Nat2Z.id, length_app, length_insert. cbn [length].
  split; [|lia]. rewrite Nat.add_1_r. rewrite (take_S_r _ _ c) by (by rewrite list_lookup_insert_eq by lia).
  by rewrite take_insert_ge, E by lia.
Qed.

Lemma holds_pop b line : holds b line → holds b (removelast line).
Proof.
  intros [E Hl]. rewrite removelast_firstn_len. unfold holds. rewrite length_take.
  assert (Nat.pred (length line) ≤ length line)%nat as Hp by lia.
  rewrite Nat.min_l by done. split; [|lia]. rewrite <- E at 3. rewrite take_take. by rewrite Nat.min_l.
Qed.

(** The two tests for an empty line. *)
Lemma empty_length (line : str) : negb (bool_decide (line = [])) = (0 <? Z.of_nat (length line)).
Proof. destruct line; [done|]. cbn [length]. rewrite bool_decide_false by done. symmetry. apply Z.ltb_lt. lia. Qed.

Section reader_spec.
Context `{TerminalView D}.

(** What a reader that started in [d] with [n] bytes of buffer has done when it
    returns: the line [r] is in the buffer, [echo] on the terminal. *)
Definition reads_line (x : outcome (list Z * Z * D)) (n : nat) (d : D) (r echo : list Z) rest : Prop :=
  ∃ b' d', x = Ok (b', Z.of_nat (length r), d') ∧
    length b' = n ∧ take (S (length r)) b' = r ++ [0] ∧ (length r < n)%nat ∧
    typed d' = rest ∧ shown d' = shown d ++ echo.

Lemma reads_line_after x n d d1 r e echo rest :
  shown d1 = shown d ++ e → reads_line x n d1 r echo rest → reads_line x n d r (e ++ echo) rest.
Proof. intros E (b' & d' & ? & ? & ? & ? & ? & E'). exists b', d'. rewrite E', E, <- app_assoc. done. Qed.

(** A key that only moves the input on. *)
Lemma reads_line_same x n d d1 r echo rest :
  shown d1 = shown d → reads_line x n d1 r echo rest → reads_line x n d r echo rest.
Proof. intros E. apply (reads_line_after _ _ _ _ _ []). by rewrite app_nil_r. Qed.

Lemma read_loop_edit limit putc wait :
  (∀ c d, typed (putc c d) = typed d ∧ shown (putc c d) = shown d ++ [c]) →
  (∀ d, typed (wait d) = typed d ∧ shown (wait d) = shown d) →
  ∀ fuel b line d r echo rest,
  holds b line → limit < Z.of_nat (length b) → edit limit line (typed d) = Some (r, echo, rest) →
  (length (typed d) ≤ fuel)%nat →
  reads_line (read_loop limit putc wait fuel b (Z.of_nat (length line)) d) (length b) d r echo rest.
Proof.
  intros Hp Hw. induction fuel as [|fuel IH]; intros b line d r echo rest Hb Hlim He Hf.
  { destruct (typed d); [done|]. simpl in Hf. lia. }
  cbn [read_loop]. destruct (typed d) as [|o l] eqn:Et; [done|]. cbn [length] in Hf.
  destruct (poll_typed d o l Et) as [E1 E2]. pose proof (poll_shown d) as E3.
  destruct (term_poll d) as [o' d1]. cbn [fst snd] in *. subst o'.
  destruct o as [e|].
  2:{ destruct (Hw d1) as [W1 W2]. apply (reads_line_same _ _ _ (wait d1)); [congruence|].
      apply IH; rewrite ?W1, ?E2; (done || lia). }
  cbn [edit] in He. assert (length (typed d1) ≤ fuel)%nat as Hf1 by (rewrite E2; lia).
  destruct (negb (pressed e)).
  { apply (reads_line_same _ _ _ d1 _ _ _ E3). apply IH; rewrite ?E2 in *; done. }
  destruct ((ascii e =? 10) || (ascii e =? 13)).
  { injection He as <- <- <-. destruct Hb as [Hb1 Hb2]. destruct (Hp 10 d1) as [P1 P2].
    eexists _, _. split; [reflexivity|]. unfold wr. rewrite Nat2Z.id, length_insert. split; [done|].
    split; [|split; [done|by rewrite P1, P2, E2, E3]].
    rewrite (take_S_r _ _ 0) by (by rewrite list_lookup_insert_eq by lia). by rewrite take_insert_ge, Hb1 by lia. }
  rewrite (empty_length line) in He. destruct ((ascii e =? 8) && (0 <? Z.of_nat (length line))) eqn:E8.
  - apply andb_true_iff in E8 as [_ Hpos]. apply Z.ltb_lt in Hpos.
    destruct (edit limit (removelast line) l) as [[[r' echo'] rest']|] eqn:Ee; [|done]. injection He as <- <- <-.
    destruct (Hp 8 d1) as [P1 P2]. apply (reads_line_after _ _ _ (putc 8 d1) _ [8]); [congruence|].
    replace (Z.of_nat (length line) - 1) with (Z.of_nat (length (removelast line)))
      by (rewrite removelast_firstn_len, length_take; lia).
    apply IH; rewrite ?P1, ?E2 in *; try done. by apply holds_pop.
  - destruct (negb (ascii e =? 0) && (Z.of_nat (length line) <? limit)) eqn:Ec.
    + apply andb_true_iff in Ec as [_ Hlt]. apply Z.ltb_lt in Hlt.
      destruct (edit limit (line ++ [ascii e]) l) as [[[r' echo'] rest']|] eqn:Ee; [|done]. injection He as <- <- <-.
      destruct (Hp (ascii e) d1) as [P1 P2]. apply (reads_line_after _ _ _ (putc (ascii e) d1) _ [ascii e]); [congruence|].
      replace (Z.of_nat (length line) + 1) with (Z.of_nat (length (line ++ [ascii e])))
        by (rewrite length_app; cbn [length]; lia).
      rewrite <- (length_wr b (Z.of_nat (length line)) (ascii e)).
      apply IH; rewrite ?length_wr, ?P1, ?E2 in *; try done. apply holds_push; [done|]. lia.
    + apply (reads_line_same _ _ _ d1 _ _ _ E3). apply IH; rewrite ?E2 in *; done.
Qed.

(** Each line takes an event at least. *)
Lemma edit_shorter limit l : ∀ line r echo rest, edit limit line l = Some (r, echo, rest) → (length rest < length l)%nat.
Proof.
  induction l as [|o l IH]; intros line r echo rest; [done|]. cbn [edit length]. destruct o as [e|]; [|by intros E%IH; lia].
  destruct (negb (pressed e)); [by intros E%IH; lia|]. destruct ((ascii e =? 10) || (ascii e =? 13)); [intros [= <- <- <-]; lia|].
  destruct ((ascii e =? 8) && _); [|destruct (negb (ascii e =? 0) && _); [|by intros E%IH; lia]].
  all: destruct (edit limit _ l) as [[[r' echo'] rest']|] eqn:E; cbn; [|done]; intros [= <- <- <-]; apply IH in E; lia.
Qed.

(** The events up to the end of the line were there before it was read. *)
Definition ahead (l rest : list (option key_event_t)) : Prop := ∃ l', l = l' ++ rest ∧ Forall is_Some l'.

Lemma ahead_cons o l rest : ahead (o :: l) rest → (length rest < S (length l))%nat → is_Some o ∧ ahead l rest.
Proof.
  intros (l' & E & Hl) Hlen. destruct l' as [|o' l']; cbn in E; [subst rest; cbn in Hlen; lia|]. injection E as -> ->.
  apply Forall_cons_1 in Hl as [Ho Hl]. split; [done|]. by exists l'.
Qed.

(** What no terminal operation changes a reader leaves alone that never waits. *)
Lemma read_loop_still {X} (I : D → X) limit putc wait :
  (∀ c d, typed (putc c d) = typed d ∧ I (putc c d) = I d) → (∀ d, I (term_poll d).2 = I d) →
  ∀ fuel b line d r echo rest b' n' d', edit limit line (typed d) = Some (r, echo, rest) → ahead (typed d) rest →
  read_loop limit putc wait fuel b (Z.of_nat (length line)) d = Ok (b', n', d') → I d' = I d.
Proof.
  intros Hp Hi. induction fuel as [|fuel IH]; intros b line d r echo rest b' n' d' He Ha; [done|].
  cbn [read_loop]. destruct (typed d) as [|o l] eqn:Et; [done|]. pose proof (edit_shorter _ _ _ _ _ _ He) as Hlen.
  destruct (ahead_cons o l rest Ha Hlen) as [[e ->] Ha']. destruct (poll_typed d _ l Et) as [E1 E2].
  specialize (Hi d). destruct (term_poll d) as [o' d1]. cbn [fst snd] in *. subst o'. cbn [edit] in He. rewrite <- Hi. clear Hi.
  destruct (negb (pressed e)); [apply (IH _ line d1 r echo rest); by rewrite E2|].
  destruct ((ascii e =? 10) || (ascii e =? 13)); [intros [= _ _ <-]; apply (proj2 (Hp 10 d1))|].
  rewrite (empty_length line) in He. destruct ((ascii e =? 8) && (0 <? Z.of_nat (length line))) eqn:E8.
  - apply andb_true_iff in E8 as [_ Hpos%Z.ltb_lt]. destruct (edit limit (removelast line) l) as [[[r' echo'] rest']|] eqn:Ee; [|done].
    injection He as <- <- <-. destruct (Hp 8 d1) as [P1 <-].
    replace (Z.of_nat (length line) - 1) with (Z.of_nat (length (removelast line))) by (rewrite removelast_firstn_len, length_take; lia).
    apply (IH _ _ _ r' echo' rest'); by rewrite P1, E2.
  - destruct (negb (ascii e =? 0) && (Z.of_nat (length line) <? limit)); [|apply (IH _ line d1 r echo rest); by rewrite E2].
    destruct (edit limit (line ++ [ascii e]) l) as [[[r' echo'] rest']|] eqn:Ee; [|done]. injection He as <- <- <-.
    destruct (Hp (ascii e) d1) as [P1 <-].
    replace (Z.of_nat (length line) + 1) with (Z.of_nat (length (line ++ [ascii e]))) by (rewrite length_app; cbn [length]; lia).
    apply (IH _ _ _ r' echo' rest'); by rewrite P1, E2.
Qed.
End reader_spec.

(** ** Splitting the command line *)

(** The words of a line: what lies between spaces. [cur] is the word begun. *)
Fixpoint words_from (cur l : str) : list str :=
  match l with
  | [] => match cur with [] => [] | _ => [cur] end
  | c :: l =>
      if c =? 32 then match cur with [] => words_from [] l | _ => cur :: words_from [] l end
      else words_from (cur ++ [c]) l
  end.
Definition words (l : str) : list str := words_from [] l.

Lemma words_from_app w : 32 ∉ w → ∀ cur l, words_from cur (w ++ l) = words_from (cur ++ w) l.
Proof.
  induction w as [|c w IH]; intros Hw cur l; [by rewrite app_nil_r|].
  apply not_elem_of_cons in Hw as [Hc Hw]. cbn [app words_from]. rewrite (proj2 (Z.eqb_neq c 32)) by done.
  by rewrite IH, <- app_assoc.
Qed.

(** The longest prefix that passes the test, and the rest. *)
Fixpoint prefix_of (test : Z → bool) (l : list Z) : list Z * list Z :=
  match l with
  | [] => ([], [])
  | c :: l' => if test c then let '(a, r) := prefix_of test l' in (c :: a, r) else ([], l)
  end.

Lemma prefix_of_spec test l : let '(a, r) := prefix_of test l in
  l = a ++ r ∧ Forall (λ c, test c = true) a ∧ match r with [] => True | c :: _ => test c = false end.
Proof.
  induction l as [|c l IH]; [done|]. cbn [prefix_of]. destruct (test c) eqn:E; [|done].
  destruct (prefix_of test l) as [a r]. destruct IH as (-> & Ha & Hr). split; [done|]. split; [by constructor|done].
Qed.

(** The bytes of [b] from [p] on. *)
Definition from (b : list Z) (p : Z) : list Z := drop (Z.to_nat p) b.

Lemma rd_from b p : rd b p = List.hd 0 (from b p).
Proof.
  unfold rd, from. rewrite <- (Nat.add_0_r (Z.to_nat p)) at 1. rewrite <- lookup_drop.
  by destruct (drop (Z.to_nat p) b).
Qed.

Lemma from_succ b p c t : 0 ≤ p → from b p = c :: t → from b (p + 1) = t.
Proof.
  intros Hp E. unfold from in *. rewrite Z2Nat.inj_add, <- drop_drop, E by lia. done.
Qed.

Lemma from_add b p a r : 0 ≤ p → from b p = a ++ r → from b (p + Z.of_nat (length a)) = r.
Proof.
  intros Hp E. unfold from in *. rewrite Z2Nat.inj_add, Nat2Z.id, <- drop_drop, E by lia. apply drop_app_length.
Qed.

(** The loops stop at the first character that fails the test, the terminator
    at the latest. *)
Lemma skip_spec test fuel b : ∀ p, test 0 = false → 0 ≤ p → 0 ∈ from b p → (length (from b p) ≤ fuel)%nat →
  skip test fuel b p = Ok (p + Z.of_nat (length (prefix_of test (from b p)).1)).
Proof.
  induction fuel as [|fuel IH]; intros p H0 Hp Hin Hf.
  { apply nil_length_inv in Hf as E || (destruct (from b p); [by apply elem_of_nil in Hin|simpl in Hf; lia]). }
  cbn [skip]. rewrite rd_from. destruct (from b p) as [|c t] eqn:E; [by apply elem_of_nil in Hin|].
  cbn [List.hd prefix_of length] in *. destruct (test c) eqn:Ec; [|f_equal; simpl; lia].
  pose proof (from_succ b p c t Hp E) as E1. rewrite IH; rewrite ?E1; try done; try lia.
  - destruct (prefix_of test t) as [a r]. cbn [fst length]. f_equal. lia.
  - apply elem_of_cons in Hin as [<-|]; [congruence|done].
Qed.

Lemma until_nul_app w t : Forall (λ c, c ≠ 0) w → until_nul (w ++ t) = w ++ until_nul t.
Proof. induction 1 as [|c w Hc _ IH]; [done|]. cbn [app until_nul]. by rewrite (proj2 (Z.eqb_neq c 0)), IH. Qed.

(** Writing at [q] leaves what follows. *)
Lemma from_wr b q v : 0 ≤ q < Z.of_nat (length b) → from (wr b q v) (q + 1) = from b (q + 1).
Proof. intros Hq. unfold from, wr. rewrite drop_insert_lt by lia. done. Qed.

Lemma from_take b b' p w t : from b p = w ++ t →
  take (Z.to_nat p + length w) b' = take (Z.to_nat p + length w) b → ∃ t', from b' p = w ++ t'.
Proof.
  intros E Et. exists (drop (length w) (from b' p)). unfold from in *.
  rewrite <- (take_drop (length w) (drop (Z.to_nat p) b')) at 1. f_equal.
  rewrite take_drop_commute, Et, <- take_drop_commute, E. apply take_app_length.
Qed.

Definition starts_word (t : list Z) : Prop := match t with c :: _ => is_space c = false | [] => True end.

Lemma all_nonzero P l : Forall (λ c, P c = true) l → P 0 = false → Forall (λ c : Z, c ≠ 0) l ∧ 0 ∉ l.
Proof.
  intros Hl H0. assert (0 ∉ l) as Hn.
  { intros Hin%list_elem_of_In. pose proof (proj1 (List.Forall_forall _ _) Hl 0 Hin). cbn in *. congruence. }
  split; [|done]. apply List.Forall_forall. intros c Hc ->. apply Hn. by apply list_elem_of_In.
Qed.

Lemma from_inside b p c t : from b p = c :: t → (Z.to_nat p < length b)%nat.
Proof. intros E. apply (f_equal length) in E. unfold from in E. rewrite length_drop in E. cbn [length] in E. lia. Qed.

(** The first inner loop finds the end of the word at [p]. *)
Lemma word_at b p c t : 0 ≤ p → 0 ∈ from b p → from b p = c :: t → c ≠ 0 → c ≠ 32 →
  ∃ w x r, from b p = w ++ x :: r ∧ w ≠ [] ∧ Forall (λ c, c ≠ 0) w ∧ (32 ∉ w) ∧ (x = 0 ∨ x = 32 ∧ 0 ∈ r) ∧
    skip in_word (length b) b p = Ok (p + Z.of_nat (length w)).
Proof.
  intros Hp Hin E H0 H32. pose proof (prefix_of_spec in_word (from b p)) as Hpre.
  pose proof (skip_spec in_word (length b) b p eq_refl Hp Hin) as Hskip.
  destruct (prefix_of in_word (from b p)) as [w r]. destruct Hpre as (Ew & Hw & Hr).
  destruct (all_nonzero in_word w Hw eq_refl) as [Hw0 Hn0].
  assert (0 ∈ r) as Hinr by (rewrite Ew in Hin; apply elem_of_app in Hin; tauto).
  destruct r as [|x r]; [by apply elem_of_nil in Hinr|]. exists w, x, r. split; [done|]. split_and!.
  - intros ->. cbn [app] in Ew. rewrite E in Ew. injection Ew as <- <-. unfold in_word in Hr.
    by rewrite (proj2 (Z.eqb_neq c 0)), (proj2 (Z.eqb_neq c 32)) in Hr.
  - done.
  - intros Hin32%list_elem_of_In. pose proof (proj1 (List.Forall_forall _ _) Hw 32 Hin32). done.
  - unfold in_word in Hr. destruct (Z.eqb_spec x 0) as [|Hx]; [by left|right]. cbn [negb andb] in Hr.
    destruct (Z.eqb_spec x 32); [|done]. split; [done|]. apply elem_of_cons in Hinr as [?|?]; [congruence|done].
  - apply Hskip. unfold from. rewrite length_drop. lia.
Qed.

(** The second one finds the next word, after the space at [q] is cleared. *)
Lemma spaces_at b q r : 0 ≤ q → from b q = 32 :: r → 0 ∈ r →
  let b1 := wr b q 0 in
  ∃ q', skip is_space (length b1) b1 (q + 1) = Ok q' ∧ q < q' ∧ 0 ∈ from b1 q' ∧ starts_word (from b1 q') ∧
    words (until_nul r) = words (until_nul (from b1 q')).
Proof.
  intros Hq E Hin b1. pose proof (from_inside _ _ _ _ E) as Hqb.
  assert (from b1 (q + 1) = r) as Er.
  { unfold b1. rewrite from_wr by lia. by apply (from_succ b q 32 r). }
  pose proof (skip_spec is_space (length b1) b1 (q + 1) eq_refl ltac:(lia)) as Hskip.
  rewrite Er in Hskip. specialize (Hskip Hin). pose proof (prefix_of_spec is_space r) as Hpre.
  destruct (prefix_of is_space r) as [sp r']. destruct Hpre as (Esp & Hsp & Hr').
  exists (q + 1 + Z.of_nat (length sp)). rewrite (from_add b1 (q + 1) sp r') by (lia || (by rewrite Er)).
  split; [apply Hskip; rewrite <- Er; unfold from; rewrite length_drop; lia|]. split; [lia|]. split_and!.
  - destruct (all_nonzero is_space sp Hsp eq_refl) as [_ Hn0]. rewrite Esp in Hin. apply elem_of_app in Hin. tauto.
  - destruct r'; [done|exact Hr'].
  - rewrite Esp. clear -Hsp. induction Hsp as [|x sp Hx _ IHs]; [done|]. unfold is_space in Hx. apply Z.eqb_eq in Hx as ->.
    exact IHs.
Qed.

(** A word is read back as long as its bytes and a terminator stay. *)
Lemma arg_at_word b b' p q w r : 0 ≤ p → q = p + Z.of_nat (length w) → Forall (λ c, c ≠ 0) w → from b p = w ++ 0 :: r →
  take (S (Z.to_nat q)) b' = take (S (Z.to_nat q)) b → arg_at b' p = w.
Proof.
  intros Hp -> Hw E Et. destruct (from_take b b' p (w ++ [0]) r) as [t' Et'].
  - by rewrite <- app_assoc.
  - rewrite length_app. cbn [length].
    by replace (Z.to_nat p + (length w + 1))%nat with (S (Z.to_nat (p + Z.of_nat (length w)))) by lia.
  - unfold arg_at. fold (from b' p). rewrite Et', <- app_assoc, until_nul_app by done. apply app_nil_r.
Qed.

(** The loop cuts the words off one after the other, [k] at most. *)
Lemma parse_loop_spec : ∀ k b p, 0 ≤ p → 0 ∈ from b p → starts_word (from b p) →
  ∃ l b', parse_loop k b p = Ok (l, b') ∧ length b' = length b ∧
    take (Z.to_nat p) b' = take (Z.to_nat p) b ∧ Forall (λ q, p ≤ q < Z.of_nat (length b)) l ∧
    arg_at b' <$> l = take k (words (until_nul (from b p))).
Proof.
  induction k as [|k IH]; intros b p Hp Hin Hs; [by exists [], b|]. cbn [parse_loop]. rewrite rd_from.
  destruct (from b p) as [|c t] eqn:E; [by apply elem_of_nil in Hin|]. cbn [List.hd].
  destruct (Z.eqb_spec c 0) as [->|Hc]; [by exists [], b|].
  unfold starts_word, is_space in Hs. apply Z.eqb_neq in Hs. rewrite <- E in Hin |- *.
  destruct (word_at b p c t Hp Hin E Hc Hs) as (w & x & r & Ew & Hne & Hw0 & Hw32 & Hx & ->). cbn [mbind outcome_bind].
  pose proof (from_inside _ _ _ _ E) as Hpb. set (q := p + Z.of_nat (length w)).
  pose proof (from_add b p w (x :: r) Hp Ew) as Eq. fold q in Eq. pose proof (from_inside _ _ _ _ Eq) as Hqb.
  rewrite (rd_from b q), Eq, Ew, until_nul_app by done. cbn [List.hd until_nul].
  destruct Hx as [-> |[-> Hin0]]; cbn [Z.eqb negb mbind outcome_bind].
  - (* the last word *)
    assert (parse_loop k b q = Ok ([], b)) as -> by (destruct k; [done|]; cbn [parse_loop]; by rewrite rd_from, Eq).
    exists [p], b. cbn [mbind outcome_bind]. split; [done|]. split; [done|]. split; [done|]. split; [constructor; [lia|done]|].
    cbn [fmap list_fmap]. rewrite (arg_at_word b b p q w r) by done.
    unfold words. rewrite words_from_app by done. destruct w; [done|]. by destruct k.
  - (* a space ends it *)
    destruct (spaces_at b q r ltac:(unfold q; lia) Eq Hin0) as (q' & -> & Hq' & Hin' & Hs' & Ewords).
    set (b1 := wr b q 0) in *. cbn [mbind outcome_bind].
    destruct (IH b1 q' ltac:(unfold q in *; lia) Hin' Hs') as (l & b' & -> & Hl' & Ht' & Hfl & Hargs).
    exists (p :: l), b'. cbn [mbind outcome_bind]. unfold b1 in Hl', Hfl. rewrite length_wr in Hl', Hfl.
    split; [done|]. split; [done|].
    assert (∀ n, (n ≤ Z.to_nat q')%nat → take n b' = take n b1) as Htake.
    { intros n Hn. rewrite <- (Nat.min_l n (Z.to_nat q')) by done. by rewrite <- !take_take, Ht'. }
    split; [|split].
    + rewrite Htake by (unfold q in *; lia). unfold b1, wr. apply take_insert_ge. unfold q. lia.
    + constructor; [lia|]. eapply List.Forall_impl; [|exact Hfl]. cbn. intros y Hy. unfold q in *. lia.
    + cbn [fmap list_fmap]. rewrite (arg_at_word b1 b' p q w r Hp eq_refl Hw0).
      * rewrite Hargs, <- Ewords. unfold words. rewrite words_from_app by done. by destruct w.
      * unfold b1, from, wr. rewrite drop_insert_ge by (unfold q; lia). fold (from b p). rewrite Ew.
        replace (Z.to_nat q - Z.to_nat p)%nat with (length w + 0)%nat by (unfold q; lia). by rewrite insert_app_r.
      * apply Htake. unfold q in *. lia.
Qed.

(** [parse_args] on a buffer that holds a line. *)
Lemma parse_args_words b n l : 0 ∈ b →
  ∃ b' l', parse_args (Shell b n l) = Ok (Shell b' n l') ∧ length b' = length b ∧
    Forall (λ q, 0 ≤ q < Z.of_nat (length b)) l' ∧ arg_at b' <$> l' = take 16 (words (until_nul b)).
Proof.
  intros Hin. unfold parse_args. cbn [buf buf_len].
  assert (from b 0 = b) as E0 by (unfold from; by rewrite drop_0).
  pose proof (skip_spec is_space (length b) b 0 eq_refl ltac:(lia)) as Hskip. rewrite E0 in Hskip.
  rewrite Hskip by done. cbn [mbind outcome_bind]. pose proof (prefix_of_spec is_space b) as Hpre.
  destruct (prefix_of is_space b) as [sp r]. destruct Hpre as (Esp & Hsp & Hr). cbn [fst].
  assert (from b (0 + Z.of_nat (length sp)) = r) as Er by (apply from_add; [lia|by rewrite E0]).
  destruct (all_nonzero is_space sp Hsp eq_refl) as [_ Hn0].
  destruct (parse_loop_spec (Z.to_nat MAX_ARGS) b (0 + Z.of_nat (length sp))) as (l' & b' & -> & Hl & _ & Hf & Ha); [lia| | |].
  - rewrite Er. rewrite Esp in Hin. apply elem_of_app in Hin. tauto.
  - rewrite Er. destruct r; [done|exact Hr].
  - exists b', l'. split; [done|]. split; [done|]. split.
    + eapply List.Forall_impl; [|exact Hf]. cbn. intros y Hy. lia.
    + rewrite Ha, Er. change (Z.to_nat MAX_ARGS) with 16%nat. f_equal. rewrite Esp. clear -Hsp.
      induction Hsp as [|x sp Hx _ IHs]; [done|]. unfold is_space in Hx. apply Z.eqb_eq in Hx as ->. exact IHs.
Qed.

(** ** Commands *)

(** The terminal and the file systems are separate parts of the state. *)
Class FilesView (D : Type) `{TerminalView D} `{!Files D} := {
  files_with : ∀ s d, files (with_files s d) = s;
  with_typed : ∀ s d, typed (with_files s d) = typed d;
  with_shown : ∀ s d, shown (with_files s d) = shown d;
  files_print : ∀ l d, files (kprint l d) = files d;
  files_color : ∀ f b d, files (term_color f b d) = files d;
  files_clear : ∀ d, files (term_clear d) = files d;
  files_putc : ∀ c d, files (term_putc c d) = files d;
  files_poll : ∀ d, files (term_poll d).2 = files d
}.

(** Other threads do not print or type while the shell waits. *)
Class ShellView (D : Type) `{FilesView D} `{!ShellKernel D} := {
  yield_typed : ∀ d, typed (sched_yield_ d) = typed d;
  yield_shown : ∀ d, shown (sched_yield_ d) = shown d
}.

Section view.
Context `{Arch} `{ShellView D}.

Lemma klog_shown fmt ap d : shown (klog fmt ap d) = shown d ++ format (bytes fmt) ap.
Proof. apply print_shown. Qed.
Lemma klog_typed fmt ap d : typed (klog fmt ap d) = typed d.
Proof. apply print_typed. Qed.
Lemma klog_files fmt ap d : files (klog fmt ap d) = files d.
Proof. apply files_print. Qed.

Lemma shell_putc_view c d : typed (shell_putc c d) = typed d ∧ shown (shell_putc c d) = shown d ++ [c].
Proof. unfold shell_putc. by rewrite serial_typed, serial_shown, putc_typed, putc_shown. Qed.

Lemma yield_view d : typed (sched_yield_ d) = typed d ∧ shown (sched_yield_ d) = shown d.
Proof. by rewrite yield_typed, yield_shown. Qed.

(** What the terminal's operations leave alone. *)
Definition quiet {X} (I : D → X) : Prop :=
  (∀ l d, I (kprint l d) = I d) ∧ (∀ f b d, I (term_color f b d) = I d) ∧ (∀ c d, I (term_putc c d) = I d) ∧
  (∀ c d, I (term_serial c d) = I d) ∧ (∀ d, I (term_poll d).2 = I d).

Lemma quiet_klog {X} (I : D → X) fmt ap d : quiet I → I (klog fmt ap d) = I d.
Proof. intros (Hk & _). apply Hk. Qed.

(** [readline] and [parse_args] together. *)
Lemma readline_words fuel s d r echo rest :
  edit 255 [] (typed d) = Some (r, echo, rest) → (length (typed d) ≤ fuel)%nat → Forall (λ c, c ≠ 0) r →
  ∃ b n l b' d', readline fuel s d = Ok (Shell b n (args s), d') ∧
    parse_args (Shell b n (args s)) = Ok (Shell b' n l) ∧ length b' = 256%nat ∧
    Forall (λ q, 0 ≤ q < 256) l ∧ arg_at b' <$> l = take 16 (words r) ∧ n = Z.of_nat (length r) ∧ n < 256 ∧
    typed d' = rest ∧ shown d' = shown d ++ echo ∧ (ahead (typed d) rest → ∀ X (I : D → X), quiet I → I d' = I d).
Proof.
  intros He Hf Hr. set (b0 := replicate (Z.to_nat CMD_BUF) 0).
  assert (length b0 = 256%nat) as Hl0 by apply length_replicate.
  destruct (read_loop_edit 255 shell_putc sched_yield_ shell_putc_view yield_view fuel b0 [] d r echo rest)
    as (b & d' & E & Hl & Hb & Hlen & Ht & Hs); [split; [done|cbn [length]; lia]|lia|done|done|].
  unfold readline. change (CMD_BUF - 1) with 255. fold b0. cbn [length] in E. change (Z.of_nat 0) with 0 in E.
  rewrite E. cbn [mbind outcome_bind].
  assert (b = r ++ 0 :: drop (S (length r)) b) as Eb.
  { rewrite <- (take_drop (S (length r)) b) at 1. by rewrite Hb, <- app_assoc. }
  assert (until_nul b = r) as Eu by (rewrite Eb, until_nul_app by done; apply app_nil_r).
  destruct (parse_args_words b (Z.of_nat (length r)) (args s)) as (b' & l & Ep & Hl' & Hfl & Ha).
  { rewrite Eb. apply elem_of_app. right. apply elem_of_cons. by left. }
  exists b, (Z.of_nat (length r)), l, b', d'. rewrite Eu in Ha. split; [done|]. split; [done|].
  split; [lia|]. split; [by rewrite Hl, Hl0 in Hfl|]. split; [done|]. split; [done|]. split; [lia|]. split; [done|]. split; [done|].
  intros Hahead X I (_ & _ & Hpc & Hse & Hpo). eapply (read_loop_still I 255 shell_putc sched_yield_); [| |exact He|exact Hahead|exact E]; [|exact Hpo].
  intros c d0. split; [apply shell_putc_view|]. unfold shell_putc. by rewrite Hse, Hpc.
Qed.

(** One turn up to the command. *)
Lemma shell_turn_dispatch `{!FsCode} stack chunk fuel s d r echo rest :
  edit 255 [] (typed d) = Some (r, echo, rest) → (length (typed d) ≤ fuel)%nat → Forall (λ c, c ≠ 0) r →
  ∃ s' d', typed d' = rest ∧ shown d' = shown d ++ bytes "aerogel> " ++ echo ∧
    arg_at (buf s') <$> args s' = take 16 (words r) ∧ length (buf s') = 256%nat ∧
    buf_len s' = Z.of_nat (length r) ∧ Forall (λ q, 0 ≤ q < 256) (args s') ∧
    shell_turn stack chunk fuel s d =
      ('(halted, d) ← dispatch stack chunk fuel (take 16 (words r)) d'; Ok (halted, (s', d))) ∧
    (ahead (typed d) rest → ∀ X (I : D → X), quiet I → I d' = I d).
Proof.
  intros He Hf Hr. unfold shell_turn.
  set (d1 := term_color VGA_WHITE VGA_BLACK (klog "aerogel> " [] (term_color VGA_LIGHT_GREEN VGA_BLACK d))).
  assert (typed d1 = typed d) as Et by (unfold d1; by rewrite color_typed, klog_typed, color_typed).
  assert (shown d1 = shown d ++ bytes "aerogel> ") as Es.
  { unfold d1. by rewrite color_shown, klog_shown, color_shown. }
  rewrite <- Et in He, Hf.
  destruct (readline_words fuel s d1 r echo rest He Hf Hr) as (b & n & l & b' & d2 & -> & Ep & Hl & Hfl & Ha & Hn & _ & Ht & Hs & Hq).
  cbn [mbind outcome_bind]. rewrite Ep. cbn [mbind outcome_bind buf args].
  exists (Shell b' n l), (term_color VGA_LIGHT_GRAY VGA_BLACK d2). rewrite color_typed, color_shown.
  split; [done|]. split; [by rewrite Hs, Es, <- app_assoc|]. cbn [buf args]. rewrite Ha. do 5 (split; [done|]).
  intros Hahead X I HI. rewrite <- Et in Hahead. pose proof HI as (_ & Hco & _). rewrite Hco, (Hq Hahead X I HI).
  unfold d1. by rewrite Hco, (quiet_klog I), Hco.
Qed.

(** The output of [echo]. *)
Fixpoint spaced (ws : list str) : list Z :=
  match ws with [] => [10] | [w] => w ++ [10] | w :: ws => w ++ 32 :: spaced ws end.

Lemma cmd_echo_shown ws : ∀ d, shown (cmd_echo ws d) = shown d ++ spaced ws.
Proof.
  induction ws as [|w ws IH]; intros d; [apply klog_shown|]. cbn [cmd_echo]. rewrite IH, klog_shown.
  change (format (bytes "%s%s") [Str w; Str (match ws with [] => [] | _ => [32] end)])
    with (w ++ (match ws with [] => [] | _ => [32] end) ++ []).
  rewrite app_nil_r. destruct ws; cbn [spaced]; [by rewrite app_nil_r, <- app_assoc|by rewrite <- !app_assoc].
Qed.

Lemma cmd_echo_files ws : ∀ d, files (cmd_echo ws d) = files d ∧ typed (cmd_echo ws d) = typed d.
Proof.
  induction ws as [|w ws IH]; intros d; cbn [cmd_echo]; [by rewrite klog_files, klog_typed|].
  destruct (IH (klog "%s%s" [Str w; Str (match ws with [] => [] | _ => [32] end)] d)) as [-> ->].
  by rewrite klog_files, klog_typed.
Qed.
End view.

(** What a chain of prints and colours leaves. *)
Ltac term_simpl := repeat first
  [ rewrite klog_typed | rewrite klog_files | rewrite color_typed | rewrite files_color | rewrite with_typed
  | rewrite files_with | rewrite clear_typed | rewrite files_clear ].

(** *** Printing a file *)

Lemma load_bytes_cons n p m : 0 < n → load_bytes n p m = ld m p :: load_bytes (n - 1) (p + 1) m.
Proof.
  intros Hn. unfold load_bytes. rewrite seqZ_cons by lia. cbn [fmap list_fmap]. rewrite Z.add_0_r. f_equal.
  rewrite <- (Z.add_1_l 0), <- Z.sub_1_r, <- fmap_add_seqZ, <- list_fmap_compose.
  apply list_fmap_ext. intros _ i _. cbn. f_equal. lia.
Qed.

Lemma until_nul_cstr m l : ∀ p n, cstr m p l → Z.of_nat (length l) < n → until_nul (load_bytes n p m) = l.
Proof.
  induction l as [|c l IH]; intros p n Hc Hn; cbn [length cstr] in *; rewrite load_bytes_cons by lia; cbn [until_nul].
  - by rewrite Hc.
  - destruct Hc as (-> & Hne & Hc). rewrite (proj2 (Z.eqb_neq c 0)) by done. f_equal. apply IH; [done|lia].
Qed.

Lemma cstr_bytes m l : ∀ p, Forall (λ c, c ≠ 0) l → (∀ i, 0 ≤ i < Z.of_nat (length l) → ld m (p + i) = rd l i) →
  ld m (p + Z.of_nat (length l)) = 0 → cstr m p l.
Proof.
  induction l as [|c l IH]; intros p Hl Hb H0; cbn [cstr length] in *; [by rewrite Z.add_0_r in H0|].
  apply Forall_cons_1 in Hl as [Hc Hl]. split; [specialize (Hb 0 ltac:(lia)); by rewrite Z.add_0_r in Hb|].
  split; [done|]. apply IH; [done| |by replace (p + 1 + Z.of_nat (length l)) with (p + Z.of_nat (S (length l))) by lia].
  intros i Hi. replace (p + 1 + i) with (p + (i + 1)) by lia. rewrite Hb by lia. unfold rd.
  by replace (Z.to_nat (i + 1)) with (S (Z.to_nat i)) by lia.
Qed.

Section cat.
Context `{Arch} `{BlockDev} `{ShellView D} (load_fuel : nat) (lo hi : Z) (stack : str) (chunk n : Z) (y : vfs_node_t) (x : tmpfs_file_t).
#[local] Instance shell_code : FsCode := kernel_fs_code load_fuel.

(** The node [n] is the memory file [x] with the bytes [l]. *)
Definition shows_file (l : str) (s : fsys) : Prop :=
  tmpfs_ok lo hi s ∧ vnodes s !! n = Some y ∧ read y = Some tmpfs_read_fn ∧ tfiles s !! fs_data y = Some x ∧
  content (mem (fheap s)) x = l.

Lemma shows_length l s : shows_file l s → Z.of_nat (length l) = fsize x ∧ 0 ≤ fsize x < 2 ^ 32.
Proof.
  intros ((_ & _ & _ & Hf & _) & _ & _ & Ex & <-). destruct (Hf _ _ Ex) as [Hs _].
  split; [|done]. unfold content. rewrite length_fmap, length_seqZ. lia.
Qed.

(** Memory within [chunk] changed. *)
Definition scratch (s s' : fsys) : Prop :=
  ∃ m, s' = with_fheap (with_mem (fheap s) m) s ∧ mem_ok m ∧ ∀ a, a < chunk ∨ chunk + 64 ≤ a → ld m a = ld (mem (fheap s)) a.

Lemma scratch_refl s : mem_ok (mem (fheap s)) → scratch s s.
Proof. exists (mem (fheap s)). split; [by destruct s as [? ? ? ? ? ? [] ? ?]|done]. Qed.

Lemma scratch_trans s1 s2 s3 : scratch s1 s2 → scratch s2 s3 → scratch s1 s3.
Proof.
  intros (m2 & -> & _ & A) (m3 & -> & Hm & B). exists m3. split; [done|]. split; [done|]. intros a Ha. rewrite B by done. by apply A.
Qed.

Lemma shows_scratch l s s' : shows_file l s → clear_of s chunk 64 → scratch s s' → shows_file l s' ∧ clear_of s' chunk 64.
Proof.
  intros (Hok & En & Er & Ex & El) Ha (m & -> & Hm & Hk). split; [|by apply clear_with_fheap].
  destruct (tmpfs_ok_heap lo hi s (with_mem (fheap s) m)) as [Hok' [_ Hk2]].
  - done.
  - apply sep_with_mem; [done|apply Hok].
  - by eapply clear_kept.
  - split_and!; try done. rewrite <- El. by apply (Hk2 _ _ ltac:(done) Ex).
Qed.

(** One read: the next 63 bytes at most, terminated, in [chunk]. *)
Lemma cat_step l s off : shows_file l s → Forall (λ c, c ≠ 0) l → 0 < n → 0 ≤ off ≤ fsize x → clear_of s chunk 64 →
  let piece := take 63 (drop (Z.to_nat off) l) in
  let k := Z.of_nat (length piece) in
  ∃ s', vfs_read n off 63 chunk s = Ok (k, s') ∧
    let m := st (chunk + k) 0 (mem (fheap s')) in
    scratch s s' ∧ scratch s (with_fheap (with_mem (fheap s') m) s') ∧ until_nul (load_bytes 64 chunk m) = piece.
Proof.
  intros Hfile Hl Hn Hoff Hchunk piece k. destruct (shows_length l s Hfile) as [Hlen Hsz].
  destruct Hfile as (Hok & En & Er & Ex & El). pose proof Hok as (_ & (_ & Hmem & _) & _ & _ & _).
  assert (clear_of s chunk 63) as Hchunk' by (apply (clear_of_sub s chunk 64); [done|lia..]).
  destruct (tmpfs_read_cases lo hi s n y x off 63 chunk Hok En Ex ltac:(lia) ltac:(lia) ltac:(lia) Hchunk') as (s' & E & Ev & _ & Ef & Hld).
  assert (Z.max 0 (Z.min 63 (fsize x - off)) = k) as Ek.
  { unfold k, piece. rewrite length_take, length_drop. lia. }
  rewrite Ek in *. assert (0 ≤ k ≤ 63) as Hk by lia.
  destruct (tmpfs_read_mem n off 63 chunk s k s' Hmem E) as (m1 & -> & Hm1).
  cbn [fheap with_fheap mem with_mem] in Hld.
  exists (with_fheap (with_mem (fheap s) m1) s). split; [|split; [|split]].
  - unfold vfs_read, node. rewrite (proj2 (Z.eqb_neq n 0)), En by lia. cbn. rewrite Er. exact E.
  - exists m1. split; [done|]. split; [done|]. intros a Ha. rewrite Hld. by rewrite decide_False by lia.
  - eexists. split; [reflexivity|]. split; [by apply mem_ok_st|]. intros a Ha. cbn [fheap with_fheap mem with_mem].
    rewrite ld_st_ne, Hld by lia. by rewrite decide_False by lia.
  - apply until_nul_cstr; [|fold k; lia]. apply cstr_bytes.
    + unfold piece. by apply Forall_take, Forall_drop.
    + fold k. intros i Hi. cbn [fheap with_fheap mem with_mem]. rewrite ld_st_ne, Hld, decide_True by lia.
      unfold piece, rd. rewrite lookup_take_lt, lookup_drop by lia. rewrite <- El. unfold content.
      rewrite list_lookup_fmap, lookup_seqZ_lt by lia. cbn. f_equal. lia.
    + by rewrite ld_st_eq.
Qed.

Lemma cat_loop_shown l : ∀ fuel d off, shows_file l (files d) → Forall (λ c, c ≠ 0) l → 0 < n → 0 ≤ off ≤ fsize x →
  clear_of (files d) chunk 64 → fsize x - off ≤ 63 * (Z.of_nat fuel - 1) →
  ∃ d', cat_loop chunk fuel n off d = Ok d' ∧ shown d' = shown d ++ drop (Z.to_nat off) l ∧ typed d' = typed d ∧
    scratch (files d) (files d').
Proof.
  induction fuel as [|fuel IH]; intros d off Hfile Hl Hn Hoff Hchunk Hfuel; [lia|]. cbn [cat_loop].
  destruct (shows_length l _ Hfile) as [Hlen Hsz].
  destruct (cat_step l (files d) off Hfile Hl Hn Hoff Hchunk) as (s' & -> & Hs1 & Hs2 & Epiece).
  cbn [mbind outcome_bind]. set (piece := take 63 (drop (Z.to_nat off) l)) in *. set (k := Z.of_nat (length piece)) in *.
  assert (k = Z.min 63 (fsize x - off)) as Ek by (unfold k, piece; rewrite length_take, length_drop; lia).
  destruct (Z.eqb_spec k 0) as [Hk0|Hk0].
  { exists (with_files s' d). rewrite with_shown, with_typed, files_with. split; [done|].
    rewrite drop_ge by lia. by rewrite app_nil_r. }
  destruct (shows_scratch l _ _ Hfile Hchunk Hs2) as [Hf2 Ha2].
  rewrite Epiece, wrap_small by lia. destruct (IH (klog "%s" [Str piece] (with_files (with_fheap (with_mem (fheap s')
    (st (chunk + k) 0 (mem (fheap s')))) s') d)) (off + k)) as (d' & -> & Hs & Ht & Hf); rewrite ?klog_files, ?files_with in *; try done; try lia.
  exists d'. split; [done|]. rewrite Hs, Ht, klog_shown, klog_typed, with_shown, with_typed. split; [|split; [done|by eapply scratch_trans]].
  change (format (bytes "%s") [Str piece]) with (piece ++ []). rewrite app_nil_r, <- app_assoc. f_equal.
  rewrite Z2Nat.inj_add, <- drop_drop by lia. unfold piece. rewrite <- (take_drop 63 (drop (Z.to_nat off) l)) at 3.
  f_equal. destruct (decide (k = 63)) as [E63|]; [by rewrite E63|]. rewrite !drop_drop, !drop_ge by lia. done.
Qed.

(** What the terminal and a change of the files leave alone [cat] leaves alone. *)
Lemma cat_loop_quiet {X} (I : D → X) fuel : quiet I → (∀ s d, I (with_files s d) = I d) → ∀ f off d d',
  cat_loop chunk fuel f off d = Ok d' → I d' = I d.
Proof.
  intros Hq Hw. induction fuel as [|fuel IH]; intros f off d d'; [done|]. cbn [cat_loop].
  destruct (vfs_read _ _ _ _ _) as [[k s]|?|]; cbn [mbind outcome_bind]; [|done|done]. destruct (k =? 0); [intros [= <-]; apply Hw|].
  intros E%IH. by rewrite E, (quiet_klog I), Hw.
Qed.

Lemma cmd_cat_quiet {X} (I : D → X) fuel path d d' : quiet I → (∀ s d, I (with_files s d) = I d) →
  cmd_cat stack chunk fuel path d = Ok d' → I d' = I d.
Proof.
  intros Hq Hw. unfold cmd_cat. destruct path as [path|]; [|intros [= <-]; by apply quiet_klog].
  destruct (vfs_open _ _ _ _) as [[f s]|?|]; cbn [mbind outcome_bind]; [|done|done].
  destruct (_ || _); [intros [= <-]; by rewrite (quiet_klog I), Hw|].
  destruct (cat_loop _ _ _ _ _) as [d1|?|] eqn:E; cbn [mbind outcome_bind]; [|done|done].
  destruct (vfs_close _ _) as [s1|?|]; cbn [mbind outcome_bind]; [|done|done]. intros [= <-].
  by rewrite Hw, (cat_loop_quiet I fuel Hq Hw _ _ _ _ E), Hw.
Qed.
End cat.

(** ** The properties *)

Definition commands : list str :=
  bytes <$> ["help"; "ls"; "cat"; "echo"; "clear"; "ps"; "mem"; "uptime"; "reboot"; "ifconfig"; "netpoll"]%string.

Lemma dispatch_unknown `{Arch} `{ShellView D} `{!FsCode} stack chunk fuel cmd ws d : cmd ∉ commands →
  dispatch stack chunk fuel (cmd :: ws) d = Ok (false, klog "%s: command not found
" [Str cmd] d).
Proof.
  unfold commands. cbn [fmap list_fmap]. rewrite !not_elem_of_cons. intros Hn. unfold dispatch.
  rewrite !bool_decide_false by tauto. done.
Qed.


(** [cat] on a path that opens to a file of tmpfs without zero bytes prints
    exactly its bytes, in pieces of 63, and terminates with the file system as it
    was but for the bytes of [chunk], which no object has; on a path that opens to nothing or to a directory it prints a message. *)
Theorem shell_cat_prints `{Arch} `{BlockDev} `{ShellView D} (load_fuel fuel : nat) (lo hi : Z) (stack path : str) (chunk n : Z)
    (y : vfs_node_t) (x : tmpfs_file_t) (l : str) (d : D) :
  let C := kernel_fs_code load_fuel in
  vfs_open stack (Some path) 0 (files d) = Ok (n, files d) → close y = None →
  clear_of (files d) chunk 64 → fsize x ≤ 63 * (Z.of_nat fuel - 1) →
  (shows_file lo hi n y x l (files d) → 0 < n → Forall (λ c, c ≠ 0) l → Z.land (flags y) VFS_FILE ≠ 0 →
     ∃ d', cmd_cat stack chunk fuel (Some path) d = Ok d' ∧ shown d' = shown d ++ l ∧ typed d' = typed d ∧
       scratch chunk (files d) (files d')) ∧
  (n = 0 ∨ Z.land (flags (node (files d) n)) VFS_FILE = 0 →
     ∃ d', cmd_cat stack chunk fuel (Some path) d = Ok d' ∧ shown d' = shown d ++ bytes "cat: not found: " ++ path ++ [10]).
Proof.
  intros C Eo Hc Hchunk Hfuel. change C with (shell_code load_fuel) in *. unfold cmd_cat. rewrite Eo. cbn [mbind outcome_bind]. split.
  - intros Hfile Hn Hl Hfl. pose proof Hfile as (_ & En & _).
    assert (node (files d) n = y) as -> by (unfold node; by rewrite En).
    rewrite (proj2 (Z.eqb_neq n 0)), (proj2 (Z.eqb_neq _ 0)) by (done || lia). cbn [orb].
    destruct (shows_length lo hi n y x l _ Hfile) as [_ Hsz].
    destruct (cat_loop_shown load_fuel lo hi chunk n y x l fuel (with_files (files d) d) 0) as (d' & -> & Hs & Ht & Hf');
      rewrite ?files_with; try done; try lia.
    cbn [mbind outcome_bind]. rewrite files_with in Hf'.
    destruct (shows_scratch lo hi chunk n y x l _ _ Hfile Hchunk Hf') as [(_ & En' & _) _].
    assert (node (files d') n = y) as En'' by (unfold node; by rewrite En').
    unfold vfs_close. rewrite (proj2 (Z.eqb_neq n 0)), En'', Hc by lia. cbn [mbind outcome_bind].
    exists (with_files (files d') d'). rewrite with_shown, with_typed, files_with, Hs, Ht, with_shown, with_typed. done.
  - intros Hbad. assert ((n =? 0) || (Z.land (flags (node (files d) n)) VFS_FILE =? 0) = true) as ->.
    { apply orb_true_iff. destruct Hbad as [-> | ->]; [by left|by right]. }
    eexists. split; [reflexivity|]. rewrite klog_shown, with_shown. f_equal.
Qed.

(** A machine with a script of keys, a transcript, and files. *)
Record machine := Machine { m_keys : list (option key_event_t); m_out : list Z; m_files : fsys }.

#[export] Instance machine_terminal : Terminal machine := {|
  term_poll d := match m_keys d with o :: l => (o, Machine l (m_out d) (m_files d)) | [] => (None, d) end;
  term_putc c d := Machine (m_keys d) (m_out d ++ [c]) (m_files d);
  term_serial _ d := d; term_color _ _ d := d; term_clear d := d
|}.
#[export] Instance machine_print : Kprint machine := λ l d, Machine (m_keys d) (m_out d ++ l) (m_files d).
#[export] Instance machine_files : Files machine := {|
  files := m_files; with_files s d := Machine (m_keys d) (m_out d) s
|}.
#[export] Instance machine_kernel : ShellKernel machine := {|
  sched_yield_ d := d;
  thread_current_ _ := None; pmm_total_ _ := 0; pmm_used_ _ := 0; pmm_available_ _ := 0; pit_ticks_ _ := 0;
  net_up_ _ := false; net_get_mac_ _ := []; net_our_ip_ _ := 0; net_poll_ d := d; outb_ _ _ d := d
|}.
#[export] Program Instance machine_view : TerminalView machine := {| typed := m_keys; shown := m_out |}.
Next Obligation. intros [k o f] e l E. cbn in *. by subst. Qed.
Next Obligation. intros [[] ? ?]; done. Qed.
Solve All Obligations with done.
#[export] Program Instance machine_files_view : FilesView machine.
Solve All Obligations with first [done | by intros [[] ? ?]].
#[export] Program Instance machine_shell : ShellView machine.
Solve All Obligations with done.


Lemma demo_mounted_ok : tmpfs_ok (H := X86) 0x400000 0x410000 demo_mounted.
Proof.
  assert (∀ s ms r, tmpfs_ok (H := X86) 0x400000 0x410000 s → tmpfs_ok (H := X86) 0x400000 0x410000 (with_mounts ms r s))
    as Hm by done.
  unfold demo_mounted, vfs_mount. generalize demo_fs2, demo_fs2_ok. intros s Hs.
  repeat case_match; repeat apply Hm; done.
Qed.

(** [cat /a], and [cat /b]. *)
Lemma shell_cat_prints_witness :
  let _ : Arch := X86 in let _ : BlockDev := λ _ b, b in let C := kernel_fs_code 0 in
  let d := Machine [] [] demo_mounted in
  (∃ d', cmd_cat [] 0x500000 2 (Some (bytes "/a")) d = Ok d' ∧ m_out d' = [72; 105]) ∧
  (∃ d', cmd_cat [] 0x500000 2 (Some (bytes "/b")) d = Ok d' ∧ m_out d' = bytes "cat: not found: /b" ++ [10]).
Proof.
  intros HA HB C d. split.
  - destruct (shell_cat_prints 0 2 0x400000 0x410000 [] (bytes "/a") 0x500000 demo_file demo_file_node demo_file_obj [72; 105] d)
      as [Hcat _].
    + vm_compute. reflexivity.
    + reflexivity.
    + apply (outside_clear 0x400000 0x410000); [exact demo_mounted_ok|lia].
    + vm_compute. done.
    + destruct Hcat as (d' & E & Hs & _).
      * split; [exact demo_mounted_ok|]. vm_compute. done.
      * vm_compute. done.
      * repeat constructor; done.
      * vm_compute. done.
      * exists d'. split; [exact E|exact Hs].
  - destruct (shell_cat_prints 0 2 0x400000 0x410000 [] (bytes "/b") 0x500000 0 node_0 demo_file_obj [] d) as [_ Hcat].
    + vm_compute. reflexivity.
    + reflexivity.
    + apply (outside_clear 0x400000 0x410000); [exact demo_mounted_ok|lia].
    + vm_compute. done.
    + destruct Hcat as (d' & E & Hs); [by left|]. exists d'. split; [exact E|exact Hs].
Defined.
