(* ===== verification/Setup.v ===== *)
(** The first-boot setup: src/userspace/setup/setup.c.

    The line reader is the one of Shell.v with the limit of this file's buffer.
    The static [hostname] and the literal written to os-release are at addresses
    of the memory the file system copies from. *)
From S2P Require Import Prelude CString Heap Alloc Vfs Tmpfs Fat32 Fs Tree Printf Input Console Shell.

Definition LOGO : list string := [
  " ___  ___  ___  ___  ___  ___  _    ";
  "| . || __||  _|| . || __|| __|| |   ";
  "|   || _| | |_ | | || _| | _| | |__";
  "|_|_||___||___||___||___||___||____|";
  "          Aerogel  OS  v0.1.0       " ]%string.

Definition OS_RELEASE : list Z := bytes "NAME=AerogelOS" ++ [10] ++ bytes "VERSION=0.1.0" ++ [10].

(** The bytes [strncpy(dst, src, n)] writes for a source string: all [n] of a
    longer one, and one more than [n] otherwise. *)
Definition strncpy_bytes (n : nat) (src : str) : list Z :=
  if decide (length src < n)%nat then src ++ replicate (n - length src + 1) 0 else take n src.

Section setup.
Context `{Arch} `{Terminal D} `{Kprint D} `{Files D} `{FsCode}.
Context (hlt : D → D) (stack : str) (hostname_at osrel_at : Z).

(** The buffer and [readln_len]. *)
Definition readln (fuel : nat) (d : D) : outcome (list Z * Z * D) :=
  read_loop 63 term_putc hlt fuel (replicate 64 0) 0 d.

Definition setup_needed (d : D) : outcome (bool * D) :=
  '(f, fs) ← vfs_open stack (Some (bytes "/etc/hostname")) 0 (files d);
  let d := with_files fs d in
  if negb (f =? 0) then
    fs ← vfs_close f (files d);
    Ok (false, with_files fs d)
  else Ok (true, d).

(** The string in [hostname]. *)
Definition hostname_str (s : fsys) : str := until_nul (load_bytes 64 hostname_at (mem (fheap s))).

(** The directories [setup_run] makes; the node of [etc]. *)
Definition setup_dirs (root : Z) (s : fsys) : outcome (Z * fsys) :=
  '(etc, s) ← vfs_finddir root (bytes "etc") s;
  '(etc, s) ← (if etc =? 0 then tmpfs_mkdir root (bytes "etc") s else Ok (etc, s));
  '(_, s) ← tmpfs_mkdir root (bytes "home") s;
  '(_, s) ← tmpfs_mkdir root (bytes "proc") s;
  Ok (etc, s).

(** The part of [setup_run] between its two messages. *)
Definition setup_files (s : fsys) : outcome fsys :=
  '(root, s) ← vfs_open stack (Some (bytes "/")) 0 s;
  if root =? 0 then Ok s else
  '(etc, s) ← setup_dirs root s;
  let hn_len := u32 (Z.of_nat (length (hostname_str s))) in
  '(_, s) ← tmpfs_mkfile etc (bytes "hostname") hostname_at hn_len s;
  '(_, s) ← tmpfs_mkfile etc (bytes "os-release") osrel_at 30 s;
  Ok s.

(** The banner, up to the prompt. *)
Definition setup_banner (d : D) : D :=
  let d := term_clear d in
  let d := term_color VGA_LIGHT_CYAN VGA_BLACK d in
  let d := foldl (λ d l, klog "%s
" [Str (bytes l)] d) d LOGO in
  let d := term_color VGA_WHITE VGA_BLACK d in
  let d := klog "
          Welcome to Aerogel OS — First Boot Setup
" [] d in
  let d := term_color VGA_LIGHT_GRAY VGA_BLACK d in
  let d := klog "--------------------------------------------------------

" [] d in
  let d := term_color VGA_YELLOW VGA_BLACK d in
  let d := klog "Hostname: " [] d in
  term_color VGA_WHITE VGA_BLACK d.

(** [strncpy] into [hostname]. *)
Definition set_hostname (nm : str) (s : fsys) : fsys :=
  with_fheap (with_mem (fheap s) (store_bytes hostname_at (strncpy_bytes 63 nm) (mem (fheap s)))) s.

Definition setup_run (fuel : nat) (d : D) : outcome D :=
  let d := setup_banner d in
  '(b, n, d) ← readln fuel d;
  let d := with_files (set_hostname (if 0 <? n then until_nul b else bytes "aerogel") (files d)) d in
  let d := term_color VGA_LIGHT_GRAY VGA_BLACK d in
  let d := klog "
Setting up filesystem...
" [] d in
  s ← setup_files (files d);
  let d := with_files s d in
  let d := term_color VGA_LIGHT_GREEN VGA_BLACK d in
  let d := klog "
Setup complete. Hostname: %s
" [Str (hostname_str (files d))] d in
  let d := term_color VGA_LIGHT_GRAY VGA_BLACK d in
  let d := klog "Press Enter to continue...
" [] d in
  '(_, _, d) ← readln fuel d;
  Ok (term_clear d).
End setup.

(** ** The files it makes *)

Lemma load_bytes_ext n p m m' : (∀ a, p ≤ a < p + n → ld m' a = ld m a) → load_bytes n p m' = load_bytes n p m.
Proof. intros E. unfold load_bytes. apply list_fmap_ext. intros j i [-> Hi]%lookup_seqZ. apply E. lia. Qed.

Lemma until_nul_take l : until_nul l = take (length (until_nul l)) l.
Proof. induction l as [|c l IH]; [done|]. cbn [until_nul]. destruct (c =? 0); [done|]. cbn [length take]. by rewrite <- IH. Qed.

Lemma load_bytes_take k n p m : 0 ≤ k ≤ n → load_bytes k p m = take (Z.to_nat k) (load_bytes n p m).
Proof.
  intros Hk. unfold load_bytes. rewrite <- fmap_take. f_equal. apply list_eq. intros i.
  destruct (decide (i < Z.to_nat k)%nat) as [Hi|Hi].
  - rewrite lookup_take_lt, !lookup_seqZ_lt by lia. done.
  - rewrite lookup_seqZ_ge by lia. rewrite lookup_take_ge by lia. done.
Qed.

(** The string's own bytes. *)
Lemma load_string n p m : 0 ≤ n → let l := until_nul (load_bytes n p m) in load_bytes (Z.of_nat (length l)) p m = l.
Proof.
  intros Hn l. assert (Z.of_nat (length l) ≤ n) as Hl.
  { unfold l. rewrite until_nul_take, length_take. unfold load_bytes. rewrite length_fmap, length_seqZ. lia. }
  rewrite (load_bytes_take _ n) by lia. rewrite Nat2Z.id. unfold l at 2. by rewrite until_nul_take.
Qed.

Definition etc_name : str := bytes "etc".
Definition hostname_name : str := bytes "hostname".
Definition release_name : str := bytes "os-release".

Lemma hostname_components : Forall component [etc_name; hostname_name].
Proof. repeat apply Forall_cons_2; [..|apply Forall_nil_2]; unfold component; apply (bool_decide_unpack _); by vm_compute. Qed.

(** The root is a directory in which [etc], if there, is a directory of its own
    without the two files. *)
Definition before_setup (r : Z) (t : tree) : Prop :=
  ∃ es, t !! r = Some (Directory es) ∧
    ∀ e, es !! etc_name = Some e → e ≠ r ∧
      ∃ ees, t !! e = Some (Directory ees) ∧ ees !! hostname_name = None ∧ ees !! release_name = None.

(** [etc] is there and has the two files. *)
Definition after_setup (r : Z) (nm release : list Z) (t : tree) : Prop :=
  ∃ etc n k, has_entry t r etc_name etc ∧ has_entry t etc hostname_name n ∧ t !! n = Some (RegularFile nm) ∧
    has_entry t etc release_name k ∧ t !! k = Some (RegularFile release).

(** The root and an [etc] of its own without the files. *)
Definition etc_ready (r etc : Z) (t : tree) : Prop :=
  has_entry t r etc_name etc ∧ etc ≠ r ∧
  ∃ ees, t !! etc = Some (Directory ees) ∧ ees !! hostname_name = None ∧ ees !! release_name = None.

(** A new entry of the root changes nothing of that. *)
Lemma etc_ready_mkdir r etc t n nm o : etc_ready r etc t → t !! n = None → etc_ready r etc (add_object r nm n o t).
Proof.
  intros (Hent & Hne & ees & Eetc & Eh) Hn. pose proof Hent as (es & Er & _).
  split; [by apply (add_object_entry _ _ _ _ _ es)|]. split; [done|]. exists ees. split; [|done].
  by apply (add_object_other _ _ _ _ _ es).
Qed.

Section files_made.
Context `{Arch} `{BlockDev} (load_fuel : nat) (lo hi : Z) (stack : str) (hostname_at osrel_at : Z).
#[local] Instance setup_code : FsCode := kernel_fs_code load_fuel.

(** The statics lie outside of the heap. *)
Definition statics_ok : Prop :=
  (hostname_at + 64 ≤ lo ∨ hi ≤ hostname_at) ∧ hostname_at ≠ 0 ∧ (osrel_at + 30 ≤ lo ∨ hi ≤ osrel_at) ∧ osrel_at ≠ 0 ∧
  (osrel_at + 30 ≤ hostname_at ∨ hostname_at + 64 ≤ osrel_at).

(** The tree of the state, and the memory that is not the heap's. *)
Definition stage (s0 s : fsys) (r : Z) (t : tree) : Prop :=
  represents lo hi s t ∧ vfs_root s = r ∧ outside lo hi (mem (fheap s0)) (mem (fheap s)).

Lemma stage_mkdir s0 s r t nm : stage s0 s r t → (∃ es, t !! r = Some (Directory es)) →
  match tmpfs_mkdir r nm s with
  | Ok (n, s') => t !! n = None ∧ stage s0 s' r (add_object r nm n (Directory ∅) t)
  | x => x = oom
  end.
Proof.
  intros (Hr & Eroot & Hout) [es Er]. pose proof (mkdir_refines lo hi s t r es nm Hr Er) as Hm.
  destruct (tmpfs_mkdir r nm s) as [[n s']|?|]; [|done|done]. destruct Hm as (Hn & Hr' & Eroot' & Hout').
  split; [done|]. split; [done|]. split; [congruence|]. by eapply outside_trans.
Qed.

Lemma stage_mkfile s0 s r t p es nm src sz : stage s0 s r t → t !! p = Some (Directory es) →
  0 ≤ sz → sz + 7 < 2 ^ 32 → src ≠ 0 → src + sz ≤ lo ∨ hi ≤ src →
  match tmpfs_mkfile p nm src sz s with
  | Ok (n, s') => t !! n = None ∧
      stage s0 s' r (add_object p nm n (RegularFile (load_bytes sz src (mem (fheap s0)))) t)
  | x => x = oom
  end.
Proof.
  intros (Hr & Eroot & Hout) Ep H0' H7 Hs0 Hsrc.
  pose proof (mkfile_refines lo hi s t p es nm src sz Hr Ep H0' H7 Hs0 Hsrc) as Hm.
  destruct (tmpfs_mkfile p nm src sz s) as [[n s']|?|]; [|done|done]. destruct Hm as (Hn & Hr' & Eroot' & Hout').
  assert (load_bytes sz src (mem (fheap s)) = load_bytes sz src (mem (fheap s0))) as E.
  { apply load_bytes_ext. intros a Ha. apply Hout. lia. }
  rewrite E in Hr'. split; [done|]. split; [done|]. split; [congruence|]. by eapply outside_trans.
Qed.

(** The steps up to the files: [etc] is there or is made. *)
Lemma setup_dirs_spec s0 s r t : stage s0 s r t → before_setup r t →
  match setup_dirs r s with
  | Ok (etc, s') => ∃ t', stage s0 s' r t' ∧ etc_ready r etc t'
  | x => x = oom
  end.
Proof.
  intros Hst (es & Er & Hetc). pose proof Hst as (Hr & _ & _). unfold setup_dirs, setup_code.
  rewrite (represents_finddir load_fuel lo hi s t r es (bytes "etc") Hr Er). cbn [mbind outcome_bind].
  assert (∀ etc s t, stage s0 s r t → etc_ready r etc t →
    match ('(_, s) ← tmpfs_mkdir r (bytes "home") s; '(_, s) ← tmpfs_mkdir r (bytes "proc") s; Ok (etc, s)) with
    | Ok (etc, s') => ∃ t', stage s0 s' r t' ∧ etc_ready r etc t' | x => x = oom end) as Hrest.
  { clear s t es Er Hetc Hst Hr. intros etc s t Hst Hready. pose proof Hready as ((es & Er & _) & _).
    pose proof (stage_mkdir s0 s r t (bytes "home") Hst (ex_intro _ es Er)) as Hm.
    destruct (tmpfs_mkdir r (bytes "home") s) as [[n s1]|?|]; cbn [mbind outcome_bind]; [|by injection Hm as ->|done].
    destruct Hm as [Hn Hst1]. pose proof (etc_ready_mkdir r etc t n (bytes "home") (Directory ∅) Hready Hn) as Hready1.
    pose proof Hready1 as ((es1 & Er1 & _) & _).
    pose proof (stage_mkdir s0 s1 r _ (bytes "proc") Hst1 (ex_intro _ es1 Er1)) as Hm.
    destruct (tmpfs_mkdir r (bytes "proc") s1) as [[k s2]|?|]; cbn [mbind outcome_bind]; [|by injection Hm as ->|done].
    destruct Hm as [Hk Hst2]. eexists. split; [exact Hst2|]. by apply etc_ready_mkdir. }
  unfold tchild. rewrite Er. change (bytes "etc") with etc_name. destruct (es !! etc_name) as [e|] eqn:Ee; cbn [default from_option id].
  - destruct (represents_entry lo hi s t r es etc_name e Hr Er Ee) as [Hpos _]. rewrite (proj2 (Z.eqb_neq e 0)) by lia.
    cbn [mbind outcome_bind]. apply (Hrest e s t Hst). destruct (Hetc e eq_refl) as (Hne & ees & A & B).
    split; [by exists es|]. split; [done|]. by exists ees.
  - cbn [Z.eqb]. pose proof (stage_mkdir s0 s r t etc_name Hst (ex_intro _ es Er)) as Hm.
    destruct (tmpfs_mkdir r etc_name s) as [[n s1]|?|]; cbn [mbind outcome_bind]; [|by injection Hm as ->|done].
    destruct Hm as [Hn Hst1]. apply (Hrest n s1 _ Hst1).
    destruct (add_object_new r etc_name n (Directory ∅) t es Er Hn) as (A & B & _); [vm_compute; lia|done|].
    split; [done|]. split; [congruence|]. exists ∅. by rewrite !lookup_empty.
Qed.

Lemma setup_files_spec s t r : represents lo hi s t → vfs_root s = r → before_setup r t → statics_ok →
  match setup_files stack hostname_at osrel_at s with
  | Ok s' => ∃ t', stage s s' r t' ∧
      after_setup r (hostname_str hostname_at s) (load_bytes 30 osrel_at (mem (fheap s))) t'
  | x => x = oom
  end.
Proof.
  intros Hr Eroot Hbefore (Hh & Hh0 & Ho & Ho0 & _). pose proof Hbefore as (es & Er & _). unfold setup_files, setup_code.
  rewrite (represents_open load_fuel lo hi s t stack [] 0 Hr) by (done || (rewrite Eroot; eauto)).
  cbn [mbind outcome_bind lookup_path]. rewrite Eroot.
  destruct (represents_node lo hi s t r _ Hr Er) as [_ Hpos]. rewrite (proj2 (Z.eqb_neq r 0)) by lia.
  assert (stage s s r t) as Hst by (split; [done|]; split; [done|]; by intros a _).
  pose proof (setup_dirs_spec s s r t Hst Hbefore) as Hd. unfold setup_code in Hd.
  destruct (setup_dirs r s) as [[etc s1]|?|]; cbn [mbind outcome_bind]; [|by injection Hd as ->|done].
  destruct Hd as (t1 & Hst1 & Hent & Hne & ees & Eetc & Eh & Erl). pose proof Hent as (es1 & Er1 & Ee1).
  set (nm := hostname_str hostname_at s). pose proof Hst1 as (_ & _ & Hout1).
  assert (hostname_str hostname_at s1 = nm) as ->.
  { unfold nm, hostname_str. f_equal. apply load_bytes_ext. intros a Ha. apply Hout1. lia. }
  assert (0 ≤ Z.of_nat (length nm) ≤ 64) as Hlen.
  { unfold nm, hostname_str. rewrite until_nul_take, length_take. unfold load_bytes. rewrite length_fmap, length_seqZ. lia. }
  rewrite wrap_small by lia.
  pose proof (stage_mkfile s s1 r t1 etc ees (bytes "hostname") hostname_at (Z.of_nat (length nm)) Hst1 Eetc
    ltac:(lia) ltac:(lia) Hh0 ltac:(lia)) as Hm.
  destruct (tmpfs_mkfile etc (bytes "hostname") _ _ s1) as [[n s2]|?|]; cbn [mbind outcome_bind]; [|by injection Hm as ->|done].
  destruct Hm as [Hn Hst2]. pose proof (load_string 64 hostname_at (mem (fheap s)) ltac:(lia)) as El. cbv zeta in El.
  change (until_nul (load_bytes 64 hostname_at (mem (fheap s)))) with nm in El. rewrite El in Hst2. change (bytes "hostname") with hostname_name in *.
  destruct (add_object_new etc hostname_name n (RegularFile nm) t1 ees Eetc Hn) as (A1 & A2 & A3); [vm_compute; lia|done|].
  set (t2 := add_object etc hostname_name n _ t1) in *.
  pose proof (stage_mkfile s s2 r t2 etc _ (bytes "os-release") osrel_at 30 Hst2 A3 ltac:(lia) ltac:(lia) Ho0 ltac:(lia)) as Hm.
  destruct (tmpfs_mkfile etc (bytes "os-release") _ _ s2) as [[k s3]|?|]; cbn [mbind outcome_bind]; [|by injection Hm as ->|done].
  destruct Hm as [Hk Hst3]. exists (add_object etc (bytes "os-release") k (RegularFile (load_bytes 30 osrel_at (mem (fheap s)))) t2).
  split; [exact Hst3|]. exists etc, n, k. change (bytes "os-release") with release_name.
  destruct (add_object_new etc release_name k (RegularFile (load_bytes 30 osrel_at (mem (fheap s)))) t2 _ A3 Hk) as (B1 & B2 & _);
    [vm_compute; lia|by rewrite lookup_insert_ne|].
  split; [|split; [|split; [|by split]]].
  - apply (add_object_entry _ _ _ _ _ _ r etc_name etc A3 Hk). by apply (add_object_entry _ _ _ _ _ ees).
  - by apply (add_object_entry _ _ _ _ _ _ etc hostname_name n A3 Hk).
  - apply (add_object_other _ _ _ _ _ _ n _ A3 Hk); [congruence|exact A2].
Qed.

(** [/etc/hostname] leads to the file. *)
Lemma after_setup_open s t r nm rel : represents lo hi s t → vfs_root s = r → after_setup r nm rel t →
  ∃ n, vfs_open stack (Some (bytes "/etc/hostname")) 0 s = Ok (n, s) ∧ 0 < n ∧ t !! n = Some (RegularFile nm).
Proof.
  intros Hr Eroot (etc & n & k & He & Hn & En & _). exists n.
  assert (is_Some (t !! vfs_root s)) as Hroot by (rewrite Eroot; destruct He as (? & -> & _); eauto).
  change (bytes "/etc/hostname") with (47 :: join [etc_name; hostname_name]). unfold setup_code.
  rewrite (represents_open load_fuel lo hi s t stack [etc_name; hostname_name] 0 Hr Hroot); [|apply hostname_components|done].
  cbn [lookup_path mbind outcome_bind]. rewrite Eroot, (has_entry_child t r etc_name etc He).
  pose proof Hn as (ees & Eetc & _). destruct (represents_node lo hi s t etc _ Hr Eetc) as [_ Hpos].
  destruct (represents_node lo hi s t n _ Hr En) as [_ Hpos'].
  by rewrite (proj2 (Z.eqb_neq etc 0)), (has_entry_child t etc hostname_name n Hn), !(proj2 (Z.eqb_neq n 0)) by lia.
Qed.

Lemma after_setup_needed `{FilesView D} s t r nm rel (d : D) : represents lo hi s t → vfs_root s = r → after_setup r nm rel t →
  files d = s → ∃ d', setup_needed stack d = Ok (false, d') ∧ files d' = s.
Proof.
  intros Hr Eroot Ha Ed. destruct (after_setup_open s t r nm rel Hr Eroot Ha) as (n & E & Hn & En).
  unfold setup_needed. rewrite Ed, E. cbn [mbind outcome_bind]. rewrite (proj2 (Z.eqb_neq n 0)) by lia. cbn [negb].
  rewrite files_with. unfold setup_code. rewrite (represents_close load_fuel lo hi s t n _ Hr En) by eauto. cbn [mbind outcome_bind].
  eexists. split; [reflexivity|]. apply files_with.
Qed.
End files_made.

(** ** The whole setup *)

Section run.
Context `{Arch} `{BlockDev} `{FilesView D} (load_fuel : nat) (lo hi : Z) (stack : str) (hostname_at osrel_at : Z) (hlt : D → D).
#[local] Instance run_code : FsCode := kernel_fs_code load_fuel.

(** Waiting for an interrupt changes neither the screen nor the files, and the
    keys to come are those it may bring. *)
Context (hlt_view : ∀ d, typed (hlt d) = typed d ∧ shown (hlt d) = shown d) (hlt_files : ∀ d, files (hlt d) = files d).

(** What the terminal's operations and the wait leave alone. *)
Lemma read_loop_keeps {X} (I : D → X) limit fuel :
  (∀ c d, I (term_putc c d) = I d) → (∀ d, I (term_poll d).2 = I d) → (∀ d, I (hlt d) = I d) →
  ∀ b n d b' n' d', read_loop limit term_putc hlt fuel b n d = Ok (b', n', d') → I d' = I d.
Proof.
  intros Hc Hpoll Hh. induction fuel as [|fuel IH]; intros b n d b' n' d'; [done|]. cbn [read_loop]. pose proof (Hpoll d) as Hp.
  destruct (term_poll d) as [e d1]. cbn [snd] in Hp. destruct e as [e|].
  - repeat case_match; intros E; first [injection E as _ _ <-; by rewrite Hc | apply IH in E; rewrite ?Hc in E; congruence].
  - intros E%IH. by rewrite E, Hh.
Qed.

Lemma read_loop_files limit fuel b n d b' n' d' :
  read_loop limit term_putc hlt fuel b n d = Ok (b', n', d') → files d' = files d.
Proof. apply (read_loop_keeps files); [apply files_putc|apply files_poll|apply hlt_files]. Qed.

(** Reading a line of at most 63 characters. *)
Lemma readln_spec fuel d line echo rest : edit 63 [] (typed d) = Some (line, echo, rest) → (length (typed d) ≤ fuel)%nat →
  Forall (λ c, c ≠ 0) line →
  ∃ b d', readln hlt fuel d = Ok (b, Z.of_nat (length line), d') ∧ until_nul b = line ∧ (length line ≤ 63)%nat ∧
    typed d' = rest ∧ shown d' = shown d ++ echo ∧ files d' = files d.
Proof.
  intros He Hf Hl. unfold readln.
  destruct (read_loop_edit 63 term_putc hlt (λ c d, conj (putc_typed c d) (putc_shown c d)) hlt_view fuel (replicate 64 0) [] d line echo rest)
    as (b & d' & E & Hlb & Hb & _ & Ht & Hs); [split; [done|cbn; lia]|done|done|done|].
  change (Z.of_nat (length [])) with 0 in E. exists b, d'. rewrite E. split; [done|].
  split; [|split; [pose proof (edit_limit _ _ _ _ _ _ He ltac:(done)); lia|]].
  - rewrite <- (take_drop (S (length line)) b), Hb, <- app_assoc, until_nul_app by done. apply app_nil_r.
  - split; [done|]. split; [done|]. by eapply read_loop_files.
Qed.

Lemma setup_banner_view d : typed (setup_banner d) = typed d ∧ files (setup_banner d) = files d.
Proof.
  unfold setup_banner. term_simpl. cbn [foldl LOGO]. term_simpl. done.
Qed.

(** The host name is in the static, and nothing else changed. *)
Lemma set_hostname_spec nm s : (length nm ≤ 63)%nat → Forall (λ c, 0 < c < 256) nm → ld (mem (fheap s)) (hostname_at + 63) = 0 →
  let m := mem (fheap (set_hostname hostname_at nm s)) in
  hostname_str hostname_at (set_hostname hostname_at nm s) = nm ∧
  (∀ a, a < hostname_at ∨ hostname_at + 64 ≤ a → ld m a = ld (mem (fheap s)) a).
Proof.
  intros Hl Hc Hzero m. unfold hostname_str. fold m.
  assert (Z.of_nat (length (strncpy_bytes 63 nm)) ≤ 64 ∧
    ∀ i, 0 ≤ i < Z.of_nat (length nm) → rd (strncpy_bytes 63 nm) i = rd nm i) as [Hw Hr].
  { unfold strncpy_bytes. case_decide.
    - rewrite length_app, length_replicate. split; [lia|]. intros i Hi. unfold rd. by rewrite lookup_app_l by lia.
    - rewrite length_take. split; [lia|]. intros i Hi. unfold rd. by rewrite lookup_take_lt by lia. }
  split; [|intros a Ha; apply store_bytes_frame; lia].
  assert (ld m (hostname_at + Z.of_nat (length nm)) = 0) as Hend.
  { unfold m, set_hostname. cbn [fheap with_fheap mem with_mem]. unfold strncpy_bytes in *. case_decide.
    - rewrite store_bytes_at by (rewrite length_app, length_replicate; lia). unfold rd.
      rewrite lookup_app_r, Nat2Z.id, lookup_replicate_2 by lia. done.
    - replace (length nm) with 63%nat by lia. rewrite store_bytes_frame by (rewrite length_take; lia). exact Hzero. }
  apply until_nul_cstr; [|lia]. apply cstr_bytes; [by eapply List.Forall_impl; [|exact Hc]; cbn; lia| |exact Hend].
  intros i Hi. unfold m, set_hostname. cbn [fheap with_fheap mem with_mem].
  assert (i < Z.of_nat (length (strncpy_bytes 63 nm))) as Hi'.
  { unfold strncpy_bytes. case_decide; rewrite ?length_app, ?length_take; lia. }
  rewrite store_bytes_at, Hr by lia. apply wrap_small. unfold rd.
  destruct (lookup_lt_is_Some_2 nm (Z.to_nat i)) as [c Ec]; [lia|]. rewrite Ec.
  pose proof (proj1 (Forall_lookup _ nm) Hc _ _ Ec). cbn in *. lia.
Qed.

(** The name that is set: the typed line, or the default. *)
Definition chosen (line : str) : str := match line with [] => bytes "aerogel" | _ => line end.

Lemma chosen_ok line : (length line ≤ 63)%nat → Forall (λ c, 0 < c < 256) line →
  (length (chosen line) ≤ 63)%nat ∧ Forall (λ c, 0 < c < 256) (chosen line).
Proof.
  intros Hlen Hline. unfold chosen. destruct line; [|done]. split; [vm_compute; lia|].
  repeat apply Forall_cons_2; try apply Forall_nil_2; done.
Qed.

(** A part of the state that no operation of the setup touches. *)
Definition steady {X} (I : D → X) : Prop :=
  (∀ c d, I (term_putc c d) = I d) ∧ (∀ d, I (term_poll d).2 = I d) ∧ (∀ d, I (hlt d) = I d) ∧
  (∀ f b d, I (term_color f b d) = I d) ∧ (∀ d, I (term_clear d) = I d) ∧ (∀ l d, I (kprint l d) = I d) ∧
  ∀ s d, I (with_files s d) = I d.

Lemma setup_banner_keeps {X} (I : D → X) d : steady I → I (setup_banner d) = I d.
Proof.
  intros (_ & _ & _ & Hcol & Hcl & Hp & _). unfold setup_banner, klog. cbn [foldl LOGO]. by rewrite ?Hcol, ?Hp, ?Hcol, ?Hp, ?Hcol, ?Hp, ?Hcol, ?Hp, ?Hcol, ?Hp, ?Hcl.
Qed.

(** On its two lines of input the setup is its part on the files. *)
Lemma setup_run_files {X} (I : D → X) fuel d line echo rest line2 echo2 rest2 : steady I →
  edit 63 [] (typed d) = Some (line, echo, rest) → Forall (λ c, 0 < c < 256) line →
  edit 63 [] rest = Some (line2, echo2, rest2) → Forall (λ c, c ≠ 0) line2 →
  (length (typed d) ≤ fuel)%nat → (length rest ≤ fuel)%nat →
  (length line ≤ 63)%nat ∧ ∃ finish : fsys → D, (∀ s, files (finish s) = s ∧ typed (finish s) = rest2 ∧ I (finish s) = I d) ∧
    setup_run hlt stack hostname_at osrel_at fuel d =
      (s ← setup_files stack hostname_at osrel_at (set_hostname hostname_at (chosen line) (files d)); Ok (finish s)).
Proof.
  intros HI He Hline He2 Hline2 Hf Hf2. pose proof HI as (Ic & Ip & Ih & Icol & Icl & Ipr & Iw). unfold setup_run.
  destruct (setup_banner_view d) as [Bt Bf]. rewrite <- Bt in He, Hf.
  destruct (readln_spec fuel (setup_banner d) line echo rest He Hf) as (b & d1 & E1 & Eb & Hlen & Ht1 & _ & Hf1).
  { eapply List.Forall_impl; [|exact Hline]. cbn. lia. }
  rewrite E1. cbn [mbind outcome_bind]. rewrite Bf in Hf1. rewrite Eb. split; [done|].
  assert (I d1 = I d) as HI1 by (rewrite (read_loop_keeps I _ _ Ic Ip Ih _ _ _ _ _ _ E1); by apply setup_banner_keeps).
  assert ((if 0 <? Z.of_nat (length line) then line else bytes "aerogel") = chosen line) as -> by (by destruct line).
  rewrite klog_files, files_color, files_with, Hf1. set (d2 := klog _ _ (term_color _ _ _)).
  set (after := λ s, klog "Press Enter to continue...
" [] (term_color VGA_LIGHT_GRAY VGA_BLACK (klog "
Setup complete. Hostname: %s
" [Str (hostname_str hostname_at (files (term_color VGA_LIGHT_GREEN VGA_BLACK (with_files s d2))))]
    (term_color VGA_LIGHT_GREEN VGA_BLACK (with_files s d2))))).
  assert (typed d2 = rest ∧ I d2 = I d) as [Ht2 HI2] by (unfold d2; rewrite klog_typed, color_typed, with_typed; unfold klog; by rewrite Ipr, Icol, Iw).
  assert (∀ s, typed (after s) = rest ∧ files (after s) = s ∧ I (after s) = I d) as Hafter.
  { intros s. unfold after. split; [by term_simpl|]. split; [by term_simpl|]. unfold klog. by rewrite !Ipr, !Icol, !Ipr, !Icol, Iw. }
  exists (λ s, match readln hlt fuel (after s) with Ok (_, _, d) => term_clear d | _ => d end). split.
  - intros s. destruct (Hafter s) as (A & B & C). rewrite <- A in He2, Hf2.
    destruct (readln_spec fuel (after s) line2 echo2 rest2 He2 Hf2 Hline2) as (b2 & d3 & E3 & _ & _ & Ht3 & _ & Hf3). rewrite E3.
    rewrite files_clear, clear_typed, Icl, (read_loop_keeps I _ _ Ic Ip Ih _ _ _ _ _ _ E3). split; [congruence|]. by split.
  - destruct (setup_files _ _ _ _) as [s|?|]; cbn [mbind outcome_bind]; [|done|done].
    destruct (Hafter s) as (A & _ & _). rewrite <- A in He2, Hf2.
    destruct (readln_spec fuel (after s) line2 echo2 rest2 He2 Hf2 Hline2) as (b2 & d3 & E3 & _).
    fold (after s). rewrite E3. done.
Qed.

(** What that part makes of a file system that is a tree. *)
Lemma setup_files_named s t r line : represents lo hi s t → vfs_root s = r → before_setup r t → statics_ok lo hi hostname_at osrel_at →
  load_bytes 30 osrel_at (mem (fheap s)) = OS_RELEASE ++ [0] → ld (mem (fheap s)) (hostname_at + 63) = 0 →
  (length line ≤ 63)%nat → Forall (λ c, 0 < c < 256) line →
  or_oom (λ s', vfs_root s' = r ∧ outside lo hi (mem (fheap (set_hostname hostname_at (chosen line) s))) (mem (fheap s')) ∧
      ∃ t', represents lo hi s' t' ∧ after_setup r (chosen line) (OS_RELEASE ++ [0]) t')
    (setup_files stack hostname_at osrel_at (set_hostname hostname_at (chosen line) s)).
Proof.
  intros Hr Eroot Hbefore Hst Hrel H63 Hlen Hline. destruct (chosen_ok line Hlen Hline) as [Hnl Hnc].
  destruct (set_hostname_spec (chosen line) s Hnl Hnc H63) as [Hname Hframe].
  set (s1 := set_hostname hostname_at (chosen line) s) in *. pose proof Hst as (Hh & _ & _ & _ & Hapart).
  assert (represents lo hi s1 t) as Hr1.
  { unfold s1, set_hostname. apply represents_outside; [done| |intros a Ha; apply Hframe; lia].
    apply mem_ok_store. destruct Hr as ((_ & (_ & ? & _) & _) & _). done. }
  pose proof (setup_files_spec load_fuel lo hi stack hostname_at osrel_at s1 t r Hr1 Eroot Hbefore Hst) as Hfiles.
  change (setup_code load_fuel) with (run_code) in Hfiles.
  destruct (setup_files stack hostname_at osrel_at s1) as [s2|?|]; cbn [or_oom]; [|by injection Hfiles as ->|done].
  destruct Hfiles as (t' & (Hr2 & Eroot2 & Hout) & Hafter). rewrite Hname in Hafter.
  rewrite (load_bytes_ext 30 osrel_at (mem (fheap s)) (mem (fheap s1))) in Hafter by (intros a Ha; apply Hframe; lia).
  rewrite Hrel in Hafter. split; [congruence|]. split; [done|]. by exists t'.
Qed.
End run.
