(* ===== verification/Machine.v ===== *)
(** The state of the whole kernel: what src/kernel/kmain.c puts together.

    [console] is what the printing functions of kmain.c act on, over any machine
    [D] behind the ports; [kernel] adds the rest.  There is one memory and one
    heap, the file systems'; [k_threads] and the views below lend them to the
    components.  The frame buffer is memory of the graphics card and not part of it.
    The instances give the components what they ask of the kernel: ports, the
    current output of [kprintf], a terminal and the file systems. *)
From S2P Require Import Prelude CString Ports Interrupts Printf Input Console Framebuffer Gui Pci Usb Ata NetStack Net Pmm Vmm Heap Vfs Tmpfs Thread Sched Shell.

(** ** The console *)

Definition COLOR_BLACK : Z := RGB 0x00 0x00 0x00.

(** The function [kprintf_set_backend] was given last. *)
Inductive backend_t := NoBackend | KprintVga | KprintFb.

(** [s_log] is what the code has printed so far, for the specifications. *)
Record console (D : Type) := Con {
  s_dev : D; s_vga : vga; s_gui : gui; s_use_fb : bool; s_win : option Z; s_backend : backend_t; s_log : list Z
}.
Arguments Con {D}. Arguments s_dev {D}. Arguments s_vga {D}. Arguments s_gui {D}. Arguments s_use_fb {D}.
Arguments s_win {D}. Arguments s_backend {D}. Arguments s_log {D}.

(** A serial port that is ready again within [uart_polls] polls of its status. *)
Class Uart (D : Type) `{Ports D} := {
  uart_polls : nat;
  uart_ready : ∀ d, ∃ d', serial_wait uart_polls d = Ok d'
}.

(** The configuration mechanism of a PCI host bridge; accesses of lower ports do
    not concern it. *)
Class PciBus (D : Type) `{Ports D} := {
  pcfg : D → Z → Z;
  pcfg_read : ∀ d a, Z.testbit a 31 = true → (inl PCI_CFG_DATA (outl PCI_CFG_ADDR a d)).1 = pcfg d a;
  pcfg_same : ∀ d a, pcfg (inl PCI_CFG_DATA (outl PCI_CFG_ADDR a d)).2 = pcfg d;
  pcfg_in : ∀ p d, p < PCI_CFG_ADDR → pcfg (inb p d).2 = pcfg d;
  pcfg_out : ∀ p v d, p < PCI_CFG_ADDR → pcfg (outb p v d) = pcfg d
}.

Section console.
Context `{Uart D}.
Implicit Types s : console D.

Definition with_dev (d : D) s : console D := Con d (s_vga s) (s_gui s) (s_use_fb s) (s_win s) (s_backend s) (s_log s).
Definition with_vga (x : vga * D) s : console D := Con x.2 x.1 (s_gui s) (s_use_fb s) (s_win s) (s_backend s) (s_log s).
Definition with_gui (g : gui) s : console D := Con (s_dev s) (s_vga s) g (s_use_fb s) (s_win s) (s_backend s) (s_log s).
Definition with_fb_use (b : bool) s : console D := Con (s_dev s) (s_vga s) (s_gui s) b (s_win s) (s_backend s) (s_log s).
Definition with_win (w : option Z) s : console D := Con (s_dev s) (s_vga s) (s_gui s) (s_use_fb s) w (s_backend s) (s_log s).
Definition kprintf_set_backend (b : backend_t) s : console D := Con (s_dev s) (s_vga s) (s_gui s) (s_use_fb s) (s_win s) b (s_log s).
Definition logged (l : list Z) s : console D := Con (s_dev s) (s_vga s) (s_gui s) (s_use_fb s) (s_win s) (s_backend s) (s_log s ++ l).

(** [serial_puts] and [serial_putc], which return on such a port. *)
Definition put_serial (l : list Z) (d : D) : D := match serial_puts uart_polls l d with Ok d => d | _ => d end.

Lemma serial_putc_ok c d : ∃ d', serial_putc uart_polls c d = Ok d'.
Proof.
  unfold serial_putc. destruct (uart_ready d) as [d1 ->]. cbn [mbind outcome_bind]. case_test; cbn [mbind outcome_bind]; [|eauto].
  destruct (uart_ready (outb COM1 13 d1)) as [d2 ->]. cbn [mbind outcome_bind]. eauto.
Qed.

Lemma put_serial_ok l d : serial_puts uart_polls l d = Ok (put_serial l d).
Proof.
  assert (∃ d', serial_puts uart_polls l d = Ok d') as [d' E]; [|unfold put_serial; by rewrite E].
  revert d. induction l as [|c l IH]; intros d; cbn [serial_puts]; [eauto|].
  destruct (serial_putc_ok c d) as [d1 ->]. apply IH.
Qed.

Definition kprint_vga (l : list Z) s : console D :=
  let s := with_dev (put_serial l (s_dev s)) s in
  with_vga (vga_puts l (s_vga s, s_dev s)) s.

Definition kprint_fb (l : list Z) s : console D :=
  let s := with_dev (put_serial l (s_dev s)) s in
  match s_use_fb s, s_win s with
  | true, Some w => with_gui (gui_window_print w l COLOR_BLACK (s_gui s)) s
  | _, _ => with_vga (vga_puts l (s_vga s, s_dev s)) s
  end.

(** [kprintf] formats into 1024 bytes and hands the string in them on. *)
Definition kprintf_out (l : list Z) s : console D :=
  let l := until_nul (take 1023 l) in
  match s_backend s with
  | NoBackend => s
  | KprintVga => kprint_vga l s
  | KprintFb => kprint_fb l s
  end.

#[export] Instance console_print : Kprint (console D) := λ l s, logged l (kprintf_out l s).
#[export] Instance console_ports : Ports (console D) := {|
  inb p s := let '(v, d) := inb p (s_dev s) in (v, with_dev d s); outb p v s := with_dev (outb p v (s_dev s)) s;
  inw p s := let '(v, d) := inw p (s_dev s) in (v, with_dev d s); outw p v s := with_dev (outw p v (s_dev s)) s;
  inl p s := let '(v, d) := inl p (s_dev s) in (v, with_dev d s); outl p v s := with_dev (outl p v (s_dev s)) s
|}.
#[export] Instance console_mmio `{!Mmio D} : Mmio (console D) := {|
  mmio_rd a s := let '(v, d) := mmio_rd a (s_dev s) in (v, with_dev d s); mmio_wr a v s := with_dev (mmio_wr a v (s_dev s)) s
|}.
End console.

(** ** The kernel *)

(** The statics of the drivers behind the PCI bus and of ata.c. *)
Record drivers := Drv { d_pci : pci; d_xhci : xhci; d_bt : bool; d_card : rtl; d_iface : iface; d_ata : ata }.
Definition drivers_0 : drivers := Drv pci_0 xhci_0 false rtl_0 iface_0 ata_0.

(** [k_arrivals] are the scan codes the keyboard's interrupts bring, one batch
    before each poll of the keyboard; [k_mmu] are the control registers and the
    cached translations. *)
Record kernel (D : Type) := Kern {
  k_con : console D; k_kbd : keyboard; k_arrivals : list (list Z); k_mouse : mouse; k_pit : pit;
  k_gdt : gmap Z gdt_entry_t; k_idt : gmap Z idt_entry32_t; k_pmm : pmm; k_mmu : mmu;
  k_fs : fsys; k_thr : kthreads; k_drv : drivers
}.
Arguments Kern {D}. Arguments k_con {D}. Arguments k_kbd {D}. Arguments k_arrivals {D}. Arguments k_mouse {D}. Arguments k_pit {D}.
Arguments k_gdt {D}. Arguments k_idt {D}. Arguments k_pmm {D}. Arguments k_mmu {D}. Arguments k_fs {D}. Arguments k_thr {D}. Arguments k_drv {D}.

Section kernel.
Context {D : Type}.
Implicit Types k : kernel D.

Definition with_con (s : console D) k : kernel D :=
  Kern s (k_kbd k) (k_arrivals k) (k_mouse k) (k_pit k) (k_gdt k) (k_idt k) (k_pmm k) (k_mmu k) (k_fs k) (k_thr k) (k_drv k).
Definition with_keys (x : keyboard) (l : list (list Z)) k : kernel D :=
  Kern (k_con k) x l (k_mouse k) (k_pit k) (k_gdt k) (k_idt k) (k_pmm k) (k_mmu k) (k_fs k) (k_thr k) (k_drv k).
Definition with_mouse (x : mouse) k : kernel D :=
  Kern (k_con k) (k_kbd k) (k_arrivals k) x (k_pit k) (k_gdt k) (k_idt k) (k_pmm k) (k_mmu k) (k_fs k) (k_thr k) (k_drv k).
Definition with_pit (p : pit) k : kernel D :=
  Kern (k_con k) (k_kbd k) (k_arrivals k) (k_mouse k) p (k_gdt k) (k_idt k) (k_pmm k) (k_mmu k) (k_fs k) (k_thr k) (k_drv k).
Definition with_tables (g : gmap Z gdt_entry_t) (i : gmap Z idt_entry32_t) k : kernel D :=
  Kern (k_con k) (k_kbd k) (k_arrivals k) (k_mouse k) (k_pit k) g i (k_pmm k) (k_mmu k) (k_fs k) (k_thr k) (k_drv k).
Definition with_kpmm (p : pmm) k : kernel D :=
  Kern (k_con k) (k_kbd k) (k_arrivals k) (k_mouse k) (k_pit k) (k_gdt k) (k_idt k) p (k_mmu k) (k_fs k) (k_thr k) (k_drv k).
Definition with_kmmu (c : mmu) k : kernel D :=
  Kern (k_con k) (k_kbd k) (k_arrivals k) (k_mouse k) (k_pit k) (k_gdt k) (k_idt k) (k_pmm k) c (k_fs k) (k_thr k) (k_drv k).
Definition with_kfs (s : fsys) k : kernel D :=
  Kern (k_con k) (k_kbd k) (k_arrivals k) (k_mouse k) (k_pit k) (k_gdt k) (k_idt k) (k_pmm k) (k_mmu k) s (k_thr k) (k_drv k).
Definition with_thr (t : kthreads) k : kernel D :=
  Kern (k_con k) (k_kbd k) (k_arrivals k) (k_mouse k) (k_pit k) (k_gdt k) (k_idt k) (k_pmm k) (k_mmu k) (k_fs k) t (k_drv k).
Definition with_drv (x : drivers) k : kernel D :=
  Kern (k_con k) (k_kbd k) (k_arrivals k) (k_mouse k) (k_pit k) (k_gdt k) (k_idt k) (k_pmm k) (k_mmu k) (k_fs k) (k_thr k) x.

(** The memory, and the heap the threads share with the file systems. *)
Definition k_mem k : memory := mem (fheap (k_fs k)).
Definition with_kmem (m : memory) k : kernel D := with_kfs (with_fheap (with_mem (fheap (k_fs k)) m) (k_fs k)) k.
Definition k_threads k : kthreads := with_kheap (fheap (k_fs k)) (k_thr k).
Definition with_threads (t : kthreads) k : kernel D := with_thr t (with_kfs (with_fheap (kheap t) (k_fs k)) k).

(** The parts the page tables and the two bus drivers work on. *)
Definition k_vmm k : vmm pmm := Vmm (k_pmm k) (k_mem k) (k_mmu k).
Definition with_vmm (v : vmm pmm) k : kernel D := with_kmmu (v_mmu v) (with_kpmm (pages v) (with_kmem (pmem v) k)).
Definition k_usb k : usbsys (console D) := UsbSys (d_xhci (k_drv k)) (k_pmm k) (k_mem k) (k_con k).
Definition with_usb (u : usbsys (console D)) k : kernel D :=
  let d := k_drv k in
  with_drv (Drv (d_pci d) (uhc u) (d_bt d) (d_card d) (d_iface d) (d_ata d)) (with_kpmm (upmm u) (with_kmem (umem u) (with_con (udev u) k))).
Definition k_net k : netsys (console D) := NetSys (d_card (k_drv k)) (d_iface (k_drv k)) (k_pmm k) (k_mem k) (k_con k).
Definition with_net (n : netsys (console D)) k : kernel D :=
  let d := k_drv k in
  with_drv (Drv (d_pci d) (d_xhci d) (d_bt d) (card n) (ifc n) (d_ata d)) (with_kpmm (npmm n) (with_kmem (nmem n) (with_con (ndev n) k))).
End kernel.

Section interfaces.
Context `{Uart D}.
Implicit Types k : kernel D.

#[export] Instance kernel_ports : Ports (kernel D) := {|
  inb p k := let '(v, s) := inb p (k_con k) in (v, with_con s k); outb p v k := with_con (outb p v (k_con k)) k;
  inw p k := let '(v, s) := inw p (k_con k) in (v, with_con s k); outw p v k := with_con (outw p v (k_con k)) k;
  inl p k := let '(v, s) := inl p (k_con k) in (v, with_con s k); outl p v k := with_con (outl p v (k_con k)) k
|}.
#[export] Instance kernel_print : Kprint (kernel D) := λ l k, with_con (kprint l (k_con k)) k.

(** Before a poll of the keyboard its handler takes the bytes that have come. *)
Definition take_arrivals k : kernel D :=
  match k_arrivals k with [] => k | b :: l => with_keys (foldl (λ x c, kb_byte c x) (k_kbd k) b) l k end.

#[export] Instance kernel_terminal : Terminal (kernel D) := {|
  term_poll k := let k := take_arrivals k in let '(e, x) := keyboard_poll (k_kbd k) in (e, with_keys x (k_arrivals k) k);
  term_putc c k := with_con (logged [c] (with_vga (vga_putc c (s_vga (k_con k), s_dev (k_con k))) (k_con k))) k;
  term_serial c k := with_con (with_dev (put_serial [c] (s_dev (k_con k))) (k_con k)) k;
  term_color f b k := with_con (with_vga (vga_set_color f b (s_vga (k_con k)), s_dev (k_con k)) (k_con k)) k;
  term_clear k := with_con (with_vga (vga_clear (s_vga (k_con k), s_dev (k_con k))) (k_con k)) k
|}.
#[export] Instance kernel_files : Files (kernel D) := {| files := k_fs; with_files := with_kfs |}.

(** What the polls to come return. *)
Fixpoint polls (l : list (list Z)) (x : keyboard) : list (option key_event_t) :=
  match l with
  | [] => []
  | b :: l => let '(e, x) := keyboard_poll (foldl (λ x c, kb_byte c x) x b) in e :: polls l x
  end.

#[export] Program Instance kernel_view : TerminalView (kernel D) := {|
  typed k := polls (k_arrivals k) (k_kbd k); shown k := s_log (k_con k)
|}.
Next Obligation.
  intros k o l. cbn [term_poll kernel_terminal]. unfold take_arrivals. destruct (k_arrivals k) as [|b a]; cbn [polls]; [done|].
  cbn [k_kbd with_keys k_arrivals]. destruct (keyboard_poll _) as [e x]. intros [= <- <-]. done.
Qed.
Next Obligation.
  intros k. cbn [term_poll kernel_terminal]. unfold take_arrivals. destruct (k_arrivals k); by destruct (keyboard_poll _).
Qed.
Next Obligation. done. Qed.
Next Obligation. done. Qed.
Next Obligation. done. Qed.
Next Obligation. done. Qed.
Next Obligation. done. Qed.
Next Obligation. done. Qed.
Next Obligation. done. Qed.
Next Obligation. done. Qed.
Next Obligation. done. Qed.
Next Obligation.
  intros l k. cbn. unfold kprintf_out. destruct (s_backend (k_con k)); [done|done|].
  unfold kprint_fb. cbn. by destruct (s_use_fb (k_con k)), (s_win (k_con k)).
Qed.

#[export] Program Instance kernel_files_view : FilesView (kernel D).
Next Obligation. done. Qed.
Next Obligation. done. Qed.
Next Obligation. done. Qed.
Next Obligation. done. Qed.
Next Obligation. done. Qed.
Next Obligation. done. Qed.
Next Obligation. done. Qed.
Next Obligation.
  intros k. cbn [term_poll kernel_terminal files kernel_files]. unfold take_arrivals. destruct (k_arrivals k); by destruct (keyboard_poll _).
Qed.
End interfaces.

(** ** Panics *)

(** [kpanic], up to the loop in which it halts with the interrupts disabled; in
    the other files a call of it is the outcome [Panic]. *)
Definition kpanic `{Arch} `{Kprint D} (fmt : string) (ap : list karg) (d : D) : D := klog fmt ap (klog "
[KERNEL PANIC] " [] d).

(** Called by the code the compiler inserts when a function's canary is not
    [__stack_chk_guard] at its end. *)
Definition stack_chk_guard `{Arch} : Z := uptr 0xDEADC0DE.
Definition __stack_chk_fail `{Arch} `{Kprint D} (d : D) : D := kpanic "Stack smashing detected — aborting" [] d.

(** The two messages follow each other; no key is taken. *)
Lemma kpanic_view `{Arch} `{TerminalView D} fmt ap (d : D) : typed (kpanic fmt ap d) = typed d ∧
  shown (kpanic fmt ap d) = shown d ++ bytes "
[KERNEL PANIC] " ++ format (bytes fmt) ap.
Proof. unfold kpanic. split; [by rewrite !klog_typed|]. rewrite !klog_shown, <- (assoc_L (++)). done. Qed.
