(* ===== verification/Kmain.v ===== *)
(** The boot sequence: src/kernel/kmain.c.

    What [kmain] makes of the components it starts: the memory file system and
    the first-boot setup on it, the interrupt table and the page frames. *)
From S2P Require Import Prelude CString Heap Alloc Pmm Vmm Vfs Tmpfs Fat32 Fs Tree Thread Sched Ports Interrupts Printf Input Console Framebuffer Gui Shell Setup Machine.

Definition HEAP_START : Z := 0x400000.
Definition HEAP_SIZE : Z := 8 * 1024 * 1024.

(** ** The root file system and the setup *)

(** From [vfs_init] to the file [version]; its literal is at [version_at]. *)
Definition kmain_files `{Arch} (version_at : Z) (s : fsys) : outcome fsys :=
  '(root, s) ← tmpfs_create (bytes "root") (vfs_init s);
  let s := (vfs_mount (bytes "/") root s).2 in
  '(_, s) ← tmpfs_mkdir root (bytes "dev") s;
  '(_, s) ← tmpfs_mkdir root (bytes "tmp") s;
  '(_, s) ← tmpfs_mkdir root (bytes "etc") s;
  '(_, s) ← tmpfs_mkdir root (bytes "boot") s;
  '(_, s) ← tmpfs_mkfile root (bytes "version") version_at 18 s;
  Ok s.

(** [if (setup_needed()) setup_run();] *)
Definition kmain_setup `{Arch} `{Terminal D} `{Kprint D} `{!Files D} `{FsCode} (hlt : D → D) (stack : str)
    (hostname_at osrel_at : Z) (fuel : nat) (d : D) : outcome D :=
  '(needed, d) ← setup_needed stack d;
  if (needed : bool) then setup_run hlt stack hostname_at osrel_at fuel d else Ok d.

Section files_booted.
Context `{Arch} `{BlockDev} (load_fuel : nat) (lo hi : Z).

(** The directories the boot has made so far, [es], each empty. *)
Definition empty_dirs (s0 s : fsys) (r : Z) (names : list str) : Prop :=
  ∃ t es, stage lo hi s0 s r t ∧ t !! r = Some (Directory es) ∧
    (∀ nm, is_Some (es !! nm) ↔ nm ∈ names) ∧
    ∀ nm n, es !! nm = Some n → n ≠ r ∧ t !! n = Some (Directory ∅).

Lemma empty_dirs_mkdir s0 s r names nm : empty_dirs s0 s r names → nm ∉ names → (length nm ≤ 255)%nat →
  match tmpfs_mkdir r nm s with Ok (_, s') => empty_dirs s0 s' r (nm :: names) | x => x = oom end.
Proof.
  intros (t & es & Hst & Er & Hes & Hdirs) Hnm Hlen.
  pose proof (stage_mkdir lo hi s0 s r t nm Hst (ex_intro _ es Er)) as Hm.
  destruct (tmpfs_mkdir r nm s) as [[n s']|?|]; [|by injection Hm as ->|done]. destruct Hm as [Hn Hst'].
  assert (es !! nm = None) as Hfree by (apply eq_None_not_Some; by rewrite Hes).
  destruct (add_object_new r nm n (Directory ∅) t es Er Hn Hlen Hfree) as (_ & A & B).
  exists (add_object r nm n (Directory ∅) t), (<[nm := n]> es). split; [done|]. split; [done|]. split.
  - intros nm'. rewrite lookup_insert_is_Some, Hes, elem_of_cons. destruct (decide (nm = nm')); naive_solver.
  - intros nm' m [[<- <-]|[Hne Em]]%lookup_insert_Some; [split; [congruence|done]|].
    destruct (Hdirs nm' m Em) as [Hm Edir]. split; [done|]. by apply (add_object_other _ _ _ _ _ es).
Qed.

(** The same, for what follows it. *)
Lemma empty_dirs_bind {A} s0 s r names nm (k : fsys → outcome A) (P : A → Prop) :
  empty_dirs s0 s r names → nm ∉ names → (length nm ≤ 255)%nat →
  (∀ s', empty_dirs s0 s' r (nm :: names) → or_oom P (k s')) → or_oom P ('(_, s) ← tmpfs_mkdir r nm s; k s).
Proof.
  intros Hd Hnm Hlen Hk. pose proof (empty_dirs_mkdir s0 s r names nm Hd Hnm Hlen) as Hm.
  destruct (tmpfs_mkdir r nm s) as [[n s']|?|]; cbn [mbind outcome_bind]; [by apply Hk|by injection Hm as ->|done].
Qed.

Lemma empty_dirs_before s0 s r names : empty_dirs s0 s r names → ∃ t, stage lo hi s0 s r t ∧ before_setup r t.
Proof.
  intros (t & es & Hst & Er & _ & Hdirs). exists t. split; [done|]. exists es. split; [done|].
  intros e Ee. destruct (Hdirs _ _ Ee) as [Hne Ed]. split; [done|]. exists ∅. by rewrite !lookup_empty.
Qed.

(** A file of another name leaves it so. *)
Lemma before_setup_file r t n nm l : before_setup r t → t !! n = None → nm ≠ etc_name → (length nm ≤ 255)%nat →
  before_setup r (add_object r nm n (RegularFile l) t).
Proof.
  intros (es & Er & Hetc) Hn Hnm Hlen.
  destruct (add_object_dir r nm n (RegularFile l) t es r es Er Hn Er) as (es' & Er' & Hnone).
  rewrite (add_object_lookup r nm n _ t es) in Er' by congruence.
  assert (es' !! etc_name = es !! etc_name) as Ee.
  { rewrite decide_False, decide_True in Er' by congruence. injection Er' as <-. case_decide; [done|].
    rewrite take_ge by lia. by rewrite lookup_insert_ne. }
  exists es'. split; [by rewrite (add_object_lookup r nm n _ t es) by congruence|].
  intros e E. rewrite Ee in E. destruct (Hetc e E) as (Hne & ees & A & B). split; [done|]. exists ees.
  split; [|done]. by apply (add_object_other _ _ _ _ _ es).
Qed.

Lemma kmain_files_spec version_at s : tmpfs_ok lo hi s → tmpfs_only s →
  version_at ≠ 0 → version_at + 18 ≤ lo ∨ hi ≤ version_at →
  or_oom (λ s', ∃ t, represents lo hi s' t ∧ outside lo hi (mem (fheap s)) (mem (fheap s')) ∧ before_setup (vfs_root s') t)
    (kmain_files version_at s).
Proof.
  intros Hok Hto Hv0 Hv. unfold kmain_files. pose proof (create_refines lo hi (vfs_init s) (bytes "root") Hok Hto) as Hc.
  destruct (tmpfs_create (bytes "root") (vfs_init s)) as [[r s1]|?|] eqn:E; cbn [mbind outcome_bind]; [|by injection Hc as ->|done].
  destruct (tmpfs_create_mounts _ _ _ _ E) as [Er Em]. pose proof (tmpfs_create_outside lo hi _ (vfs_init s) _ _ Hok E) as Ho.
  set (s2 := (vfs_mount (bytes "/") r s1).2).
  assert (s2 = with_mounts [(bytes "/", r)] r s1) as E2.
  { unfold s2, vfs_mount. rewrite Em. cbn [vfs_init mounts with_mounts length]. change (MAX_MOUNTS <=? Z.of_nat 0) with false.
    cbn [vfs_root]. rewrite Er. done. }
  assert (empty_dirs s2 s2 r []) as H0'.
  { exists {[ r := Directory ∅ ]}, ∅. split; [split; [|split; [by rewrite E2|by intros a _]]|].
    - rewrite E2. by apply represents_mounts.
    - rewrite lookup_singleton_eq. split; [done|]. split; [|by intros ? ? ?%lookup_empty_Some].
      intros nm. rewrite lookup_empty, elem_of_nil. split; [by intros [? ?]|done]. }
  assert (mem (fheap s2) = mem (fheap s1)) as Emem by by rewrite E2.
  clearbody s2. clear E2.
  apply (empty_dirs_bind s2 s2 r [] (bytes "dev") _ _ H0'); [vm_compute; set_solver|vm_compute; lia|]. clear H0'. intros s3 H3.
  apply (empty_dirs_bind s2 s3 r _ (bytes "tmp") _ _ H3); [vm_compute; set_solver|vm_compute; lia|]. clear s3 H3. intros s3 H3.
  apply (empty_dirs_bind s2 s3 r _ (bytes "etc") _ _ H3); [vm_compute; set_solver|vm_compute; lia|]. clear s3 H3. intros s3 H3.
  apply (empty_dirs_bind s2 s3 r _ (bytes "boot") _ _ H3); [vm_compute; set_solver|vm_compute; lia|]. clear s3 H3. intros s3 H3.
  apply empty_dirs_before in H3 as (t & Hst & Hb). pose proof Hb as (es & Er' & _).
  pose proof (stage_mkfile lo hi s2 s3 r t r es (bytes "version") version_at 18 Hst Er' ltac:(lia) ltac:(lia) Hv0 Hv) as Hm.
  destruct (tmpfs_mkfile r (bytes "version") version_at 18 s3) as [[v s4]|?|]; cbn [mbind outcome_bind]; [|by injection Hm as ->|done].
  destruct Hm as [Hn (Hr & Hroot & Hout)]. eexists. split; [exact Hr|]. rewrite Hroot.
  split; [eapply outside_trans; [exact Ho|by rewrite <- Emem]|].
  apply before_setup_file; [done|done|by vm_compute|vm_compute; lia].
Qed.

(** The setup is needed as long as its files are not there. *)
Lemma before_setup_needed `{FilesView D} s t stack (d : D) : represents lo hi s t → before_setup (vfs_root s) t →
  files d = s → setup_needed (H3 := kernel_fs_code load_fuel) stack d = Ok (true, with_files s d).
Proof.
  intros Hr (es & Er & Hetc) Ed. unfold setup_needed. rewrite Ed.
  change (bytes "/etc/hostname") with (47 :: join [etc_name; hostname_name]).
  rewrite (represents_open load_fuel lo hi s t stack [etc_name; hostname_name] 0 Hr) by (eauto using hostname_components || done).
  cbn [lookup_path mbind outcome_bind].
  assert (tchild t (vfs_root s) etc_name = default 0 (es !! etc_name)) as -> by (unfold tchild; by rewrite Er).
  destruct (es !! etc_name) as [e|] eqn:Ee; [|done]. cbn [default from_option id].
  destruct (represents_entry lo hi s t _ es etc_name e Hr Er Ee) as [Hpos _].
  rewrite (proj2 (Z.eqb_neq e 0)) by lia. destruct (Hetc e eq_refl) as (_ & ees & Eetc & Eh & _).
  assert (tchild t e hostname_name = 0) as -> by (unfold tchild; by rewrite Eetc, Eh). done.
Qed.
(** On a tree the setup has not touched, [kmain_setup] is the setup's part on the
    files and then a state with the same other parts. *)
Lemma kmain_setup_files `{FilesView D} {X} (I : D → X) stack hostname_at osrel_at hlt fuel (d : D) t line echo rest line2 echo2 rest2 :
  (∀ d, typed (hlt d) = typed d ∧ shown (hlt d) = shown d) → (∀ d, files (hlt d) = files d) → steady hlt I →
  represents lo hi (files d) t → before_setup (vfs_root (files d)) t →
  edit 63 [] (typed d) = Some (line, echo, rest) → Forall (λ c, 0 < c < 256) line →
  edit 63 [] rest = Some (line2, echo2, rest2) → Forall (λ c, c ≠ 0) line2 →
  (length (typed d) ≤ fuel)%nat → (length rest ≤ fuel)%nat →
  let _ : FsCode := kernel_fs_code load_fuel in
  (length line ≤ 63)%nat ∧ ∃ finish : fsys → D, (∀ s, files (finish s) = s ∧ typed (finish s) = rest2 ∧ I (finish s) = I d) ∧
    kmain_setup hlt stack hostname_at osrel_at fuel d =
      (s ← setup_files stack hostname_at osrel_at (set_hostname hostname_at (chosen line) (files d)); Ok (finish s)).
Proof.
  intros Hhv Hhf HI Hr Hb He Hline He2 Hline2 Hf Hf2 HC. unfold kmain_setup. unfold HC in *.
  rewrite (before_setup_needed (files d) t stack d Hr Hb eq_refl). cbn [mbind outcome_bind].
  set (d1 := with_files _ d). assert (files d1 = files d ∧ typed d1 = typed d ∧ I d1 = I d) as (Ef & Et & Ei).
  { unfold d1. rewrite files_with, with_typed. by destruct HI as (_ & _ & _ & _ & _ & _ & ->). }
  rewrite <- Et in He, Hf. destruct (setup_run_files load_fuel stack hostname_at osrel_at hlt Hhv Hhf I fuel d1 line echo rest
    line2 echo2 rest2 HI He Hline He2 Hline2 Hf Hf2) as (Hlen & finish & Hfin & E). rewrite Ef, Ei in *.
  split; [done|]. exists finish. by split.
Qed.
End files_booted.

(** Booting on a file system that knows no file, with a heap for it, the
    setup finds no host name and asks for one; whatever is typed, edited within
    63 characters, the boot ends with [/etc/hostname] holding exactly the typed
    line (or "aerogel" for an empty one) and [/etc/os-release] holding its text,
    in a tree the memory file system represents, and a second start finds the
    setup done and changes nothing.  Only an exhausted heap stops it. *)
Theorem first_boot_configures `{Arch} `{BlockDev} `{FilesView D} (load_fuel : nat) (lo hi : Z) (stack : str)
    (hostname_at osrel_at version_at : Z) (hlt : D → D) (fuel : nat) (d : D) (line echo line2 echo2 : str)
    (rest rest2 : list (option key_event_t)) :
  let _ : FsCode := kernel_fs_code load_fuel in
  let m := mem (fheap (files d)) in
  (∀ d, typed (hlt d) = typed d ∧ shown (hlt d) = shown d) → (∀ d, files (hlt d) = files d) →
  tmpfs_ok lo hi (files d) → tmpfs_only (files d) →
  statics_ok lo hi hostname_at osrel_at → version_at ≠ 0 → version_at + 18 ≤ lo ∨ hi ≤ version_at →
  load_bytes 30 osrel_at m = OS_RELEASE ++ [0] → ld m (hostname_at + 63) = 0 →
  edit 63 [] (typed d) = Some (line, echo, rest) → Forall (λ c, 0 < c < 256) line →
  edit 63 [] rest = Some (line2, echo2, rest2) → Forall (λ c, c ≠ 0) line2 →
  (length (typed d) ≤ fuel)%nat → (length rest ≤ fuel)%nat →
  or_oom (λ d', typed d' = rest2 ∧
      (∃ t, represents lo hi (files d') t ∧
        after_setup (vfs_root (files d')) (match line with [] => bytes "aerogel" | _ => line end) (OS_RELEASE ++ [0]) t) ∧
      ∃ d'', kmain_setup hlt stack hostname_at osrel_at fuel d' = Ok d'' ∧ files d'' = files d')
    (s ← kmain_files version_at (files d); kmain_setup hlt stack hostname_at osrel_at fuel (with_files s d)).
Proof.
  intros HC m Hhv Hhf Hok Hto Hst Hv0 Hv Hrel H63 He Hline He2 Hline2 Hf Hf2.
  pose proof (kmain_files_spec lo hi version_at (files d) Hok Hto Hv0 Hv) as Hb.
  destruct (kmain_files version_at (files d)) as [s|?|]; cbn [mbind outcome_bind or_oom] in *; [|by injection Hb as ->|done].
  destruct Hb as (t & Hr & Hout & Hbefore). pose proof Hst as (Hh & _ & Ho & _).
  set (d1 := with_files s d). assert (files d1 = s ∧ typed d1 = typed d) as [Ed1 Et1] by (unfold d1; by rewrite files_with, with_typed).
  assert (steady hlt (λ _ : D, ())) as HI by done.
  destruct (kmain_setup_files load_fuel lo hi (λ _, ()) stack hostname_at osrel_at hlt fuel d1 t line echo rest line2 echo2 rest2
    Hhv Hhf HI) as (Hlen & finish & Hfin & E); rewrite ?Ed1, ?Et1; try done.
  change HC with (kernel_fs_code load_fuel) in *. rewrite E, Ed1.
  assert (load_bytes 30 osrel_at (mem (fheap s)) = OS_RELEASE ++ [0] ∧ ld (mem (fheap s)) (hostname_at + 63) = 0) as [Hrel' H63'].
  { rewrite <- Hrel, <- H63. split; [apply load_bytes_ext; intros a Ha|]; apply Hout; lia. }
  pose proof (setup_files_named load_fuel lo hi stack hostname_at osrel_at s t (vfs_root s) line Hr eq_refl Hbefore Hst Hrel' H63' Hlen Hline) as Hn.
  eapply or_oom_bind; [exact Hn|]. clear Hn. intros s' (Hroot & _ & t' & Hr' & Hafter). destruct (Hfin s') as (Ef & Et & _).
  cbn [or_oom]. rewrite Ef, Hroot. split; [done|]. split; [by exists t'|].
  destruct (after_setup_needed load_fuel lo hi stack s' t' (vfs_root s) _ _ (finish s') Hr' Hroot Hafter Ef) as (d'' & E' & Ef').
  unfold kmain_setup. unfold setup_code in E'. rewrite E'. by exists d''.
Qed.

(** The heap of [kmain], and no file. *)
Definition kmain_heap `{Arch} (m : memory) : fsys :=
  Fsys ∅ ∅ ∅ ∅ ∅ ∅ (heap_init HEAP_START HEAP_SIZE (Heap ∅ 0 0 m)) [] 0.

Lemma kmain_heap_ok `{Arch} m : mem_ok m → tmpfs_ok HEAP_START (HEAP_START + HEAP_SIZE) (kmain_heap m) ∧ tmpfs_only (kmain_heap m).
Proof.
  intros Hm. split; [|intros n y E; unfold kmain_heap in E; cbn [vnodes] in E; by apply lookup_empty_Some in E].
  split; [done|]. split; [|split_and!; intros k x E; unfold kmain_heap in E; cbn [tdirs tfiles vnodes] in E; by apply lookup_empty_Some in E].
  split.
  - eexists. pose proof HDR_bound. apply (heap_init_inv HEAP_START HEAP_SIZE); unfold HEAP_START, HEAP_SIZE; lia.
  - split; [exact Hm|]. split; intros [?|?|?|?|?]; cbn; by intros.
Qed.

(** The text of os-release at 0x200000, the one of [version] at 0x200100, and
    [hostname], still zero, at 0x200200. *)
Definition boot_memory : memory :=
  store_bytes 0x200000 (OS_RELEASE ++ [0]) (store_bytes 0x200100 (bytes "Aerogel OS v0.1.0" ++ [10]) ∅).

Lemma boot_memory_ok : mem_ok boot_memory.
Proof. unfold boot_memory. apply mem_ok_store, mem_ok_store, map_Forall_empty. Qed.

Definition boot_keys : list (option key_event_t) := (press <$> bytes "box") ++ [None; press 10; press 10; press 108].

Lemma first_boot_configures_witness :
  let _ : Arch := X86 in let _ : BlockDev := λ _ b, b in let _ : FsCode := kernel_fs_code 0 in
  let d := Machine boot_keys [] (kmain_heap boot_memory) in
  ∃ d', (s ← kmain_files 0x200100 (files d); kmain_setup id [] 0x200200 0x200000 20 (with_files s d)) = Ok d' ∧
    m_keys d' = [press 108] ∧
    ∃ t, represents HEAP_START (HEAP_START + HEAP_SIZE) (m_files d') t ∧
      after_setup (vfs_root (m_files d')) (bytes "box") (OS_RELEASE ++ [0]) t.
Proof.
  intros HA HB HC d. destruct (kmain_heap_ok boot_memory boot_memory_ok) as [Hok Hto].
  pose proof (first_boot_configures 0 HEAP_START (HEAP_START + HEAP_SIZE) [] 0x200200 0x200000 0x200100 id 20 d
    (bytes "box") (bytes "box" ++ [10]) [] [10] [press 10; press 108] [press 108]) as Hb.
  assert (∀ d : machine, typed (id d) = typed d ∧ shown (id d) = shown d) as Hv by (intros; split; reflexivity).
  specialize (Hb Hv (λ d, eq_refl) Hok Hto). clear Hv.
  set (boot := (_ ← _; _ : outcome machine)) in *.
  assert (match boot with Ok _ => true | _ => false end = true) as Hrun by (vm_compute; reflexivity).
  destruct boot as [d'|?|]; [|discriminate Hrun|discriminate Hrun]. exists d'. split; [reflexivity|].
  destruct Hb as (Ht & Hafter & _).
  - unfold statics_ok, HEAP_START, HEAP_SIZE. lia.
  - lia.
  - left. unfold HEAP_START. lia.
  - vm_compute. reflexivity.
  - vm_compute. reflexivity.
  - vm_compute. reflexivity.
  - repeat constructor; lia.
  - vm_compute. reflexivity.
  - constructor.
  - vm_compute. lia.
  - vm_compute. lia.
  - split; [exact Ht|exact Hafter].
Defined.

(** ** The page frames under the heap *)

(** [pmm_alloc] called [k] times. *)
Fixpoint alloc_after `{Arch} (k : nat) (s : pmm) : pmm :=
  match k with O => s | S k => alloc_after k (pmm_alloc s).2 end.

Section heap_pages.
Context `{Arch}.

Lemma pmm_alloc_cases s : pmm_ok s → let '(r, s') := pmm_alloc s in
  pmm_ok s' ∧
  ((r = 0 ∧ s' = s ∧ ∀ j, 1 ≤ j < MAX_PAGES → page_used s j = true) ∨
   (∃ k, r = k * PAGE_SIZE ∧ 1 ≤ k < MAX_PAGES ∧
      (∀ j, 1 ≤ j < k → page_used s j = true) ∧ pages_taken s s' k 1)).
Proof.
  intros Hs. destruct (pmm_alloc s) as [r s'] eqn:E. unfold pmm_alloc in E.
  eapply pmm_alloc_from_spec; [exact Hs| | | |exact E]; [lia| |intros; lia].
  rewrite of_nat_span. unfold MAX_PAGES. lia.
Qed.

(** First fit comes to every free page. *)
Lemma alloc_reaches n : ∀ i p s, pmm_ok s → 1 ≤ i ≤ p → p < MAX_PAGES → p - i = Z.of_nat n →
  (∀ j, 1 ≤ j < i → page_used s j = true) → page_used s p = false →
  ∃ k, (k ≤ n)%nat ∧ (pmm_alloc (alloc_after k s)).1 = p * PAGE_SIZE.
Proof.
  induction n as [|n IH]; intros i p s Hs Hi Hp Hn Hlow Hfree.
  - exists 0%nat. split; [lia|]. cbn [alloc_after]. pose proof (pmm_alloc_cases s Hs) as Hc. destruct (pmm_alloc s) as [r s'].
    destruct Hc as (_ & [(_ & _ & Hall)|(k & -> & Hk & Hl & Ht & _)]); [by rewrite Hall in Hfree by lia|]. cbn [fst].
    destruct (Ht k ltac:(lia)) as [Hkf _]. f_equal. destruct (decide (k < p)); [by rewrite Hlow in Hkf by lia|].
    destruct (decide (p < k)); [by rewrite Hl in Hfree by lia|lia].
  - destruct (page_used s i) eqn:Hu.
    + destruct (IH (i + 1) p s Hs) as (k & Hk & E); [lia|lia|lia| |done|by exists k; split; [lia|]].
      intros j Hj. destruct (decide (j = i)) as [->|]; [done|apply Hlow; lia].
    + pose proof (pmm_alloc_cases s Hs) as Hc. destruct (pmm_alloc s) as [r s'] eqn:Ea.
      destruct Hc as (Hs' & [(_ & _ & Hall)|(k & -> & Hk & Hl & Ht & Hkeep & _)]); [by rewrite Hall in Hu by lia|].
      destruct (Ht k ltac:(lia)) as [Hkf Hku].
      assert (k = i) as ->.
      { destruct (decide (k < i)); [by rewrite Hlow in Hkf by lia|]. destruct (decide (i < k)); [by rewrite Hl in Hu by lia|lia]. }
      destruct (IH (i + 1) p s' Hs') as (k & Hk' & E); [lia|lia|lia| | |].
      * intros j Hj. destruct (decide (j = i)) as [->|]; [done|]. rewrite Hkeep by lia. apply Hlow. lia.
      * by rewrite Hkeep by lia.
      * exists (S k). split; [lia|]. cbn [alloc_after]. by rewrite Ea.
Qed.
End heap_pages.

(** C37: nothing reserves the frames of the kernel heap: on a machine with RAM in
    the heap's region, with the image and the bitmap below it, every page of
    [HEAP_START, HEAP_START + HEAP_SIZE) is free after [pmm_init], and calling
    [pmm_alloc] often enough hands each of them out, down to the one with the
    header of the heap's first block. *)
Theorem heap_pages_handed_out `{Arch} (bss_end bitmap_addr : Z) (map : list e820_entry_t) (s : pmm) (h : heap) (p : Z) :
  image_fits bss_end bitmap_addr → Forall entry_fits map →
  bss_end ≤ HEAP_START → bitmap_addr + BITMAP_BYTES ≤ HEAP_START →
  HEAP_START ≤ p * PAGE_SIZE < HEAP_START + HEAP_SIZE → existsb (entry_covers p) map = true →
  let booted := pmm_init bss_end bitmap_addr map s in
  page_used booted p = false ∧
  (∃ k, Z.of_nat k < MAX_PAGES ∧ (pmm_alloc (alloc_after k booted)).1 = p * PAGE_SIZE) ∧
  is_Some (hdrs (heap_init HEAP_START HEAP_SIZE h) !! HEAP_START).
Proof.
  intros Hi Hf Hbss Hbm Hp Hram booted. unfold HEAP_START, HEAP_SIZE, PAGE_SIZE in Hp.
  destruct (pmm_init_entries_spec map _ (bitmap_fill_ok s) Hf) as [Hb Hpages].
  destruct (pmm_init_tail bss_end bitmap_addr _ Hb Hi) as (Hok & _ & Hu).
  assert (0 ≤ p < MAX_PAGES) as Hpm by (unfold MAX_PAGES; lia).
  assert (page_used booted p = false) as Hfree.
  { unfold booted, pmm_init. rewrite Hu, Hpages by done. rewrite bitmap_fill_used by done. rewrite Hram. cbn [negb andb orb].
    unfold reserved, HEAP_START, PAGE_SIZE in *. rewrite !bool_decide_eq_false_2 by lia. done. }
  split; [done|]. split.
  - destruct (alloc_reaches (Z.to_nat (p - 1)) 1 p booted Hok) as (k & Hk & E); [lia|lia|lia|lia|done|].
    exists k. split; [lia|done].
  - unfold heap_init, put_hdr. cbn [hdrs]. rewrite lookup_insert_eq. eauto.
Qed.

(** With RAM only there, and the 7 MiB of RAM below all handed out: the 128 MiB PC. *)
Lemma heap_pages_handed_out_witness :
  let _ : Arch := X86 in
  ∃ k, (pmm_alloc (alloc_after k (pmm_init 0x140000 0x120000 pc_map all_free))).1 = HEAP_START.
Proof.
  intros HA. destruct pc_map_fits as [Hf Hi].
  destruct (heap_pages_handed_out 0x140000 0x120000 pc_map all_free (Heap ∅ 0 0 ∅) 0x400 Hi Hf) as (_ & (k & _ & E) & _).
  - unfold HEAP_START. lia.
  - unfold HEAP_START. change BITMAP_BYTES with 65536. lia.
  - unfold HEAP_START, HEAP_SIZE, PAGE_SIZE. lia.
  - vm_compute. reflexivity.
  - exists k. exact E.
Defined.

(** ** The timer interrupt *)

Section timer.
Context `{Ports D}.
Abbreviation handler := (isr_frame_t → kernel D → outcome (kernel D)).

(** [pit_handler] of kmain.c. *)
Definition kmain_pit_handler : handler := λ _ k,
  t ← sched_tick (pit_ticks (k_pit k)) (k_threads k);
  Ok (with_threads t k).

(** [pit_handler] of pit.c, as a handler. *)
Definition pit_irq_handler : handler := λ _ k, Ok (with_pit (pit_handler (k_pit k)) k).

(** [isr_init], the registration and [pit_init(100)]; the interrupt table is the
    one of the 32-bit target. *)
Definition kmain_interrupts (stubs : Z → Z) (s : gmap Z handler * kernel D) : gmap Z handler * kernel D :=
  let '(handlers, k) := s in
  let '(handlers, c, idt) := isr_init32 stubs (handlers, k_con k, k_idt k) in
  let k := with_tables (k_gdt k) idt (with_con c k) in
  let handlers := isr_register 32 kmain_pit_handler handlers in
  let '(p, c) := pit_init 100 (k_pit k) (k_con k) in
  let handlers := isr_register 32 pit_irq_handler handlers in
  (handlers, with_pit p (with_con c k)).

(** The interrupts of a list of frames, one after the other. *)
Fixpoint dispatch_all (handlers : gmap Z handler) (frames : list isr_frame_t) (k : kernel D) : outcome (kernel D) :=
  match frames with
  | [] => Ok k
  | f :: l => k ← isr_dispatch handlers f k; dispatch_all handlers l k
  end.

(** Drivers started later register other vectors. *)
Definition register_all (l : list (Z * handler)) (handlers : gmap Z handler) : gmap Z handler :=
  foldl (λ t x, isr_register x.1 x.2 t) handlers l.

Lemma register_all_other l : ∀ t v, Forall (λ x, u8 x.1 ≠ v) l → register_all l t !! v = t !! v.
Proof.
  induction l as [|[n h] l IH]; intros t v Hl; [done|]. apply Forall_cons_1 in Hl as [Hn Hl].
  cbn [register_all foldl fst snd] in *. unfold register_all in IH. rewrite IH by done. by apply lookup_insert_ne.
Qed.

(** The state of the interrupt controllers. *)
Definition pics_of (k : kernel D) : D := s_dev (k_con k).

Lemma eoi_open `{!Pic8259 D} (k : kernel D) : operational (pics_of k) →
  operational (pics_of (pic_send_eoi 0 k)) ∧ pic1 (pics_of (pic_send_eoi 0 k)) = pic1 (pics_of k).
Proof.
  intros [O1 O2]. unfold pic_send_eoi. change (8 <=? 0) with false. cbv iota.
  cbn [outb kernel_ports console_ports pics_of k_con with_con s_dev with_dev].
  unfold pics_of, PIC1_CMD, PIC_EOI in *. destruct (pic_cmd1 0x20 (s_dev (k_con k)) (or_intror eq_refl)) as [A B].
  unfold operational. by rewrite A, B.
Qed.

(** Writes to other ports do not concern the interrupt controllers. *)
Lemma outbs_pic `{!Pic8259 D} l : ∀ d : D, Forall (λ x, x.1 ≠ 0x20 ∧ x.1 ≠ 0x21 ∧ x.1 ≠ 0xA0 ∧ x.1 ≠ 0xA1) l →
  pic1 (outbs l d) = pic1 d ∧ pic2 (outbs l d) = pic2 d.
Proof.
  induction l as [|[p v] l IH]; intros d Hl; [done|]. apply Forall_cons_1 in Hl as [(A & B & C & E) Hl].
  destruct (IH (outb p v d) Hl) as [E1 E2]. destruct (pic_outb p v d A B C E) as [F1 F2].
  unfold outbs in *. cbn [foldl]. by rewrite E1, E2.
Qed.

(** On the console the port operations are those of the machine. *)
Lemma console_pic_remap (c : console D) : pic_remap c = with_dev (pic_remap (s_dev c)) c.
Proof. by destruct c. Qed.
Lemma console_unmask i (c : console D) : pic_unmask_irq i c = with_dev (pic_unmask_irq i (s_dev c)) c.
Proof. unfold pic_unmask_irq. cbn. by destruct (inb _ (s_dev c)) as [v d]. Qed.
Lemma console_outbs l : ∀ c : console D, outbs l c = with_dev (outbs l (s_dev c)) c.
Proof. unfold outbs. induction l as [|[p v] l IH]; intros c; [by destruct c|]. cbn [foldl]. rewrite IH. by destruct c. Qed.

Lemma timer_dispatch `{!Pic8259 D} handlers frames : handlers !! 32 = Some pit_irq_handler → Forall (λ f, int_no f = 32) frames →
  ∀ k, operational (pics_of k) → 0 ≤ tick_count (k_pit k) < 2 ^ 64 → ∃ k', dispatch_all handlers frames k = Ok k' ∧ k_threads k' = k_threads k ∧
    tick_count (k_pit k') = u64 (tick_count (k_pit k) + Z.of_nat (length frames)) ∧ pic1 (pics_of k') = pic1 (pics_of k).
Proof.
  intros Hh. induction 1 as [|f l Hf Hl IH]; intros k Hop Ht.
  - exists k. split; [done|]. split; [done|]. split; [|done]. cbn [length]. rewrite wrap_small; lia.
  - cbn [dispatch_all]. unfold isr_dispatch. rewrite Hf, Hh. cbn [pit_irq_handler mbind outcome_bind].
    change ((32 <=? 32) && (32 <? 48)) with true. cbv iota. change (32 - 32) with 0.
    set (k1 := with_pit _ k). destruct (eoi_open k1 Hop) as [Hop' Hp].
    assert (k_pit (pic_send_eoi 0 k1) = pit_handler (k_pit k) ∧ k_threads (pic_send_eoi 0 k1) = k_threads k) as [Ep Et] by done.
    destruct (IH (pic_send_eoi 0 k1) Hop') as (k' & E & Ht' & Hn & Hp'); [rewrite Ep; by apply wrap_bound|].
    exists k'. rewrite E, Ht', Hn, Hp', Hp, Ep, Et. split; [done|]. split; [done|]. split; [|done].
    cbn [tick_count pit_handler length]. unfold wrap. rewrite Zplus_mod_idemp_l. f_equal. lia.
Qed.
End timer.

(** C36: the handler [kmain] registers for the timer is replaced by the one
    [pit_init] registers: whatever other vectors the drivers take afterwards, any
    number of timer interrupts only counts ticks, is acknowledged, leaves line 0
    open, and never reaches [sched_tick]: no thread's quantum is charged and no
    sleeper looked at. *)
Theorem timer_never_ticks_scheduler `{Pic8259 D} (stubs : Z → Z) (handlers : gmap Z (isr_frame_t → kernel D → outcome (kernel D)))
    (k : kernel D) (later : list (Z * (isr_frame_t → kernel D → outcome (kernel D)))) (frames : list isr_frame_t) :
  0 ≤ tick_count (k_pit k) < 2 ^ 64 → Forall (λ x, u8 x.1 ≠ 32) later → Forall (λ f, int_no f = 32) frames →
  let '(table, k1) := kmain_interrupts stubs (handlers, k) in
  ∃ k', dispatch_all (register_all later table) frames k1 = Ok k' ∧ k_threads k' = k_threads k ∧
    tick_count (k_pit k') = u64 (tick_count (k_pit k) + Z.of_nat (length frames)) ∧
    line_open (pics_of k') 0 = true.
Proof.
  intros Ht Hlater Hframes. unfold kmain_interrupts, isr_init32, pit_init. cbn [k_con with_tables with_con k_pit].
  set (d0 := s_dev (k_con k)). destruct (pic_remap_spec d0) as [E1 E2].
  assert (operational (pic_remap d0)) as Hop by (unfold operational; by rewrite E1, E2).
  destruct (pic_unmask_spec (pic_remap d0) 0 ltac:(lia) Hop) as [Hop' Hm].
  rewrite console_pic_remap, console_unmask, console_outbs. cbn [s_dev with_dev]. fold d0.
  set (d := pic_unmask_irq 0 _) in *. set (d' := outbs _ d).
  assert (pic1 d' = pic1 d ∧ pic2 d' = pic2 d) as [P1 P2].
  { apply outbs_pic. repeat constructor; cbn; unfold PIT_CMD, PIT_CH0; lia. }
  assert (operational d') as Hop'' by (unfold operational; by rewrite P1, P2).
  set (k1 := with_pit _ _). set (table := isr_register 32 pit_irq_handler _).
  assert (register_all later table !! 32 = Some pit_irq_handler) as Htable.
  { rewrite register_all_other by done. apply lookup_insert_eq. }
  destruct (timer_dispatch _ frames Htable Hframes k1 Hop'' Ht) as (k' & E & A & B & C).
  exists k'. split; [done|]. split; [done|]. split; [done|]. unfold line_open. change (0 <? 8) with true. cbv iota.
  rewrite C. change (pics_of k1) with d'. rewrite P1. specialize (Hm 0 ltac:(lia)). unfold masked in Hm.
  change (0 <? 8) with true in Hm. cbv iota in Hm. by rewrite Hm.
Qed.

(** A kernel on the machine [d] with the threads [t] and nothing started. *)
Definition cold_kernel {D} (d : D) (arrivals : list (list Z)) (s : fsys) (t : kthreads) : kernel D :=
  Kern (Con d (Vga 0 0 0 ∅) (gui_0 (Fb 0 0 0 0 0 false ∅)) false None NoBackend []) keyboard_0 arrivals mouse_0 (Pit 0 0)
    ∅ ∅ (Pmm [] 0 0) (Mmu 0 0 0 ∅) s t drivers_0.

(** A thousand ticks leave the running thread its whole quantum. *)
Lemma timer_never_ticks_scheduler_witness :
  let k := cold_kernel (Pics (0, 0%nat) (0, 0%nat)) [] (kmain_heap (H := X86) ∅) demo_threads in
  let '(table, k1) := kmain_interrupts (λ i, 16 * i) (∅, k) in
  ∃ k', dispatch_all table (replicate 1000 (IsrFrame 32 0 0 0)) k1 = Ok k' ∧ k_threads k' = k_threads k ∧ tick_count (k_pit k') = 1000.
Proof.
  intros k. assert (tick_count (k_pit k) = 0) as Hk by reflexivity. clearbody k.
  pose proof (timer_never_ticks_scheduler (λ i, 16 * i) ∅ k [] (replicate 1000 (IsrFrame 32 0 0 0))) as Hw.
  destruct (kmain_interrupts _ _) as [table k1]. change (register_all [] table) with table in Hw. destruct Hw as (k' & E & A & B & _).
  - rewrite Hk. lia.
  - constructor.
  - by apply Forall_replicate.
  - exists k'. split; [exact E|]. split; [exact A|]. etrans; [exact B|]. rewrite Hk. vm_compute. reflexivity.
Defined.
