(* ===== verification/Boot.v ===== *)
(** The whole of [kmain] (src/kernel/kmain.c), as linked for the 32-bit target.

    The stages are the parts of [kmain] between two of its blank lines, in its
    order, over the kernel's state of Machine.v.  The interrupts that come while
    they run are not interleaved with them (Ps2.v says what one does); the scan
    codes they bring are the batches [k_arrivals]. *)
From S2P Require Import Prelude CString Heap Alloc Pmm Paging Vmm Efi Vfs Tmpfs Fat32 Fs Tree Thread Sched Ports Interrupts Printf Input Ps2 Console Framebuffer Pci Usb Ata Gui NetStack Net Shell Setup Machine Kmain.

#[local] Instance boot_arch : Arch := X86.

(** The addresses the linker fixes: the interrupt stubs, the end of the image, the
    statics and literals whose bytes are read or written, the trampoline and the
    shell's function; and what the stack holds below the frames of vfs.c. *)
Record link := Link {
  l_stubs : Z → Z; l_bss_end : Z; l_bitmap : Z; l_page_dir : Z; l_rx_reply : Z; l_ann : Z;
  l_version : Z; l_hostname : Z; l_osrel : Z; l_idle_tcb : Z; l_idle_stack : Z; l_idle_name : Z;
  l_trampoline : Z; l_shell_name : Z; l_shell_run : Z; l_stack : str
}.

Section kmain.
Context `{Uart D} `{!Mmio D} `{NetCore} (L : link).
Abbreviation handler := (isr_frame_t → kernel D → outcome (kernel D)).
Implicit Types (k : kernel D) (handlers : gmap Z handler).

Definition kmain_early (s : gmap Z handler * kernel D) : gmap Z handler * kernel D :=
  let '(handlers, k) := s in
  let c := with_dev (serial_init (s_dev (k_con k))) (k_con k) in
  let c := with_vga (vga_init (s_vga c, s_dev c)) c in
  let c := kprintf_set_backend KprintVga c in
  kmain_interrupts (l_stubs L) (handlers, with_tables (gdt_init32 (k_gdt k)) (k_idt k) (with_con c k)).

(** [pmm_init] and [vmm_init] with the messages they end with. *)
Definition kmain_pmm k : kernel D :=
  let p := pmm_init (l_bss_end L) (l_bitmap L) (boot_map (k_mem k)) (k_pmm k) in
  klog "[PMM] Total: %u MiB  Free: %u MiB
" [Num (u32 (total_bytes p / (1024 * 1024))); Num (u32 (pmm_available p / (1024 * 1024)))] (with_kpmm p k).

Definition kmain_vmm k : kernel D :=
  klog "[VMM] Paging enabled. Identity mapped 0-128 MiB.
" [] (with_vmm (Vmm32.vmm_init (l_page_dir L) (k_vmm k)) k).

Definition kmain_memory k : kernel D :=
  let k := kmain_vmm (kmain_pmm k) in
  with_kfs (with_fheap (heap_init HEAP_START HEAP_SIZE (fheap (k_fs k))) (k_fs k)) k.

(** The two handlers, and the initialisations that register them. *)
Definition kmain_kb_handler : handler := λ _ k,
  let '(x, c) := kb_handler (k_kbd k, k_con k) in Ok (with_keys x (k_arrivals k) (with_con c k)).
Definition kmain_mouse_handler : handler := λ _ k,
  let '(x, c) := mouse_handler (k_mouse k, k_con k) in Ok (with_mouse x (with_con c k)).

Definition kmain_input (fuel : nat) (s : gmap Z handler * kernel D) : outcome (gmap Z handler * kernel D) :=
  let '(handlers, k) := s in
  d ← keyboard_init fuel (s_dev (k_con k));
  let handlers := isr_register 33 kmain_kb_handler handlers in
  d ← mouse_init fuel d;
  let handlers := isr_register 44 kmain_mouse_handler handlers in
  Ok (handlers, with_con (with_dev d (k_con k)) k).

(** The message of [vfs_mount].  Nothing that runs between it and the end of the
    stage prints or fails other than by the heap. *)
Definition mount_log (nm path : str) k : kernel D :=
  klog "[VFS] Mounted '%s' at %s
" [Str nm; Str path] k.

Definition kmain_root k : outcome (kernel D) :=
  s ← kmain_files (l_version L) (k_fs k);
  Ok (mount_log (bytes "root") (bytes "/") (with_kfs s k)).

Definition kmain_bus k : kernel D :=
  let '(p, c) := pci_init (d_pci (k_drv k), k_con k) in
  let d := k_drv k in
  let k := with_drv (Drv p (d_xhci d) (d_bt d) (d_card d) (d_iface d) (d_ata d)) (with_con c k) in
  let k := with_usb (xhci_init p (k_usb k)).2 k in
  let d := k_drv k in
  let '(_, (bt, c)) := bluetooth_detect p (d_bt d, k_con k) in
  with_drv (Drv (d_pci d) (d_xhci d) bt (d_card d) (d_iface d) (d_ata d)) (with_con c k).

Definition kmain_net k : kernel D :=
  with_net (net_bring_up (l_ann L) (d_pci (k_drv k)) (net_init (k_net k))) k.

(** What the drive answers to the reads of the callback. *)
Definition boot_disk k : BlockDev := ata_read_cb (d_ata (k_drv k)) 0 (k_con k).

(** The message of [fat32_mount], from the boot sector. *)
Definition volume_label (bpb : list Z) : list Z := (λ i, rd bpb (71 + i)) <$> seqZ 0 11.
Definition fat32_log (bpb : list Z) k : kernel D :=
  if negb (rd_le 2 bpb 11 =? 512) then klog "[FAT32] Unsupported sector size %u
" [Num (rd_le 2 bpb 11)] k
  else klog "[FAT32] Volume: %.11s  cluster=%u bytes  root_cluster=%u
" [Str (until_nul (volume_label bpb)); Num (u32 (rd bpb 13 * 512)); Num (rd_le 4 bpb 44)] k.

Definition kmain_disk k : outcome (kernel D) :=
  let '(n, (a, c)) := ata_init (d_ata (k_drv k), k_con k) in
  let d := k_drv k in
  let k := with_drv (Drv (d_pci d) (d_xhci d) (d_bt d) (d_card d) (d_iface d) a) (with_con c k) in
  if 0 <? n then
    let _ : BlockDev := boot_disk k in
    '(fs, s) ← fat32_mount 2048 (k_fs k);
    let k := fat32_log (read_sector 2048 (replicate 512 0)) (with_kfs s k) in
    if fs =? 0 then Ok k else
    let '(r, s) := vfs_mount (bytes "/data") fs (k_fs k) in
    let k := with_kfs s k in
    Ok (if r =? 0 then mount_log (name (node s fs)) (bytes "/data") k else k)
  else Ok k.

(** [fb_init] reads what the loader left in memory. *)
Definition kmain_screen k : kernel D :=
  let c := k_con k in
  let g := s_gui c in
  let '(on, f) := fb_init (with_fb (gfb g) (k_mem k)) in
  let c := with_fb_use on (with_gui (with_gfb (with_fb f (fmem (gfb g))) g) c) in
  if on then
    let c := with_gui (gui_init (s_gui c)) c in
    let f := gfb (s_gui c) in
    let '(w, g) := gui_create_window (bytes "Terminal") 20 30 (fb_width f - 40) (fb_height f - 80) (s_gui c) in
    let c := kprintf_set_backend KprintFb (with_win w (with_gui g c)) in
    klog "Aerogel OS v0.1.0
" [] (with_con c k)
  else with_con c k.

Definition kmain_sched k : kernel D :=
  with_threads (sched_init (l_idle_tcb L) (l_idle_stack L) (l_idle_name L) (k_threads k)) k.

Definition kmain_first_boot (load_fuel fuel : nat) k : outcome (kernel D) :=
  let _ : BlockDev := boot_disk k in
  let _ : FsCode := kernel_fs_code load_fuel in
  kmain_setup id (l_stack L) (l_hostname L) (l_osrel L) fuel k.

Definition kmain_shell k : outcome (kernel D) :=
  '(t, s) ← thread_create (l_trampoline L) (l_shell_name L) (l_shell_run L) 0 (k_threads k);
  Ok (with_threads (sched_yield (sched_add t s)) k).

(** Up to the switch to the shell's thread; the handler table is a state of its
    own, as the handlers act on the rest. *)
Definition kmain (load_fuel fuel : nat) (s : gmap Z handler * kernel D) : outcome (gmap Z handler * kernel D) :=
  let '(handlers, k) := kmain_early s in
  '(handlers, k) ← kmain_input fuel (handlers, kmain_memory k);
  k ← kmain_root k;
  k ← kmain_disk (kmain_net (kmain_bus k));
  k ← kmain_first_boot load_fuel fuel (kmain_sched (kmain_screen k));
  k ← kmain_shell k;
  Ok (handlers, k).

(** One turn of the loop [kmain] ends with, when [sched_yield] returns there. *)
Definition kmain_idle (fuel : nat) k : outcome (kernel D) :=
  n ← net_poll (l_rx_reply L) fuel (k_net k); Ok (with_net n k).
End kmain.

(** ** What byte accesses leave alone *)

(** The ports of the interrupt controllers, the timer, the screen's cursor and the
    serial port. *)
Definition boot_ports : list Z :=
  [0x20; 0x21; 0xA0; 0xA1; 0x80; 0x40; 0x43; 0x3D4; 0x3D5; 0x3F8; 0x3F9; 0x3FA; 0x3FB; 0x3FC; 0x3FD].

(** A relation that holds across every access of these ports holds across the
    routines that make no other. *)
Section accesses.
Context `{Uart D} (R : relation D) `{!PreOrder R} (P : Z → Prop) (HP : Forall P boot_ports).
Context (R_in : ∀ p d, P p → R d (inb p d).2) (R_out : ∀ p v d, P p → R d (outb p v d)).

Lemma boot_port p : bool_decide (p ∈ boot_ports) = true → P p.
Proof. intros Hp%bool_decide_eq_true. by apply (proj1 (list.Forall_forall _ _) HP). Qed.

Lemma acc_outbs l d : Forall (λ x, bool_decide (x.1 ∈ boot_ports) = true) l → R d (outbs l d).
Proof.
  intros Hl. revert d. induction Hl as [|[p v] l Hp _ IH]; intros d; [done|]. unfold outbs in *. cbn [foldl].
  etrans; [apply R_out, boot_port, Hp|apply IH].
Qed.

Lemma acc_cursor v d : R d (update_cursor v d).
Proof. apply acc_outbs. repeat constructor. Qed.

Lemma acc_vga_puts l : ∀ x : vga * D, R x.2 (vga_puts l x).2.
Proof.
  induction l as [|c l IH]; intros x; [done|]. unfold vga_puts in *. cbn [foldl]. etrans; [|apply IH].
  destruct x as [v d]. apply acc_cursor.
Qed.

Lemma acc_vga_init (x : vga * D) : R x.2 (vga_init x).2.
Proof.
  destruct x as [v d]. unfold vga_init, vga_clear. cbv beta iota zeta. cbn [snd]. etrans; [apply acc_cursor|].
  etrans; [|apply acc_cursor]. apply acc_outbs. repeat constructor.
Qed.

Lemma acc_serial_wait n : ∀ d d', serial_wait n d = Ok d' → R d d'.
Proof.
  induction n as [|n IH]; intros d d'; cbn [serial_wait]; [done|]. unfold serial_ready, COM1.
  pose proof (R_in (0x3F8 + 5) d (boot_port (0x3F8 + 5) eq_refl)) as Hr. destruct (inb _ d) as [v d1]. cbn [snd] in Hr.
  case_test; [intros E; etrans; [exact Hr|by apply IH]|by intros [= <-]].
Qed.

Lemma acc_serial_putc n c d d' : serial_putc n c d = Ok d' → R d d'.
Proof.
  unfold serial_putc, COM1. destruct (serial_wait n d) as [d1|?|] eqn:E1; cbn [mbind outcome_bind]; [|done|done].
  apply acc_serial_wait in E1. assert (∀ v d, R d (outb 0x3F8 v d)) as Ho by (intros; by apply R_out, boot_port).
  case_test; cbn [mbind outcome_bind]; [|intros [= <-]; by etrans].
  destruct (serial_wait n _) as [d2|?|] eqn:E2; cbn [mbind outcome_bind]; [|done|done]. apply acc_serial_wait in E2.
  intros [= <-]. etrans; [exact E1|]. etrans; [apply (Ho 13)|]. by etrans.
Qed.

Lemma acc_put_serial l : ∀ d, R d (put_serial l d).
Proof.
  assert (∀ d d', serial_puts uart_polls l d = Ok d' → R d d') as Hl.
  { induction l as [|c l IH]; intros d d'; cbn [serial_puts]; [by intros [= <-]|].
    destruct (serial_putc uart_polls c d) as [d1|?|] eqn:E; cbn [mbind outcome_bind]; [|done|done].
    intros E'. etrans; [by eapply acc_serial_putc|by apply IH]. }
  intros d. apply Hl, put_serial_ok.
Qed.

Lemma acc_print l (c : console D) : R (s_dev c) (s_dev (kprint l c)).
Proof.
  unfold kprint, console_print. change (s_dev (logged l ?c)) with (s_dev c). unfold kprintf_out.
  set (l' := until_nul _). destruct (s_backend c); [done| |].
  - unfold kprint_vga. etrans; [apply (acc_put_serial l')|]. apply (acc_vga_puts l' (s_vga c, put_serial l' (s_dev c))).
  - unfold kprint_fb. etrans; [apply (acc_put_serial l')|]. cbn [s_use_fb s_win with_dev].
    pose proof (acc_vga_puts l' (s_vga c, put_serial l' (s_dev c))) as Hv.
    destruct (s_use_fb c), (s_win c) as [w|]; [done|exact Hv..].
Qed.

Lemma acc_unmask i d : R d (pic_unmask_irq i d).
Proof.
  unfold pic_unmask_irq. assert (P (if i <? 8 then PIC1_DATA else PIC2_DATA)) as Hp by (case_test; by apply boot_port).
  pose proof (R_in _ d Hp) as Hr. destruct (inb _ d) as [v d1]. etrans; [exact Hr|]. by apply R_out.
Qed.

Lemma acc_pic_remap d : R d (pic_remap d).
Proof. change (pic_remap d) with (outbs
  [(0x20, 0x11); (0x80, 0); (0xA0, 0x11); (0x80, 0); (0x21, 0x20); (0x80, 0); (0xA1, 0x28); (0x80, 0); (0x21, 0x04); (0x80, 0);
   (0xA1, 0x02); (0x80, 0); (0x21, 0x01); (0x80, 0); (0xA1, 0x01); (0x80, 0); (0x21, 0xFF); (0xA1, 0xFF)] d).
  apply acc_outbs. repeat constructor.
Qed.

(** With the ports of the keyboard controller among them. *)
Context (P60 : P PS2_DATA) (P64 : P PS2_STATUS).

Definition moves (d : D) (x : outcome D) : Prop := ∀ d', x = Ok d' → R d d'.

Lemma moves_bind d x (k : D → outcome D) : moves d x → (∀ d, moves d (k d)) → moves d (x ≫= k).
Proof. intros Hx Hk d'. destruct x as [d1|?|]; cbn; [|done|done]. intros E. etrans; [by apply Hx|by apply Hk]. Qed.

Lemma moves_wait_clear n m d : moves d (ps2_wait_clear n m d).
Proof.
  revert d. induction n as [|n IH]; intros d d'; cbn [ps2_wait_clear]; [done|]. pose proof (R_in _ d P64) as Hr.
  destruct (inb _ d) as [v d1]. cbn [snd] in Hr. case_test; [by intros [= <-]|]. intros E. etrans; [exact Hr|by apply IH].
Qed.

Lemma moves_wait_set n m d : moves d (ps2_wait_set n m d).
Proof.
  revert d. induction n as [|n IH]; intros d d'; cbn [ps2_wait_set]; [done|]. pose proof (R_in _ d P64) as Hr.
  destruct (inb _ d) as [v d1]. cbn [snd] in Hr. case_test; [|by intros [= <-]]. intros E. etrans; [exact Hr|by apply IH].
Qed.

Lemma moves_cmd n c d : moves d (ps2_send_cmd n c d).
Proof. apply moves_bind; [apply moves_wait_clear|]. intros d1 d' [= <-]. by apply R_out. Qed.
Lemma moves_data n v d : moves d (ps2_send_data n v d).
Proof. apply moves_bind; [apply moves_wait_clear|]. intros d1 d' [= <-]. by apply R_out. Qed.
Lemma moves_mouse_write n v d : moves d (mouse_write n v d).
Proof.
  apply moves_bind; [apply moves_wait_clear|]. intros d1 d' E. etrans; [apply (R_out PS2_CMD 0xD4), P64|]. by apply (moves_data n v) in E.
Qed.

Lemma moves_read n d (k : Z * D → outcome D) : (∀ v d, moves d (k (v, d))) → moves d (ps2_read n d ≫= k).
Proof.
  intros Hk d'. unfold ps2_read. destruct (ps2_wait_set n 1 d) as [d1|?|] eqn:E; cbn [mbind outcome_bind]; [|done|done].
  pose proof (R_in _ d1 P60) as Hr. destruct (inb _ d1) as [v d2]. intros E'. etrans; [by eapply moves_wait_set|].
  etrans; [exact Hr|by eapply Hk].
Qed.

Lemma moves_flush n d : moves d (ps2_flush n d).
Proof.
  revert d. induction n as [|n IH]; intros d d'; cbn [ps2_flush]; [done|]. pose proof (R_in _ d P64) as Hr.
  destruct (inb _ d) as [v d1]. cbn [snd] in Hr. case_test; [by intros [= <-]|]. intros E. etrans; [exact Hr|].
  etrans; [apply R_in, P60|by apply IH].
Qed.

Lemma moves_init n d : moves d (keyboard_init n d) ∧ moves d (mouse_init n d).
Proof.
  split; [unfold keyboard_init|unfold mouse_init, mouse_read];
    repeat first [ apply moves_read; intros ? ? | apply moves_bind; [first [apply moves_cmd|apply moves_data|apply moves_mouse_write|apply moves_flush]|intros ?] ];
    intros d' [= <-]; apply acc_unmask.
Qed.
End accesses.

(** ** The stages *)

(** What is not the console's, the drivers' or an interrupt table. *)
Definition core {D} (k : kernel D) : keyboard * list (list Z) * pmm * mmu * fsys * kthreads :=
  (k_kbd k, k_arrivals k, k_pmm k, k_mmu k, k_fs k, k_thr k).

(** Only the console has moved, its machine by [R]. *)
Definition moved {D} (R : relation D) (k k' : kernel D) : Prop :=
  core k' = core k ∧ k_drv k' = k_drv k ∧ R (s_dev (k_con k)) (s_dev (k_con k')).

#[export] Instance moved_preorder {D} (R : relation D) `{!PreOrder R} : PreOrder (moved R).
Proof. split; [by intros k|]. intros k1 k2 k3 (A & B & C) (E & F & G). split_and!; [congruence..|by etrans]. Qed.

Lemma core_eq {D} (k k' : kernel D) : core k' = core k →
  k_kbd k' = k_kbd k ∧ k_arrivals k' = k_arrivals k ∧ k_pmm k' = k_pmm k ∧ k_mmu k' = k_mmu k ∧ k_fs k' = k_fs k ∧ k_thr k' = k_thr k.
Proof. destruct k, k'. cbn. by intros [= -> -> -> -> -> ->]. Qed.

Lemma with_fmem_same s : with_fheap (with_mem (fheap s) (mem (fheap s))) s = s.
Proof. by destruct s as [?????? []]. Qed.

Section stages.
Context `{Uart D} `{!PciBus D}.
Implicit Types k : kernel D.

Definition same_cfg : relation D := λ d d', pcfg d' = pcfg d.
Definition low_port (p : Z) : Prop := p < PCI_CFG_ADDR.
#[export] Instance same_cfg_preorder : PreOrder same_cfg.
Proof. split; [by intros d|]. intros d1 d2 d3 A B. unfold same_cfg in *. congruence. Qed.
Lemma boot_ports_low : Forall low_port boot_ports.
Proof. unfold low_port. repeat constructor. Qed.

(** The console is a bus, too. *)
#[local] Program Instance console_pci : PciConfig (console D) := {| cfg c := pcfg (s_dev c) |}.
Next Obligation. intros c a Ha. pose proof (pcfg_read (s_dev c) a Ha) as E. cbn in *. unfold PCI_CFG_DATA in E. by destruct (inl _ _). Qed.
Next Obligation. intros c a. pose proof (pcfg_same (s_dev c) a) as E. cbn in *. unfold PCI_CFG_DATA in E. by destruct (inl _ _). Qed.
Next Obligation.
  intros c l. exact (acc_print same_cfg low_port boot_ports_low (λ p d Hp, pcfg_in p d Hp) (λ p v d Hp, pcfg_out p v d Hp) l c).
Qed.

(** The routines before the bus is scanned make byte accesses only. *)
Section accessed.
Context (L : link) (R : relation D) `{!PreOrder R} (P : Z → Prop) (HP : Forall P boot_ports).
Context (R_in : ∀ p d, P p → R d (inb p d).2) (R_out : ∀ p v d, P p → R d (outb p v d)).

Lemma klog_moved fmt ap k : moved R k (klog fmt ap k).
Proof. split; [done|]. split; [done|]. by apply (acc_print R P). Qed.

Lemma kmain_early_spec k : let '(handlers, k') := kmain_early L (∅, k) in
  moved R k k' ∧ ∀ v, handlers !! v = if decide (v = 32) then Some pit_irq_handler else None.
Proof.
  unfold kmain_early, kmain_interrupts, isr_init32, pit_init. cbn [k_con k_idt k_gdt k_pit with_tables with_con kprintf_set_backend].
  split; [split; [done|]; split; [done|]|].
  - cbn [s_dev k_con with_con with_pit with_tables]. rewrite console_pic_remap, console_unmask, console_outbs.
    cbn [s_dev with_dev].
    etrans; [|apply (acc_outbs R P HP R_out); repeat constructor]. etrans; [|apply (acc_unmask R P HP R_in R_out)].
    etrans; [|apply (acc_pic_remap R P HP R_out)]. cbn [s_dev kprintf_set_backend with_vga with_dev snd].
    etrans; [|apply (acc_vga_init R P HP R_out (_, _))]. cbn [s_vga s_dev with_dev snd].
    apply (acc_outbs R P HP R_out). repeat constructor.
  - intros v. unfold isr_register. change (u8 32) with 32. case_decide as Hv; [subst v; by rewrite lookup_insert_eq|].
    by rewrite !lookup_insert_ne, lookup_empty by done.
Qed.

Lemma kmain_pmm_moved k : moved R (with_kpmm (pmm_init (l_bss_end L) (l_bitmap L) (boot_map (k_mem k)) (k_pmm k)) k) (kmain_pmm L k).
Proof. unfold kmain_pmm. cbv zeta. apply klog_moved. Qed.
Lemma kmain_vmm_moved k : moved R (with_vmm (Vmm32.vmm_init (l_page_dir L) (k_vmm k)) k) (kmain_vmm L k).
Proof. unfold kmain_vmm. apply klog_moved. Qed.

(** The page directory is written, then the heap begun. *)
Definition paged k : vmm pmm :=
  Vmm32.vmm_init (l_page_dir L)
    (Vmm (pmm_init (l_bss_end L) (l_bitmap L) (boot_map (k_mem k)) (k_pmm k)) (k_mem k) (k_mmu k)).

Lemma kmain_memory_spec k : let k' := kmain_memory L k in let v := paged k in
  core k' = (k_kbd k, k_arrivals k, pages v, v_mmu v,
    with_fheap (heap_init HEAP_START HEAP_SIZE (with_mem (fheap (k_fs k)) (pmem v))) (k_fs k), k_thr k) ∧
  k_drv k' = k_drv k ∧ R (s_dev (k_con k)) (s_dev (k_con k')).
Proof.
  unfold kmain_memory, paged. pose proof (kmain_pmm_moved k) as H1. revert H1.
  generalize (kmain_pmm L k) as k1. generalize (pmm_init (l_bss_end L) (l_bitmap L) (boot_map (k_mem k)) (k_pmm k)) as p. intros p k1 (C1 & G1 & D1).
  pose proof (kmain_vmm_moved k1) as H2. revert H2. generalize (kmain_vmm L k1) as k2. intros k2 (C2 & G2 & D2). apply core_eq in C1 as (E1 & E2 & E3 & E4 & E5 & E6), C2 as (F1 & F2 & F3 & F4 & F5 & F6).
  split; [|split; [etrans; [exact G2|exact G1]|by etrans]]. unfold core. cbn [k_kbd k_arrivals k_pmm k_mmu k_fs k_thr with_kfs].
  rewrite F1, F2, F3, F4, F5, F6. unfold k_vmm, k_mem. rewrite E3, E4, E5.
  set (v := Vmm32.vmm_init _ _). clearbody v. unfold with_vmm, with_kmem.
  cbn [k_kbd k_arrivals k_pmm k_mmu k_fs k_thr with_kmmu with_kpmm with_kfs]. by rewrite E1, E2, E5, E6.
Qed.
End accessed.

(** The two initialisations register their handlers and return. *)
Lemma kmain_input_spec `{!Ps2Controller D} fuel handlers k n : (ps2_polls ≤ fuel)%nat → (owed (s_dev (k_con k)) ≤ n)%nat → (n + 2 < fuel)%nat →
  ∃ k', kmain_input fuel (handlers, k) = Ok (isr_register 44 kmain_mouse_handler (isr_register 33 kmain_kb_handler handlers), k') ∧
    moved same_cfg k k'.
Proof.
  intros Hp Ho Hf. unfold kmain_input.
  assert (low_port PS2_DATA ∧ low_port PS2_STATUS) as [P1 P2] by done.
  pose proof (moves_init same_cfg low_port boot_ports_low (λ p d Hp, pcfg_in p d Hp) (λ p v d Hp, pcfg_out p v d Hp) P1 P2 fuel) as Hm.
  destruct (keyboard_init_returns fuel Hp n _ Ho Hf) as [d1 E1]. destruct (mouse_init_returns fuel Hp d1) as [d2 E2].
  rewrite E1. cbn [mbind outcome_bind]. rewrite E2. cbn [mbind outcome_bind]. eexists. split; [done|]. split; [done|]. split; [done|].
  etrans; [apply (proj1 (Hm _) _ E1)|apply (proj2 (Hm _) _ E2)].
Qed.

(** No function of the class among those the scan keeps. *)
Definition lacks (cls sub pif : Z) (c : Z → Z) : Prop :=
  list_find (matches cls sub pif) (take (Z.to_nat PCI_MAX_DEVICES) (pci_functions c)) = None.

Context `{!Mmio D} `{NetCore} (L : link).

Lemma usb_log_core fmt ap k : let k' := with_usb (usb_log fmt ap (k_usb k)) k in core k' = core k ∧ k_drv k' = k_drv k.
Proof.
  unfold usb_log. generalize (klog fmt ap (udev (k_usb k))) as c. intros c. split; [|by destruct k as [???????????[]]].
  unfold core. cbn. by rewrite with_fmem_same.
Qed.

Lemma net_log_core fmt ap k : let k' := with_net (net_log fmt ap (net_init (k_net k))) k in core k' = core k ∧ d_ata (k_drv k') = d_ata (k_drv k).
Proof.
  unfold net_log. generalize (klog fmt ap (ndev (net_init (k_net k)))) as c. intros c. split; [|done].
  unfold core. cbn. by rewrite with_fmem_same.
Qed.

Lemma xhci_absent p k : pci_find_class XHCI_CLASS XHCI_SUBCLASS XHCI_PROGIF p = None →
  core (with_usb (xhci_init p (k_usb k)).2 k) = core k ∧ k_drv (with_usb (xhci_init p (k_usb k)).2 k) = k_drv k.
Proof. intros E. unfold xhci_init. rewrite E. apply usb_log_core. Qed.

Lemma rtl_absent p k : pci_find_class 0x02 0x00 0xFF p = None → let k' := with_net (net_bring_up (l_ann L) p (net_init (k_net k))) k in
  core k' = core k ∧ d_ata (k_drv k') = d_ata (k_drv k).
Proof. intros E. unfold net_bring_up, rtl8139_init. rewrite E. apply net_log_core. Qed.

Lemma bluetooth_core p k : let '(_, (bt, c)) := bluetooth_detect p (d_bt (k_drv k), k_con k) in let d := k_drv k in
  let k' := with_drv (Drv (d_pci d) (d_xhci d) bt (d_card d) (d_iface d) (d_ata d)) (with_con c k) in
  core k' = core k ∧ d_ata (k_drv k') = d_ata (k_drv k) ∧ d_pci (k_drv k') = d_pci (k_drv k).
Proof. by destruct (bluetooth_detect p _) as [b [bt c]]. Qed.

(** Without a controller and a card the drivers only print. *)
Lemma kmain_bus_spec k : length (devices (d_pci (k_drv k))) = Z.to_nat PCI_MAX_DEVICES →
  let c := pcfg (s_dev (k_con k)) in lacks XHCI_CLASS XHCI_SUBCLASS XHCI_PROGIF c →
  let k' := kmain_bus k in core k' = core k ∧ d_ata (k_drv k') = d_ata (k_drv k) ∧ found (pci_functions c) (d_pci (k_drv k')).
Proof.
  intros Hl c Hx. unfold kmain_bus.
  destruct (pci_init_found (d_pci (k_drv k)) (k_con k) Hl) as (p & c1 & -> & _ & Hf). change (cfg (k_con k)) with c in Hf.
  assert (pci_find_class XHCI_CLASS XHCI_SUBCLASS XHCI_PROGIF p = None) as Hn by (by rewrite (find_class_found _ _ _ _ p Hf), Hx).
  cbv zeta. match goal with |- context [k_usb ?k0] => assert (core k0 = core k ∧ d_ata (k_drv k0) = d_ata (k_drv k) ∧ d_pci (k_drv k0) = p) as (F1 & F2 & F3) by done;
    generalize dependent k0 end. intros k0 F1 F2 F3.
  destruct (xhci_absent p k0 Hn) as [E1 E2]. generalize dependent (with_usb (xhci_init p (k_usb k0)).2 k0). intros k1 E1 E2.
  pose proof (bluetooth_core p k1) as Hb. destruct (bluetooth_detect p _) as [b [bt c2]]. cbv zeta in Hb. destruct Hb as (-> & -> & ->).
  rewrite E1, E2, F1, F2, F3. done.
Qed.

Lemma kmain_net_spec l k : found l (d_pci (k_drv k)) → list_find (matches 0x02 0x00 0xFF) (take (Z.to_nat PCI_MAX_DEVICES) l) = None →
  let k' := kmain_net L k in core k' = core k ∧ d_ata (k_drv k') = d_ata (k_drv k).
Proof. intros Hf He. apply rtl_absent. by rewrite (find_class_found _ _ _ _ _ Hf), He. Qed.

(** Without drives nothing is mounted on [/data]. *)
Lemma kmain_disk_spec k : d_ata (k_drv k) = ata_0 → silent (D := console D) ATA_PRIMARY_BASE → silent (D := console D) ATA_SECONDARY_BASE →
  ∃ k', kmain_disk k = Ok k' ∧ core k' = core k.
Proof.
  intros Ea Hp Hs. unfold kmain_disk, ata_init. rewrite Ea.
  destruct (probe_silent ATA_PRIMARY_BASE ATA_PRIMARY_ALT 0 0 ata_0 (k_con k) Hp) as [d1 ->].
  destruct (probe_silent ATA_PRIMARY_BASE ATA_PRIMARY_ALT 1 1 ata_0 d1 Hp) as [d2 ->].
  destruct (probe_silent ATA_SECONDARY_BASE ATA_SECONDARY_ALT 0 2 ata_0 d2 Hs) as [d3 ->].
  destruct (probe_silent ATA_SECONDARY_BASE ATA_SECONDARY_ALT 1 3 ata_0 d3 Hs) as [d4 ->].
  cbn [ndrives ata_0]. eexists. split; reflexivity.
Qed.

Lemma silent_console b : silent (D := D) b → silent (D := console D) b.
Proof.
  intros [Hs|Hs]; [left|right]; intros c; rewrite <- (Hs (s_dev c)); cbn [inb console_ports]; by destruct (inb _ (s_dev c)).
Qed.

Lemma kmain_screen_core k : core (kmain_screen k) = core k.
Proof.
  unfold kmain_screen. destruct (fb_init _) as [on f]. destruct on; [|done].
  destruct (gui_create_window _ _ _ _ _ _) as [w g]. done.
Qed.
End stages.
