(* ===== verification/Booted.v ===== *)
(** What [kmain] has started when it reaches the shell, and what its idle loop
    makes of the scheduler. *)
From S2P Require Import Prelude CString Heap Alloc Pmm Paging Vmm Efi Vfs Tmpfs Fat32 Fs Tree Thread Sched Ports Interrupts Printf Input Ps2 Console Pci Usb Ata NetStack Net Shell Setup Machine Kmain Boot.

(** ** A thread made while the heap is shared *)

Section shared_heap.
Context `{Arch} (lo hi : Z).

(** Memory that differs outside the blocks of [O], and inside [lo, hi) only. *)
Definition private (O : owner → option (Z * Z)) (m m' : memory) : Prop :=
  mem_kept (ONode 0) O m m' ∧ outside lo hi m m'.

Lemma private_trans O m1 m2 m3 : private O m1 m2 → private O m2 m3 → private O m1 m3.
Proof.
  intros [A B] [C E]. split; [|by eapply outside_trans]. intros o p n a Ho Hne Ha. by rewrite (C o p n), (A o p n).
Qed.

Lemma private_write O m m' p n : lo ≤ p → p + n ≤ hi → (∀ a, a < p ∨ p + n ≤ a → ld m' a = ld m a) →
  (∀ o p' n', O o = Some (p', n') → 0 < n' → p' + n' ≤ p ∨ p + n ≤ p') → private O m m'.
Proof.
  intros Hlo Hhi Hm Hap. split; [|intros a Ha; apply Hm; lia].
  intros o p' n' a Ho _ Ha. apply Hm. destruct (Hap o p' n' Ho); lia.
Qed.

(** The threads after [thread_create]: one more, the rest as before. *)
Definition with_thread (t : Z) (x : thread_t) (k k' : kthreads) : Prop :=
  threads k' = <[t := x]> (threads k) ∧ current_thread k' = current_thread k ∧ run_queue_head k' = run_queue_head k ∧ cpu k' = cpu k.

(** The stack of the thread [t] is in the heap, and not in the blocks of [O]. *)
Definition own_stack (O : owner → option (Z * Z)) (k : kthreads) (t : Z) : Prop :=
  let stk := stack (tcb k t) in lo < stk ∧ stk + THREAD_STACK_SIZE ≤ hi ∧
  ∀ o p n, O o = Some (p, n) → 0 < n → p + n ≤ stk ∨ stk + THREAD_STACK_SIZE ≤ p.

Lemma thread_create_keeps O tramp name fn arg k : sep lo hi (kheap k) O →
  or_oom (λ '(t, k'), sep lo hi (kheap k') O ∧ private O (mem (kheap k)) (mem (kheap k')) ∧ lo < t ∧
      own_stack O k' t ∧ lo < stack (tcb k' t) ∧ with_thread t (tcb k' t) k k' ∧ tstate (tcb k' t) = THREAD_READY ∧ t_next (tcb k' t) = 0)
    (thread_create tramp name fn arg k).
Proof.
  intros Hs. unfold thread_create. pose proof word_bits_bound. pose proof W_bound. pose proof frame_bound. pose proof HDR_bound.
  assert (2 ^ 32 ≤ 2 ^ word_bits) by (apply Z.pow_le_mono_r; lia).
  assert (36 < sizeof_thread ≤ 88) as Hsz by (unfold sizeof_thread; destruct the_arch; lia).
  assert (sizeof_thread + 7 < 2 ^ word_bits ∧ 16 * 1024 + 7 < 2 ^ word_bits) as [G1 G2] by lia.
  assert (4096 ≤ lo ∧ hi < 2 ^ 32) as [B1 B2] by (destruct Hs as ([l (? & ? & ? & _)] & _); done).
  destruct (kmalloc_result (kheap k) lo hi sizeof_thread) as [(t & h1 & E1)|E1]; [apply Hs|lia|lia| |by rewrite E1].
  rewrite E1. cbn [mbind outcome_bind].
  destruct (sep_kmalloc_apart lo hi (kheap k) O sizeof_thread t h1 Hs) as (Hs1 & M1 & Lt & Ut & Ap1); [lia|done|done|].
  set (m1 := memset t 0 sizeof_thread (mem h1)). assert (mem_ok m1) as Hm1 by (apply memset_loop_ok, Hs1).
  pose proof (sep_with_mem lo hi h1 O m1 Hm1 Hs1) as Hs1'. unfold THREAD_STACK_SIZE, THREAD_NAME_LEN.
  destruct (kmalloc_result (with_mem h1 m1) lo hi (16 * 1024)) as [(stk & h2 & E2)|E2]; [apply Hs1'|lia|lia| |by rewrite E2].
  rewrite E2. cbn [mbind outcome_bind].
  destruct (sep_kmalloc_apart lo hi (with_mem h1 m1) O (16 * 1024) stk h2 Hs1') as (Hs2 & M2 & Ls & Us & Ap2); [lia|done|done|].
  rewrite (proj2 (Z.eqb_neq stk 0)) by lia. set (m2 := strncpy (t + 4) name (32 - 1) (mem h2)).
  assert (mem_ok m2) as Hm2 by (apply mem_ok_strncpy, Hs2). rewrite wrap_small by lia.
  assert (W * Z.of_nat (length (initial_frame tramp fn arg)) = frame_bytes + 3 * W) as Hfr.
  { unfold initial_frame, frame_bytes. rewrite length_app, length_replicate. cbn [length]. lia. }
  assert (W * Z.of_nat (length (initial_frame tramp fn arg)) ≤ stk + 16 * 1024 < 2 ^ word_bits) as Hroom by (rewrite Hfr; lia).
  pose proof (λ b, push_all_mem (initial_frame tramp fn arg) (stk + 16 * 1024) m2 b Hroom) as Hpush.
  pose proof (mem_ok_push_all (initial_frame tramp fn arg) (stk + 16 * 1024) m2 Hm2) as Hm3. cbn [mem with_mem].
  rewrite Hfr in Hpush. destruct (push_all (initial_frame tramp fn arg) (stk + 16 * 1024) m2) as [sp1 m3]. cbn [snd or_oom] in *.
  cbn [kheap with_ids put_tcb with_kheap mem with_mem].
  split; [apply sep_with_mem; [done|]; by apply sep_with_mem|]. split; [|split; [done|split]].
  - apply (private_trans _ _ m1); [|apply (private_trans _ _ m2)].
    + apply (private_write _ _ _ t sizeof_thread); [lia|lia| |done]. intros a Ha. unfold m1.
      by rewrite memset_spec, decide_False, M1 by lia.
    + apply (private_write _ _ _ t sizeof_thread); [lia|lia| |done]. intros a Ha. unfold m2.
      rewrite strncpy_frame by lia. by rewrite M2.
    + apply (private_write _ _ _ stk (16 * 1024)); [lia|lia| |done]. intros a Ha. apply Hpush. lia.
  - unfold own_stack, tcb, with_ids, put_tcb. cbn [threads]. rewrite lookup_insert_eq. cbn [default from_option id stack]. done.
  - unfold with_thread, tcb, with_ids, put_tcb. cbn. rewrite lookup_insert_eq. cbn. done.
Qed.
End shared_heap.

(** ** The switch to the new thread *)

Section first_switch.
Context `{Arch} (lo hi : Z).

Lemma switch_kheap a e k : kheap (switch_context a e k) = with_mem (kheap k) (push_all (callee_saved (cpu k)) (sp (cpu k)) (mem (kheap k))).2.
Proof. unfold switch_context. destruct (push_all _ _ _) as [sp1 m]. by destruct (pop_n n_saved e m). Qed.

(** The processor after a switch depends on the processor, the memory and the
    stack switched to. *)
Lemma switch_cpu a b e k k' : cpu k' = cpu k → kheap k' = kheap k → cpu (switch_context b e k') = cpu (switch_context a e k).
Proof. intros Ec Eh. unfold switch_context. rewrite Ec, Eh. destruct (push_all _ _ _) as [sp1 m]. by destruct (pop_n n_saved e m). Qed.

(** The processor is about to run [fn(arg)] through the trampoline. *)
Definition entering (tramp fn arg : Z) (k : kthreads) : Prop :=
  pc (cpu k) = tramp ∧ ld_word (mem (kheap k)) (sp (cpu k)) = fn ∧ ld_word (mem (kheap k)) (sp (cpu k) + W) = arg.

(** The bytes the switch pushes to, below the stack pointer. *)
Definition frame_pushed (k : kthreads) (a : Z) : Prop := sp (cpu k) - frame_bytes ≤ a < sp (cpu k).

Lemma shell_started s t tramp name fn k idle :
  represents lo hi s t → kheap k = fheap s → sched_ok k [] → current_thread k = idle → tstate (tcb k idle) = THREAD_RUNNING →
  idle < lo → cpu_ok (cpu k) → sp (cpu k) ≤ lo → 0 ≤ tramp < 2 ^ word_bits → 0 ≤ fn < 2 ^ word_bits →
  or_oom (λ '(sh, k1), let k2 := sched_yield (sched_add sh k1) in
      represents lo hi (with_fheap (kheap k2) s) t ∧ entering tramp fn 0 k2 ∧
      sched_ok k2 [idle] ∧ current_thread k2 = sh ∧ tstate (tcb k2 sh) = THREAD_RUNNING ∧ own_stack lo hi (owned s) k2 sh ∧
      ∀ a, a < lo ∨ hi ≤ a → ¬ frame_pushed k a → ld (mem (kheap k2)) a = ld (mem (kheap k)) a)
    (thread_create tramp name fn 0 k).
Proof.
  intros Hr Eh Hok Ecur Hrun Hidle Hcpu Hsp Ht Hf. pose proof Hr as ((_ & Hsep & _) & _). rewrite <- Eh in Hsep.
  pose proof (thread_create_keeps lo hi (owned s) tramp name fn 0 k Hsep) as Hk.
  destruct (thread_create tramp name fn 0 k) as [[sh k1]|?|] eqn:E; [|exact Hk|exact Hk]. cbn [or_oom] in *.
  destruct Hk as (Hsep1 & [Hm Hout] & Lt & Hstk & Ls & (Eth & Ecur1 & Ehd & Ecpu) & Hready & Hnext).
  assert (0 ≤ 0 < 2 ^ word_bits) as H0 by lia. pose proof frame_bound.
  destruct (thread_create_enters tramp name fn 0 sh idle lo hi k k1 (proj1 Hsep) Hcpu Ht Hf H0 E ltac:(left; lia)) as (_ & _ & _ & Hent).
  destruct Hent as (_ & Epc & Efn & Earg).
  destruct Hok as ((_ & _ & Hhd & _) & _ & Hc0 & _ & Hnx). cbn [List.hd] in Hhd.
  assert (Sched.ring k1 []) as Hring by (split_and!; [constructor|set_solver|by rewrite Ehd|done]).
  assert (∀ a, a ∉ [] → t_next (tcb k1 a) = 0) as Hnx1.
  { intros a Ha. destruct (decide (a = sh)) as [->|Hne]; [done|]. unfold tcb in *. rewrite Eth, lookup_insert_ne by done. by apply Hnx. }
  assert (idle ≠ 0 ∧ idle ≠ sh ∧ sh ≠ 0) as (Hi0 & His & Hs0) by (destruct Hsep as ([l (? & ? & _)] & _); split_and!; [congruence|lia|lia]).
  destruct (enqueue_spec k1 [] sh Hring Hs0) as (_ & _ & Hst & _ & Hesp & Ecur2 & Eh2 & Ecpu2); [set_solver|].
  assert (sched_ok (enqueue sh k1) [sh]) as Hok2.
  { apply (enqueue_ok k1 [] sh); [done|set_solver|congruence| |done|done|set_solver]. rewrite Ecur1, Ecur. set_solver. }
  set (k1' := enqueue sh k1) in *. assert (tstate (tcb k1' (current_thread k1')) = THREAD_RUNNING) as Hrun2.
  { rewrite Ecur2, Ecur1, Ecur, Hst by done. unfold tcb in *. by rewrite Eth, lookup_insert_ne. }
  destruct (sched_yield_spec k1' sh [] Hok2) as (A & B & C & _). rewrite Hrun2, bool_decide_eq_true_2 in A by done.
  rewrite Ecur2, Ecur1, Ecur in A. cbn [app] in A.
  destruct (sched_pick_spec k1' sh [] Hok2) as (k2 & Epick & _ & _ & _ & _ & _ & Hesp' & Eh3 & Ecpu3).
  assert (∃ c, sched_yield k1' = switch_context c (esp (tcb k1 sh)) k2) as [c Ey].
  { unfold sched_yield. rewrite Epick, (proj2 (Z.eqb_neq sh 0)), Hesp' by done. by rewrite (proj2 (Hesp sh)); eexists. }
  assert (own_stack lo hi (owned s) (sched_yield k1') sh) as Hown.
  { unfold own_stack. rewrite (same_stacks_yield k1' sh). unfold k1'. by rewrite (same_stacks_enqueue sh k1 sh). }
  cbv zeta. unfold sched_add. fold k1'. rewrite Ey in A, B, C, Hown |- *. unfold entering. rewrite switch_kheap in Efn, Earg |- *.
  rewrite (switch_cpu idle c _ k1 k2) by congruence. rewrite Eh3, Ecpu3, Eh2, Ecpu2, Ecpu in *.
  set (m := (push_all _ _ _).2) in *. cbn [mem with_mem] in *.
  assert (∀ a, ¬ frame_pushed k a → ld m a = ld (mem (kheap k1)) a) as Hframe.
  { intros a Ha. unfold frame_pushed in Ha. destruct Hcpu as (Hl & _ & C1 & C2). pose proof W_bound.
    apply push_all_mem; rewrite Hl; fold frame_bytes; lia. }
  split; [|split; [done|]; split; [done|]; split; [done|]; split; [done|]; split; [done|]].
  - apply (represents_outside lo hi (with_fheap (kheap k1) s) t m).
    + apply (represents_heap lo hi s t); [done|by apply Hsep1|]. by rewrite <- Eh.
    + apply mem_ok_push_all, Hsep1.
    + intros a Ha. apply Hframe. unfold frame_pushed. lia.
  - intros a Ha Hp. rewrite Hframe by done. by apply Hout.
Qed.
End first_switch.

(** ** The part of [kmain] on the file systems, the heap and the threads *)

#[local] Existing Instance boot_arch.

Section boot_heap.
Context `{BlockDev} (L : link) (load_fuel : nat).
#[local] Instance booted_code : FsCode := kernel_fs_code load_fuel.

(** From [sched_init] on, the host name being chosen from [line]. *)
Definition boot_tail (line : str) (s : fsys) (k : kthreads) : outcome (fsys * kthreads) :=
  let k := sched_init (l_idle_tcb L) (l_idle_stack L) (l_idle_name L) (with_kheap (fheap s) k) in
  s ← setup_files (l_stack L) (l_hostname L) (l_osrel L) (set_hostname (l_hostname L) (chosen line) (with_fheap (kheap k) s));
  '(t, k) ← thread_create (l_trampoline L) (l_shell_name L) (l_shell_run L) 0 (with_kheap (fheap s) k);
  let k := sched_yield (sched_add t k) in
  Ok (with_fheap (kheap k) s, k).

Definition region_apart (r s : Z * Z) : Prop := r.1 + r.2 ≤ s.1 ∨ s.1 + s.2 ≤ r.1.

(** The bytes of the image that are read or written while the processor's stack
    pointer is [sp]. *)
Definition image_regions (sp : Z) : list (Z * Z) :=
  [(l_page_dir L, 4096); (l_hostname L, 64); (l_osrel L, 30); (l_version L, 18); (l_idle_tcb L, sizeof_thread); (sp - frame_bytes, frame_bytes)].

(** They lie below the heap and apart from each other. *)
Definition link_ok (sp : Z) : Prop :=
  Forall (λ r, 0 < r.1 ∧ r.1 + r.2 ≤ HEAP_START) (image_regions sp) ∧
  ForallOrdPairs region_apart (image_regions sp) ∧
  l_page_dir L mod 4096 = 0 ∧ 0 ≤ l_trampoline L < 2 ^ 32 ∧ 0 ≤ l_shell_run L < 2 ^ 32.

Definition HEAP_END : Z := HEAP_START + HEAP_SIZE.

(** No byte of the region changes. *)
Definition region_kept (r : Z * Z) (m m' : memory) : Prop := ∀ a, r.1 ≤ a < r.1 + r.2 → ld m' a = ld m a.

Lemma sched_init_frame a idle_tcb idle_stack name k : a < idle_tcb ∨ idle_tcb + sizeof_thread ≤ a →
  ld (mem (kheap (sched_init idle_tcb idle_stack name k))) a = ld (mem (kheap k)) a.
Proof.
  intros Ha. assert (sizeof_thread = 68) as Es by done. unfold sched_init, thread_init_idle, THREAD_NAME_LEN. cbn [kheap with_ids thread_set_current put_tcb with_kheap mem with_mem with_head].
  rewrite strncpy_frame, memset_spec, decide_False by lia. done.
Qed.

Lemma sched_init_heap idle_tcb idle_stack name k : mem_ok (mem (kheap k)) →
  ∃ m, kheap (sched_init idle_tcb idle_stack name k) = with_mem (kheap k) m ∧ mem_ok m.
Proof. intros Hm. eexists. split; [reflexivity|]. by apply mem_ok_strncpy, memset_loop_ok. Qed.

(** The regions' order, as inequalities. *)
Lemma link_ok_apart sp : link_ok sp →
  statics_ok HEAP_START HEAP_END (l_hostname L) (l_osrel L) ∧
  (0 < l_idle_tcb L ∧ l_idle_tcb L + 68 ≤ HEAP_START ∧ sp ≤ HEAP_START) ∧
  region_apart (l_idle_tcb L, 68) (l_hostname L, 64) ∧ region_apart (l_idle_tcb L, 68) (l_osrel L, 30) ∧
  region_apart (l_idle_tcb L, 68) (l_page_dir L, 4096) ∧ region_apart (l_hostname L, 64) (l_page_dir L, 4096) ∧
  region_apart (sp - frame_bytes, frame_bytes) (l_page_dir L, 4096) ∧ 0 < l_page_dir L ∧ l_page_dir L + 4096 ≤ HEAP_START ∧
  region_apart (l_osrel L, 30) (l_page_dir L, 4096) ∧ (0 < l_version L ∧ l_version L + 18 ≤ HEAP_START).
Proof.
  intros (Hb & Hp & _). unfold image_regions in *. assert (sizeof_thread = 68) as Es by done. rewrite Es in *.
  repeat match goal with Hf : Forall _ (_ :: _) |- _ => apply Forall_cons_1 in Hf as [? ?]
    | Hp : ForallOrdPairs _ (_ :: _) |- _ => inversion_clear Hp end.
  repeat match goal with Hf : Forall _ (_ :: _) |- _ => apply Forall_cons_1 in Hf as [? ?] end.
  unfold region_apart, statics_ok in *. cbn [fst snd] in *. split_and!; lia.
Qed.

Lemma boot_tail_spec line s k t : represents HEAP_START HEAP_END s t → before_setup (vfs_root s) t →
  link_ok (sp (cpu k)) → load_bytes 30 (l_osrel L) (mem (fheap s)) = OS_RELEASE ++ [0] → ld (mem (fheap s)) (l_hostname L + 63) = 0 →
  (length line ≤ 63)%nat → Forall (λ c, 0 < c < 256) line → threads k = ∅ → cpu_ok (cpu k) →
  or_oom (λ '(s', k'), (∃ t', represents HEAP_START HEAP_END s' t' ∧ after_setup (vfs_root s') (chosen line) (OS_RELEASE ++ [0]) t') ∧
      entering (l_trampoline L) (l_shell_run L) 0 k' ∧ sched_ok k' [l_idle_tcb L] ∧
      tstate (tcb k' (current_thread k')) = THREAD_RUNNING ∧ own_stack HEAP_START HEAP_END (owned s') k' (current_thread k') ∧ kheap k' = fheap s' ∧
      region_kept (l_page_dir L, 4096) (mem (fheap s)) (mem (fheap s')))
    (boot_tail line s k).
Proof.
  intros Hr Hb HL Hrel H63 Hlen Hline Hth Hcpu. pose proof HL as (_ & _ & _ & Htr & Hrun).
  apply link_ok_apart in HL as (Hst & (I1 & I2 & I3) & A1 & A2 & A3 & A4 & A5 & P1 & P2 & _). unfold boot_tail.
  set (k1 := sched_init _ _ _ (with_kheap (fheap s) k)).
  assert (sched_ok k1 []) as Hok by (apply sched_init_ok; [exact Hth|lia]).
  assert (∀ a, a < l_idle_tcb L ∨ l_idle_tcb L + 68 ≤ a → ld (mem (kheap k1)) a = ld (mem (fheap s)) a) as Hm1.
  { intros a Ha. unfold k1. by rewrite (sched_init_frame a). }
  assert (tstate (tcb k1 (l_idle_tcb L)) = THREAD_RUNNING ∧ current_thread k1 = l_idle_tcb L ∧ cpu k1 = cpu k) as (Hst1 & Hc1 & Ecpu).
  { split_and!; [|done|done]. unfold k1, sched_init, thread_init_idle. cbn. unfold tcb. cbn. by rewrite lookup_insert_eq. }
  destruct (sched_init_heap (l_idle_tcb L) (l_idle_stack L) (l_idle_name L) (with_kheap (fheap s) k)) as (m1 & Eh1 & Hmok); [apply Hr|].
  fold k1 in Eh1. set (s1 := with_fheap (kheap k1) s). unfold HEAP_END, region_apart in *. cbn [fst snd] in *.
  assert (represents HEAP_START (HEAP_START + HEAP_SIZE) s1 t) as Hr1.
  { unfold s1. rewrite Eh1 in *. apply represents_outside; [done|done|]. intros a Ha. apply Hm1. lia. }
  clearbody k1. assert (load_bytes 30 (l_osrel L) (mem (fheap s1)) = OS_RELEASE ++ [0]) as Hrel1.
  { rewrite <- Hrel. apply load_bytes_ext. intros a Ha. apply Hm1. lia. }
  assert (ld (mem (fheap s1)) (l_hostname L + 63) = 0) as H631 by (rewrite <- H63; apply Hm1; lia).
  pose proof (setup_files_named load_fuel HEAP_START (HEAP_START + HEAP_SIZE) (l_stack L) (l_hostname L) (l_osrel L) s1 t (vfs_root s)
    line Hr1 eq_refl Hb Hst Hrel1 H631 Hlen Hline) as Hn.
  destruct (chosen_ok line Hlen Hline) as [Hnl Hnc].
  destruct (set_hostname_spec (l_hostname L) (chosen line) s1 Hnl Hnc H631) as [_ Hframe].
  eapply or_oom_bind; [exact Hn|]. clear Hn. intros s2 (Eroot & Hout & t' & Hr2 & Hafter).
  eapply or_oom_bind.
  { apply (shell_started HEAP_START (HEAP_START + HEAP_SIZE) s2 t' (l_trampoline L) (l_shell_name L) (l_shell_run L)
      (with_kheap (fheap s2) k1) (l_idle_tcb L)); [done|done|exact Hok|done|exact Hst1|lia|by rewrite <- Ecpu in Hcpu| |done|done].
    cbn [cpu with_kheap]. by rewrite Ecpu. }
  intros [sh k2] (Hr3 & Hent & Hok3 & Hcur & Hst3 & Hown & Hm3). cbn [or_oom].
  split; [by exists t'; rewrite <- Eroot in Hafter|]. split; [done|]. split; [done|]. split; [by rewrite Hcur|]. split; [by rewrite Hcur|]. split; [done|].
  intros a Ha. cbn [fst snd] in Ha. cbn [fheap with_fheap].
  rewrite Hm3; [|lia|unfold frame_pushed; cbn [cpu with_kheap]; rewrite Ecpu; lia]. cbn [kheap with_kheap].
  rewrite Hout by lia. rewrite Hframe by lia. apply Hm1. lia.
Qed.
End boot_heap.

(** ** The whole boot *)

Section boot.
Context `{Uart D} `{!PciBus D} `{!Ps2Controller D} `{!Mmio D} `{NetCore} (L : link) (load_fuel fuel : nat).
Abbreviation handler := (isr_frame_t → kernel D → outcome (kernel D)).
Implicit Types (k : kernel D) (handlers : gmap Z handler).

Lemma three_handlers {A} (t : gmap Z A) (x y z : A) : (∀ v, t !! v = if decide (v = 32) then Some x else None) → ∀ v,
  <[u8 44 := z]> (<[u8 33 := y]> t) !! v = if v =? 32 then Some x else if v =? 33 then Some y else if v =? 44 then Some z else None.
Proof.
  intros Ht v. change (u8 44) with 44. change (u8 33) with 33. destruct (Z.eqb_spec v 32) as [->|]; [|destruct (Z.eqb_spec v 33) as [->|]; [|destruct (Z.eqb_spec v 44) as [->|]]].
  - by rewrite !lookup_insert_ne, Ht by lia.
  - rewrite lookup_insert_ne by lia. apply lookup_insert_eq.
  - apply lookup_insert_eq.
  - rewrite !lookup_insert_ne, Ht by lia. by rewrite decide_False.
Qed.

(** The handlers that are registered, and no others. *)
Definition boot_table handlers : Prop := ∀ v, handlers !! v =
  if v =? 32 then Some pit_irq_handler else if v =? 33 then Some kmain_kb_handler else if v =? 44 then Some kmain_mouse_handler else None.

(** A machine without an xHCI controller, an Ethernet card or a drive, and with
    fuel for the keyboard controller's answers and the two lines typed. *)
Definition plain_machine k : Prop :=
  length (devices (d_pci (k_drv k))) = Z.to_nat PCI_MAX_DEVICES ∧ d_ata (k_drv k) = ata_0 ∧
  lacks XHCI_CLASS XHCI_SUBCLASS XHCI_PROGIF (pcfg (s_dev (k_con k))) ∧ lacks 0x02 0x00 0xFF (pcfg (s_dev (k_con k))) ∧
  silent (D := D) ATA_PRIMARY_BASE ∧ silent (D := D) ATA_SECONDARY_BASE ∧
  (ps2_polls ≤ fuel)%nat ∧ (owed (s_dev (k_con k)) + 2 < fuel)%nat.

(** The typed lines. *)
Definition typed_lines k (line : str) (rest2 : list (option key_event_t)) : Prop :=
  Forall (λ c, 0 < c < 256) line ∧ (length (typed k) ≤ fuel)%nat ∧
  ∃ echo rest line2 echo2, edit 63 [] (typed k) = Some (line, echo, rest) ∧ (length rest ≤ fuel)%nat ∧
    edit 63 [] rest = Some (line2, echo2, rest2) ∧ Forall (λ c, c ≠ 0) line2.

(** The stages before the root file system. *)
Lemma kmain_to_root k : plain_machine k →
  ∃ handlers k1, kmain_input fuel ((kmain_early L (∅, k)).1, kmain_memory L (kmain_early L (∅, k)).2) = Ok (handlers, k1) ∧
    boot_table handlers ∧ same_cfg (s_dev (k_con k)) (s_dev (k_con k1)) ∧ k_drv k1 = k_drv k ∧
    let v := paged L k in core k1 = (k_kbd k, k_arrivals k, pages v, (v_mmu v),
      with_fheap (heap_init HEAP_START HEAP_SIZE (with_mem (fheap (k_fs k)) (pmem v))) (k_fs k), k_thr k).
Proof.
  intros (_ & _ & _ & _ & _ & _ & Hpolls & Howed).
  set (R := λ d d' : D, owed d' = owed d ∧ same_cfg d d'). set (P := λ p, p ≠ PS2_DATA ∧ p ≠ PS2_STATUS ∧ p < PCI_CFG_ADDR).
  assert (PreOrder R) as HR.
  { unfold R, same_cfg. split; [by intros d|]. intros d1 d2 d3 [A B] [C E]. split; congruence. }
  assert (Forall P boot_ports) as HP by (unfold P; repeat constructor; done).
  assert (∀ p d, P p → R d (inb p d).2) as Hi by (intros p d (A & B & C); split; [by apply ps2_other_in|by apply pcfg_in]).
  assert (∀ p v d, P p → R d (outb p v d)) as Ho by (intros p v d (A & B & C); split; [by apply ps2_other_out|by apply pcfg_out]).
  pose proof (kmain_early_spec L R P HP Hi Ho k) as He. destruct (kmain_early L (∅, k)) as [handlers k1].
  destruct He as [(C1 & G1 & D1) Htab]. cbn [fst snd].
  pose proof (kmain_memory_spec L R P HP Hi Ho k1) as (C2 & G2 & D2). set (k2 := kmain_memory L k1) in *.
  destruct D1 as [O1 S1], D2 as [O2 S2].
  destruct (kmain_input_spec fuel handlers k2 (owed (s_dev (k_con k))) Hpolls) as (k3 & E & C3 & G3 & S3); [lia|lia|].
  exists (isr_register 44 kmain_mouse_handler (isr_register 33 kmain_kb_handler handlers)), k3. split; [exact E|]. split; [|split; [|split]].
  - exact (three_handlers handlers _ _ _ Htab).
  - unfold same_cfg in *. congruence.
  - congruence.
  - cbv zeta. rewrite C3, C2. unfold paged, k_mem. by apply core_eq in C1 as (-> & -> & -> & -> & -> & ->).
Qed.

(** From the bus to the screen nothing but the console and the drivers moves. *)
Lemma kmain_to_screen k k1 s : plain_machine k → same_cfg (s_dev (k_con k)) (s_dev (k_con k1)) → k_drv k1 = k_drv k →
  ∃ k2, kmain_disk (kmain_net L (kmain_bus (mount_log (bytes "root") (bytes "/") (with_kfs s k1)))) = Ok k2 ∧
    core (kmain_screen k2) = core (with_kfs s k1).
Proof.
  intros (Hl & Ha & Hx & He & Hp & Hs & _) Hc Hd.
  destruct (klog_moved same_cfg low_port boot_ports_low (λ p d Hp, pcfg_in p d Hp) (λ p v d Hp, pcfg_out p v d Hp)
    "[VFS] Mounted '%s' at %s
" [Str (bytes "root"); Str (bytes "/")] (with_kfs s k1)) as (C1 & G1 & S1).
  change (klog _ _ _) with (mount_log (bytes "root") (bytes "/") (with_kfs s k1)) in C1, G1, S1.
  generalize dependent (mount_log (bytes "root") (bytes "/") (with_kfs s k1)). intros k2 C1 G1 S1.
  change (k_drv (with_kfs s k1)) with (k_drv k1) in G1. change (k_con (with_kfs s k1)) with (k_con k1) in S1.
  unfold same_cfg in *. rewrite Hc in S1. rewrite <- S1 in Hx, He.
  destruct (kmain_bus_spec k2) as (C2 & A2 & F2); [by rewrite G1, Hd|exact Hx|].
  destruct (kmain_net_spec L _ (kmain_bus k2) F2 He) as (C3 & A3).
  destruct (kmain_disk_spec (kmain_net L (kmain_bus k2))) as (k3 & E & C4); [congruence|by apply silent_console..|].
  exists k3. split; [done|]. rewrite kmain_screen_core. congruence.
Qed.

(** What the setup leaves alone. *)
Definition setup_rest k : pmm * mmu * kthreads := (k_pmm k, k_mmu k, k_thr k).
Lemma setup_rest_eq k k' : setup_rest k = setup_rest k' → k_pmm k = k_pmm k' ∧ k_mmu k = k_mmu k' ∧ k_thr k = k_thr k'.
Proof. unfold setup_rest. by intros [= -> -> ->]. Qed.

Lemma setup_steady : steady id setup_rest.
Proof.
  split; [done|]. split; [|done]. intros k. cbn [term_poll kernel_terminal]. unfold take_arrivals.
  destruct (k_arrivals k); by destruct (keyboard_poll _).
Qed.

(** From [sched_init] on, [kmain] is [boot_tail] on the files and the threads. *)
Lemma kmain_from_sched k t line rest2 : represents HEAP_START HEAP_END (k_fs k) t → before_setup (vfs_root (k_fs k)) t →
  link_ok L (sp (cpu (k_thr k))) → typed_lines k line rest2 →
  let last := k1 ← kmain_first_boot L load_fuel fuel (kmain_sched L k); kmain_shell L k1 in
  match boot_tail (H := boot_disk (kmain_sched L k)) L load_fuel line (k_fs k) (k_thr k) with
  | Ok (s, th) => ∃ k', last = Ok k' ∧ k_fs k' = s ∧ k_threads k' = th ∧ typed k' = rest2 ∧ k_pmm k' = k_pmm k ∧ k_mmu k' = k_mmu k
  | Panic m => last = Panic m
  | OutOfFuel => last = OutOfFuel
  end.
Proof.
  intros Hr Hb HL (Hline & Hf & echo & rest & line2 & echo2 & He & Hf2 & He2 & Hline2) last. unfold boot_tail.
  apply link_ok_apart in HL as (Hst & (I1 & I2 & I3) & _).
  set (k1 := kmain_sched L k) in *. set (th := sched_init _ _ _ (with_kheap (fheap (k_fs k)) (k_thr k))).
  assert (k_fs k1 = with_fheap (kheap th) (k_fs k) ∧ k_thr k1 = th ∧ typed k1 = typed k ∧ k_pmm k1 = k_pmm k ∧ k_mmu k1 = k_mmu k)
    as (Ef & Et & Ety & Ep & Ec) by done.
  destruct (sched_init_heap (l_idle_tcb L) (l_idle_stack L) (l_idle_name L) (with_kheap (fheap (k_fs k)) (k_thr k))) as (m & Eh & Hm); [apply Hr|].
  fold th in Eh. assert (represents HEAP_START HEAP_END (k_fs k1) t) as Hr1.
  { rewrite Ef, Eh. apply represents_outside; [done|done|]. intros a Ha. unfold th in Eh.
    pose proof (sched_init_frame a (l_idle_tcb L) (l_idle_stack L) (l_idle_name L) (with_kheap (fheap (k_fs k)) (k_thr k))) as Ea.
    rewrite Eh in Ea. apply Ea. assert (sizeof_thread = 68) as Es by done. lia. }
  assert (vfs_root (k_fs k1) = vfs_root (k_fs k)) as Eroot by (by rewrite Ef). rewrite <- Eroot in Hb.
  unfold last, kmain_first_boot. clearbody th. generalize (boot_disk k1). intros B. rewrite <- Ety in He, Hf.
  destruct (kmain_setup_files load_fuel HEAP_START HEAP_END setup_rest (l_stack L) (l_hostname L) (l_osrel L) id fuel k1 t line echo rest
    line2 echo2 rest2) as (_ & finish & Hfin & E); [done|done|apply setup_steady|done..|].
  cbn [files kernel_files] in E. rewrite Ef in E.
  unfold kernel_fs_code, booted_code in *. rewrite E. destruct (setup_files _ _ _ _) as [s|msg|]; cbn [mbind outcome_bind]; [|done|done].
  destruct (Hfin s) as (F1 & F2 & F3). cbn [files kernel_files] in F1. apply setup_rest_eq in F3 as (F4 & F5 & F6).
  unfold kmain_shell, k_threads. rewrite F1, F6, Et.
  destruct (thread_create _ _ _ _ _) as [[sh th1]|msg|]; cbn [mbind outcome_bind]; [|done|done].
  eexists. split; [reflexivity|]. generalize (sched_yield (sched_add sh th1)) as th2. intros th2.
  split; [cbn; by rewrite F1|]. split; [by destruct th2|]. split; [done|]. split; [etrans; [exact F4|exact Ep]|etrans; [exact F5|exact Ec]].
Qed.
End boot.

(** The statics at power-on, over the memory [m], and the processor [c]. *)
Definition cold_files (m : memory) : fsys := Fsys ∅ ∅ ∅ ∅ ∅ ∅ (Heap ∅ 0 0 m) [] 0.
Definition cold_threads (m : memory) (c : cpu_t) : kthreads := Kthreads ∅ 0 0 0 0 false (Heap ∅ 0 0 m) c.
Definition power_on {D} (d : D) (arrivals : list (list Z)) (m : memory) (c : cpu_t) : kernel D :=
  cold_kernel d arrivals (cold_files m) (cold_threads m c).

Lemma outcome_assoc {A B C} (x : outcome A) (f : A → outcome B) (g : B → outcome C) : (a ← x; b ← f a; g b) = (b ← (a ← x; f a); g b).
Proof. by destruct x. Qed.

Section power_on.
Context `{Uart D} `{!PciBus D} `{!Ps2Controller D} `{!Mmio D} `{NetCore} (L : link) (load_fuel fuel : nat).
Context (d : D) (arrivals : list (list Z)) (m : memory) (c : cpu_t) (line : str) (rest2 : list (option key_event_t)).
Let k : kernel D := power_on d arrivals m c.

(** What the boot is proved for: a plain machine, an image whose regions do not
    overlap and hold their initial bytes, and two lines typed. *)
Definition bootable : Prop :=
  plain_machine fuel k ∧ link_ok L (sp c) ∧ cpu_ok c ∧ mem_ok m ∧
  load_bytes 30 (l_osrel L) m = OS_RELEASE ++ [0] ∧ ld m (l_hostname L + 63) = 0 ∧ typed_lines fuel k line rest2.

(** The state in which the shell's thread begins. *)
Definition booted (k' : kernel D) : Prop :=
  typed k' = rest2 ∧
  (∃ t, represents HEAP_START HEAP_END (k_fs k') t ∧ after_setup (vfs_root (k_fs k')) (chosen line) (OS_RELEASE ++ [0]) t) ∧
  entering (l_trampoline L) (l_shell_run L) 0 (k_threads k') ∧ sched_ok (k_threads k') [l_idle_tcb L] ∧
  tstate (tcb (k_threads k') (current_thread (k_threads k'))) = THREAD_RUNNING ∧
  own_stack HEAP_START HEAP_END (owned (k_fs k')) (k_threads k') (current_thread (k_threads k')) ∧
  k_pmm k' = pmm_init (l_bss_end L) (l_bitmap L) (boot_map m) (Pmm [] 0 0) ∧
  cr3 (k_mmu k') = l_page_dir L ∧ Z.testbit (cr0 (k_mmu k')) 31 = true ∧
  ∀ v, 0 ≤ v < 2 ^ 32 → Vmm32.vmm_phys (l_page_dir L) v (k_vmm k') = if decide (v < 128 * 2 ^ 20) then v else 0.

(** [kmain] on the memory that [vmm_init] leaves, whatever the page frames. *)
Definition paged_memory : memory := pmem (Vmm32.vmm_init (l_page_dir L) (Vmm (Pmm [] 0 0) m (Mmu 0 0 0 ∅))).
Definition boot_heap (disk : fsys → BlockDev) : outcome (fsys * kthreads) :=
  s ← kmain_files (l_version L) (kmain_heap paged_memory);
  boot_tail (H := disk s) L load_fuel line s (cold_threads m c).

(** What [vmm_init] leaves, for any state of the page frames: the translation
    lasts as long as the page directory's bytes. *)
Lemma paged_any (p : pmm) (u : mmu) : l_page_dir L mod 4096 = 0 → mem_ok m → let v := Vmm32.vmm_init (l_page_dir L) (Vmm p m u) in
  pmem v = paged_memory ∧ pages v = p ∧ cr3 (v_mmu v) = l_page_dir L ∧ Z.testbit (cr0 (v_mmu v)) 31 = true ∧
  mem_ok (pmem v) ∧ (∀ a, a < l_page_dir L ∨ l_page_dir L + 4096 ≤ a → ld (pmem v) a = ld m a) ∧
  ∀ w : vmm pmm, region_kept (l_page_dir L, 4096) (pmem v) (pmem w) →
    ∀ a, 0 ≤ a < 2 ^ 32 → Vmm32.vmm_phys (l_page_dir L) a w = if decide (a < 128 * 2 ^ 20) then a else 0.
Proof.
  intros Hpd Hm v. destruct (vmm_init_mem (l_page_dir L) (Vmm p m u)) as [A B]. fold v in A, B.
  split; [done|]. split; [done|]. split; [done|]. split; [unfold v; cbn [v_mmu cr0 Vmm32.vmm_init load_cr]; rewrite Z.lor_spec; apply orb_true_r|].
  split; [by apply B|]. split; [done|]. intros w Hw a Ha. apply phys32_entries; [|done]. intros j Hj.
  rewrite <- (vmm_init_entries (l_page_dir L) (Vmm p m u) j Hpd Hj). unfold index_ok in Hj. apply ld_le_ext. intros b Hb. apply Hw. cbn [fst snd]. lia.
Qed.

Lemma paged_spec : link_ok L (sp c) → mem_ok m → ∃ v, paged L k = v ∧ pmem v = paged_memory ∧
  pages v = pmm_init (l_bss_end L) (l_bitmap L) (boot_map m) (Pmm [] 0 0) ∧ cr3 (v_mmu v) = l_page_dir L ∧ Z.testbit (cr0 (v_mmu v)) 31 = true ∧
  mem_ok (pmem v) ∧ (∀ a, a < l_page_dir L ∨ l_page_dir L + 4096 ≤ a → ld (pmem v) a = ld m a) ∧
  ∀ w : vmm pmm, region_kept (l_page_dir L, 4096) (pmem v) (pmem w) →
    ∀ a, 0 ≤ a < 2 ^ 32 → Vmm32.vmm_phys (l_page_dir L) a w = if decide (a < 128 * 2 ^ 20) then a else 0.
Proof. intros HL Hm. exists (paged L k). split; [reflexivity|]. unfold paged. by apply paged_any; [apply HL|]. Qed.

(** The lines typed are those the keyboard and its arrivals hold. *)
Lemma typed_lines_core (k1 k2 : kernel D) : k_kbd k2 = k_kbd k1 → k_arrivals k2 = k_arrivals k1 →
  typed_lines fuel k1 line rest2 → typed_lines fuel k2 line rest2.
Proof.
  intros E1 E2. unfold typed_lines. change (typed k1) with (polls (k_arrivals k1) (k_kbd k1)).
  change (typed k2) with (polls (k_arrivals k2) (k_kbd k2)). by rewrite E1, E2.
Qed.

(** The statics of the image keep the bytes they had at power-on. *)
Lemma statics_kept m1 : link_ok L (sp c) →
  (∀ a, a < l_page_dir L ∨ l_page_dir L + 4096 ≤ a → a < HEAP_START ∨ HEAP_START + HEAP_SIZE ≤ a → ld m1 a = ld m a) →
  load_bytes 30 (l_osrel L) m = OS_RELEASE ++ [0] → ld m (l_hostname L + 63) = 0 →
  load_bytes 30 (l_osrel L) m1 = OS_RELEASE ++ [0] ∧ ld m1 (l_hostname L + 63) = 0.
Proof.
  intros HL Hlow Hrel H63.
  pose proof (link_ok_apart L (sp c) HL) as ((S1 & S2 & S3 & S4 & S5) & _ & _ & _ & _ & P0 & _ & P1 & P2 & P3 & V1 & V2).
  unfold region_apart, HEAP_END in *. cbn [fst snd] in *. rewrite <- Hrel, <- H63.
  split; [apply load_bytes_ext; intros a Ha|]; apply Hlow; lia.
Qed.

Lemma typed_length (k1 : kernel D) : typed_lines fuel k1 line rest2 → (length line ≤ 63)%nat.
Proof. intros (_ & _ & echo & rest & line2 & echo2 & He & _). pose proof (edit_limit _ _ _ _ _ _ He ltac:(done)). lia. Qed.

Lemma kmain_boot_heap : bootable → ∃ disk, match boot_heap disk with
  | Ok (s, th) => ∃ handlers k', kmain L load_fuel fuel (∅, k) = Ok (handlers, k') ∧ boot_table handlers ∧ booted k' ∧ k_fs k' = s ∧ k_threads k' = th
  | x => x = oom ∧ kmain L load_fuel fuel (∅, k) = oom
  end.
Proof.
  intros (Hplain & HL & Hcpu & Hm & Hrel & H63 & Hty).
  destruct (kmain_to_root L fuel k Hplain) as (handlers & k1 & E1 & Htab & Hcfg & Hdrv & Hcore).
  unfold kmain, boot_heap. destruct (kmain_early L (∅, k)) as [h0 k0]. cbn [fst snd] in E1. rewrite E1. cbn [mbind outcome_bind]. clear E1 k0.
  destruct (paged_spec HL Hm) as (v & Ev & Em & Hpm & Hcr3 & Hcr0 & Hm1 & Hmf & Hpage). cbv zeta in Hcore. rewrite Ev in *. clear Ev. rewrite <- Em. clear Em.
  apply (core_eq (Kern (k_con k) (k_kbd k) (k_arrivals k) (k_mouse k) (k_pit k) (k_gdt k) (k_idt k) (pages v) (v_mmu v)
    (kmain_heap (pmem v)) (k_thr k) (k_drv k)) k1) in Hcore as (F1 & F2 & F3 & F4 & F5 & F6).
  cbn [k_kbd k_arrivals k_pmm k_mmu k_fs k_thr] in F1, F2, F3, F4, F5, F6.
  exists (λ s, boot_disk (kmain_sched L (kmain_screen
    match kmain_disk (kmain_net L (kmain_bus (mount_log (bytes "root") (bytes "/") (with_kfs s k1)))) with Ok k2 => k2 | _ => k1 end))).
  unfold kmain_root.
  rewrite F5. pose proof (link_ok_apart L (sp c) HL) as ((S1 & S2 & S3 & S4 & S5) & _ & _ & _ & _ & P0 & _ & P1 & P2 & P3 & V1 & V2).
  destruct (kmain_heap_ok (pmem v) Hm1) as [Hok Hto].
  pose proof (kmain_files_spec HEAP_START HEAP_END (l_version L) (kmain_heap (pmem v)) Hok Hto ltac:(lia) ltac:(left; lia)) as Hfiles.
  unfold HEAP_END in Hfiles.
  revert Hfiles. generalize (kmain_files (l_version L) (kmain_heap (pmem v))) as x. intros x Hfiles.
  destruct x as [s|msg|].
  2: { cbn [or_oom] in Hfiles. cbn [mbind outcome_bind]. injection Hfiles as ->. split; reflexivity. }
  2: { discriminate Hfiles. }
  cbn [or_oom] in Hfiles. cbn [mbind outcome_bind].
  destruct Hfiles as (t & Hr & Hout & Hb).
  destruct (kmain_to_screen L fuel k k1 s Hplain Hcfg Hdrv) as (k2 & E2 & C2). rewrite E2. cbn [mbind outcome_bind].
  apply core_eq in C2 as (G1 & G2 & G3 & G4 & G5 & G6). cbn [k_fs k_thr k_pmm k_mmu k_kbd k_arrivals with_kfs] in G1, G2, G3, G4, G5, G6.
  rewrite F6 in G6. change (k_thr k) with (cold_threads m c) in G6.
  assert (typed_lines fuel (kmain_screen k2) line rest2) as Hty2 by (apply (typed_lines_core k); [congruence..|exact Hty]).
  generalize dependent (kmain_screen k2). intros k3 G1 G2 G3 G4 G5 G6 Hty2.
  rewrite <- G5 in Hr, Hb.
  pose proof (kmain_from_sched L load_fuel fuel k3 t line rest2 Hr Hb) as Hlast. rewrite G6 in Hlast. specialize (Hlast HL Hty2).
  rewrite G5 in *. cbv zeta in Hlast.
  assert (∀ a, a < l_page_dir L ∨ l_page_dir L + 4096 ≤ a → a < HEAP_START ∨ HEAP_START + HEAP_SIZE ≤ a → ld (mem (fheap s)) a = ld m a) as Hlow.
  { intros a Ha Hh. rewrite (Hout a) by lia. by apply Hmf. }
  destruct (statics_kept _ HL Hlow Hrel H63) as [Hrel' H63'].
  pose proof (typed_length _ Hty) as Hlen. pose proof (proj1 Hty) as Hline.
  pose proof (boot_tail_spec (H := boot_disk (kmain_sched L k3)) L load_fuel line s (cold_threads m c) t Hr Hb HL) as Htail.
  cbn [mbind outcome_bind]. rewrite (outcome_assoc (kmain_first_boot L load_fuel fuel (kmain_sched L k3)) (kmain_shell L)).
  destruct (boot_tail _ _ _ _ _) as [[s' th]|msg|].
  2: { specialize (Htail Hrel' H63' Hlen Hline eq_refl Hcpu). rewrite Hlast. cbn [or_oom mbind outcome_bind] in *. injection Htail as ->. split; reflexivity. }
  2: { specialize (Htail Hrel' H63' Hlen Hline eq_refl Hcpu). discriminate Htail. }
  specialize (Htail Hrel' H63' Hlen Hline eq_refl Hcpu). cbn [or_oom] in Htail.
  destruct Hlast as (k' & E & L1 & L2 & L3 & L4 & L5). destruct Htail as (Hfs & Hent & Hsok & Hrun & Hown & Eh & Hkept).
  rewrite E. exists handlers, k'. split; [reflexivity|]. split; [exact Htab|]. split; [|by split].
  unfold booted. rewrite L1, L2, L3, L4, L5, G3, G4, F3, F4. cbn [fst snd].
  split; [reflexivity|]. split; [exact Hfs|]. split; [exact Hent|]. split; [exact Hsok|]. split; [exact Hrun|]. split; [exact Hown|].
  split; [exact Hpm|]. split; [exact Hcr3|]. split; [exact Hcr0|]. apply Hpage. intros a Ha. cbn [fst snd] in Ha.
  unfold k_vmm, k_mem. cbn [pmem]. rewrite L1, (Hkept a) by done. apply Hout. lia.
Qed.
End power_on.


(** ** The idle loop *)

Section idle.
Context `{Uart D} `{!Mmio D} `{NetCore} (L : link) (handlers : gmap Z (isr_frame_t → kernel D → outcome (kernel D))).
Implicit Types k : kernel D.

(** While the idle thread runs: a turn of its loop, an interrupt of any vector,
    scan codes arriving, the machine moving by itself. *)
Inductive idle_step : kernel D → kernel D → Prop :=
  | idle_poll fuel k k' : kmain_idle L fuel k = Ok k' → idle_step k k'
  | idle_interrupt f k k' : isr_dispatch handlers f k = Ok k' → idle_step k k'
  | idle_arrive l k : idle_step k (with_keys (k_kbd k) l k)
  | idle_machine d k : idle_step k (with_con (with_dev d (k_con k)) k).

Lemma idle_step_threads k k' : boot_table handlers → idle_step k k' → k_thr k' = k_thr k.
Proof.
  intros Ht. destruct 1 as [fuel k k' E|f k k' E|l k|d k]; [| |done..].
  - unfold kmain_idle in E. destruct (net_poll _ _ _) as [n|?|]; cbn [mbind outcome_bind] in E; [|done|done]. by injection E as <-.
  - unfold isr_dispatch in E. cbv zeta in E. rewrite Ht in E.
    assert (∀ i k, k_thr (pic_send_eoi i k) = k_thr k) as Heoi by (intros i k0; unfold pic_send_eoi; by destruct (8 <=? i)).
    match type of E with (?x ≫= _) = _ => assert (∀ k1, x = Ok k1 → k_thr k1 = k_thr k) as Hh; [|destruct x as [k1|?|]] end.
    + intros k1. repeat case_test; unfold pit_irq_handler, kmain_kb_handler, kmain_mouse_handler.
      * by intros [= <-].
      * destruct (kb_handler _) as [x c]. by intros [= <-].
      * destruct (mouse_handler _) as [x c]. by intros [= <-].
      * done.
      * by intros [= <-].
    + cbn [mbind outcome_bind] in E. injection E as <-. destruct ((32 <=? int_no f) && (int_no f <? 48)); [etrans; [apply Heoi|by apply Hh]|by apply Hh].
    + done.
    + done.
Qed.

(** What the scheduler sees does not depend on the heap. *)
Lemma sched_ok_kheap h th q : sched_ok th q → sched_ok (with_kheap h th) q.
Proof. done. Qed.
End idle.

(** C35: the first time the shell finds no key it never runs again.  With the
    idle thread alone in the run queue, as [kmain] leaves it, the shell's
    [sched_yield] hands the processor to the idle thread, whose loop does not
    yield; whatever packets it polls, whichever interrupts come and whatever keys
    are pressed then, the idle thread stays the current one, with the shell ready
    and first in the queue. *)
Theorem shell_never_resumes `{Uart D} `{!Mmio D} `{NetCore} (L : link)
    (handlers : gmap Z (isr_frame_t → kernel D → outcome (kernel D))) (k k' : kernel D) (idle : Z) :
  boot_table handlers → sched_ok (k_threads k) [idle] →
  let sh := current_thread (k_threads k) in tstate (tcb (k_threads k) sh) = THREAD_RUNNING →
  rtc (idle_step L handlers) (with_threads (sched_yield (k_threads k)) k) k' →
  current_thread (k_threads k') = idle ∧ sh ≠ idle ∧ sched_ok (k_threads k') [sh] ∧ tstate (tcb (k_threads k') sh) = THREAD_READY.
Proof.
  intros Ht Hok sh Hrun Hsteps. set (k1 := with_threads _ k) in Hsteps.
  assert (k_thr k' = k_thr k1) as Hthr.
  { clear Hok Hrun. clearbody k1. induction Hsteps as [|a b c Hab _ IH]; [done|]. rewrite IH. by apply (idle_step_threads L handlers). }
  clear Hsteps. destruct (sched_yield_spec (k_threads k) idle [] Hok) as (A & B & C & _). fold sh in A.
  rewrite Hrun, bool_decide_eq_true_2 in A by done. cbn [app] in A.
  assert (k_threads k' = with_kheap (fheap (k_fs k')) (sched_yield (k_threads k))) as -> by (unfold k_threads; by rewrite Hthr).
  pose proof A as (_ & Hready & _). split; [exact B|]. split; [|split; [by apply sched_ok_kheap|apply Hready; set_solver]].
  intros E. destruct Hok as (_ & _ & _ & Hni & _). apply Hni. fold sh. rewrite E. set_solver.
Qed.

(** ** A machine to boot *)

(** Behind the other ports of [i8042] nothing answers: a serial port that is
    always ready, an empty bus, no drive. *)
#[export] Program Instance i8042_uart : Uart i8042 := {| uart_polls := 1 |}.
Next Obligation. intros c. by exists c. Qed.
#[export] Program Instance i8042_bus : PciBus i8042 := {| pcfg _ _ := 0xFFFFFFFF |}.
Next Obligation. done. Qed.
Next Obligation. done. Qed.
Next Obligation. done. Qed.
Next Obligation. done. Qed.
#[export] Instance i8042_mmio : Mmio i8042 := {| mmio_rd _ c := (0, c); mmio_wr _ _ c := c |}.

Definition demo_link : link := {|
  l_stubs i := 0x100000 + 16 * i; l_bss_end := 0x310000; l_bitmap := 0x2F0000; l_page_dir := 0x2E0000; l_rx_reply := 0x2D0000; l_ann := 0x2D1000;
  l_version := 0x200100; l_hostname := 0x200200; l_osrel := 0x200000; l_idle_tcb := 0x200300; l_idle_stack := 0x210000; l_idle_name := 0x200400;
  l_trampoline := 0x101000; l_shell_name := 0x200410; l_shell_run := 0x102000; l_stack := []
|}.

(** The keys of "box", Enter, Enter and L, each pressed before a poll. *)
Definition demo_arrivals : list (list Z) := [[0x30]; [0x18]; [0x2D]; [0x1C]; [0x1C]; [0x26]].
Definition demo_cpu : cpu_t := Cpu [0; 0; 0; 0] 0x90000 0.

(** The events the polls return. *)
Definition demo_events : list (option key_event_t) := polls demo_arrivals keyboard_0.

Lemma demo_plain : plain_machine 100 (power_on (I8042 [] 0 None) demo_arrivals boot_memory demo_cpu).
Proof.
  split; [reflexivity|]. split; [reflexivity|]. split; [vm_compute; reflexivity|]. split; [vm_compute; reflexivity|].
  split; [by right|]. split; [by right|]. cbn. lia.
Qed.

Lemma demo_bootable : bootable demo_link 100 (I8042 [] 0 None) demo_arrivals boot_memory demo_cpu (bytes "box") (drop 5 demo_events).
Proof.
  split; [apply demo_plain|]. split; [|split; [|split; [apply boot_memory_ok|split; [vm_compute; reflexivity|split; [vm_compute; reflexivity|]]]]].
  - split; [|split; [|split; [reflexivity|cbn; lia]]].
    + unfold image_regions. repeat (apply Forall_cons_2; [vm_compute; split; [reflexivity|discriminate]|]). apply Forall_nil_2.
    + unfold image_regions. repeat (apply FOP_cons; [repeat (apply Forall_cons_2; [vm_compute; first [left; discriminate|right; discriminate]|]); apply Forall_nil_2|]). apply FOP_nil.
  - split; [reflexivity|]. split; [repeat (apply Forall_cons_2; [cbn; lia|]); apply Forall_nil_2|]. vm_compute. split; [discriminate|reflexivity].
  - split; [repeat (apply Forall_cons_2; [vm_compute; split; reflexivity|]); apply Forall_nil_2|]. split; [apply Nat.leb_le; vm_compute; reflexivity|].
    exists (bytes "box" ++ [10]), (drop 4 demo_events), [], [10].
    split; [vm_compute; reflexivity|]. split; [apply Nat.leb_le; vm_compute; reflexivity|]. split; [vm_compute; reflexivity|]. apply Forall_nil_2.
Qed.


(** The shell of the booted kernel. *)
Lemma shell_never_resumes_witness : ∃ handlers k',
  kmain (H1 := rust_core) demo_link 0 100 (∅, power_on (I8042 [] 0 None) demo_arrivals boot_memory demo_cpu) = Ok (handlers, k') ∧
  ∀ k2, rtc (idle_step (H1 := rust_core) demo_link handlers) (with_threads (sched_yield (k_threads k')) k') k2 →
    current_thread (k_threads k2) = 0x200300.
Proof.
  destruct (kmain_boot_heap (H1 := rust_core) demo_link 0 100 (I8042 [] 0 None) demo_arrivals boot_memory demo_cpu (bytes "box") (drop 5 demo_events) demo_bootable)
    as (disk & Hd).
  assert (match boot_heap demo_link 0 boot_memory demo_cpu (bytes "box") disk with Ok _ => true | _ => false end = true) as Hok by (vm_compute; reflexivity).
  destruct (boot_heap _ _ _ _ _ disk) as [[s th]|?|]; [|discriminate Hok|discriminate Hok].
  destruct Hd as (handlers & k' & E & Ht & (_ & _ & _ & Hs & Hr & _) & _). exists handlers, k'. split; [exact E|].
  intros k2 Hsteps. exact (proj1 (shell_never_resumes (H1 := rust_core) demo_link handlers k' k2 0x200300 Ht Hs Hr Hsteps)).
Defined.
