(* ===== verification/Session.v ===== *)
(** The shell on the kernel that [kmain] has booted: the last of the
    interfaces of Shell.v, and a session from power-on to the first command.

    The shell's stack is in the kernel's heap, and so is the buffer [cmd_cat]
    reads the file into. *)
From S2P Require Import Prelude CString Heap Alloc Pmm Vmm Vfs Tmpfs Fat32 Fs Tree Thread Sched Ports Interrupts Printf Input Ps2 Console Pci Usb Ata NetStack Net Shell Setup Machine Kmain Boot Booted.

#[local] Existing Instance boot_arch.

(** ** What the shell asks of the kernel *)

Section kernel_shell.
Context `{Uart D} `{!Mmio D} `{NetCore} (L : link) (net_fuel : nat).
Implicit Types k : kernel D.

(** [thread_current()], the members of the control block that [ps] prints. *)
Definition kernel_current k : option (Z * str) :=
  let t := current_thread (k_thr k) in
  if t =? 0 then None else Some (tid (tcb (k_thr k) t), until_nul (load_bytes THREAD_NAME_LEN (t + 4) (k_mem k))).

(** [sched_yield_] is the state in which another thread has the processor; that
    the shell goes on from there is true only while there is no other thread. *)
#[local] Instance kernel_shell : ShellKernel (kernel D) := {|
  sched_yield_ k := with_threads (sched_yield (k_threads k)) k;
  thread_current_ := kernel_current;
  pmm_total_ k := pmm_total (k_pmm k); pmm_used_ k := pmm_used (k_pmm k); pmm_available_ k := pmm_available (k_pmm k);
  pit_ticks_ k := pit_ticks (k_pit k);
  net_up_ k := net_up (k_net k); net_get_mac_ k := net_get_mac (k_net k); net_our_ip_ k := net_our_ip (k_net k);
  net_poll_ k := match net_poll (l_rx_reply L) net_fuel (k_net k) with Ok n => with_net n k | _ => k end;
  outb_ p v k := outb p v k
|}.
#[local] Program Instance kernel_shell_view : ShellView (kernel D).
Next Obligation. done. Qed.
Next Obligation. done. Qed.

(** No terminal operation touches the files or the threads. *)
Definition files_threads k : fsys * kthreads := (k_fs k, k_thr k).
Lemma files_threads_quiet : quiet files_threads.
Proof.
  split; [done|]. split; [done|]. split; [done|]. split; [done|]. intros k. cbn [term_poll kernel_terminal]. unfold take_arrivals.
  destruct (k_arrivals k); by destruct (keyboard_poll _).
Qed.
Lemma threads_quiet : quiet k_thr.
Proof.
  split; [done|]. split; [done|]. split; [done|]. split; [done|]. intros k. exact (f_equal snd (proj2 (proj2 (proj2 (proj2 files_threads_quiet))) k)).
Qed.

(** ** A command on the booted kernel *)

(** What [cat] leaves of a tree. *)
Lemma scratch_tree s s' t chunk : represents HEAP_START HEAP_END s t → clear_of s chunk 64 → scratch chunk s s' → represents HEAP_START HEAP_END s' t.
Proof.
  intros Hr Ha (m & -> & Hm & Hk). pose proof Hr as ((_ & Hsep & _) & _). apply represents_heap; [done| |].
  - by apply sep_with_mem.
  - by eapply clear_kept.
Qed.

(** The buffer on a thread's own stack is not the file system's. *)
Lemma own_stack_clear s th t chunk : own_stack HEAP_START HEAP_END (owned s) th t →
  stack (tcb th t) ≤ chunk → chunk + 64 ≤ stack (tcb th t) + THREAD_STACK_SIZE → clear_of s chunk 64.
Proof. intros (_ & _ & Ho) A B o p n E Hn. destruct (Ho o p n E Hn); lia. Qed.

Definition GREETING : list Z := bytes "
Aerogel shell. Type 'help' for commands.
".
Definition cat_hostname : str := bytes "cat /etc/hostname".

Section command.
Context `{BlockDev} (load_fuel fuel : nat) (stack_ : str) (chunk : Z).
#[local] Instance session_code : FsCode := kernel_fs_code load_fuel.

Lemma cat_hostname_shown k t nm rel echo rest :
  represents HEAP_START HEAP_END (k_fs k) t → after_setup (vfs_root (k_fs k)) nm rel t → clear_of (k_fs k) chunk 64 →
  Forall (λ c, c ≠ 0) nm → Z.of_nat (length nm) ≤ 63 →
  edit 255 [] (typed k) = Some (cat_hostname, echo, rest) → ahead (typed k) rest → (length (typed k) ≤ fuel)%nat → (2 ≤ fuel)%nat →
  ∃ s2 k2, shell_run stack_ chunk 1 fuel (Shell [] 0 []) k = Ok (false, (s2, k2)) ∧
    shown k2 = shown k ++ GREETING ++ bytes "aerogel> " ++ echo ++ nm ∧ typed k2 = rest ∧
    k_thr k2 = k_thr k ∧ vfs_root (k_fs k2) = vfs_root (k_fs k) ∧ represents HEAP_START HEAP_END (k_fs k2) t.
Proof.
  intros Hr Ha Hap Hnz Hlen He Hahead Hf Hfuel. unfold shell_run.
  set (k0 := klog _ [] (term_color VGA_LIGHT_GRAY VGA_BLACK k)).
  assert (typed k0 = typed k ∧ shown k0 = shown k ++ GREETING ∧ files_threads k0 = files_threads k) as (Et & Es & Eq).
  { unfold k0. rewrite klog_typed, color_typed, klog_shown, color_shown. done. }
  clearbody k0. rewrite <- Et in He, Hahead, Hf. cbn [shell_loop].
  assert (Forall (λ c, c ≠ 0) cat_hostname) as Hc by (apply (bool_decide_unpack _); by vm_compute).
  destruct (shell_turn_dispatch stack_ chunk fuel (Shell [] 0 []) k0 cat_hostname echo rest He Hf Hc)
    as (s' & k1 & Ht1 & Hs1 & _ & _ & _ & _ & -> & Hq).
  pose proof (Hq Hahead _ files_threads files_threads_quiet) as E1. rewrite Eq in E1. injection E1 as Efs Eth. clear Hq Eq.
  replace (take 16 (words cat_hostname)) with [bytes "cat"; bytes "/etc/hostname"] by (vm_compute; reflexivity).
  rewrite <- Efs in Hr, Ha, Hap.
  destruct (after_setup_open load_fuel HEAP_START HEAP_END stack_ (k_fs k1) t _ nm rel Hr eq_refl Ha) as (n & Eo & Hn & En).
  pose proof Hr as (Hok & _ & Ho & _). destruct (Ho n _ En) as (y & x & Ey & Hfl & _ & Hcl & Hrd & Ex & El).
  assert (shows_file HEAP_START HEAP_END n y x nm (k_fs k1)) as Hfile by done.
  destruct (shows_length _ _ _ _ _ _ _ Hfile) as [Hl _].
  destruct (shell_cat_prints load_fuel fuel HEAP_START HEAP_END stack_ (bytes "/etc/hostname") chunk n y x nm k1) as [Hcat _];
    [exact Eo|exact Hcl|exact Hap|lia|].
  destruct Hcat as (k2 & Ecat & Hs2 & Ht2 & Hsc); [done|lia|exact Hnz|by rewrite Hfl|].
  exists s', k2. split.
  { change (dispatch stack_ chunk fuel [bytes "cat"; bytes "/etc/hostname"] k1) with
      (d ← cmd_cat stack_ chunk fuel (Some (bytes "/etc/hostname")) k1; Ok (false, d)).
    unfold session_code. rewrite Ecat. reflexivity. }
  split; [rewrite Hs2, Hs1, Es, <- !app_assoc; done|]. split; [by rewrite Ht2|]. split; [|split].
  - rewrite (cmd_cat_quiet load_fuel stack_ chunk k_thr fuel (Some (bytes "/etc/hostname")) k1 k2 threads_quiet); [exact Eth|done|exact Ecat].
  - rewrite <- Efs. by destruct Hsc as (m & E & _); cbn [files kernel_files] in E; rewrite E.
  - by eapply scratch_tree.
Qed.
End command.
End kernel_shell.

(** ** From power-on to the first command *)


(** The keys of "box", Enter, Enter, and "cat /etc/hostname", Enter. *)
Definition session_arrivals : list (list Z) := take 5 demo_arrivals ++
  ((λ c, [c]) <$> [0x2E; 0x1E; 0x14; 0x39; 0x35; 0x12; 0x14; 0x2E; 0x35; 0x23; 0x18; 0x1F; 0x14; 0x31; 0x1E; 0x32; 0x12; 0x1C]).
Definition session_events : list (option key_event_t) := drop 5 (polls session_arrivals keyboard_0).

Lemma session_bootable : bootable demo_link 100 (I8042 [] 0 None) session_arrivals boot_memory demo_cpu (bytes "box") session_events.
Proof.
  pose proof demo_bootable as (_ & Hl & Hc & Hm & Hr & H63 & _). split; [|split; [exact Hl|split; [exact Hc|split; [exact Hm|split; [exact Hr|split; [exact H63|]]]]]].
  - split; [reflexivity|]. split; [reflexivity|]. split; [vm_compute; reflexivity|]. split; [vm_compute; reflexivity|].
    split; [by right|]. split; [by right|]. cbn. lia.
  - split; [repeat (apply Forall_cons_2; [vm_compute; split; reflexivity|]); apply Forall_nil_2|]. split; [apply Nat.leb_le; vm_compute; reflexivity|].
    exists (bytes "box" ++ [10]), (drop 4 (polls session_arrivals keyboard_0)), [], [10].
    split; [vm_compute; reflexivity|]. split; [apply Nat.leb_le; vm_compute; reflexivity|]. split; [vm_compute; reflexivity|]. apply Forall_nil_2.
Qed.

(** The shell of that kernel, for one command. *)
Definition session_run (k' : kernel i8042) (chunk : Z) : outcome (bool * (shell * kernel i8042)) :=
  shell_run (H := boot_arch) (H3 := kernel_shell (H1 := rust_core) demo_link 0) (H4 := let _ : BlockDev := boot_disk k' in kernel_fs_code 0) [] chunk 1 100 (Shell [] 0 []) k'.

